(** * DFTL (hw/femu/bbssd/dftl.c): a shallow embedding and its properties

    The flash translation layer of [dftl.c] is embedded function by function.
    The device context [struct ssd] becomes the record [ssd]; every C array
    becomes a finite map whose domain is the set of allocated indices, so that
    an access outside the allocation is visible as a fault; every function that
    mutates the context takes the context and returns the new one.

    [ftl_assert] expands to nothing unless [FEMU_DEBUG_FTL] is defined, and the
    definition at the top of [dftl.c] is commented out: assertions are not part
    of the behaviour embedded here. *)

From stdpp Require Import base decidable numbers option list list_numbers gmap fin_maps.
From Stdlib Require Import ZArith Lia.

Local Open Scope Z_scope.

(** ** Faults and results *)

(** What C leaves undefined or fatal: an index outside an allocated array, a
    dereference of [NULL], and [abort()]. [OutOfFuel] is not a behaviour of
    the program: it marks a run of the one unbounded loop ([while] in
    [ssd_write]) that was cut after the given number of iterations. *)
Inductive fault : Type :=
  | OutOfBounds
  | NullPointer
  | Aborted
  | OutOfFuel.

Inductive result (A : Type) : Type :=
  | Ok (a : A)
  | Err (e : fault).
Arguments Ok {A} a.
Arguments Err {A} e.

#[global] Instance result_ret : MRet result := fun _ a => Ok a.
#[global] Instance result_bind : MBind result :=
  fun _ _ k r => match r with Ok a => k a | Err e => Err e end.

Definition of_option {A} (e : fault) (o : option A) : result A :=
  match o with Some a => Ok a | None => Err e end.

(** [a[i]] as an rvalue and [a[i] = v] on an array held as a finite map. *)
Definition arr_get `{Countable K} {V} (a : gmap K V) (i : K) : result V :=
  of_option OutOfBounds (a !! i).

Definition arr_set `{Countable K} {V} (a : gmap K V) (i : K) (v : V) : result (gmap K V) :=
  match a !! i with
  | Some _ => Ok (<[i := v]> a)
  | None => Err OutOfBounds
  end.

(** An array of [n] cells all holding [v]. *)
Definition arr_init {V} (n : Z) (v : V) : gmap Z V :=
  list_to_map ((fun i => (i, v)) <$> seqZ 0 n).

(** Unsigned 64-bit wrap-around. *)
Definition wrap64 (x : Z) : Z := x mod 2 ^ 64.

(** ** Constants of the header *)

Definition INVALID_LPN : Z := 2 ^ 64 - 1.

(** [UNMAPPED_PPA] stored into a [uint64_t], as in [cmt_entry->ppn]. *)
Definition UNMAPPED_PPN : Z := 2 ^ 64 - 1.

(** ** Physical page address *)

(** [struct ppa] is a union of a 64-bit word with the bit-fields
    [blk:16, pg:16, sec:8, pl:8, lun:8, ch:7, rsv:1]. The record keeps the
    bit-fields; the word view is only ever compared with [UNMAPPED_PPA] or
    zeroed, and two words are equal exactly when all their bit-fields are. *)
Record ppa : Type := mkppa {
  g_blk : Z;
  g_pg : Z;
  g_sec : Z;
  g_pl : Z;
  g_lun : Z;
  g_ch : Z;
  g_rsv : Z
}.

#[global] Instance ppa_eq_dec : EqDecision ppa.
Proof. solve_decision. Defined.

(** All 64 bits set. *)
Definition UNMAPPED_PPA : ppa :=
  {| g_blk := 65535; g_pg := 65535; g_sec := 255; g_pl := 255;
     g_lun := 255; g_ch := 127; g_rsv := 1 |}.

(** [ppa.ppa = 0] followed by the assignments of [ch], [lun], [pg], [blk],
    [pl]: every assignment to a bit-field keeps the low bits only. *)
Definition new_ppa (ch lun pg blk pl : Z) : ppa :=
  {| g_blk := blk mod 2 ^ 16; g_pg := pg mod 2 ^ 16; g_sec := 0;
     g_pl := pl mod 2 ^ 8; g_lun := lun mod 2 ^ 8; g_ch := ch mod 2 ^ 7;
     g_rsv := 0 |}.

Definition set_g_pg (p : ppa) (pg : Z) : ppa :=
  {| g_blk := g_blk p; g_pg := pg mod 2 ^ 16; g_sec := g_sec p;
     g_pl := g_pl p; g_lun := g_lun p; g_ch := g_ch p; g_rsv := g_rsv p |}.

(** [ppa.g.ch = ch; ppa.g.lun = lun; ppa.g.pl = pl]. *)
Definition set_g_ch_lun_pl (p : ppa) (ch lun pl : Z) : ppa :=
  {| g_blk := g_blk p; g_pg := g_pg p; g_sec := g_sec p;
     g_pl := pl mod 2 ^ 8; g_lun := lun mod 2 ^ 8; g_ch := ch mod 2 ^ 7;
     g_rsv := g_rsv p |}.

Definition mapped_ppa (p : ppa) : bool := negb (bool_decide (p = UNMAPPED_PPA)).

(** ** Parameters *)

Record ssdparams : Type := mkparams {
  secs_per_pg : Z;
  pgs_per_blk : Z;
  blks_per_pl : Z;
  pls_per_lun : Z;
  luns_per_ch : Z;
  nchs : Z;
  pg_rd_lat : Z;
  pg_wr_lat : Z;
  blk_er_lat : Z;
  pgs_per_pl : Z;
  pgs_per_lun : Z;
  pgs_per_ch : Z;
  tt_pgs : Z;
  blks_per_lun : Z;
  blks_per_ch : Z;
  tt_blks : Z;
  tt_luns : Z;
  blks_per_line : Z;
  pgs_per_line : Z;
  tt_lines : Z;
  gc_thres_lines : Z;
  gc_thres_lines_high : Z;
  enable_gc_delay : bool;
  ents_per_pg : Z;
  tt_gtd_size : Z;
  tt_cmt_size : Z
}.

(** The literals that [ssd_init_params] assigns before it derives the rest.
    The three latencies are the header's [NAND_READ_LATENCY],
    [NAND_PROG_LATENCY] and [NAND_ERASE_LATENCY]; the two thresholds are the
    truncated products [(int)((1 - gc_thres_pcent) * tt_lines)] and
    [(int)((1 - gc_thres_pcent_high) * tt_lines)]. *)
Record nand_consts : Type := mkconsts {
  c_secs_per_pg : Z;
  c_pgs_per_blk : Z;
  c_blks_per_pl : Z;
  c_pls_per_lun : Z;
  c_luns_per_ch : Z;
  c_nchs : Z;
  c_pg_rd_lat : Z;
  c_pg_wr_lat : Z;
  c_blk_er_lat : Z;
  c_gc_thres_lines : Z;
  c_gc_thres_lines_high : Z;
  c_ents_per_pg : Z
}.

Definition ssd_init_params_from (c : nand_consts) : ssdparams :=
  let pgs_per_pl := c_pgs_per_blk c * c_blks_per_pl c in
  let pgs_per_lun := pgs_per_pl * c_pls_per_lun c in
  let pgs_per_ch := pgs_per_lun * c_luns_per_ch c in
  let tt_pgs := pgs_per_ch * c_nchs c in
  let blks_per_lun := c_blks_per_pl c * c_pls_per_lun c in
  let blks_per_ch := blks_per_lun * c_luns_per_ch c in
  let tt_blks := blks_per_ch * c_nchs c in
  let tt_luns := c_luns_per_ch c * c_nchs c in
  let blks_per_line := tt_luns in
  {| secs_per_pg := c_secs_per_pg c;
     pgs_per_blk := c_pgs_per_blk c;
     blks_per_pl := c_blks_per_pl c;
     pls_per_lun := c_pls_per_lun c;
     luns_per_ch := c_luns_per_ch c;
     nchs := c_nchs c;
     pg_rd_lat := c_pg_rd_lat c;
     pg_wr_lat := c_pg_wr_lat c;
     blk_er_lat := c_blk_er_lat c;
     pgs_per_pl := pgs_per_pl;
     pgs_per_lun := pgs_per_lun;
     pgs_per_ch := pgs_per_ch;
     tt_pgs := tt_pgs;
     blks_per_lun := blks_per_lun;
     blks_per_ch := blks_per_ch;
     tt_blks := tt_blks;
     tt_luns := tt_luns;
     blks_per_line := blks_per_line;
     pgs_per_line := blks_per_line * c_pgs_per_blk c;
     tt_lines := blks_per_lun;
     gc_thres_lines := c_gc_thres_lines c;
     gc_thres_lines_high := c_gc_thres_lines_high c;
     enable_gc_delay := true;
     ents_per_pg := c_ents_per_pg c;
     tt_gtd_size := tt_pgs / c_ents_per_pg c;
     tt_cmt_size := tt_blks / 2 |}.

(** The literals of [ssd_init_params]: 8 channels of 8 LUNs of 1 plane of
    256 blocks of 256 pages of 8 sectors; 0.25 * 256 = 64 and
    (1 - 0.95) * 256 truncates to 12. *)
Definition default_consts (rd wr er : Z) : nand_consts :=
  {| c_secs_per_pg := 8; c_pgs_per_blk := 256; c_blks_per_pl := 256;
     c_pls_per_lun := 1; c_luns_per_ch := 8; c_nchs := 8;
     c_pg_rd_lat := rd; c_pg_wr_lat := wr; c_blk_er_lat := er;
     c_gc_thres_lines := 64; c_gc_thres_lines_high := 12;
     c_ents_per_pg := 512 |}.

(** ** The NAND array, lines, write pointers, CMT *)

Inductive pg_status : Type := PG_FREE | PG_INVALID | PG_VALID.

#[global] Instance pg_status_eq_dec : EqDecision pg_status.
Proof. solve_decision. Defined.

(** [struct nand_block] without its page array, which is [pgs] below. *)
Record nand_block : Type := mkblk {
  b_ipc : Z;
  b_vpc : Z;
  b_erase_cnt : Z
}.

Record nand_lun : Type := mklun {
  next_lun_avail_time : Z;
  gc_endtime : Z
}.

Inductive line_type : Type := NONE | DATA | TRANS.

#[global] Instance line_type_eq_dec : EqDecision line_type.
Proof. solve_decision. Defined.

(** [struct line]; the list linkage [entry] is the position in
    [free_line_list] or [full_line_list]. *)
Record line : Type := mkline {
  l_id : Z;
  l_ipc : Z;
  l_vpc : Z;
  l_pos : Z;
  l_type : line_type
}.

(** Lines are referred to by their index in [lm.lines]; a [struct line *] is
    that index, [NULL] is [None]. *)
Record line_mgmt : Type := mklm {
  lines : gmap Z line;
  free_line_list : list Z;
  victim_line_pq : list Z;
  full_line_list : list Z;
  lm_tt_lines : Z;
  free_line_cnt : Z;
  victim_line_cnt : Z;
  full_line_cnt : Z
}.

(** [struct write_pointer] and [struct trans_write_pointer] have the same
    fields. *)
Record write_pointer : Type := mkwp {
  curline : option Z;
  wp_ch : Z;
  wp_lun : Z;
  wp_pg : Z;
  wp_blk : Z;
  wp_pl : Z
}.

Inductive dirty_t : Type := CLEAN | DIRTY.

#[global] Instance dirty_eq_dec : EqDecision dirty_t.
Proof. solve_decision. Defined.

(** [struct cmt_entry]; [next] is the position in its hash chain and [entry]
    the position in the LRU or the free list. The [ppn] of an entry with no
    page is [UNMAPPED_PPA] read as a number, which is [INVALID_LPN]. *)
Record cmt_entry : Type := mkcmt {
  e_lpn : Z;
  e_ppn : Z;
  e_dirty : dirty_t
}.

(** CMT entries are referred to by their index in [cm.cmt_entries]; the hash
    table maps a bucket to its chain, head first. *)
Record cmt_mgmt : Type := mkcm {
  cmt_entries : gmap Z cmt_entry;
  free_cmt_entry_list : list Z;
  cmt_entry_list : list Z;
  cmt_table : gmap Z (list Z);
  tt_entries : Z;
  free_cmt_entry_cnt : Z;
  used_cmt_entry_cnt : Z
}.

Record statistics : Type := mkstat {
  cmt_hit_cnt : Z;
  cmt_miss_cnt : Z;
  access_cnt : Z
}.

Inductive nand_op : Type := NAND_READ | NAND_WRITE | NAND_ERASE | NAND_OTHER (c : Z).

#[global] Instance nand_op_eq_dec : EqDecision nand_op.
Proof. solve_decision. Defined.

Inductive io_type : Type := USER_IO | GC_IO.

Record nand_cmd : Type := mkcmd {
  nc_type : io_type;
  nc_cmd : nand_op;
  nc_stime : Z
}.

(** The device context. [clock_reads] counts the readings of the wall clock
    taken so far, and [nand_log] lists the calls of [ssd_advance_status]
    (operation and target page), most recent first; neither is a field of
    [struct ssd], both record what the run did. *)
Record ssd : Type := mkssd {
  sp : ssdparams;
  luns : gmap (Z * Z) nand_lun;
  blks : gmap (Z * Z * Z * Z) nand_block;
  pgs : gmap (Z * Z * Z * Z * Z) pg_status;
  maptbl : gmap Z ppa;
  rmap : gmap Z Z;
  gtd : gmap Z ppa;
  lm : line_mgmt;
  wp : write_pointer;
  twp : write_pointer;
  cm : cmt_mgmt;
  stat : statistics;
  clock_reads : nat;
  nand_log : list (nand_op * ppa)
}.

(** ** Field updates *)

Definition with_luns (v : gmap (Z * Z) nand_lun) (s : ssd) : ssd :=
  mkssd (sp s) v (blks s) (pgs s) (maptbl s) (rmap s) (gtd s) (lm s) (wp s)
        (twp s) (cm s) (stat s) (clock_reads s) (nand_log s).
Definition with_blks (v : gmap (Z * Z * Z * Z) nand_block) (s : ssd) : ssd :=
  mkssd (sp s) (luns s) v (pgs s) (maptbl s) (rmap s) (gtd s) (lm s) (wp s)
        (twp s) (cm s) (stat s) (clock_reads s) (nand_log s).
Definition with_pgs (v : gmap (Z * Z * Z * Z * Z) pg_status) (s : ssd) : ssd :=
  mkssd (sp s) (luns s) (blks s) v (maptbl s) (rmap s) (gtd s) (lm s) (wp s)
        (twp s) (cm s) (stat s) (clock_reads s) (nand_log s).
Definition with_maptbl (v : gmap Z ppa) (s : ssd) : ssd :=
  mkssd (sp s) (luns s) (blks s) (pgs s) v (rmap s) (gtd s) (lm s) (wp s)
        (twp s) (cm s) (stat s) (clock_reads s) (nand_log s).
Definition with_rmap (v : gmap Z Z) (s : ssd) : ssd :=
  mkssd (sp s) (luns s) (blks s) (pgs s) (maptbl s) v (gtd s) (lm s) (wp s)
        (twp s) (cm s) (stat s) (clock_reads s) (nand_log s).
Definition with_gtd (v : gmap Z ppa) (s : ssd) : ssd :=
  mkssd (sp s) (luns s) (blks s) (pgs s) (maptbl s) (rmap s) v (lm s) (wp s)
        (twp s) (cm s) (stat s) (clock_reads s) (nand_log s).
Definition with_lm (v : line_mgmt) (s : ssd) : ssd :=
  mkssd (sp s) (luns s) (blks s) (pgs s) (maptbl s) (rmap s) (gtd s) v (wp s)
        (twp s) (cm s) (stat s) (clock_reads s) (nand_log s).
Definition with_wp (v : write_pointer) (s : ssd) : ssd :=
  mkssd (sp s) (luns s) (blks s) (pgs s) (maptbl s) (rmap s) (gtd s) (lm s) v
        (twp s) (cm s) (stat s) (clock_reads s) (nand_log s).
Definition with_twp (v : write_pointer) (s : ssd) : ssd :=
  mkssd (sp s) (luns s) (blks s) (pgs s) (maptbl s) (rmap s) (gtd s) (lm s) (wp s)
        v (cm s) (stat s) (clock_reads s) (nand_log s).
Definition with_cm (v : cmt_mgmt) (s : ssd) : ssd :=
  mkssd (sp s) (luns s) (blks s) (pgs s) (maptbl s) (rmap s) (gtd s) (lm s) (wp s)
        (twp s) v (stat s) (clock_reads s) (nand_log s).
Definition with_stat (v : statistics) (s : ssd) : ssd :=
  mkssd (sp s) (luns s) (blks s) (pgs s) (maptbl s) (rmap s) (gtd s) (lm s) (wp s)
        (twp s) (cm s) v (clock_reads s) (nand_log s).
Definition with_clock_log (n : nat) (l : list (nand_op * ppa)) (s : ssd) : ssd :=
  mkssd (sp s) (luns s) (blks s) (pgs s) (maptbl s) (rmap s) (gtd s) (lm s) (wp s)
        (twp s) (cm s) (stat s) n l.

Definition with_lines (v : gmap Z line) (m : line_mgmt) : line_mgmt :=
  mklm v (free_line_list m) (victim_line_pq m) (full_line_list m)
       (lm_tt_lines m) (free_line_cnt m) (victim_line_cnt m) (full_line_cnt m).
Definition with_free_lines (l : list Z) (n : Z) (m : line_mgmt) : line_mgmt :=
  mklm (lines m) l (victim_line_pq m) (full_line_list m)
       (lm_tt_lines m) n (victim_line_cnt m) (full_line_cnt m).
Definition with_victim_pq (ls : gmap Z line) (q : list Z) (n : Z) (m : line_mgmt) : line_mgmt :=
  mklm ls (free_line_list m) q (full_line_list m)
       (lm_tt_lines m) (free_line_cnt m) n (full_line_cnt m).
Definition with_full_lines (l : list Z) (n : Z) (m : line_mgmt) : line_mgmt :=
  mklm (lines m) (free_line_list m) (victim_line_pq m) l
       (lm_tt_lines m) (free_line_cnt m) (victim_line_cnt m) n.

Definition line_with_ipc (v : Z) (l : line) : line :=
  mkline (l_id l) v (l_vpc l) (l_pos l) (l_type l).
Definition line_with_type (v : line_type) (l : line) : line :=
  mkline (l_id l) (l_ipc l) (l_vpc l) (l_pos l) v.

(** ** Intrusive queues ([QTAILQ]) as lists of indices *)

Fixpoint qtailq_remove (x : Z) (l : list Z) : list Z :=
  match l with
  | [] => []
  | y :: l' => if bool_decide (y = x) then l' else y :: qtailq_remove x l'
  end.

Definition qtailq_insert_tail (l : list Z) (x : Z) : list Z := l ++ [x].
Definition qtailq_insert_head (l : list Z) (x : Z) : list Z := x :: l.
Definition qtailq_first (l : list Z) : option Z := head l.
Definition qtailq_last (l : list Z) : option Z := last l.

(** ** The victim priority queue *)

(** The callbacks handed to [pqueue_init] by [ssd_init_lines]. *)
Definition victim_line_cmp_pri (next curr : Z) : bool := bool_decide (next > curr).
Definition victim_line_get_pri (a : line) : Z := l_vpc a.
Definition victim_line_set_pri (pri : Z) (a : line) : line :=
  mkline (l_id a) (l_ipc a) pri (l_pos a) (l_type a).
Definition victim_line_get_pos (a : line) : Z := l_pos a.
Definition victim_line_set_pos (pos : Z) (a : line) : line :=
  mkline (l_id a) (l_ipc a) (l_vpc a) pos (l_type a).

Module pqueue.
Section with_callbacks.
Variable cmppri : Z -> Z -> bool.
Variable getpri : line -> Z.
Variable setpri : Z -> line -> line.
Variable setpos : Z -> line -> line.

(** Modelled from the spec: the priority queue library (pqueue.c, pqueue.h)
    is not among the sources. The spec describes a priority queue of lines
    keyed by the priority the callbacks read from the line itself, storing
    each queued line's position in the line ([pos], 0 when not queued), and
    serving first the line of highest priority, where [cmppri next curr]
    says that [curr] is to be served before [next]. The queue is the list of
    the queued lines in insertion order; the priorities live in the shared
    line store and are read when lines are compared. *)
Definition pri (ls : gmap Z line) (x : Z) : Z :=
  match ls !! x with Some l => getpri l | None => 0 end.

Fixpoint best (ls : gmap Z line) (b : Z) (q : list Z) : Z :=
  match q with
  | [] => b
  | x :: q' => best ls (if cmppri (pri ls b) (pri ls x) then x else b) q'
  end.

(** Every queued line is told its position, counted from 1. *)
Fixpoint set_positions (i : Z) (q : list Z) (ls : gmap Z line) : gmap Z line :=
  match q with
  | [] => ls
  | x :: q' => set_positions (i + 1) q' (alter (setpos i) x ls)
  end.

Definition peek (ls : gmap Z line) (q : list Z) : option Z :=
  match q with
  | [] => None
  | x :: q' => Some (best ls x q')
  end.

Definition insert (ls : gmap Z line) (q : list Z) (x : Z) : list Z * gmap Z line :=
  let q' := q ++ [x] in (q', set_positions 1 q' ls).

Definition pop (ls : gmap Z line) (q : list Z) : option Z * list Z * gmap Z line :=
  match peek ls q with
  | None => (None, q, ls)
  | Some b => let q' := qtailq_remove b q in (Some b, q', set_positions 1 q' ls)
  end.

Definition change_priority (ls : gmap Z line) (q : list Z) (new_pri : Z) (x : Z)
  : list Z * gmap Z line :=
  (q, set_positions 1 q (alter (setpri new_pri) x ls)).
End with_callbacks.
End pqueue.

Definition pqueue_peek := pqueue.peek victim_line_cmp_pri victim_line_get_pri.
Definition pqueue_insert := pqueue.insert victim_line_set_pos.
Definition pqueue_pop :=
  pqueue.pop victim_line_cmp_pri victim_line_get_pri victim_line_set_pos.
Definition pqueue_change_priority :=
  pqueue.change_priority victim_line_set_pri victim_line_set_pos.

Definition with_cmt_table (t : gmap Z (list Z)) (c : cmt_mgmt) : cmt_mgmt :=
  mkcm (cmt_entries c) (free_cmt_entry_list c) (cmt_entry_list c) t
       (tt_entries c) (free_cmt_entry_cnt c) (used_cmt_entry_cnt c).
Definition with_cmt_entries (es : gmap Z cmt_entry) (c : cmt_mgmt) : cmt_mgmt :=
  mkcm es (free_cmt_entry_list c) (cmt_entry_list c) (cmt_table c)
       (tt_entries c) (free_cmt_entry_cnt c) (used_cmt_entry_cnt c).
Definition with_free_entries (l : list Z) (n : Z) (c : cmt_mgmt) : cmt_mgmt :=
  mkcm (cmt_entries c) l (cmt_entry_list c) (cmt_table c)
       (tt_entries c) n (used_cmt_entry_cnt c).
Definition with_used_entries (l : list Z) (n : Z) (c : cmt_mgmt) : cmt_mgmt :=
  mkcm (cmt_entries c) (free_cmt_entry_list c) l (cmt_table c)
       (tt_entries c) (free_cmt_entry_cnt c) n.

(** The fields of [NvmeRequest] the FTL reads and writes. *)
Record NvmeRequest : Type := mkreq {
  opcode : Z;
  slba : Z;
  nlb : Z;
  stime : Z;
  reqlat : Z;
  expire_time : Z
}.

Definition NVME_CMD_WRITE : Z := 1.
Definition NVME_CMD_READ : Z := 2.
Definition NVME_CMD_DSM : Z := 9.

(** A loop body run over the successive values of the loop variable, stopping
    at the first fault. *)
Fixpoint for_each {A S : Type} (f : S -> A -> result S) (l : list A) (s : S) : result S :=
  match l with
  | [] => Ok s
  | x :: l' => s' ← f s x; for_each f l' s'
  end.

(** ** The functions of dftl.c *)

(** What the header and the host supply: the constant [CMT_HASH_SIZE], the
    three NAND latencies, and the wall clock
    [qemu_clock_get_ns(QEMU_CLOCK_REALTIME)], given by its successive
    readings. *)
Class femu_env : Type := {
  CMT_HASH_SIZE : Z;
  NAND_READ_LATENCY : Z;
  NAND_PROG_LATENCY : Z;
  NAND_ERASE_LATENCY : Z;
  qemu_clock_get_ns : nat -> Z
}.

Section dftl.
Context {env : femu_env}.

Definition ssd_init_params : ssdparams :=
  ssd_init_params_from
    (default_consts NAND_READ_LATENCY NAND_PROG_LATENCY NAND_ERASE_LATENCY).

Definition cmt_hash (lpn : Z) : Z := lpn mod CMT_HASH_SIZE.

Fixpoint find_in_chain (es : gmap Z cmt_entry) (lpn : Z) (chain : list Z)
  : result (option Z) :=
  match chain with
  | [] => Ok None
  | i :: chain' =>
      e ← arr_get es i;
      if bool_decide (e_lpn e = lpn) then Ok (Some i)
      else find_in_chain es lpn chain'
  end.

Definition find_hash_entry (c : cmt_mgmt) (lpn : Z) : result (option Z) :=
  chain ← arr_get (cmt_table c) (cmt_hash lpn);
  find_in_chain (cmt_entries c) lpn chain.

Definition insert_cmt_hashtable (c : cmt_mgmt) (entry : Z) : result cmt_mgmt :=
  e ← arr_get (cmt_entries c) entry;
  let pos := cmt_hash (e_lpn e) in
  chain ← arr_get (cmt_table c) pos;
  Ok (with_cmt_table (<[pos := entry :: chain]> (cmt_table c)) c).

(** With an empty bucket the C code reads [tmp_entry->next] through [NULL]. *)
Definition delete_cmt_hashnode (c : cmt_mgmt) (entry : Z) : result (bool * cmt_mgmt) :=
  e ← arr_get (cmt_entries c) entry;
  let pos := cmt_hash (e_lpn e) in
  chain ← arr_get (cmt_table c) pos;
  match chain with
  | [] => Err NullPointer
  | h :: t =>
      if bool_decide (h = entry) then
        Ok (true, with_cmt_table (<[pos := t]> (cmt_table c)) c)
      else if bool_decide (entry ∈ t) then
        Ok (true, with_cmt_table (<[pos := h :: qtailq_remove entry t]> (cmt_table c)) c)
      else Ok (false, c)
  end.

Definition should_gc (s : ssd) : bool :=
  bool_decide (free_line_cnt (lm s) <= gc_thres_lines (sp s)).

Definition should_gc_high (s : ssd) : bool :=
  bool_decide (free_line_cnt (lm s) <= gc_thres_lines_high (sp s)).

Definition get_maptbl_ent (s : ssd) (lpn : Z) : result ppa :=
  arr_get (maptbl s) lpn.

Definition set_maptbl_ent (s : ssd) (lpn : Z) (p : ppa) : result ssd :=
  m ← arr_set (maptbl s) lpn p; Ok (with_maptbl m s).

Definition get_gtd_ent (s : ssd) (tvpn : Z) : result ppa :=
  arr_get (gtd s) tvpn.

Definition set_gtd_ent (s : ssd) (tvpn : Z) (p : ppa) : result ssd :=
  m ← arr_set (gtd s) tvpn p; Ok (with_gtd m s).

Definition ppa2pgidx (spp : ssdparams) (p : ppa) : Z :=
  g_ch p * pgs_per_ch spp + g_lun p * pgs_per_lun spp +
  g_pl p * pgs_per_pl spp + g_blk p * pgs_per_blk spp + g_pg p.

Definition get_rmap_ent (s : ssd) (p : ppa) : result Z :=
  arr_get (rmap s) (ppa2pgidx (sp s) p).

Definition set_rmap_ent (s : ssd) (lpn : Z) (p : ppa) : result ssd :=
  m ← arr_set (rmap s) (ppa2pgidx (sp s) p) lpn; Ok (with_rmap m s).

(** [g_malloc0] leaves [type] at 0, the first enumerator. *)
Definition ssd_init_lines (s : ssd) : ssd :=
  let n := blks_per_pl (sp s) in
  with_lm {| lines := list_to_map ((fun i => (i, mkline i 0 0 0 NONE)) <$> seqZ 0 n);
             free_line_list := seqZ 0 n;
             victim_line_pq := [];
             full_line_list := [];
             lm_tt_lines := n;
             free_line_cnt := Z.of_nat (length (seqZ 0 n));
             victim_line_cnt := 0;
             full_line_cnt := 0 |} s.

(** [ssd_init_write_pointer] and [ssd_init_trans_write_pointer]: the same
    statements on [ssd->wp] with [DATA] and on [ssd->twp] with [TRANS]. *)
Definition init_write_pointer (set : write_pointer -> ssd -> ssd) (ty : line_type)
    (s : ssd) : result ssd :=
  cur ← of_option NullPointer (qtailq_first (free_line_list (lm s)));
  let m := with_free_lines (qtailq_remove cur (free_line_list (lm s)))
                           (free_line_cnt (lm s) - 1) (lm s) in
  l ← arr_get (lines m) cur;
  let m' := with_lines (<[cur := line_with_type ty l]> (lines m)) m in
  Ok (set (mkwp (Some cur) 0 0 0 (l_id l) 0) (with_lm m' s)).

Definition ssd_init_write_pointer := init_write_pointer with_wp DATA.
Definition ssd_init_trans_write_pointer := init_write_pointer with_twp TRANS.

Definition get_next_free_line (s : ssd) : option Z * ssd :=
  match qtailq_first (free_line_list (lm s)) with
  | None => (None, s)
  | Some cur =>
      (Some cur,
       with_lm (with_free_lines (qtailq_remove cur (free_line_list (lm s)))
                                (free_line_cnt (lm s) - 1) (lm s)) s)
  end.

(** [ssd_advance_write_pointer] and [ssd_advance_trans_write_pointer]: the
    same statements on [ssd->wp] with [DATA] and on [ssd->twp] with [TRANS]. *)
Definition advance_write_pointer (get : ssd -> write_pointer)
    (set : write_pointer -> ssd -> ssd) (ty : line_type) (s : ssd) : result ssd :=
  let spp := sp s in
  let w := get s in
  let ch := wp_ch w + 1 in
  if negb (bool_decide (ch = nchs spp)) then
    Ok (set (mkwp (curline w) ch (wp_lun w) (wp_pg w) (wp_blk w) (wp_pl w)) s)
  else
    let lun := wp_lun w + 1 in
    if negb (bool_decide (lun = luns_per_ch spp)) then
      Ok (set (mkwp (curline w) 0 lun (wp_pg w) (wp_blk w) (wp_pl w)) s)
    else
      let pg := wp_pg w + 1 in
      if negb (bool_decide (pg = pgs_per_blk spp)) then
        Ok (set (mkwp (curline w) 0 0 pg (wp_blk w) (wp_pl w)) s)
      else
        cur ← of_option NullPointer (curline w);
        l ← arr_get (lines (lm s)) cur;
        let m1 :=
          if bool_decide (l_vpc l = pgs_per_line spp) then
            with_full_lines (qtailq_insert_tail (full_line_list (lm s)) cur)
                            (full_line_cnt (lm s) + 1) (lm s)
          else
            let '(q, ls) := pqueue_insert (lines (lm s)) (victim_line_pq (lm s)) cur in
            with_victim_pq ls q (victim_line_cnt (lm s) + 1) (lm s) in
        match get_next_free_line (with_lm m1 s) with
        | (None, _) => Err Aborted
        | (Some nl, s2) =>
            nline ← arr_get (lines (lm s2)) nl;
            let m3 := with_lines (<[nl := line_with_type ty nline]> (lines (lm s2))) (lm s2) in
            Ok (set (mkwp (Some nl) 0 0 0 (l_id nline) (wp_pl w)) (with_lm m3 s2))
        end.

Definition ssd_advance_write_pointer := advance_write_pointer wp with_wp DATA.
Definition ssd_advance_trans_write_pointer := advance_write_pointer twp with_twp TRANS.

Definition get_new_page (s : ssd) : ppa :=
  let w := wp s in new_ppa (wp_ch w) (wp_lun w) (wp_pg w) (wp_blk w) (wp_pl w).

Definition get_new_trans_page (s : ssd) : ppa :=
  let w := twp s in new_ppa (wp_ch w) (wp_lun w) (wp_pg w) (wp_blk w) (wp_pl w).

Definition valid_ppa (s : ssd) (p : ppa) : bool :=
  let spp := sp s in
  bool_decide (0 <= g_ch p < nchs spp /\ 0 <= g_lun p < luns_per_ch spp /\
               0 <= g_pl p < pls_per_lun spp /\ 0 <= g_blk p < blks_per_pl spp /\
               0 <= g_pg p < pgs_per_blk spp /\ 0 <= g_sec p < secs_per_pg spp).

Definition valid_lpn (s : ssd) (lpn : Z) : bool := bool_decide (lpn < tt_pgs (sp s)).

(** A [struct nand_lun *] is the pair of indices that selects the LUN. *)
Definition lun_of (p : ppa) : Z * Z := (g_ch p, g_lun p).
Definition blk_of (p : ppa) : Z * Z * Z * Z := (g_ch p, g_lun p, g_pl p, g_blk p).
Definition pg_of (p : ppa) : Z * Z * Z * Z * Z :=
  (g_ch p, g_lun p, g_pl p, g_blk p, g_pg p).

Definition get_lun (s : ssd) (p : ppa) : result nand_lun := arr_get (luns s) (lun_of p).
Definition get_blk (s : ssd) (p : ppa) : result nand_block := arr_get (blks s) (blk_of p).
Definition get_line (s : ssd) (p : ppa) : result line := arr_get (lines (lm s)) (g_blk p).
Definition get_pg (s : ssd) (p : ppa) : result pg_status := arr_get (pgs s) (pg_of p).

(** The three supported commands run the same statements and differ in the
    latency they add; the channel-transfer code is under [#if 0]. *)
Definition op_latency (spp : ssdparams) (c : nand_op) : option Z :=
  match c with
  | NAND_READ => Some (pg_rd_lat spp)
  | NAND_WRITE => Some (pg_wr_lat spp)
  | NAND_ERASE => Some (blk_er_lat spp)
  | NAND_OTHER _ => None
  end.

Definition ssd_advance_status (s : ssd) (p : ppa) (ncmd : nand_cmd) : result (Z * ssd) :=
  let '(cmd_stime, n) :=
    if bool_decide (nc_stime ncmd = 0)
    then (wrap64 (qemu_clock_get_ns (clock_reads s)), S (clock_reads s))
    else (wrap64 (nc_stime ncmd), clock_reads s) in
  lun ← get_lun s p;
  let s0 := with_clock_log n ((nc_cmd ncmd, p) :: nand_log s) s in
  match op_latency (sp s) (nc_cmd ncmd) with
  | Some l =>
      let nand_stime :=
        if bool_decide (next_lun_avail_time lun < cmd_stime) then cmd_stime
        else next_lun_avail_time lun in
      let t := wrap64 (nand_stime + l) in
      Ok (wrap64 (t - cmd_stime),
          with_luns (<[lun_of p := mklun t (gc_endtime lun)]> (luns s0)) s0)
  | None => Ok (0, s0)
  end.

Definition mark_page_invalid (s : ssd) (p : ppa) : result ssd :=
  let spp := sp s in
  _ ← get_pg s p;
  let s := with_pgs (<[pg_of p := PG_INVALID]> (pgs s)) s in
  blk ← get_blk s p;
  let s := with_blks (<[blk_of p := mkblk (b_ipc blk + 1) (b_vpc blk - 1) (b_erase_cnt blk)]>
                        (blks s)) s in
  l ← get_line s p;
  let was_full_line := bool_decide (l_vpc l = pgs_per_line spp) in
  let ls1 := <[g_blk p := line_with_ipc (l_ipc l + 1) l]> (lines (lm s)) in
  let m :=
    if negb (bool_decide (l_pos l = 0)) then
      let '(q, ls) := pqueue_change_priority ls1 (victim_line_pq (lm s))
                                             (l_vpc l - 1) (g_blk p) in
      with_victim_pq ls q (victim_line_cnt (lm s)) (lm s)
    else
      with_lines (alter (victim_line_set_pri (l_vpc l - 1)) (g_blk p) ls1) (lm s) in
  let m :=
    if was_full_line then
      let m1 := with_full_lines (qtailq_remove (g_blk p) (full_line_list m))
                                (full_line_cnt m - 1) m in
      let '(q, ls) := pqueue_insert (lines m1) (victim_line_pq m1) (g_blk p) in
      with_victim_pq ls q (victim_line_cnt m1 + 1) m1
    else m in
  Ok (with_lm m s).

Definition mark_page_valid (s : ssd) (p : ppa) : result ssd :=
  _ ← get_pg s p;
  let s := with_pgs (<[pg_of p := PG_VALID]> (pgs s)) s in
  blk ← get_blk s p;
  let s := with_blks (<[blk_of p := mkblk (b_ipc blk) (b_vpc blk + 1) (b_erase_cnt blk)]>
                        (blks s)) s in
  l ← get_line s p;
  Ok (with_lm (with_lines (<[g_blk p := victim_line_set_pri (l_vpc l + 1) l]>
                             (lines (lm s))) (lm s)) s).

Definition mark_block_free (s : ssd) (p : ppa) : result ssd :=
  blk ← get_blk s p;
  s ← for_each (fun s i =>
                  m ← arr_set (pgs s) (g_ch p, g_lun p, g_pl p, g_blk p, i) PG_FREE;
                  Ok (with_pgs m s))
               (seqZ 0 (pgs_per_blk (sp s))) s;
  Ok (with_blks (<[blk_of p := mkblk 0 0 (b_erase_cnt blk + 1)]> (blks s)) s).

Definition cmt_hit (s : ssd) (lpn : Z) : result (option Z * ssd) :=
  r ← find_hash_entry (cm s) lpn;
  match r with
  | Some e =>
      let l := qtailq_insert_head (qtailq_remove e (cmt_entry_list (cm s))) e in
      Ok (Some e, with_cm (with_used_entries l (used_cmt_entry_cnt (cm s)) (cm s)) s)
  | None => Ok (None, s)
  end.

Definition translation_page_read (s : ssd) (req : NvmeRequest) (p : ppa)
  : result (Z * ssd) :=
  ssd_advance_status s p (mkcmd USER_IO NAND_READ (stime req)).

Definition translation_page_read_no_req (s : ssd) (p : ppa) : result (Z * ssd) :=
  ssd_advance_status s p (mkcmd USER_IO NAND_READ 0).

Definition translation_page_write (s : ssd) (old_ppa : ppa) : result (Z * ssd) :=
  tvpn ← get_rmap_ent s old_ppa;
  s ← (if mapped_ppa old_ppa then
         s ← mark_page_invalid s old_ppa;
         set_rmap_ent s INVALID_LPN old_ppa
       else Ok s);
  let new_ppa := get_new_trans_page s in
  s ← set_gtd_ent s tvpn new_ppa;
  s ← set_rmap_ent s tvpn new_ppa;
  s ← mark_page_valid s new_ppa;
  s ← ssd_advance_trans_write_pointer s;
  ssd_advance_status s new_ppa (mkcmd USER_IO NAND_WRITE 0).

Definition translation_page_new_write (s : ssd) (tvpn : Z) : result (Z * ssd) :=
  let new_ppa := get_new_trans_page s in
  s ← set_gtd_ent s tvpn new_ppa;
  s ← set_rmap_ent s tvpn new_ppa;
  s ← mark_page_valid s new_ppa;
  s ← ssd_advance_trans_write_pointer s;
  ssd_advance_status s new_ppa (mkcmd USER_IO NAND_WRITE 0).

(** With an empty free list [QTAILQ_REMOVE] writes through [NULL]. *)
Definition insert_entry_to_cmt (s : ssd) (lpn ppn : Z) : result ssd :=
  let c := cm s in
  e ← of_option NullPointer (qtailq_first (free_cmt_entry_list c));
  let c := with_free_entries (qtailq_remove e (free_cmt_entry_list c))
                             (free_cmt_entry_cnt c - 1) c in
  _ ← arr_get (cmt_entries c) e;
  let c := with_cmt_entries (<[e := mkcmt lpn ppn CLEAN]> (cmt_entries c)) c in
  let c := with_used_entries (qtailq_insert_head (cmt_entry_list c) e)
                             (used_cmt_entry_cnt c + 1) c in
  c ← insert_cmt_hashtable c e;
  Ok (with_cm c s).

(** With an empty LRU list [QTAILQ_REMOVE] writes through [NULL]. *)
Definition evict_entry_from_cmt (s : ssd) : result ssd :=
  let spp := sp s in
  e ← of_option NullPointer (qtailq_last (cmt_entry_list (cm s)));
  let s := with_cm (with_used_entries (qtailq_remove e (cmt_entry_list (cm s)))
                                      (used_cmt_entry_cnt (cm s)) (cm s)) s in
  ent ← arr_get (cmt_entries (cm s)) e;
  s ← (if bool_decide (e_dirty ent = DIRTY) then
         let tvpn := e_lpn ent / ents_per_pg spp in
         p ← get_gtd_ent s tvpn;
         if negb (mapped_ppa p) || negb (valid_ppa s p) then
           '(_, s) ← translation_page_new_write s tvpn; Ok s
         else
           '(_, s) ← translation_page_read_no_req s p;
           '(_, s) ← translation_page_write s p; Ok s
       else Ok s);
  '(_, c) ← delete_cmt_hashnode (cm s) e;
  let c := with_cmt_entries (<[e := mkcmt INVALID_LPN UNMAPPED_PPN CLEAN]> (cmt_entries c)) c in
  let c := with_free_entries (qtailq_insert_tail (free_cmt_entry_list c) e)
                             (free_cmt_entry_cnt c + 1) c in
  let c := with_used_entries (cmt_entry_list c) (used_cmt_entry_cnt c - 1) c in
  Ok (with_cm c s).

(** The three-way test on [used_cmt_entry_cnt] that precedes every
    insertion; the last branch only logs. *)
Definition cmt_make_room_and_insert (s : ssd) (lpn ppn : Z) : result ssd :=
  if bool_decide (used_cmt_entry_cnt (cm s) < tt_entries (cm s)) then
    insert_entry_to_cmt s lpn ppn
  else if bool_decide (used_cmt_entry_cnt (cm s) = tt_entries (cm s)) then
    s ← evict_entry_from_cmt s;
    insert_entry_to_cmt s lpn ppn
  else Ok s.

Definition process_translation_page_read (s : ssd) (req : NvmeRequest) (lpn : Z)
  : result (option (Z * Z) * ssd) :=
  let spp := sp s in
  let tvpn := lpn / ents_per_pg spp in
  p ← get_gtd_ent s tvpn;
  if negb (mapped_ppa p) || negb (valid_ppa s p) then Ok (None, s)
  else
    '(_, s) ← translation_page_read s req p;
    let lunp := lun_of p in
    p ← get_maptbl_ent s lpn;
    if negb (mapped_ppa p) || negb (valid_ppa s p) then Ok (None, s)
    else
      let ppn := ppa2pgidx spp p in
      s ← cmt_make_room_and_insert s lpn ppn;
      Ok (Some lunp, s).

Definition process_translation_page_write (s : ssd) (req : NvmeRequest) (lpn : Z)
  : result (option (Z * Z) * ssd) :=
  let spp := sp s in
  let tvpn := lpn / ents_per_pg spp in
  p ← get_gtd_ent s tvpn;
  if negb (mapped_ppa p) || negb (valid_ppa s p) then
    s ← cmt_make_room_and_insert s lpn UNMAPPED_PPN;
    Ok (None, s)
  else
    '(_, s) ← translation_page_read s req p;
    let lunp := lun_of p in
    p ← get_maptbl_ent s lpn;
    if negb (mapped_ppa p) || negb (valid_ppa s p) then
      s ← cmt_make_room_and_insert s lpn UNMAPPED_PPN;
      Ok (Some lunp, s)
    else
      s ← cmt_make_room_and_insert s lpn (ppa2pgidx spp p);
      Ok (Some lunp, s).

Definition gc_read_page (s : ssd) (p : ppa) : result ssd :=
  if enable_gc_delay (sp s) then
    '(_, s) ← ssd_advance_status s p (mkcmd GC_IO NAND_READ 0); Ok s
  else Ok s.

(** [new_lun->gc_endtime = new_lun->next_lun_avail_time]. *)
Definition set_gc_endtime (s : ssd) (k : Z * Z) : result ssd :=
  lun ← arr_get (luns s) k;
  Ok (with_luns (<[k := mklun (next_lun_avail_time lun) (next_lun_avail_time lun)]>
                   (luns s)) s).

Definition gc_write_page (s : ssd) (old_ppa : ppa) : result ssd :=
  lpn ← get_rmap_ent s old_ppa;
  let new_ppa := get_new_page s in
  s ← set_maptbl_ent s lpn new_ppa;
  s ← set_rmap_ent s lpn new_ppa;
  s ← mark_page_valid s new_ppa;
  s ← ssd_advance_write_pointer s;
  s ← (if enable_gc_delay (sp s) then
         '(_, s) ← ssd_advance_status s new_ppa (mkcmd GC_IO NAND_WRITE 0); Ok s
       else Ok s);
  set_gc_endtime s (lun_of new_ppa).

Definition gc_translation_page_write (s : ssd) (old_ppa : ppa) : result ssd :=
  tvpn ← get_rmap_ent s old_ppa;
  let new_ppa := get_new_trans_page s in
  s ← set_gtd_ent s tvpn new_ppa;
  s ← set_rmap_ent s tvpn new_ppa;
  s ← mark_page_valid s new_ppa;
  s ← ssd_advance_trans_write_pointer s;
  s ← (if enable_gc_delay (sp s) then
         '(_, s) ← ssd_advance_status s new_ppa (mkcmd GC_IO NAND_WRITE 0); Ok s
       else Ok s);
  set_gc_endtime s (lun_of new_ppa).

Definition select_victim_line (s : ssd) (force : bool) : result (option Z * ssd) :=
  match pqueue_peek (lines (lm s)) (victim_line_pq (lm s)) with
  | None => Ok (None, s)
  | Some v =>
      l ← arr_get (lines (lm s)) v;
      if negb force && bool_decide (l_ipc l < pgs_per_line (sp s) `quot` 8) then
        Ok (None, s)
      else
        let '(_, q, ls) := pqueue_pop (lines (lm s)) (victim_line_pq (lm s)) in
        let ls := alter (victim_line_set_pos 0) v ls in
        Ok (Some v, with_lm (with_victim_pq ls q (victim_line_cnt (lm s) - 1) (lm s)) s)
  end.

(** One iteration of the loop of [clean_one_data_block]; the loop state is
    the context, [batch_update[0..pos)] and the caller's [*ppa], whose [pg]
    field the loop assigns. *)
Definition clean_data_page (st : ssd * list Z * ppa) (pg : Z)
  : result (ssd * list Z * ppa) :=
  let '(s, batch, p) := st in
  let spp := sp s in
  let p := set_g_pg p pg in
  status ← get_pg s p;
  if bool_decide (status = PG_VALID) then
    s ← gc_read_page s p;
    lpn ← get_rmap_ent s p;
    m ← get_maptbl_ent s lpn;
    if negb (bool_decide (ppa2pgidx spp p = ppa2pgidx spp m)) then Ok (s, batch, p)
    else
      s ← gc_write_page s p;
      cmt_entry ← find_hash_entry (cm s) lpn;
      match cmt_entry with
      | Some e =>
          new_ppa ← get_maptbl_ent s lpn;
          ent ← arr_get (cmt_entries (cm s)) e;
          Ok (with_cm (with_cmt_entries
                         (<[e := mkcmt (e_lpn ent) (ppa2pgidx spp new_ppa) DIRTY]>
                            (cmt_entries (cm s))) (cm s)) s, batch, p)
      | None =>
          let tvpn := lpn / ents_per_pg spp in
          if bool_decide (tvpn ∈ batch) then Ok (s, batch, p)
          else
            new_ppa ← get_gtd_ent s tvpn;
            '(_, s) ← translation_page_read_no_req s new_ppa;
            '(_, s) ← translation_page_write s new_ppa;
            Ok (s, batch ++ [tvpn], p)
      end
  else Ok (s, batch, p).

Definition clean_one_data_block (s : ssd) (p : ppa) : result (ssd * ppa) :=
  '(s, _, p) ← for_each clean_data_page (seqZ 0 (pgs_per_blk (sp s))) (s, [], p);
  Ok (s, p).

Definition clean_trans_page (st : ssd * ppa) (pg : Z) : result (ssd * ppa) :=
  let '(s, p) := st in
  let spp := sp s in
  let p := set_g_pg p pg in
  status ← get_pg s p;
  if bool_decide (status = PG_VALID) then
    s ← gc_read_page s p;
    lpn ← get_rmap_ent s p;
    m ← get_maptbl_ent s lpn;
    if negb (bool_decide (ppa2pgidx spp p = ppa2pgidx spp m)) then
      s ← gc_translation_page_write s p; Ok (s, p)
    else Ok (s, p)
  else Ok (s, p).

Definition clean_one_trans_block (s : ssd) (p : ppa) : result (ssd * ppa) :=
  for_each clean_trans_page (seqZ 0 (pgs_per_blk (sp s))) (s, p).

Definition mark_line_free (s : ssd) (p : ppa) : result ssd :=
  l ← get_line s p;
  let m := with_lines (<[g_blk p := mkline (l_id l) 0 0 (l_pos l) NONE]> (lines (lm s)))
                      (lm s) in
  Ok (with_lm (with_free_lines (qtailq_insert_tail (free_line_list m) (g_blk p))
                               (free_line_cnt m + 1) m) s).

(** The body of the two nested loops of [do_gc] for one [(ch, lun)];
    [victim_line] is read through the pointer each time. *)
Definition gc_one_block (v : Z) (st : ssd * ppa) (chlun : Z * Z) : result (ssd * ppa) :=
  let '(s, p) := st in
  let p := set_g_ch_lun_pl p chlun.1 chlun.2 0 in
  let lunp := lun_of p in
  vl ← arr_get (lines (lm s)) v;
  '(s, p) ← match l_type vl with
            | DATA => clean_one_data_block s p
            | TRANS => clean_one_trans_block s p
            | NONE => Ok (s, p)
            end;
  s ← mark_block_free s p;
  s ← (if enable_gc_delay (sp s) then
         '(_, s) ← ssd_advance_status s p (mkcmd GC_IO NAND_ERASE 0); Ok s
       else Ok s);
  s ← set_gc_endtime s lunp;
  Ok (s, p).

(** The pairs [(ch, lun)] in the order of the nested loops. *)
Definition gc_blocks (spp : ssdparams) : list (Z * Z) :=
  ch ← seqZ 0 (nchs spp); (fun lun => (ch, lun)) <$> seqZ 0 (luns_per_ch spp).

(** [ppa] is declared without an initialiser; only [blk] is assigned before
    the loops, and the bits never assigned are never read. They are 0 here. *)
Definition do_gc (s : ssd) (force : bool) : result (Z * ssd) :=
  '(victim_line, s) ← select_victim_line s force;
  match victim_line with
  | None => Ok (-1, s)
  | Some v =>
      vl ← arr_get (lines (lm s)) v;
      let p := new_ppa 0 0 0 (l_id vl) 0 in
      '(s, p) ← for_each (gc_one_block v) (gc_blocks (sp s)) (s, p);
      s ← mark_line_free s p;
      Ok (0, s)
  end.

Definition with_access (f : statistics -> statistics) (s : ssd) : ssd :=
  with_stat (f (stat s)) s.
Definition count_access (st : statistics) : statistics :=
  mkstat (cmt_hit_cnt st) (cmt_miss_cnt st) (access_cnt st + 1).
Definition count_hit (st : statistics) : statistics :=
  mkstat (cmt_hit_cnt st + 1) (cmt_miss_cnt st) (access_cnt st).
Definition count_miss (st : statistics) : statistics :=
  mkstat (cmt_hit_cnt st) (cmt_miss_cnt st + 1) (access_cnt st).

Definition start_lpn (spp : ssdparams) (req : NvmeRequest) : Z :=
  slba req / secs_per_pg spp.
Definition end_lpn (spp : ssdparams) (req : NvmeRequest) : Z :=
  wrap64 (slba req + nlb req - 1) / secs_per_pg spp.

(** The LPNs visited by [for (lpn = start_lpn; lpn <= end_lpn; lpn++)]. *)
Definition req_lpns (spp : ssdparams) (req : NvmeRequest) : list Z :=
  seqZ (start_lpn spp req) (end_lpn spp req - start_lpn spp req + 1).

(** [lun->next_lun_avail_time = max(old_lun->..., lun->...)]. *)
Definition raise_lun_clock (s : ssd) (old_lun : option (Z * Z)) (p : ppa) : result ssd :=
  lun ← get_lun s p;
  o ← of_option NullPointer old_lun;
  old ← arr_get (luns s) o;
  let t := if bool_decide (next_lun_avail_time old > next_lun_avail_time lun)
           then next_lun_avail_time old else next_lun_avail_time lun in
  Ok (with_luns (<[lun_of p := mklun t (gc_endtime lun)]> (luns s)) s).

(** One iteration of the loop of [ssd_read]; the loop state is the context
    and [maxlat]. *)
Definition read_lpn (req : NvmeRequest) (st : ssd * Z) (lpn : Z) : result (ssd * Z) :=
  let '(s, maxlat) := st in
  let s := with_access count_access s in
  '(hit, s) ← cmt_hit s lpn;
  r ← match hit with
      | Some _ =>
          let s := with_access count_hit s in
          p ← get_maptbl_ent s lpn;
          if negb (mapped_ppa p) || negb (valid_ppa s p) then Ok (None, s)
          else Ok (Some p, s)
      | None =>
          let s := with_access count_miss s in
          '(old_lun, s) ← process_translation_page_read s req lpn;
          p ← get_maptbl_ent s lpn;
          if negb (mapped_ppa p) || negb (valid_ppa s p) then Ok (None, s)
          else s ← raise_lun_clock s old_lun p; Ok (Some p, s)
      end;
  match r with
  | (None, s) => Ok (s, maxlat)
  | (Some p, s) =>
      '(sublat, s) ← ssd_advance_status s p (mkcmd USER_IO NAND_READ (stime req));
      Ok (s, if bool_decide (sublat > maxlat) then sublat else maxlat)
  end.

Definition ssd_read (s : ssd) (req : NvmeRequest) : result (Z * ssd) :=
  '(s, maxlat) ← for_each (read_lpn req) (req_lpns (sp s) req) (s, 0);
  Ok (maxlat, s).

(** [while (should_gc_high(ssd)) { r = do_gc(ssd, true); if (r == -1) break; }],
    cut after [fuel] iterations. *)
Fixpoint foreground_gc (fuel : nat) (s : ssd) : result ssd :=
  if should_gc_high s then
    match fuel with
    | O => Err OutOfFuel
    | S fuel' =>
        '(r, s) ← do_gc s true;
        if bool_decide (r = -1) then Ok s else foreground_gc fuel' s
    end
  else Ok s.

(** One iteration of the per-LPN loop of [ssd_write]. *)
Definition write_lpn (req : NvmeRequest) (st : ssd * Z) (lpn : Z) : result (ssd * Z) :=
  let '(s, maxlat) := st in
  let s := with_access count_access s in
  '(hit, s) ← cmt_hit s lpn;
  s ← match hit with
      | Some _ => Ok (with_access count_hit s)
      | None =>
          '(_, s) ← process_translation_page_write (with_access count_miss s) req lpn;
          Ok s
      end;
  p ← get_maptbl_ent s lpn;
  cmt_entry ← find_hash_entry (cm s) lpn;
  s ← (if mapped_ppa p then
         s ← mark_page_invalid s p;
         set_rmap_ent s INVALID_LPN p
       else Ok s);
  let p := get_new_page s in
  s ← set_maptbl_ent s lpn p;
  e ← of_option NullPointer cmt_entry;
  ent ← arr_get (cmt_entries (cm s)) e;
  let s := with_cm (with_cmt_entries
                      (<[e := mkcmt (e_lpn ent) (ppa2pgidx (sp s) p) DIRTY]>
                         (cmt_entries (cm s))) (cm s)) s in
  s ← set_rmap_ent s lpn p;
  s ← mark_page_valid s p;
  s ← ssd_advance_write_pointer s;
  '(curlat, s) ← ssd_advance_status s p (mkcmd USER_IO NAND_WRITE (stime req));
  Ok (s, if bool_decide (curlat > maxlat) then curlat else maxlat).

Definition ssd_write (fuel : nat) (s : ssd) (req : NvmeRequest) : result (Z * ssd) :=
  s ← foreground_gc fuel s;
  '(s, maxlat) ← for_each (write_lpn req) (req_lpns (sp s) req) (s, 0);
  Ok (maxlat, s).

(** The body of the polling loop of [ftl_thread] for one dequeued request.
    [lat] is a local of the thread, declared before the loop; the rings are
    outside the FTL. The result carries the request as it is enqueued for
    the poller. *)
Definition ftl_handle (fuel : nat) (st : ssd * Z) (req : NvmeRequest)
  : result (ssd * Z * NvmeRequest) :=
  let '(s, lat) := st in
  '(lat, s) ← (if bool_decide (opcode req = NVME_CMD_WRITE) then ssd_write fuel s req
               else if bool_decide (opcode req = NVME_CMD_READ) then ssd_read s req
               else if bool_decide (opcode req = NVME_CMD_DSM) then Ok (0, s)
               else Ok (lat, s));
  let req := mkreq (opcode req) (slba req) (nlb req) (stime req) lat
                   (expire_time req + lat) in
  s ← (if should_gc s then '(_, s) ← do_gc s false; Ok s else Ok s);
  Ok (s, lat, req).

(** The requests dequeued by the worker, in order, and the completions it
    enqueues, most recent first. *)
Fixpoint ftl_thread (fuel : nat) (st : ssd * Z) (reqs : list NvmeRequest)
  : result (ssd * Z * list NvmeRequest) :=
  match reqs with
  | [] => Ok (st, [])
  | req :: reqs' =>
      '(s, lat, done) ← ftl_handle fuel st req;
      '(st', dones) ← ftl_thread fuel (s, lat) reqs';
      Ok (st', dones ++ [done])
  end.

(** *** Initialisation *)

Definition ssd_init_cmt (spp : ssdparams) : cmt_mgmt :=
  let n := tt_cmt_size spp in
  {| cmt_entries := arr_init n (mkcmt INVALID_LPN UNMAPPED_PPN CLEAN);
     free_cmt_entry_list := seqZ 0 n;
     cmt_entry_list := [];
     cmt_table := arr_init CMT_HASH_SIZE [];
     tt_entries := n;
     free_cmt_entry_cnt := Z.of_nat (length (seqZ 0 n));
     used_cmt_entry_cnt := 0 |}.

Definition all_luns (spp : ssdparams) : list (Z * Z) :=
  ch ← seqZ 0 (nchs spp); (fun lun => (ch, lun)) <$> seqZ 0 (luns_per_ch spp).
Definition all_blks (spp : ssdparams) : list (Z * Z * Z * Z) :=
  '(ch, lun) ← all_luns spp; pl ← seqZ 0 (pls_per_lun spp);
  (fun blk => (ch, lun, pl, blk)) <$> seqZ 0 (blks_per_pl spp).
Definition all_pgs (spp : ssdparams) : list (Z * Z * Z * Z * Z) :=
  '(ch, lun, pl, blk) ← all_blks spp;
  (fun pg => (ch, lun, pl, blk, pg)) <$> seqZ 0 (pgs_per_blk spp).

(** [ssd_init] for the parameters [spp]; the thread it starts is
    [ftl_thread]. *)
Definition ssd_init_with (spp : ssdparams) : result ssd :=
  let s :=
    {| sp := spp;
       luns := list_to_map ((fun k => (k, mklun 0 0)) <$> all_luns spp);
       blks := list_to_map ((fun k => (k, mkblk 0 0 0)) <$> all_blks spp);
       pgs := list_to_map ((fun k => (k, PG_FREE)) <$> all_pgs spp);
       maptbl := arr_init (tt_pgs spp) UNMAPPED_PPA;
       rmap := arr_init (tt_pgs spp) INVALID_LPN;
       gtd := arr_init (tt_gtd_size spp) UNMAPPED_PPA;
       lm := mklm ∅ [] [] [] 0 0 0 0;
       wp := mkwp None 0 0 0 0 0;
       twp := mkwp None 0 0 0 0 0;
       cm := ssd_init_cmt spp;
       stat := mkstat 0 0 0;
       clock_reads := O;
       nand_log := [] |} in
  let s := ssd_init_lines s in
  s ← ssd_init_write_pointer s;
  ssd_init_trans_write_pointer s.

Definition ssd_init : result ssd := ssd_init_with ssd_init_params.

End dftl.

(** ** Footprints *)

(** The fields of the context an operation may write. *)
Inductive field : Type :=
  | Fluns | Fblks | Fpgs | Fmaptbl | Frmap | Fgtd | Flm | Fwp | Ftwp | Fcm | Fstat
  | Flog.

Definition field_eqb (a b : field) : bool :=
  match a, b with
  | Fluns, Fluns | Fblks, Fblks | Fpgs, Fpgs | Fmaptbl, Fmaptbl | Frmap, Frmap
  | Fgtd, Fgtd | Flm, Flm | Fwp, Fwp | Ftwp, Ftwp | Fcm, Fcm | Fstat, Fstat
  | Flog, Flog => true
  | _, _ => false
  end.

Definition touched (f : field) (ch : list field) : bool := existsb (field_eqb f) ch.

(** [frame ch s s']: from [s] to [s'] the parameters are unchanged, and so is
    every field outside [ch]; [Flog] stands for the log of NAND operations
    and the count of clock readings. *)
Definition frame (ch : list field) (s s' : ssd) : Prop :=
  sp s' = sp s /\
  (touched Fluns ch = false -> luns s' = luns s) /\
  (touched Fblks ch = false -> blks s' = blks s) /\
  (touched Fpgs ch = false -> pgs s' = pgs s) /\
  (touched Fmaptbl ch = false -> maptbl s' = maptbl s) /\
  (touched Frmap ch = false -> rmap s' = rmap s) /\
  (touched Fgtd ch = false -> gtd s' = gtd s) /\
  (touched Flm ch = false -> lm s' = lm s) /\
  (touched Fwp ch = false -> wp s' = wp s) /\
  (touched Ftwp ch = false -> twp s' = twp s) /\
  (touched Fcm ch = false -> cm s' = cm s) /\
  (touched Fstat ch = false -> stat s' = stat s) /\
  (touched Flog ch = false ->
   nand_log s' = nand_log s /\ clock_reads s' = clock_reads s).

Definition all_fields : list field :=
  [Fluns; Fblks; Fpgs; Fmaptbl; Frmap; Fgtd; Flm; Fwp; Ftwp; Fcm; Fstat; Flog].

(** What the read path may write: everything but the forward map and the
    data write pointer. *)
Definition read_footprint : list field :=
  [Fluns; Fblks; Fpgs; Frmap; Fgtd; Flm; Ftwp; Fcm; Fstat; Flog].

(** ** Invariants *)

(** The CMT counters: the capacity, and the used and free counts together. *)
Definition cmt_counts (s : ssd) : Z * Z :=
  (tt_entries (cm s), used_cmt_entry_cnt (cm s) + free_cmt_entry_cnt (cm s)).

Definition cmt_counter_inv (c : cmt_mgmt) : Prop :=
  used_cmt_entry_cnt c + free_cmt_entry_cnt c = tt_entries c.

(** A device on which nothing was written: every entry of the forward map
    and of the GTD is [UNMAPPED_PPA] and the CMT holds no entry. *)
Definition pristine (s : ssd) : Prop :=
  map_Forall (fun _ p => p = UNMAPPED_PPA) (maptbl s) /\
  map_Forall (fun _ p => p = UNMAPPED_PPA) (gtd s) /\
  map_Forall (fun _ chain => chain = []) (cmt_table (cm s)) /\
  cmt_entry_list (cm s) = [].

#[global] Instance pristine_dec (s : ssd) : Decision (pristine s).
Proof. unfold pristine. apply _. Defined.

(** The request stays inside the arrays it indexes. *)
Definition req_in_range `{!femu_env} (s : ssd) (req : NvmeRequest) : Prop :=
  Forall (fun lpn =>
            is_Some (maptbl s !! lpn) /\
            is_Some (gtd s !! (lpn / ents_per_pg (sp s))) /\
            is_Some (cmt_table (cm s) !! cmt_hash lpn))
         (req_lpns (sp s) req).

#[global] Instance req_in_range_dec `{!femu_env} (s : ssd) (req : NvmeRequest) :
  Decision (req_in_range s req).
Proof. unfold req_in_range. apply _. Defined.

(** The writeback shared by [translation_page_new_write] and
    [translation_page_write]: the page under the translation write pointer
    becomes the translation page of [tvpn]. *)
Definition written_back (s s' : ssd) (tvpn : Z) : Prop :=
  let new := get_new_trans_page s in
  gtd s' = <[tvpn := new]> (gtd s) /\
  rmap s' = <[ppa2pgidx (sp s) new := tvpn]> (rmap s) /\
  pgs s' = <[pg_of new := PG_VALID]> (pgs s) /\
  nand_log s' = (NAND_WRITE, new) :: nand_log s /\
  (exists s1 s2, twp s1 = twp s /\ ssd_advance_trans_write_pointer s1 = Ok s2 /\
                 twp s' = twp s2) /\
  cm s' = cm s /\ sp s' = sp s.

(** ** The map invariants *)

(** The coordinates [(ch, lun, pl, blk, pg)] of a page in the NAND array. *)
Abbreviation pgkey := (Z * Z * Z * Z * Z)%type.

Definition key_ch (k : pgkey) : Z := k.1.1.1.1.
Definition key_lun (k : pgkey) : Z := k.1.1.1.2.
Definition key_pl (k : pgkey) : Z := k.1.1.2.
Definition key_blk (k : pgkey) : Z := k.1.2.
Definition key_pg (k : pgkey) : Z := k.2.

(** [ppa2pgidx] on the coordinates. *)
Definition pgidx_of (spp : ssdparams) (k : pgkey) : Z :=
  key_ch k * pgs_per_ch spp + key_lun k * pgs_per_lun spp +
  key_pl k * pgs_per_pl spp + key_blk k * pgs_per_blk spp + key_pg k.

Definition rmap_at (s : ssd) (k : pgkey) : option Z := rmap s !! pgidx_of (sp s) k.

(** Entry [x] of the table [m] is mapped and addresses page [k]. *)
Definition points_to (m : gmap Z ppa) (x : Z) (k : pgkey) : Prop :=
  match m !! x with
  | Some p => mapped_ppa p = true /\ pg_of p = k
  | None => False
  end.

(** Invariant 1: a mapped LPN addresses a valid page whose rmap entry is that
    LPN. *)
Definition map_inv1 (s : ssd) : Prop :=
  map_Forall (fun lpn p =>
                mapped_ppa p = true ->
                pgs s !! pg_of p = Some PG_VALID /\
                rmap s !! ppa2pgidx (sp s) p = Some lpn)
             (maptbl s).

(** Invariant 2: a page whose rmap entry is not [INVALID_LPN] is valid, and
    the forward map (data) or the GTD (translation) at that entry addresses
    it. *)
Definition map_inv2 (s : ssd) : Prop :=
  map_Forall (fun k st =>
                match rmap_at s k with
                | Some x =>
                    x <> INVALID_LPN ->
                    st = PG_VALID /\ (points_to (maptbl s) x k \/ points_to (gtd s) x k)
                | None => True
                end)
             (pgs s).

(** Invariant 2 as garbage collection keeps it: the page may also be free,
    erased with its rmap entry left behind. *)
Definition map_inv2_erased (s : ssd) : Prop :=
  map_Forall (fun k st =>
                match rmap_at s k with
                | Some x =>
                    x <> INVALID_LPN ->
                    st = PG_FREE \/
                    (st = PG_VALID /\ (points_to (maptbl s) x k \/ points_to (gtd s) x k))
                | None => True
                end)
             (pgs s).

(** The sum of a block counter over the blocks of line [id]. *)
Definition line_sum (f : nand_block -> Z) (s : ssd) (id : Z) : Z :=
  foldr (fun cl acc =>
           match blks s !! (cl.1, cl.2, 0, id) with Some b => f b | None => 0 end + acc)
        0 (all_luns (sp s)).

(** Invariant 3: the counters of a line are the sums of those of its blocks.
    Lines listed in [skip] are left out. *)
Definition counters_ok (skip : option Z) (s : ssd) : Prop :=
  map_Forall (fun id l =>
                Some id <> skip ->
                l_vpc l = line_sum b_vpc s id /\ l_ipc l = line_sum b_ipc s id)
             (lines (lm s)).

Definition map_inv3 (s : ssd) : Prop := counters_ok None s.

(** Every LPN mapped in [s] is mapped in [s']. *)
Definition mapped_preserved (s s' : ssd) : Prop :=
  map_Forall (fun lpn p =>
                mapped_ppa p = true ->
                match maptbl s' !! lpn with
                | Some p' => mapped_ppa p' = true
                | None => False
                end)
             (maptbl s).

(** ** The state of a consistent device *)

(** The geometry [ssd_init_params] derives, one plane per LUN, within the
    widths of the bit-fields of [struct ppa]. *)
Definition geometry_ok (spp : ssdparams) : Prop :=
  0 < nchs spp <= 128 /\ 0 < luns_per_ch spp <= 255 /\ pls_per_lun spp = 1 /\
  0 < blks_per_pl spp <= 65536 /\ 0 < pgs_per_blk spp <= 65536 /\
  pgs_per_pl spp = pgs_per_blk spp * blks_per_pl spp /\
  pgs_per_lun spp = pgs_per_pl spp * pls_per_lun spp /\
  pgs_per_ch spp = pgs_per_lun spp * luns_per_ch spp /\
  tt_pgs spp = pgs_per_ch spp * nchs spp.

Definition key_in_range (spp : ssdparams) (k : pgkey) : Prop :=
  0 <= key_ch k < nchs spp /\ 0 <= key_lun k < luns_per_ch spp /\ key_pl k = 0 /\
  0 <= key_blk k < blks_per_pl spp /\ 0 <= key_pg k < pgs_per_blk spp.

Definition pgs_in_range (s : ssd) : Prop :=
  map_Forall (fun k _ => key_in_range (sp s) k) (pgs s).

Definition rmap_in_range (s : ssd) : Prop :=
  map_Forall (fun i _ => 0 <= i < tt_pgs (sp s)) (rmap s).

(** A line sits at the index that is its [id]. *)
Definition lines_indexed (s : ssd) : Prop :=
  map_Forall (fun id l => l_id l = id /\ 0 <= id < blks_per_pl (sp s)) (lines (lm s)).

Definition line_type_of (s : ssd) (blk : Z) : option line_type :=
  l_type <$> lines (lm s) !! blk.

(** The forward map belongs to the data lines and the GTD to the translation
    lines; each has its write pointer. *)
Definition tbl (ty : line_type) (s : ssd) : gmap Z ppa :=
  match ty with TRANS => gtd s | _ => maptbl s end.

Definition fr (ty : line_type) (s : ssd) : write_pointer :=
  match ty with TRANS => twp s | _ => wp s end.

(** The stages of a garbage collection: the victim line and its type, the
    block being cleaned with the number of its pages already dealt with, the
    blocks already erased, the write pointer that stands on a page just
    written, and the table entry being rewritten. *)
Record gc_mode : Type := mkmode {
  gm_victim : option Z;
  gm_vty : line_type;
  gm_cur : option (Z * Z * Z);
  gm_done : list (Z * Z);
  gm_strict : option line_type;
  gm_hole : option (line_type * Z)
}.

(** The pages of the victim that the collection has dealt with in the block
    being cleaned: nothing refers to them any more. *)
Definition exempt (m : gc_mode) (k : pgkey) : Prop :=
  match gm_cur m with
  | Some (c, l, i) =>
      Some (key_blk k) = gm_victim m /\ key_ch k = c /\ key_lun k = l /\ key_pg k < i
  | None => False
  end.

(** A mapped entry of the table addresses a valid page of a line of the
    table's type, not among the pages dealt with, and rmap leads back to the
    entry. The entry being rewritten is left out. *)
Definition table_ok (m : gc_mode) (ty : line_type) (s : ssd) : Prop :=
  map_Forall (fun x p =>
                Some (ty, x) <> gm_hole m -> mapped_ppa p = true ->
                ~ exempt m (pg_of p) /\
                pgs s !! pg_of p = Some PG_VALID /\
                rmap s !! ppa2pgidx (sp s) p = Some x /\
                line_type_of s (g_blk p) = Some ty)
             (tbl ty s).

(** Page [k] of a line of type [ty] is addressed by entry [x] of the table of
    that type. *)
Definition backed (m : gc_mode) (s : ssd) (ty : line_type) (x : Z) (k : pgkey) : Prop :=
  line_type_of s (key_blk k) = Some ty /\ Some (ty, x) <> gm_hole m /\
  points_to (tbl ty s) x k.

(** A valid page is addressed by the table of its line's type at its rmap
    entry; an invalid page has its rmap entry cleared. *)
Definition pages_ok (m : gc_mode) (s : ssd) : Prop :=
  map_Forall (fun k st =>
                ~ exempt m k ->
                (st = PG_VALID ->
                 match rmap_at s k with
                 | Some x => backed m s DATA x k \/ backed m s TRANS x k
                 | None => False
                 end) /\
                (st = PG_INVALID -> rmap_at s k = Some INVALID_LPN))
             (pgs s).

(** [k] is at or after (strictly after) the position of the write pointer in
    the order in which the pointer advances: channel first, then LUN, then
    page. *)
Definition pos_after (strict : bool) (w : write_pointer) (k : pgkey) : Prop :=
  wp_pg w < key_pg k \/
  (key_pg k = wp_pg w /\
   (wp_lun w < key_lun k \/
    (key_lun k = wp_lun w /\
     if strict then wp_ch w < key_ch k else wp_ch w <= key_ch k))).

(** The write pointer of type [ty] stands inside a line of that type that is
    neither the victim nor free, and the pages from the pointer on are
    free. *)
Definition frontier_ok (m : gc_mode) (ty : line_type) (s : ssd) : Prop :=
  let w := fr ty s in
  curline w = Some (wp_blk w) /\ wp_pl w = 0 /\
  0 <= wp_ch w < nchs (sp s) /\ 0 <= wp_lun w < luns_per_ch (sp s) /\
  0 <= wp_pg w < pgs_per_blk (sp s) /\
  line_type_of s (wp_blk w) = Some ty /\
  Some (wp_blk w) <> gm_victim m /\
  (wp_blk w ∉ free_line_list (lm s)) /\
  map_Forall (fun k st =>
                key_blk k = wp_blk w ->
                pos_after (bool_decide (gm_strict m = Some ty)) w k -> st = PG_FREE)
             (pgs s).

(** The free lines are listed once, hold free pages only, and the victim is
    not among them. *)
Definition free_ok (m : gc_mode) (s : ssd) : Prop :=
  NoDup (free_line_list (lm s)) /\
  Forall (fun id => Some id <> gm_victim m) (free_line_list (lm s)) /\
  map_Forall (fun k st => key_blk k ∈ free_line_list (lm s) -> st = PG_FREE) (pgs s).

(** The victim has the type recorded when it was chosen; its erased blocks
    hold free pages only and count none. *)
Definition victim_ok (m : gc_mode) (s : ssd) : Prop :=
  (forall v, gm_victim m = Some v -> line_type_of s v = Some (gm_vty m)) /\
  map_Forall (fun k st =>
                Some (key_blk k) = gm_victim m -> (key_ch k, key_lun k) ∈ gm_done m ->
                st = PG_FREE)
             (pgs s) /\
  map_Forall (fun bk b =>
                Some bk.2 = gm_victim m -> bk.1.2 = 0 ->
                (bk.1.1.1, bk.1.1.2) ∈ gm_done m ->
                b_vpc b = 0 /\ b_ipc b = 0)
             (blks s).

Definition inv (m : gc_mode) (s : ssd) : Prop :=
  geometry_ok (sp s) /\ pgs_in_range s /\ rmap_in_range s /\ lines_indexed s /\
  table_ok m DATA s /\ table_ok m TRANS s /\ pages_ok m s /\
  counters_ok (gm_victim m) s /\
  frontier_ok m DATA s /\ frontier_ok m TRANS s /\
  free_ok m s /\ victim_ok m s.

(** No collection under way. *)
Definition quiet : gc_mode := mkmode None NONE None [] None None.

(** What the invariant reads of the context: not the LUN clocks, the CMT,
    the statistics and the log, and of the line management neither the
    victim queue with the positions it stores in the lines, nor the list of
    full lines, nor the counts. *)
Definition view (s : ssd) : ssd :=
  {| sp := sp s; luns := ∅; blks := blks s; pgs := pgs s; maptbl := maptbl s;
     rmap := rmap s; gtd := gtd s;
     lm := mklm (victim_line_set_pos 0 <$> lines (lm s)) (free_line_list (lm s))
                [] [] 0 0 0 0;
     wp := wp s; twp := twp s; cm := mkcm ∅ [] [] ∅ 0 0 0; stat := mkstat 0 0 0;
     clock_reads := O; nand_log := [] |}.

Definition gc_inv (m : gc_mode) (s : ssd) : Prop := inv m (view s).

(** The lines queued as victims are neither free nor under a write
    pointer. *)
Definition victims_ok (s : ssd) : Prop :=
  Forall (fun x => (x ∉ free_line_list (lm s)) /\ x <> wp_blk (wp s) /\
                   x <> wp_blk (twp s))
         (victim_line_pq (lm s)).

(** A consistent device between two operations. *)
Definition gc_ready (s : ssd) : Prop := gc_inv quiet s /\ victims_ok s.

#[global] Instance match_option_dec {A} (o : option A) (P : A -> Prop) (Q : Prop)
  `{!forall x, Decision (P x)} `{!Decision Q} :
  Decision (match o with Some x => P x | None => Q end).
Proof. destruct o; apply _. Defined.

#[global] Instance exempt_dec (m : gc_mode) (k : pgkey) : Decision (exempt m k).
Proof. unfold exempt. destruct (gm_cur m) as [[[c l] i]|]; apply _. Defined.

#[global] Instance pos_after_dec (b : bool) (w : write_pointer) (k : pgkey) :
  Decision (pos_after b w k).
Proof. unfold pos_after. destruct b; apply _. Defined.

#[global] Instance inv_dec (m : gc_mode) (s : ssd) : Decision (inv m s).
Proof.
  assert (forall v : Z, Decision (gm_victim m = Some v -> line_type_of s v = Some (gm_vty m))).
  { intros v. apply _. }
  assert (Decision (forall v, gm_victim m = Some v -> line_type_of s v = Some (gm_vty m))).
  { destruct (gm_victim m) as [v|].
    - destruct (decide (line_type_of s v = Some (gm_vty m))) as [e|n].
      + left. intros ? [= <-]. exact e.
      + right. intros Hx. apply n, Hx. reflexivity.
    - left. intros ? [=]. }
  unfold inv, geometry_ok, pgs_in_range, key_in_range, rmap_in_range,
    lines_indexed, table_ok, pages_ok, counters_ok, frontier_ok, free_ok, victim_ok,
    backed, points_to.
  simpl. apply _.
Defined.

#[global] Instance gc_ready_dec (s : ssd) : Decision (gc_ready s).
Proof. unfold gc_ready, gc_inv, victims_ok. apply _. Defined.

#[global] Instance map_inv1_dec (s : ssd) : Decision (map_inv1 s).
Proof. unfold map_inv1. apply _. Defined.

#[global] Instance map_inv2_dec (s : ssd) : Decision (map_inv2 s).
Proof. unfold map_inv2, points_to. apply _. Defined.

#[global] Instance map_inv2_erased_dec (s : ssd) : Decision (map_inv2_erased s).
Proof. unfold map_inv2_erased, points_to. apply _. Defined.

#[global] Instance map_inv3_dec (s : ssd) : Decision (map_inv3 s).
Proof. unfold map_inv3, counters_ok. apply _. Defined.

#[global] Instance mapped_preserved_dec (s s' : ssd) : Decision (mapped_preserved s s').
Proof. unfold mapped_preserved. apply _. Defined.

(** ** Updates of the view *)

Definition blk_key (k : pgkey) : Z * Z * Z * Z := (key_ch k, key_lun k, key_pl k, key_blk k).

Definition bump_line (dv di : Z) (l : line) : line :=
  mkline (l_id l) (l_ipc l + di) (l_vpc l + dv) (l_pos l) (l_type l).

Definition bump_blk (dv di : Z) (b : nand_block) : nand_block :=
  mkblk (b_ipc b + di) (b_vpc b + dv) (b_erase_cnt b).

(** Page [k] takes status [st]; the counters of its block and of its line
    move by [dv] valid and [di] invalid pages. *)
Definition upd_page (k : pgkey) (st : pg_status) (dv di : Z) (a : ssd) : ssd :=
  with_lm (with_lines (alter (bump_line dv di) (key_blk k) (lines (lm a))) (lm a))
    (with_blks (alter (bump_blk dv di) (blk_key k) (blks a))
       (with_pgs (<[k := st]> (pgs a)) a)).

Definition upd_tbl (ty : line_type) (x : Z) (p : ppa) (a : ssd) : ssd :=
  match ty with
  | TRANS => with_gtd (<[x := p]> (gtd a)) a
  | _ => with_maptbl (<[x := p]> (maptbl a)) a
  end.

Definition upd_rmap (i x : Z) (a : ssd) : ssd := with_rmap (<[i := x]> (rmap a)) a.

Definition upd_fr (ty : line_type) (w : write_pointer) (a : ssd) : ssd :=
  match ty with TRANS => with_twp w a | _ => with_wp w a end.

(** The write pointer of type [ty] moves to the first free line [nl]. *)
Definition next_line (ty : line_type) (nl : Z) (a : ssd) : ssd :=
  upd_fr ty (mkwp (Some nl) 0 0 0 nl (wp_pl (fr ty a)))
    (with_lm (with_free_lines (tail (free_line_list (lm a))) 0
                (with_lines (alter (line_with_type ty) nl (lines (lm a))) (lm a))) a).

(** The victim [v] joins the free lines. *)
Definition release_line (v : Z) (a : ssd) : ssd :=
  with_lm (with_free_lines (free_line_list (lm a) ++ [v]) 0
             (with_lines (alter (fun l => mkline (l_id l) 0 0 (l_pos l) NONE) v
                                (lines (lm a))) (lm a))) a.

(** The position after [w] inside its line. *)
Definition succ_pos (spp : ssdparams) (w : write_pointer) : write_pointer :=
  if bool_decide (wp_ch w + 1 = nchs spp) then
    if bool_decide (wp_lun w + 1 = luns_per_ch spp) then
      mkwp (curline w) 0 0 (wp_pg w + 1) (wp_blk w) (wp_pl w)
    else mkwp (curline w) 0 (wp_lun w + 1) (wp_pg w) (wp_blk w) (wp_pl w)
  else mkwp (curline w) (wp_ch w + 1) (wp_lun w) (wp_pg w) (wp_blk w) (wp_pl w).

(** The write pointer stands on the last page of its line. *)
Definition last_pos (spp : ssdparams) (w : write_pointer) : Prop :=
  wp_ch w + 1 = nchs spp /\ wp_lun w + 1 = luns_per_ch spp /\
  wp_pg w + 1 = pgs_per_blk spp.

(** Block [bk] is erased: its [n] pages are free and its counters zero. *)
Definition erase_block (bk : Z * Z * Z * Z) (n : Z) (a : ssd) : ssd :=
  with_blks (alter (fun b => mkblk 0 0 (b_erase_cnt b + 1)) bk (blks a))
    (with_pgs (map_imap (fun (k : pgkey) st =>
                           Some (if bool_decide (k.1 = bk /\ 0 <= k.2 < n)
                                 then PG_FREE else st))
                        (pgs a)) a).

(** The page under the write pointer. *)
Definition fr_key (w : write_pointer) : pgkey :=
  (wp_ch w, wp_lun w, 0, wp_blk w, wp_pg w).

(** Entry [x] of the table of type [ty] is given the page under the write
    pointer of that type, which becomes valid. *)
Definition alloc (ty : line_type) (x : Z) (a : ssd) : ssd :=
  let w := fr ty a in
  upd_page (fr_key w) PG_VALID 1 0
    (upd_rmap (pgidx_of (sp a) (fr_key w)) x
       (upd_tbl ty x (new_ppa (wp_ch w) (wp_lun w) (wp_pg w) (wp_blk w) (wp_pl w)) a)).

Definition with_cur (c : option (Z * Z * Z)) (m : gc_mode) : gc_mode :=
  mkmode (gm_victim m) (gm_vty m) c (gm_done m) (gm_strict m) (gm_hole m).
Definition with_strict (t : option line_type) (m : gc_mode) : gc_mode :=
  mkmode (gm_victim m) (gm_vty m) (gm_cur m) (gm_done m) t (gm_hole m).
Definition with_hole (h : option (line_type * Z)) (m : gc_mode) : gc_mode :=
  mkmode (gm_victim m) (gm_vty m) (gm_cur m) (gm_done m) (gm_strict m) h.
Definition with_done (d : list (Z * Z)) (m : gc_mode) : gc_mode :=
  mkmode (gm_victim m) (gm_vty m) (gm_cur m) d (gm_strict m) (gm_hole m).

(** A translation page is superseded: it becomes invalid and loses its rmap
    entry. *)
Definition invalidate (old : ppa) (a : ssd) : ssd :=
  upd_rmap (ppa2pgidx (sp a) old) INVALID_LPN (upd_page (pg_of old) PG_INVALID (-1) 1 a).

(** ** Consistency between requests *)

#[global] Instance geometry_ok_dec (spp : ssdparams) : Decision (geometry_ok spp).
Proof. unfold geometry_ok. apply _. Defined.

#[global] Instance rmap_in_range_dec (s : ssd) : Decision (rmap_in_range s).
Proof. unfold rmap_in_range. apply _. Defined.

(** The addresses the FTL stores are page addresses: sector 0. With a page of
    at least one sector they pass the sector test of [valid_ppa]. *)
Definition sec_ok (s : ssd) : Prop :=
  0 < secs_per_pg (sp s) /\
  map_Forall (fun _ p => mapped_ppa p = true -> g_sec p = 0) (maptbl s) /\
  map_Forall (fun _ p => mapped_ppa p = true -> g_sec p = 0) (gtd s).

#[global] Instance sec_ok_dec (s : ssd) : Decision (sec_ok s).
Proof. unfold sec_ok. apply _. Defined.

(** A consistent device as the host paths need it. *)
Definition steady (s : ssd) : Prop := gc_inv quiet s /\ sec_ok s.

#[global] Instance steady_dec (s : ssd) : Decision (steady s).
Proof. unfold steady, gc_inv. apply _. Defined.

(** From [s] to [s'] the page size is unchanged and every mapped table entry
    is either an entry of [s] or a page address. *)
Definition sec_step (s s' : ssd) : Prop :=
  sp s' = sp s /\
  (forall x p, maptbl s' !! x = Some p -> mapped_ppa p = true ->
               g_sec p = 0 \/ maptbl s !! x = Some p) /\
  (forall x p, gtd s' !! x = Some p -> mapped_ppa p = true ->
               g_sec p = 0 \/ gtd s !! x = Some p).

(** ** The lines between the queues *)

(** Line [x] exists and satisfies [P]. *)
Definition line_has (a : ssd) (x : Z) (P : line -> Prop) : Prop :=
  match lines (lm a) !! x with Some l => P l | None => False end.

#[global] Instance line_has_dec (a : ssd) (x : Z) (P : line -> Prop)
  `{!forall l, Decision (P l)} : Decision (line_has a x P).
Proof. unfold line_has. destruct (lines (lm a) !! x); apply _. Defined.

(** The number of pages of its line that the write pointer has passed. *)
Definition wp_pos (spp : ssdparams) (w : write_pointer) : Z :=
  (wp_pg w * luns_per_ch spp + wp_lun w) * nchs spp + wp_ch w.

(** The write pointer stands inside its line, which is not free and counts as
    many pages as the pointer has passed, one more when the page under the
    pointer has just been written ([pend]). *)
Definition wp_ok (pend : bool) (a : ssd) (w : write_pointer) : Prop :=
  curline w = Some (wp_blk w) /\
  0 <= wp_ch w < nchs (sp a) /\ 0 <= wp_lun w < luns_per_ch (sp a) /\
  0 <= wp_pg w < pgs_per_blk (sp a) /\
  (wp_blk w ∉ free_line_list (lm a)) /\
  line_has a (wp_blk w)
    (fun l => l_vpc l + l_ipc l = wp_pos (sp a) w + (if pend then 1 else 0)).

#[global] Instance wp_ok_dec (pend : bool) (a : ssd) (w : write_pointer) :
  Decision (wp_ok pend a w).
Proof. unfold wp_ok. apply _. Defined.

(** The lines set aside: those queued as victims and the one being
    collected. *)
Definition set_aside (victim : option Z) (q : list Z) : list Z := q ++ option_list victim.

(** The line manager between two steps: a line is one block of every LUN;
    no line counts a negative number of invalid pages; the two write
    pointers stand in different lines; the free lines are listed once and
    count no page; the lines set aside are listed once, are neither free nor
    under a write pointer, and are not full. *)
Definition qinv (victim : option Z) (pend : option line_type) (a : ssd) (q : list Z) : Prop :=
  geometry_ok (sp a) /\
  pgs_per_line (sp a) = pgs_per_blk (sp a) * (luns_per_ch (sp a) * nchs (sp a)) /\
  lines_indexed a /\
  map_Forall (fun _ l => 0 <= l_ipc l) (lines (lm a)) /\
  wp_ok (bool_decide (pend = Some DATA)) a (wp a) /\
  wp_ok (bool_decide (pend = Some TRANS)) a (twp a) /\
  wp_blk (wp a) <> wp_blk (twp a) /\
  NoDup (free_line_list (lm a)) /\
  Forall (fun x => line_has a x (fun l => l_vpc l + l_ipc l = 0)) (free_line_list (lm a)) /\
  NoDup (set_aside victim q) /\
  Forall (fun x => (x ∉ free_line_list (lm a)) /\ x <> wp_blk (wp a) /\ x <> wp_blk (twp a) /\
                   line_has a x (fun l => l_vpc l < pgs_per_line (sp a)))
         (set_aside victim q).

#[global] Instance qinv_dec victim pend a q : Decision (qinv victim pend a q).
Proof. unfold qinv. apply _. Defined.

Definition queue_ok (victim : option Z) (pend : option line_type) (s : ssd) : Prop :=
  qinv victim pend (view s) (victim_line_pq (lm s)).

#[global] Instance queue_ok_dec victim pend s : Decision (queue_ok victim pend s).
Proof. unfold queue_ok. apply _. Defined.

(** A device between two requests: the maps, the pages and the counters
    agree, the stored addresses name whole pages, and the lines are where the
    line manager expects them. *)
Definition consistent (s : ssd) : Prop :=
  gc_inv quiet s /\ sec_ok s /\ queue_ok None None s.

#[global] Instance consistent_dec (s : ssd) : Decision (consistent s).
Proof. unfold consistent. apply _. Defined.

(** A run from [s] to [s'] that keeps the line manager in order. *)
Definition queue_step (victim : option Z) (s s' : ssd) : Prop :=
  queue_ok victim None s -> queue_ok victim None s'.

(** The LPN is mapped to a valid page whose rmap entry is the LPN. *)
Definition stored (s : ssd) (lpn : Z) : Prop :=
  exists p, maptbl s !! lpn = Some p /\ mapped_ppa p = true /\
            pgs s !! pg_of p = Some PG_VALID /\ rmap s !! ppa2pgidx (sp s) p = Some lpn.

#[global] Instance stored_dec (s : ssd) (lpn : Z) : Decision (stored s lpn).
Proof.
  unfold stored. destruct (maptbl s !! lpn) as [p|] eqn:E.
  - destruct (decide (mapped_ppa p = true /\ pgs s !! pg_of p = Some PG_VALID /\
                      rmap s !! ppa2pgidx (sp s) p = Some lpn)) as [H|H].
    + left. by exists p.
    + right. intros (q & [= <-] & Hq). by apply H.
  - right. by intros (q & Hq & _).
Defined.

(** ** A reduced device *)

(** The same FTL on a small array, on which runs can be replayed step by
    step: 2 channels of 1 LUN of 1 plane of 4 blocks of 2 pages, 2 mapping
    entries per translation page. A line is 4 pages, there are 4 lines, 16
    pages, 8 translation pages and 4 CMT entries; the thresholds are the
    truncations of 0.25 * 4 and of 0.05 * 4. *)
Definition small_env : femu_env :=
  {| CMT_HASH_SIZE := 5;
     NAND_READ_LATENCY := 40000;
     NAND_PROG_LATENCY := 200000;
     NAND_ERASE_LATENCY := 2000000;
     qemu_clock_get_ns := fun n => 1000000 + Z.of_nat n |}.

Definition small_consts : nand_consts :=
  {| c_secs_per_pg := 8; c_pgs_per_blk := 2; c_blks_per_pl := 4;
     c_pls_per_lun := 1; c_luns_per_ch := 1; c_nchs := 2;
     c_pg_rd_lat := 40000; c_pg_wr_lat := 200000; c_blk_er_lat := 2000000;
     c_gc_thres_lines := 1; c_gc_thres_lines_high := 0;
     c_ents_per_pg := 2 |}.

Definition small_params : ssdparams := ssd_init_params_from small_consts.

Definition small_ssd : result ssd := ssd_init_with (env := small_env) small_params.

(** A request on whole pages: [n] pages from page [lpn], submitted at time
    [t]. *)
Definition page_req (op lpn n t : Z) : NvmeRequest := mkreq op (lpn * 8) (n * 8) t 0 0.

(** The device after the worker has served [reqs] from power-on. *)
Definition small_after (reqs : list NvmeRequest) : result ssd :=
  s ← small_ssd;
  '(s, _, _) ← ftl_thread (env := small_env) 4 (s, 0) reqs;
  Ok s.

(** Opcode and reported latency of the completions the worker enqueues for
    [reqs] from power-on, most recent first. *)
Definition small_completions (reqs : list NvmeRequest) : result (list (Z * Z)) :=
  s ← small_ssd;
  r ← ftl_thread (env := small_env) 4 (s, 0) reqs;
  Ok (map (fun d : NvmeRequest => (opcode d, reqlat d)) r.2).

(** The context of a run that is known to succeed. *)
Definition empty_ssd : ssd :=
  mkssd small_params ∅ ∅ ∅ ∅ ∅ ∅ (mklm ∅ [] [] [] 0 0 0 0) (mkwp None 0 0 0 0 0)
        (mkwp None 0 0 0 0 0) (mkcm ∅ [] [] ∅ 0 0 0) (mkstat 0 0 0) O [].

Definition force (r : result ssd) : ssd :=
  match r with Ok s => s | Err _ => empty_ssd end.

Definition force_lat (r : result (Z * ssd)) : Z * ssd :=
  match r with Ok x => x | Err _ => (0, empty_ssd) end.

(** The reduced device at power-on. *)
Definition small0 : ssd := force small_ssd.

(** The reduced device after pages 0 to 3 and then page 4 were written: the
    CMT is full, and making room for page 4 has written the translation page
    of pages 0 and 1. *)
Definition small_filled : ssd :=
  force (small_after [page_req NVME_CMD_WRITE 0 4 5000; page_req NVME_CMD_WRITE 4 1 5000]).

(** The reduced device after pages 0 to 3 were written and page 0 was then
    overwritten: line 0 holds three valid pages and one invalid page, and is
    queued as a victim. *)
Definition small_gc_pre : ssd :=
  (force_lat (ssd_write (env := small_env) 4
                (force (small_after [page_req NVME_CMD_WRITE 0 4 5000]))
                (page_req NVME_CMD_WRITE 0 1 5000))).2.

(** The same device after one cycle of garbage collection. *)
Definition small_gc_post : ssd := (force_lat (do_gc (env := small_env) small_gc_pre false)).2.

(** The reduced device after pages 0 to 3 were written and page 0 was then
    written four more times, each time by a call of [ssd_write] with no
    background collection in between: line 2 is full as well, lines 0 and 2
    are queued as victims, the write pointer is on line 3 and no line is
    free. *)
Definition small_full : ssd :=
  let again (s : ssd) : ssd :=
    (force_lat (ssd_write (env := small_env) 4 s (page_req NVME_CMD_WRITE 0 1 5000))).2 in
  again (again (again small_gc_pre)).

(** The run of the worker on the reduced device from power-on: three writes,
    the second and third over pages already written, a read of the four
    pages and a write of two more. Both garbage collections take place. *)
Definition small_reqs : list NvmeRequest :=
  [page_req NVME_CMD_WRITE 0 4 5000; page_req NVME_CMD_WRITE 0 1 5000;
   page_req NVME_CMD_WRITE 1 1 6000; page_req NVME_CMD_READ 0 4 7000;
   page_req NVME_CMD_WRITE 2 2 8000].

Definition small_run : ssd * Z * list NvmeRequest :=
  match ftl_thread (env := small_env) 4 (small0, 0) small_reqs with
  | Ok x => x
  | Err _ => (empty_ssd, 0, [])
  end.

(** The reduced device after page 0 of [small_filled] is written once
    more. *)
Definition small_rewritten : ssd * Z :=
  match write_lpn (env := small_env) (page_req NVME_CMD_WRITE 0 1 5000) (small_filled, 0) 0 with
  | Ok x => x
  | Err _ => (empty_ssd, 0)
  end.

(** * Properties *)

(** ** Reasoning about results *)

Lemma bind_Ok {A B} (k : A -> result B) (r : result A) (b : B) :
  r ≫= k = Ok b -> exists a, r = Ok a /\ k a = Ok b.
Proof. destruct r as [a|e]; simpl; [eauto | discriminate]. Qed.

Lemma of_option_Ok {A} (e : fault) (o : option A) (a : A) :
  of_option e o = Ok a -> o = Some a.
Proof. destruct o; simpl; congruence. Qed.

Lemma arr_get_Ok `{Countable K} {V} (a : gmap K V) (i : K) (v : V) :
  arr_get a i = Ok v -> a !! i = Some v.
Proof. apply of_option_Ok. Qed.

Lemma arr_set_Ok `{Countable K} {V} (a : gmap K V) (i : K) (v : V) (a' : gmap K V) :
  arr_set a i v = Ok a' -> is_Some (a !! i) /\ a' = <[i := v]> a.
Proof. unfold arr_set. destruct (a !! i) eqn:E; [|discriminate]. intros [= <-]. eauto. Qed.

Lemma Ok_inj {A} (a b : A) : Ok a = Ok b -> a = b.
Proof. congruence. Qed.

(** Splits a hypothesis [... = Ok _] along the binds, array accesses and
    pattern-matching lets it is made of. *)
Ltac inv_ok1 :=
  match goal with
  | H : Ok _ = Ok _ |- _ => apply Ok_inj in H; try subst
  | H : Err _ = Ok _ |- _ => discriminate H
  | H : (_, _) = (_, _) |- _ =>
      first [ discriminate H | injection H; clear H; intros; try subst ]
  | H : mbind _ _ = Ok _ |- _ =>
      let a := fresh "a" in let Ha := fresh "Ha" in
      apply bind_Ok in H; destruct H as (a & Ha & H)
  | H : arr_get _ _ = Ok _ |- _ => apply arr_get_Ok in H
  | H : arr_set _ _ _ = Ok _ |- _ =>
      let Hs := fresh "Hs" in apply arr_set_Ok in H; destruct H as [Hs H]; try subst
  | H : of_option _ _ = Ok _ |- _ => apply of_option_Ok in H
  | H : (let '(_, _) := ?x in _) = Ok _ |- _ =>
      first [ is_var x; destruct x | let E := fresh "E" in destruct x eqn:E ]
  end.
Ltac inv_ok := repeat first [ inv_ok1 | progress cbv beta in * ].

(** The same, also splitting along the conditionals. *)
Ltac case_ok :=
  match goal with
  | H : (if ?b then _ else _) = Ok _ |- _ => destruct b eqn:?
  | H : match ?x with _ => _ end = Ok _ |- _ =>
      first [ is_var x; destruct x | destruct x eqn:? ]
  end.
Ltac inv_cases := repeat first [ inv_ok1 | progress cbv beta in * | case_ok ].

(** ** Footprints compose *)

Lemma frame_refl (ch : list field) (s : ssd) : frame ch s s.
Proof. unfold frame; tauto. Qed.

Lemma frame_trans (ch : list field) (s1 s2 s3 : ssd) :
  frame ch s1 s2 -> frame ch s2 s3 -> frame ch s1 s3.
Proof.
  unfold frame. intros (A0&A1&A2&A3&A4&A5&A6&A7&A8&A9&A10&A11&A12) (B0&B1&B2&B3&B4&B5&B6&B7&B8&B9&B10&B11&B12).
  repeat split; intros;
    repeat match goal with
           | Hx : touched ?f ch = false, H : touched ?f ch = false -> _ |- _ =>
               specialize (H Hx)
           | H : _ /\ _ |- _ => destruct H
           end; congruence.
Qed.

Lemma frame_mono (ch ch' : list field) (s s' : ssd) :
  (forall f, touched f ch = true -> touched f ch' = true) ->
  frame ch s s' -> frame ch' s s'.
Proof.
  intros Hsub (A0&A1&A2&A3&A4&A5&A6&A7&A8&A9&A10&A11&A12).
  assert (Hn : forall f, touched f ch' = false -> touched f ch = false).
  { intros f Hf. destruct (touched f ch) eqn:E; [|done]. by rewrite (Hsub f E) in Hf. }
  unfold frame; repeat split; intros;
    repeat match goal with
           | Hx : touched ?f ch' = false, H : touched ?f ch = false -> _ |- _ =>
               specialize (H (Hn _ Hx))
           | H : _ /\ _ |- _ => destruct H
           end; congruence.
Qed.

(** Proves [frame ch s s'] when [s'] is an explicit update of [s]. *)
Ltac frame_here :=
  unfold frame; simpl; repeat split; intros; try split;
  first [ reflexivity | discriminate | congruence ].

(** Widens the footprint of a hypothesis to the footprint of the goal. *)
Ltac frame_widen :=
  eapply frame_mono; cycle 1; [ eassumption | intros []; simpl; congruence ].

(** Follows the hypotheses [frame _ s a], [frame _ a b], ... from the initial
    to the final context of the goal, through explicit updates in between. *)
Ltac frame_chain :=
  first
    [ apply frame_refl
    | frame_here
    | match goal with
      | H : frame _ ?src ?dst |- frame _ ?s _ =>
          apply (frame_trans _ s src); [ first [ apply frame_refl | frame_here ] | ];
          apply (frame_trans _ src dst);
          [ eapply frame_mono; [ | exact H ]; intros []; simpl; congruence | ];
          clear H; frame_chain
      end ].

Lemma for_each_rel {A S : Type} (R : S -> S -> Prop) (f : S -> A -> result S) :
  (forall s, R s s) -> (forall s1 s2 s3, R s1 s2 -> R s2 s3 -> R s1 s3) ->
  forall l s s',
    (forall s1 x s2, x ∈ l -> f s1 x = Ok s2 -> R s1 s2) ->
    for_each f l s = Ok s' -> R s s'.
Proof.
  intros Hrefl Htrans l. induction l as [|x l IH]; intros s s' Hf Hrun; simpl in Hrun.
  - injection Hrun as <-. apply Hrefl.
  - apply bind_Ok in Hrun as (s1 & H1 & Hrun).
    eapply Htrans.
    + eapply Hf; [left | exact H1].
    + eapply IH; [|exact Hrun]. intros ??? Hin. eapply Hf. by right.
Qed.

Lemma for_each_frame {A S : Type} (proj : S -> ssd) (ch : list field)
    (f : S -> A -> result S) (l : list A) (st st' : S) :
  (forall st1 x st2, f st1 x = Ok st2 -> frame ch (proj st1) (proj st2)) ->
  for_each f l st = Ok st' -> frame ch (proj st) (proj st').
Proof.
  intros Hf. apply (for_each_rel (fun a b => frame ch (proj a) (proj b)));
    [ intros; apply frame_refl | intros ???; apply frame_trans | eauto ].
Qed.

Lemma for_each_counts {A S : Type} (proj : S -> ssd)
    (f : S -> A -> result S) (l : list A) (st st' : S) :
  (forall st1 x st2, f st1 x = Ok st2 -> cmt_counts (proj st2) = cmt_counts (proj st1)) ->
  for_each f l st = Ok st' -> cmt_counts (proj st') = cmt_counts (proj st).
Proof.
  intros Hf. apply (for_each_rel (fun a b => cmt_counts (proj b) = cmt_counts (proj a)));
    [ done | intros ??? -> ->; done | eauto ].
Qed.

Section properties.
Context {env : femu_env}.

(** ** Footprints of the operations *)

Lemma ssd_advance_status_frame s p c lat s' :
  ssd_advance_status s p c = Ok (lat, s') -> frame [Fluns; Flog] s s'.
Proof.
  unfold ssd_advance_status. intros H.
  destruct (bool_decide (nc_stime c = 0)); inv_ok;
    destruct (op_latency _ _); inv_ok; frame_here.
Qed.

Lemma set_maptbl_ent_frame s lpn p s' :
  set_maptbl_ent s lpn p = Ok s' -> frame [Fmaptbl] s s'.
Proof. unfold set_maptbl_ent. intros H. inv_ok. frame_here. Qed.

Lemma set_gtd_ent_frame s tvpn p s' :
  set_gtd_ent s tvpn p = Ok s' -> frame [Fgtd] s s'.
Proof. unfold set_gtd_ent. intros H. inv_ok. frame_here. Qed.

Lemma set_rmap_ent_frame s lpn p s' :
  set_rmap_ent s lpn p = Ok s' -> frame [Frmap] s s'.
Proof. unfold set_rmap_ent. intros H. inv_ok. frame_here. Qed.

Lemma mark_page_invalid_frame s p s' :
  mark_page_invalid s p = Ok s' -> frame [Fpgs; Fblks; Flm] s s'.
Proof.
  unfold mark_page_invalid, get_pg, get_blk, get_line. intros H. inv_ok. frame_here.
Qed.

Lemma mark_page_valid_frame s p s' :
  mark_page_valid s p = Ok s' -> frame [Fpgs; Fblks; Flm] s s'.
Proof.
  unfold mark_page_valid, get_pg, get_blk, get_line. intros H. inv_ok. frame_here.
Qed.

Lemma mark_block_free_frame s p s' :
  mark_block_free s p = Ok s' -> frame [Fpgs; Fblks] s s'.
Proof.
  unfold mark_block_free, get_blk. intros H. inv_ok.
  eapply frame_trans; [eapply (for_each_rel (frame [Fpgs; Fblks]));
    [apply frame_refl | apply frame_trans | | eassumption];
     intros s1 x s2 _ Hx; inv_ok; frame_here
    | frame_here ].
Qed.

Lemma advance_write_pointer_frame get set ty f s s' :
  (forall w s0, frame [f] s0 (set w s0)) ->
  advance_write_pointer get set ty s = Ok s' -> frame [Flm; f] s s'.
Proof.
  intros Hset. unfold advance_write_pointer. intros H.
  assert (Hset' : forall w s0, frame [Flm; f] s0 (set w s0)).
  { intros w s0. eapply frame_mono; [|apply Hset].
    intros []; simpl; destruct f; simpl; congruence. }
  repeat match type of H with
         | (if ?b then _ else _) = _ => destruct b
         | Ok _ = Ok _ => apply Ok_inj in H; subst s'
         end; try apply Hset'.
  inv_ok. destruct o; [|discriminate]. inv_ok.
  unfold get_next_free_line in E. simpl in E.
  destruct (qtailq_first _); inv_ok.
  eapply frame_trans; [|apply Hset']. frame_here.
Qed.

Lemma ssd_advance_write_pointer_frame s s' :
  ssd_advance_write_pointer s = Ok s' -> frame [Flm; Fwp] s s'.
Proof. apply advance_write_pointer_frame. intros; frame_here. Qed.

Lemma ssd_advance_trans_write_pointer_frame s s' :
  ssd_advance_trans_write_pointer s = Ok s' -> frame [Flm; Ftwp] s s'.
Proof. apply advance_write_pointer_frame. intros; frame_here. Qed.

Lemma cmt_hit_frame s lpn r s' :
  cmt_hit s lpn = Ok (r, s') -> frame [Fcm] s s'.
Proof.
  unfold cmt_hit. intros H. inv_ok. destruct a; inv_ok; frame_here.
Qed.

(** Turns a hypothesis on the run of an operation into its footprint. *)
Ltac frame_of H :=
  first [ apply ssd_advance_status_frame in H
        | apply set_maptbl_ent_frame in H
        | apply set_gtd_ent_frame in H
        | apply set_rmap_ent_frame in H
        | apply mark_page_invalid_frame in H
        | apply mark_page_valid_frame in H
        | apply mark_block_free_frame in H
        | apply ssd_advance_write_pointer_frame in H
        | apply ssd_advance_trans_write_pointer_frame in H
        | apply cmt_hit_frame in H ].

Ltac frames :=
  repeat match goal with H : _ = Ok _ |- _ => frame_of H end; frame_chain.

Lemma translation_page_new_write_frame s tvpn lat s' :
  translation_page_new_write s tvpn = Ok (lat, s') ->
  frame [Fluns; Flog; Fblks; Fpgs; Frmap; Fgtd; Flm; Ftwp] s s'.
Proof. unfold translation_page_new_write. intros H. inv_ok. frames. Qed.

Lemma translation_page_write_frame s p lat s' :
  translation_page_write s p = Ok (lat, s') ->
  frame [Fluns; Flog; Fblks; Fpgs; Frmap; Fgtd; Flm; Ftwp] s s'.
Proof.
  unfold translation_page_write, get_rmap_ent. intros H. inv_ok.
  destruct (mapped_ppa p); inv_ok; frames.
Qed.

Lemma insert_entry_to_cmt_frame s lpn ppn s' :
  insert_entry_to_cmt s lpn ppn = Ok s' -> frame [Fcm] s s'.
Proof. unfold insert_entry_to_cmt. intros H. inv_ok. frame_here. Qed.

Ltac frame_of H ::=
  first [ apply ssd_advance_status_frame in H
        | apply set_maptbl_ent_frame in H
        | apply set_gtd_ent_frame in H
        | apply set_rmap_ent_frame in H
        | apply mark_page_invalid_frame in H
        | apply mark_page_valid_frame in H
        | apply mark_block_free_frame in H
        | apply ssd_advance_write_pointer_frame in H
        | apply ssd_advance_trans_write_pointer_frame in H
        | apply cmt_hit_frame in H
        | apply translation_page_new_write_frame in H
        | apply translation_page_write_frame in H
        | apply insert_entry_to_cmt_frame in H ].

Lemma evict_entry_from_cmt_frame s s' :
  evict_entry_from_cmt s = Ok s' ->
  frame [Fluns; Flog; Fblks; Fpgs; Frmap; Fgtd; Flm; Ftwp; Fcm] s s'.
Proof.
  unfold evict_entry_from_cmt, translation_page_read_no_req, get_gtd_ent.
  intros H. inv_ok.
  assert (Hs : frame [Fluns; Flog; Fblks; Fpgs; Frmap; Fgtd; Flm; Ftwp; Fcm] s a1).
  { destruct (bool_decide (e_dirty a0 = DIRTY)); inv_ok; [|frame_here].
    destruct (negb (mapped_ppa a2) || negb (valid_ppa _ a2)); inv_ok;
      clear Ha2; frames. }
  eapply frame_trans; [exact Hs|].
  unfold delete_cmt_hashnode in Ha2. inv_ok.
  destruct a3; [discriminate|].
  repeat match type of Ha2 with
         | (if ?b then _ else _) = _ => destruct b
         end; inv_ok; frame_here.
Qed.

Ltac frame_of H ::=
  first [ apply ssd_advance_status_frame in H
        | apply set_maptbl_ent_frame in H
        | apply set_gtd_ent_frame in H
        | apply set_rmap_ent_frame in H
        | apply mark_page_invalid_frame in H
        | apply mark_page_valid_frame in H
        | apply mark_block_free_frame in H
        | apply ssd_advance_write_pointer_frame in H
        | apply ssd_advance_trans_write_pointer_frame in H
        | apply cmt_hit_frame in H
        | apply translation_page_new_write_frame in H
        | apply translation_page_write_frame in H
        | apply insert_entry_to_cmt_frame in H
        | apply evict_entry_from_cmt_frame in H ].

Lemma cmt_make_room_and_insert_frame s lpn ppn s' :
  cmt_make_room_and_insert s lpn ppn = Ok s' ->
  frame [Fluns; Flog; Fblks; Fpgs; Frmap; Fgtd; Flm; Ftwp; Fcm] s s'.
Proof.
  unfold cmt_make_room_and_insert. intros H.
  repeat match type of H with
         | (if ?b then _ else _) = _ => destruct b
         end; inv_ok; frames.
Qed.

Lemma process_translation_page_read_frame s req lpn r s' :
  process_translation_page_read s req lpn = Ok (r, s') ->
  frame [Fluns; Flog; Fblks; Fpgs; Frmap; Fgtd; Flm; Ftwp; Fcm] s s'.
Proof.
  unfold process_translation_page_read, translation_page_read, get_gtd_ent,
    get_maptbl_ent.
  intros H. inv_cases;
    repeat match goal with
           | H : cmt_make_room_and_insert _ _ _ = Ok _ |- _ =>
               apply cmt_make_room_and_insert_frame in H
           end; frames.
Qed.

Lemma raise_lun_clock_frame s o p s' :
  raise_lun_clock s o p = Ok s' -> frame [Fluns] s s'.
Proof. unfold raise_lun_clock, get_lun. intros H. inv_ok. frame_here. Qed.

Lemma read_lpn_frame req st lpn st' :
  read_lpn req st lpn = Ok st' -> frame read_footprint st.1 st'.1.
Proof.
  unfold read_lpn, read_footprint, get_maptbl_ent. destruct st as [s maxlat].
  intros H. inv_cases; simpl;
    repeat match goal with
           | H : process_translation_page_read _ _ _ = Ok _ |- _ =>
               apply process_translation_page_read_frame in H
           | H : raise_lun_clock _ _ _ = Ok _ |- _ =>
               apply raise_lun_clock_frame in H
           end; frames.
Qed.

Lemma ssd_read_frame s req lat s' :
  ssd_read s req = Ok (lat, s') -> frame read_footprint s s'.
Proof.
  unfold ssd_read. intros H. inv_ok.
  match goal with
  | H : for_each _ _ _ = Ok _ |- _ =>
      apply (for_each_frame fst _ _ _ _ _ (read_lpn_frame req) H)
  end.
Qed.

Lemma process_translation_page_write_frame s req lpn r s' :
  process_translation_page_write s req lpn = Ok (r, s') ->
  frame [Fluns; Flog; Fblks; Fpgs; Frmap; Fgtd; Flm; Ftwp; Fcm] s s'.
Proof.
  unfold process_translation_page_write, translation_page_read, get_gtd_ent,
    get_maptbl_ent.
  intros H. inv_cases;
    repeat match goal with
           | H : cmt_make_room_and_insert _ _ _ = Ok _ |- _ =>
               apply cmt_make_room_and_insert_frame in H
           end; frames.
Qed.

Lemma set_gc_endtime_frame s k s' :
  set_gc_endtime s k = Ok s' -> frame [Fluns] s s'.
Proof. unfold set_gc_endtime. intros H. inv_ok. frame_here. Qed.

Lemma gc_read_page_frame s p s' :
  gc_read_page s p = Ok s' -> frame [Fluns; Flog] s s'.
Proof. unfold gc_read_page. intros H. inv_cases; frames. Qed.

Ltac frame_of H ::=
  first [ apply ssd_advance_status_frame in H
        | apply set_maptbl_ent_frame in H
        | apply set_gtd_ent_frame in H
        | apply set_rmap_ent_frame in H
        | apply mark_page_invalid_frame in H
        | apply mark_page_valid_frame in H
        | apply mark_block_free_frame in H
        | apply ssd_advance_write_pointer_frame in H
        | apply ssd_advance_trans_write_pointer_frame in H
        | apply cmt_hit_frame in H
        | apply translation_page_new_write_frame in H
        | apply translation_page_write_frame in H
        | apply insert_entry_to_cmt_frame in H
        | apply evict_entry_from_cmt_frame in H
        | apply cmt_make_room_and_insert_frame in H
        | apply process_translation_page_read_frame in H
        | apply process_translation_page_write_frame in H
        | apply raise_lun_clock_frame in H
        | apply set_gc_endtime_frame in H
        | apply gc_read_page_frame in H ].

Lemma gc_write_page_frame s p s' :
  gc_write_page s p = Ok s' ->
  frame [Fluns; Flog; Fblks; Fpgs; Fmaptbl; Frmap; Flm; Fwp] s s'.
Proof. unfold gc_write_page, get_rmap_ent. intros H. inv_cases; frames. Qed.

Lemma gc_translation_page_write_frame s p s' :
  gc_translation_page_write s p = Ok s' ->
  frame [Fluns; Flog; Fblks; Fpgs; Frmap; Fgtd; Flm; Ftwp] s s'.
Proof. unfold gc_translation_page_write, get_rmap_ent. intros H. inv_cases; frames. Qed.

Lemma select_victim_line_frame s force r s' :
  select_victim_line s force = Ok (r, s') -> frame [Flm] s s'.
Proof. unfold select_victim_line. intros H. inv_cases; frame_here. Qed.

Lemma mark_line_free_frame s p s' :
  mark_line_free s p = Ok s' -> frame [Flm] s s'.
Proof. unfold mark_line_free, get_line. intros H. inv_ok. frame_here. Qed.

Ltac frame_of H ::=
  first [ apply ssd_advance_status_frame in H
        | apply set_maptbl_ent_frame in H
        | apply set_gtd_ent_frame in H
        | apply set_rmap_ent_frame in H
        | apply mark_page_invalid_frame in H
        | apply mark_page_valid_frame in H
        | apply mark_block_free_frame in H
        | apply ssd_advance_write_pointer_frame in H
        | apply ssd_advance_trans_write_pointer_frame in H
        | apply cmt_hit_frame in H
        | apply translation_page_new_write_frame in H
        | apply translation_page_write_frame in H
        | apply insert_entry_to_cmt_frame in H
        | apply evict_entry_from_cmt_frame in H
        | apply cmt_make_room_and_insert_frame in H
        | apply process_translation_page_read_frame in H
        | apply process_translation_page_write_frame in H
        | apply raise_lun_clock_frame in H
        | apply set_gc_endtime_frame in H
        | apply gc_read_page_frame in H
        | apply gc_write_page_frame in H
        | apply gc_translation_page_write_frame in H
        | apply select_victim_line_frame in H
        | apply mark_line_free_frame in H ].

Lemma clean_trans_page_frame st pg st' :
  clean_trans_page st pg = Ok st' ->
  frame [Fluns; Flog; Fblks; Fpgs; Frmap; Fgtd; Flm; Ftwp] st.1 st'.1.
Proof.
  unfold clean_trans_page, get_pg, get_rmap_ent, get_maptbl_ent.
  destruct st as [s p]. intros H. inv_cases; simpl; frames.
Qed.

Lemma clean_one_trans_block_frame s p st' :
  clean_one_trans_block s p = Ok st' ->
  frame [Fluns; Flog; Fblks; Fpgs; Frmap; Fgtd; Flm; Ftwp] s st'.1.
Proof.
  unfold clean_one_trans_block. intros H.
  apply (for_each_frame fst _ _ _ _ _ clean_trans_page_frame H).
Qed.

Lemma clean_data_page_frame st pg st' :
  clean_data_page st pg = Ok st' ->
  frame [Fluns; Flog; Fblks; Fpgs; Fmaptbl; Frmap; Fgtd; Flm; Fwp; Ftwp; Fcm] st.1.1 st'.1.1.
Proof.
  unfold clean_data_page, get_pg, get_rmap_ent, get_maptbl_ent, get_gtd_ent,
    translation_page_read_no_req.
  destruct st as [[s b] p]. intros H. inv_cases; simpl; frames.
Qed.

Lemma clean_one_data_block_frame s p st' :
  clean_one_data_block s p = Ok st' ->
  frame [Fluns; Flog; Fblks; Fpgs; Fmaptbl; Frmap; Fgtd; Flm; Fwp; Ftwp; Fcm] s st'.1.
Proof.
  unfold clean_one_data_block. intros H. inv_ok. simpl.
  match goal with
  | H : for_each _ _ _ = Ok _ |- _ =>
      apply (for_each_frame (fun st => st.1.1) _ _ _ _ _ clean_data_page_frame H)
  end.
Qed.

(** ** The CMT counters *)

Lemma frame_counts ch s s' :
  touched Fcm ch = false -> frame ch s s' -> cmt_counts s' = cmt_counts s.
Proof.
  intros Hc (_&_&_&_&_&_&_&_&_&_&Hcm&_). unfold cmt_counts. by rewrite (Hcm Hc).
Qed.

Lemma insert_entry_to_cmt_counts s lpn ppn s' :
  insert_entry_to_cmt s lpn ppn = Ok s' -> cmt_counts s' = cmt_counts s.
Proof.
  unfold insert_entry_to_cmt, insert_cmt_hashtable. intros H. inv_ok.
  unfold cmt_counts. simpl. f_equal. lia.
Qed.

Lemma cmt_hit_counts s lpn r s' :
  cmt_hit s lpn = Ok (r, s') -> cmt_counts s' = cmt_counts s.
Proof. unfold cmt_hit. intros H. inv_cases; reflexivity. Qed.

Lemma delete_cmt_hashnode_counts c e b c' :
  delete_cmt_hashnode c e = Ok (b, c') ->
  tt_entries c' = tt_entries c /\ used_cmt_entry_cnt c' = used_cmt_entry_cnt c /\
  free_cmt_entry_cnt c' = free_cmt_entry_cnt c.
Proof. unfold delete_cmt_hashnode. intros H. inv_cases; done. Qed.

Lemma evict_entry_from_cmt_counts s s' :
  evict_entry_from_cmt s = Ok s' -> cmt_counts s' = cmt_counts s.
Proof.
  unfold evict_entry_from_cmt, translation_page_read_no_req, get_gtd_ent.
  intros H. inv_ok.
  match goal with
  | H : delete_cmt_hashnode _ _ = Ok _ |- _ =>
      apply delete_cmt_hashnode_counts in H; destruct H as (Ht & Hu & Hf)
  end.
  unfold cmt_counts. simpl. rewrite Ht, Hu, Hf.
  assert (Hc : cmt_counts a1 = cmt_counts s).
  { inv_cases;
      repeat match goal with
             | H : _ = Ok _ |- _ => frame_of H; apply frame_counts in H; [|reflexivity]
             end; unfold cmt_counts in *; simpl in *; congruence. }
  unfold cmt_counts in Hc. injection Hc as -> Hc. f_equal. lia.
Qed.

Ltac counts_of H :=
  first [ apply insert_entry_to_cmt_counts in H
        | apply cmt_hit_counts in H
        | apply evict_entry_from_cmt_counts in H
        | frame_of H; apply frame_counts in H; [|reflexivity] ].

Ltac counts :=
  repeat match goal with H : _ = Ok _ |- _ => counts_of H end;
  unfold cmt_counts in *; simpl in *; congruence.

Lemma cmt_make_room_and_insert_counts s lpn ppn s' :
  cmt_make_room_and_insert s lpn ppn = Ok s' -> cmt_counts s' = cmt_counts s.
Proof. unfold cmt_make_room_and_insert. intros H. inv_cases; counts. Qed.

Ltac counts_of H ::=
  first [ apply insert_entry_to_cmt_counts in H
        | apply cmt_hit_counts in H
        | apply evict_entry_from_cmt_counts in H
        | apply cmt_make_room_and_insert_counts in H
        | frame_of H; apply frame_counts in H; [|reflexivity] ].

Lemma process_translation_page_read_counts s req lpn r s' :
  process_translation_page_read s req lpn = Ok (r, s') -> cmt_counts s' = cmt_counts s.
Proof.
  unfold process_translation_page_read, translation_page_read, get_gtd_ent,
    get_maptbl_ent.
  intros H. inv_cases; counts.
Qed.

Lemma process_translation_page_write_counts s req lpn r s' :
  process_translation_page_write s req lpn = Ok (r, s') -> cmt_counts s' = cmt_counts s.
Proof.
  unfold process_translation_page_write, translation_page_read, get_gtd_ent,
    get_maptbl_ent.
  intros H. inv_cases; counts.
Qed.

Ltac counts_of H ::=
  first [ apply insert_entry_to_cmt_counts in H
        | apply cmt_hit_counts in H
        | apply evict_entry_from_cmt_counts in H
        | apply cmt_make_room_and_insert_counts in H
        | apply process_translation_page_read_counts in H
        | apply process_translation_page_write_counts in H
        | frame_of H; apply frame_counts in H; [|reflexivity] ].

Lemma read_lpn_counts req st lpn st' :
  read_lpn req st lpn = Ok st' -> cmt_counts st'.1 = cmt_counts st.1.
Proof.
  unfold read_lpn, get_maptbl_ent. destruct st as [s maxlat].
  intros H. inv_cases; simpl; counts.
Qed.

Lemma ssd_read_counts s req lat s' :
  ssd_read s req = Ok (lat, s') -> cmt_counts s' = cmt_counts s.
Proof.
  unfold ssd_read. intros H. inv_ok.
  match goal with
  | H : for_each _ _ _ = Ok _ |- _ =>
      apply (for_each_counts fst _ _ _ _ (read_lpn_counts req) H)
  end.
Qed.

Lemma write_lpn_counts req st lpn st' :
  write_lpn req st lpn = Ok st' -> cmt_counts st'.1 = cmt_counts st.1.
Proof.
  unfold write_lpn, get_maptbl_ent. destruct st as [s maxlat].
  intros H. inv_cases; simpl; counts.
Qed.

Lemma clean_data_page_counts st pg st' :
  clean_data_page st pg = Ok st' -> cmt_counts st'.1.1 = cmt_counts st.1.1.
Proof.
  unfold clean_data_page, get_pg, get_rmap_ent, get_maptbl_ent, get_gtd_ent,
    translation_page_read_no_req.
  destruct st as [[s b] p]. intros H. inv_cases; simpl; counts.
Qed.

Lemma clean_one_data_block_counts s p st' :
  clean_one_data_block s p = Ok st' -> cmt_counts st'.1 = cmt_counts s.
Proof.
  unfold clean_one_data_block. intros H. inv_ok. simpl.
  match goal with
  | H : for_each _ _ _ = Ok _ |- _ =>
      apply (for_each_counts (fun st => st.1.1) _ _ _ _ clean_data_page_counts H)
  end.
Qed.

Lemma clean_one_trans_block_counts s p st' :
  clean_one_trans_block s p = Ok st' -> cmt_counts st'.1 = cmt_counts s.
Proof.
  intros H. apply clean_one_trans_block_frame in H.
  by apply frame_counts in H.
Qed.

Lemma gc_one_block_counts v st chlun st' :
  gc_one_block v st chlun = Ok st' -> cmt_counts st'.1 = cmt_counts st.1.
Proof.
  unfold gc_one_block. destruct st as [s p]. intros H. inv_cases; simpl;
    repeat match goal with
           | H : clean_one_data_block _ _ = Ok _ |- _ =>
               apply clean_one_data_block_counts in H
           | H : clean_one_trans_block _ _ = Ok _ |- _ =>
               apply clean_one_trans_block_counts in H
           end; simpl in *; counts.
Qed.

Lemma do_gc_counts s force r s' :
  do_gc s force = Ok (r, s') -> cmt_counts s' = cmt_counts s.
Proof.
  unfold do_gc. intros H. inv_cases;
    repeat match goal with
           | H : for_each (gc_one_block _) _ _ = Ok _ |- _ =>
               apply (for_each_counts fst _ _ _ _ (gc_one_block_counts _)) in H
           end; simpl in *; counts.
Qed.

Lemma foreground_gc_counts fuel s s' :
  foreground_gc fuel s = Ok s' -> cmt_counts s' = cmt_counts s.
Proof.
  revert s. induction fuel as [|fuel IH]; intros s H; simpl in H.
  - destruct (should_gc_high s); [discriminate|]. by inv_ok.
  - destruct (should_gc_high s); [|by inv_ok]. inv_ok.
    apply do_gc_counts in Ha.
    destruct (bool_decide (z = -1)); inv_ok; [done|].
    rewrite (IH _ H). done.
Qed.

Lemma ssd_write_counts fuel s req lat s' :
  ssd_write fuel s req = Ok (lat, s') -> cmt_counts s' = cmt_counts s.
Proof.
  unfold ssd_write. intros H. inv_ok.
  match goal with
  | H : for_each _ _ _ = Ok _ |- _ =>
      apply (for_each_counts fst _ _ _ _ (write_lpn_counts req)) in H
  end.
  match goal with
  | H : foreground_gc _ _ = Ok _ |- _ => apply foreground_gc_counts in H
  end.
  simpl in *. congruence.
Qed.

Lemma ftl_handle_counts fuel st req st' :
  ftl_handle fuel st req = Ok st' -> cmt_counts st'.1.1 = cmt_counts st.1.
Proof.
  unfold ftl_handle. destruct st as [s lat]. intros H. inv_cases; simpl;
    repeat match goal with
           | H : ssd_write _ _ _ = Ok _ |- _ => apply ssd_write_counts in H
           | H : ssd_read _ _ = Ok _ |- _ => apply ssd_read_counts in H
           | H : do_gc _ _ = Ok _ |- _ => apply do_gc_counts in H
           end; congruence.
Qed.

(** C9. The used and the free count of the CMT add up to its capacity
    after [ssd_init_cmt]; [insert_entry_to_cmt] and
    [evict_entry_from_cmt] keep it so, and so does the handling of a whole
    request by the worker, background GC included. *)
Theorem cmt_counters_add_up :
  cmt_counter_inv (ssd_init_cmt ssd_init_params) /\
  (forall s lpn ppn s',
      cmt_counter_inv (cm s) -> insert_entry_to_cmt s lpn ppn = Ok s' ->
      cmt_counter_inv (cm s')) /\
  (forall s s',
      cmt_counter_inv (cm s) -> evict_entry_from_cmt s = Ok s' ->
      cmt_counter_inv (cm s')) /\
  (forall fuel s lat req s' lat' done,
      cmt_counter_inv (cm s) -> ftl_handle fuel (s, lat) req = Ok (s', lat', done) ->
      cmt_counter_inv (cm s')).
Proof.
  assert (Hk : forall s s', cmt_counts s' = cmt_counts s ->
                            cmt_counter_inv (cm s) -> cmt_counter_inv (cm s')).
  { unfold cmt_counts, cmt_counter_inv. intros s s' [= Ht Hs] Hi. lia. }
  split; [|split; [|split]].
  - unfold cmt_counter_inv, ssd_init_cmt.
    cbn [used_cmt_entry_cnt free_cmt_entry_cnt tt_entries].
    rewrite length_seqZ. reflexivity.
  - intros s lpn ppn s' Hi H. eapply Hk; [|exact Hi].
    by eapply insert_entry_to_cmt_counts.
  - intros s s' Hi H. eapply Hk; [|exact Hi]. by eapply evict_entry_from_cmt_counts.
  - intros fuel s lat req s' lat' done Hi H. eapply Hk; [|exact Hi].
    by apply ftl_handle_counts in H.
Qed.

(** ** Reads of pages that were never written *)

Lemma find_in_chain_nil es lpn : find_in_chain es lpn [] = Ok None.
Proof. reflexivity. Qed.

Lemma read_lpn_pristine req s maxlat lpn :
  maptbl s !! lpn = Some UNMAPPED_PPA ->
  gtd s !! (lpn / ents_per_pg (sp s)) = Some UNMAPPED_PPA ->
  cmt_table (cm s) !! cmt_hash lpn = Some [] ->
  read_lpn req (s, maxlat) lpn
    = Ok (with_access count_miss (with_access count_access s), maxlat).
Proof.
  intros Hm Hg Hc.
  unfold read_lpn, cmt_hit, find_hash_entry, arr_get. simpl. rewrite Hc. simpl.
  unfold process_translation_page_read, get_gtd_ent, arr_get. simpl. rewrite Hg. simpl.
  unfold get_maptbl_ent, arr_get. simpl. rewrite Hm. reflexivity.
Qed.

Lemma for_each_read_pristine req l s maxlat :
  (forall lpn, lpn ∈ l ->
     maptbl s !! lpn = Some UNMAPPED_PPA /\
     gtd s !! (lpn / ents_per_pg (sp s)) = Some UNMAPPED_PPA /\
     cmt_table (cm s) !! cmt_hash lpn = Some []) ->
  exists s', for_each (read_lpn req) l (s, maxlat) = Ok (s', maxlat) /\
             frame [Fstat] s s' /\ nand_log s' = nand_log s.
Proof.
  revert s. induction l as [|lpn l IH]; intros s Hl; cbn [for_each].
  - exists s. split; [done|]. split; [apply frame_refl | done].
  - destruct (Hl lpn) as (Hm & Hg & Hc); [left|].
    rewrite (read_lpn_pristine _ _ _ _ Hm Hg Hc). cbn [mbind result_bind].
    destruct (IH (with_access count_miss (with_access count_access s)))
      as (s' & Hrun & Hf & Hlog).
    { intros x Hx. apply Hl. by right. }
    exists s'. split; [exact Hrun|]. split; [|by rewrite Hlog].
    eapply frame_trans; [|exact Hf]. frame_here.
Qed.

(** C8. On a pristine device a read returns latency 0 and leaves the CMT
    as it was, empty (it issues no NAND operation at all); and in any
    state, an LPN of a read request whose forward-map entry is unmapped or
    not a valid address leaves the running maximum [maxlat] as it found
    it. *)
Theorem read_of_unmapped_costs_nothing :
  (forall s req,
      pristine s -> req_in_range s req ->
      exists s', ssd_read s req = Ok (0, s') /\ cm s' = cm s /\
                 cmt_entry_list (cm s') = [] /\ luns s' = luns s /\
                 nand_log s' = nand_log s) /\
  (forall req s maxlat lpn p s' maxlat',
      maptbl s !! lpn = Some p ->
      mapped_ppa p = false \/ valid_ppa s p = false ->
      read_lpn req (s, maxlat) lpn = Ok (s', maxlat') ->
      maxlat' = maxlat).
Proof.
  split.
  - intros s req (Hm & Hg & Hc & Hl) Hr.
    destruct (for_each_read_pristine req (req_lpns (sp s) req) s 0)
      as (s' & Hrun & Hf & Hlog).
    { intros lpn Hin. unfold req_in_range in Hr. rewrite Forall_forall in Hr.
      destruct (Hr lpn Hin) as ([p Hp] & [g Hg'] & [c Hc']).
      rewrite Hp, Hg', Hc'.
      by rewrite (Hm _ _ Hp), (Hg _ _ Hg'), (Hc _ _ Hc'). }
    exists s'. unfold ssd_read. rewrite Hrun. simpl.
    destruct Hf as (_ & Hluns & _ & _ & _ & _ & _ & _ & _ & _ & Hcm & _).
    rewrite (Hcm eq_refl), (Hluns eq_refl). done.
  - intros req s maxlat lpn p s' maxlat' Hp Hbad H.
    assert (Hnone : forall s1 p1, sp s1 = sp s -> maptbl s1 = maptbl s ->
               maptbl s1 !! lpn = Some p1 ->
               negb (mapped_ppa p1) || negb (valid_ppa s1 p1) = true).
    { intros s1 p1 Hsp Hmt Hp1. rewrite Hmt, Hp in Hp1. injection Hp1 as <-.
      unfold valid_ppa in *. rewrite Hsp.
      destruct Hbad as [-> | ->]; [done | by rewrite orb_true_r]. }
    unfold read_lpn, get_maptbl_ent in H. inv_ok.
    match goal with
    | H : cmt_hit _ _ = Ok _ |- _ => apply cmt_hit_frame in H; destruct H as (Hsp1 & _ & _ & _ & Hm1 & _)
    end.
    simpl in Hsp1. specialize (Hm1 eq_refl). simpl in Hm1.
    destruct o; inv_ok.
    + match goal with
      | Hq : maptbl ?s1 !! lpn = Some ?a,
        H : (if negb (mapped_ppa ?a) || negb (valid_ppa ?s1 ?a) then _ else _) = _ |- _ =>
          rewrite (Hnone s1 a) in H; [ | done | done | exact Hq ]
      end.
      by inv_ok.
    + match goal with
      | H : process_translation_page_read _ _ _ = Ok _ |- _ =>
          apply process_translation_page_read_frame in H;
          destruct H as (Hsp2 & _ & _ & _ & Hm2 & _)
      end.
      simpl in Hsp2. specialize (Hm2 eq_refl). simpl in Hm2.
      match goal with
      | Hq : maptbl ?s1 !! lpn = Some ?a,
        H : (if negb (mapped_ppa ?a) || negb (valid_ppa ?s1 ?a) then _ else _) = _ |- _ =>
          rewrite (Hnone s1 a) in H; [ | congruence | congruence | exact Hq ]
      end.
      by inv_ok.
Qed.

(** ** What the primitive operations write *)

Lemma ssd_advance_status_log s p c lat s' :
  ssd_advance_status s p c = Ok (lat, s') ->
  nand_log s' = (nc_cmd c, p) :: nand_log s.
Proof.
  unfold ssd_advance_status. intros H.
  destruct (bool_decide (nc_stime c = 0)); inv_ok;
    destruct (op_latency _ _); inv_ok; reflexivity.
Qed.

Lemma mark_page_valid_pgs s p s' :
  mark_page_valid s p = Ok s' -> pgs s' = <[pg_of p := PG_VALID]> (pgs s).
Proof. unfold mark_page_valid, get_pg, get_blk, get_line. intros H. by inv_ok. Qed.

Lemma mark_page_invalid_pgs s p s' :
  mark_page_invalid s p = Ok s' -> pgs s' = <[pg_of p := PG_INVALID]> (pgs s).
Proof. unfold mark_page_invalid, get_pg, get_blk, get_line. intros H. by inv_ok. Qed.

Lemma set_rmap_ent_rmap s lpn p s' :
  set_rmap_ent s lpn p = Ok s' -> rmap s' = <[ppa2pgidx (sp s) p := lpn]> (rmap s).
Proof. unfold set_rmap_ent. intros H. by inv_ok. Qed.

Lemma set_gtd_ent_gtd s tvpn p s' :
  set_gtd_ent s tvpn p = Ok s' -> gtd s' = <[tvpn := p]> (gtd s).
Proof. unfold set_gtd_ent. intros H. by inv_ok. Qed.

Lemma set_maptbl_ent_maptbl s lpn p s' :
  set_maptbl_ent s lpn p = Ok s' -> maptbl s' = <[lpn := p]> (maptbl s).
Proof. unfold set_maptbl_ent. intros H. by inv_ok. Qed.

(** Reads the named field of a footprint hypothesis. *)
Ltac frame_eq H f :=
  let Hf := fresh "Hf" in
  pose proof H as Hf;
  destruct Hf as (?&?&?&?&?&?&?&?&?&?&?&?&?);
  repeat match goal with
         | Hx : touched _ _ = false -> _ |- _ =>
             first [ specialize (Hx eq_refl) | clear Hx ]
         end.

Lemma translation_page_new_write_effect s tvpn lat s' :
  translation_page_new_write s tvpn = Ok (lat, s') -> written_back s s' tvpn.
Proof.
  unfold translation_page_new_write, written_back. intros H. inv_ok.
  pose proof (set_gtd_ent_gtd _ _ _ _ Ha) as Eg.
  pose proof (set_rmap_ent_rmap _ _ _ _ Ha0) as Er.
  pose proof (mark_page_valid_pgs _ _ _ Ha1) as Ep.
  pose proof (ssd_advance_status_log _ _ _ _ _ H) as El.
  assert (Ht : twp a1 = twp s).
  { apply set_gtd_ent_frame in Ha. apply set_rmap_ent_frame in Ha0.
    apply mark_page_valid_frame in Ha1.
    frame_eq Ha f; frame_eq Ha0 f; frame_eq Ha1 f. congruence. }
  pose proof Ha2 as Hadv.
  apply set_gtd_ent_frame in Ha. apply set_rmap_ent_frame in Ha0.
  apply mark_page_valid_frame in Ha1.
  apply ssd_advance_trans_write_pointer_frame in Ha2.
  apply ssd_advance_status_frame in H.
  frame_eq Ha f; frame_eq Ha0 f; frame_eq Ha1 f; frame_eq Ha2 f; frame_eq H f.
  repeat match goal with Hc : _ /\ _ |- _ => destruct Hc end.
  simpl in *.
  split; [congruence|]. split; [congruence|]. split; [congruence|].
  split; [congruence|]. split; [|split; congruence].
  exists a1, a2. split; [done|]. split; [done|]. congruence.
Qed.

Lemma translation_page_write_unfold s old :
  translation_page_write s old =
    (tvpn ← get_rmap_ent s old;
     s1 ← (if mapped_ppa old then
             s1 ← mark_page_invalid s old; set_rmap_ent s1 INVALID_LPN old
           else Ok s);
     translation_page_new_write s1 tvpn).
Proof. reflexivity. Qed.

(** ** Eviction of a dirty CMT entry *)

(** C2. Evicting a dirty entry writes its translation page back. With
    [tvpn = lpn / ents_per_pg] and [new] the page under the translation
    write pointer: when [gtd[tvpn]] is unmapped or not a valid address, the
    only NAND operation is one write at [new]; otherwise it is one read at
    the old page followed by one write at [new], and the old page is marked
    invalid and its rmap entry cleared. Either way [gtd[tvpn]] and
    [rmap] are set for [new], [new] is marked valid, the translation write
    pointer is advanced once, and the entry is reset and appended to the
    free list. The second case reads the translation page number back from
    [rmap] at the old page, so it is stated for a reverse map that agrees
    with the GTD there, the old page not being the one under the write
    pointer. *)
Theorem evict_dirty_entry_writes_back (s s' : ssd) (e : Z) (ent : cmt_entry)
    (old : ppa) :
  let tvpn := e_lpn ent / ents_per_pg (sp s) in
  let new := get_new_trans_page s in
  let rewrite_old := mapped_ppa old && valid_ppa s old in
  qtailq_last (cmt_entry_list (cm s)) = Some e ->
  cmt_entries (cm s) !! e = Some ent ->
  e_dirty ent = DIRTY ->
  gtd s !! tvpn = Some old ->
  (rewrite_old = true ->
   rmap s !! ppa2pgidx (sp s) old = Some tvpn /\
   ppa2pgidx (sp s) old <> ppa2pgidx (sp s) new) ->
  evict_entry_from_cmt s = Ok s' ->
  gtd s' !! tvpn = Some new /\
  rmap s' !! ppa2pgidx (sp s) new = Some tvpn /\
  pgs s' !! pg_of new = Some PG_VALID /\
  (exists s1 s2, twp s1 = twp s /\ ssd_advance_trans_write_pointer s1 = Ok s2 /\
                 twp s' = twp s2) /\
  cmt_entries (cm s') !! e = Some (mkcmt INVALID_LPN UNMAPPED_PPN CLEAN) /\
  free_cmt_entry_list (cm s') = free_cmt_entry_list (cm s) ++ [e] /\
  cmt_entry_list (cm s') = qtailq_remove e (cmt_entry_list (cm s)) /\
  (if rewrite_old then
     nand_log s' = (NAND_WRITE, new) :: (NAND_READ, old) :: nand_log s /\
     pgs s' !! pg_of old = Some PG_INVALID /\
     rmap s' !! ppa2pgidx (sp s) old = Some INVALID_LPN
   else nand_log s' = (NAND_WRITE, new) :: nand_log s).
Proof.
  intros tvpn new rewrite_old Hlast Hent Hdirty Hgtd Hold.
  unfold evict_entry_from_cmt, get_gtd_ent, arr_get.
  rewrite Hlast. cbn [of_option mbind result_bind cm with_cm cmt_entries
                      with_used_entries sp gtd].
  rewrite Hent. cbn [of_option mbind result_bind e_dirty e_lpn].
  rewrite Hdirty, bool_decide_eq_true_2 by done.
  fold tvpn. rewrite Hgtd. cbn [of_option mbind result_bind].
  set (s0 := with_cm _ s).
  assert (Hv0 : valid_ppa s0 old = valid_ppa s old) by reflexivity.
  rewrite Hv0, <- negb_andb. fold rewrite_old.
  assert (Hnew0 : get_new_trans_page s0 = new) by reflexivity.
  intros H.
  (* the state after the writeback, and what it wrote *)
  assert (Hwb : exists s1 sw,
             written_back s1 sw tvpn /\ twp s1 = twp s /\ sp s1 = sp s /\
             gtd s1 = gtd s /\ cm s1 = cm s0 /\
             (if rewrite_old then
                rmap s1 = <[ppa2pgidx (sp s) old := INVALID_LPN]> (rmap s) /\
                pgs s1 = <[pg_of old := PG_INVALID]> (pgs s) /\
                nand_log s1 = (NAND_READ, old) :: nand_log s
              else s1 = s0) /\
             ('(_, c) ← delete_cmt_hashnode (cm sw) e;
              Ok (with_cm
                    (with_used_entries
                       (cmt_entry_list c) (used_cmt_entry_cnt c - 1)
                       (with_free_entries
                          (qtailq_insert_tail (free_cmt_entry_list c) e)
                          (free_cmt_entry_cnt c + 1)
                          (with_cmt_entries
                             (<[e := mkcmt INVALID_LPN UNMAPPED_PPN CLEAN]>
                                (cmt_entries c)) c))) sw)) = Ok s').
  { destruct rewrite_old eqn:Hrw; cbn [negb] in H.
    - destruct (Hold eq_refl) as [Hr Hne].
      apply bind_Ok in H as (sw & Hw & H).
      apply bind_Ok in Hw as ([lat1 s1] & Hrd & Hw).
      apply bind_Ok in Hw as ([lat2 s2] & Hw & Hsw). apply Ok_inj in Hsw as ->.
      unfold translation_page_read_no_req in Hrd.
      pose proof (ssd_advance_status_log _ _ _ _ _ Hrd) as Hlog1.
      apply ssd_advance_status_frame in Hrd.
      rewrite translation_page_write_unfold in Hw.
      unfold get_rmap_ent, arr_get in Hw.
      frame_eq Hrd f. repeat match goal with Hc : _ /\ _ |- _ => destruct Hc end.
      assert (Hr1 : rmap s1 !! ppa2pgidx (sp s1) old = Some tvpn) by (simpl in *; congruence).
      rewrite Hr1 in Hw. cbn [of_option mbind result_bind] in Hw.
      assert (Hm : mapped_ppa old = true) by (by apply andb_prop in Hrw as [? _]).
      rewrite Hm in Hw.
      apply bind_Ok in Hw as (s3 & Hinv & Hw).
      apply bind_Ok in Hinv as (s2' & Hinv & Hclr).
      pose proof (mark_page_invalid_pgs _ _ _ Hinv) as Hp.
      pose proof (set_rmap_ent_rmap _ _ _ _ Hclr) as Hrm.
      apply mark_page_invalid_frame in Hinv. apply set_rmap_ent_frame in Hclr.
      frame_eq Hinv f; frame_eq Hclr f.
      exists s3, sw. split; [by eapply translation_page_new_write_effect|].
      repeat match goal with Hc : _ /\ _ |- _ => destruct Hc end.
      simpl in *.
      split; [congruence|]. split; [congruence|]. split; [congruence|].
      split; [congruence|]. split; [|exact H].
      split; [congruence|]. split; congruence.
    - apply bind_Ok in H as (sw & Hw & H).
      apply bind_Ok in Hw as ([lat1 s1] & Hw & Hsw). apply Ok_inj in Hsw as ->.
      exists s0, sw. split; [by eapply translation_page_new_write_effect|].
      repeat split; try reflexivity. exact H. }
  destruct Hwb as (s1 & sw & Hwb & Htwp & Hsp & Hg1 & Hcm1 & Hpre & Hfin).
  assert (Hnew1 : get_new_trans_page s1 = new).
  { unfold new, get_new_trans_page. by rewrite Htwp. }
  assert (Hcm0 : cm s0 = with_used_entries (qtailq_remove e (cmt_entry_list (cm s)))
                                           (used_cmt_entry_cnt (cm s)) (cm s))
    by reflexivity.
  assert (Hl0 : nand_log s0 = nand_log s) by reflexivity.
  clearbody new tvpn rewrite_old s0.
  unfold written_back in Hwb. cbv zeta in Hwb. rewrite Hnew1, Hsp in Hwb.
  destruct Hwb as (Eg & Er & Ep & El & Eadv & Ecm & Esp).
  apply bind_Ok in Hfin as ([b c] & Hdel & Hfin). apply Ok_inj in Hfin as <-.
  assert (Hc : cmt_entries c = cmt_entries (cm sw) /\
               free_cmt_entry_list c = free_cmt_entry_list (cm sw) /\
               cmt_entry_list c = cmt_entry_list (cm sw)).
  { unfold delete_cmt_hashnode in Hdel. inv_cases; done. }
  destruct Hc as (Hce & Hcf & Hcl).
  cbn [gtd rmap pgs twp cm with_cm cmt_entries free_cmt_entry_list cmt_entry_list
       with_used_entries with_free_entries with_cmt_entries nand_log
       qtailq_insert_tail].
  rewrite Eg, Er, Ep, El, Hcf, Hcl, Ecm, Hcm1, Hcm0, Hg1.
  cbn [free_cmt_entry_list cmt_entry_list with_used_entries].
  split; [by rewrite lookup_insert_eq|].
  split; [by rewrite lookup_insert_eq|].
  split; [by rewrite lookup_insert_eq|].
  split.
  { destruct Eadv as (x1 & x2 & E1 & E2 & E3). exists x1, x2.
    split; [congruence|]. by split. }
  split; [by rewrite lookup_insert_eq|].
  split; [reflexivity|]. split; [reflexivity|].
  destruct rewrite_old eqn:Hrw.
  - destruct Hpre as (Hr1 & Hp1 & Hl1). destruct (Hold eq_refl) as [Hr Hne].
    rewrite Hr1, Hp1, Hl1.
    split; [reflexivity|]. split.
    + rewrite lookup_insert_ne, lookup_insert_eq; [done|].
      intros Heq. apply Hne. unfold pg_of in Heq. unfold ppa2pgidx.
      injection Heq as E1 E2 E3 E4 E5. by rewrite E1, E2, E3, E4, E5.
    + rewrite lookup_insert_ne, lookup_insert_eq; [done|]. congruence.
  - subst s1. by rewrite Hl0.
Qed.

(** ** The victim queue *)

Lemma pqueue_best_min ls q b :
  (pqueue.best victim_line_cmp_pri victim_line_get_pri ls b q = b \/
   pqueue.best victim_line_cmp_pri victim_line_get_pri ls b q ∈ q) /\
  pqueue.pri victim_line_get_pri ls
    (pqueue.best victim_line_cmp_pri victim_line_get_pri ls b q)
    <= pqueue.pri victim_line_get_pri ls b /\
  (forall x, x ∈ q ->
     pqueue.pri victim_line_get_pri ls
       (pqueue.best victim_line_cmp_pri victim_line_get_pri ls b q)
       <= pqueue.pri victim_line_get_pri ls x).
Proof.
  revert b. induction q as [|y q IH]; intros b; cbn [pqueue.best].
  - split; [by left|]. split; [lia|]. intros x Hx. by apply elem_of_nil in Hx.
  - destruct (victim_line_cmp_pri (pqueue.pri victim_line_get_pri ls b)
                                  (pqueue.pri victim_line_get_pri ls y)) eqn:Hc;
      unfold victim_line_cmp_pri in Hc;
      [ apply bool_decide_eq_true in Hc | apply bool_decide_eq_false in Hc ].
    + destruct (IH y) as (Hin & Hb & Hall). split; [|split].
      * right. destruct Hin as [->|Hin]; [by left | by right].
      * lia.
      * intros x [->|Hx]%elem_of_cons; [done | by apply Hall].
    + destruct (IH b) as (Hin & Hb & Hall). split; [|split].
      * destruct Hin as [->|Hin]; [by left | right; by right].
      * done.
      * intros x [->|Hx]%elem_of_cons; [lia | by apply Hall].
Qed.

(** C4. The victim queue is keyed by [vpc], a smaller [vpc] being served
    first: the line that [pqueue_peek] surfaces, and that
    [select_victim_line] takes when it takes one, is a queued line whose
    [vpc] is minimal among the queued lines. *)
Theorem victim_queue_serves_min_vpc :
  (forall ls q v,
      pqueue_peek ls q = Some v ->
      v ∈ q /\
      forall x lv lx, x ∈ q -> ls !! v = Some lv -> ls !! x = Some lx ->
                      l_vpc lv <= l_vpc lx) /\
  (forall s force v s',
      select_victim_line s force = Ok (Some v, s') ->
      v ∈ victim_line_pq (lm s) /\
      forall x lv lx, x ∈ victim_line_pq (lm s) ->
                      lines (lm s) !! v = Some lv -> lines (lm s) !! x = Some lx ->
                      l_vpc lv <= l_vpc lx).
Proof.
  assert (Hpeek : forall ls q v,
      pqueue_peek ls q = Some v ->
      v ∈ q /\
      forall x lv lx, x ∈ q -> ls !! v = Some lv -> ls !! x = Some lx ->
                      l_vpc lv <= l_vpc lx).
  { intros ls q v. unfold pqueue_peek, pqueue.peek. destruct q as [|b q]; [done|].
    intros [= <-]. destruct (pqueue_best_min ls q b) as (Hin & Hb & Hall).
    split.
    - destruct Hin as [->|Hin]; [by left | by right].
    - intros x lv lx Hx Hv Hlx.
      assert (Hle : pqueue.pri victim_line_get_pri ls
                      (pqueue.best victim_line_cmp_pri victim_line_get_pri ls b q)
                    <= pqueue.pri victim_line_get_pri ls x).
      { apply elem_of_cons in Hx as [->|Hx]; [exact Hb | by apply Hall]. }
      unfold pqueue.pri in Hle. rewrite Hv, Hlx in Hle. exact Hle. }
  split; [exact Hpeek|].
  intros s force v s' H. unfold select_victim_line in H.
  destruct (pqueue_peek (lines (lm s)) (victim_line_pq (lm s))) as [v0|] eqn:Hp;
    [|by inv_ok].
  assert (v0 = v) as ->; [|by apply Hpeek].
  inv_cases; done.
Qed.

(** ** Foreground garbage collection *)

Lemma do_gc_no_victim s r s' :
  do_gc s true = Ok (r, s') -> r = -1 -> s' = s /\ victim_line_pq (lm s) = [].
Proof.
  unfold do_gc, select_victim_line. intros H ->.
  unfold pqueue_peek, pqueue.peek in H. revert H.
  destruct (victim_line_pq (lm s)) as [|b q]; simpl; intros H.
  - by inv_ok.
  - inv_cases; discriminate.
Qed.

Lemma foreground_gc_exit fuel s s' :
  foreground_gc fuel s = Ok s' ->
  should_gc_high s' = false \/ victim_line_pq (lm s') = [].
Proof.
  revert s. induction fuel as [|fuel IH]; intros s H; simpl in H.
  - destruct (should_gc_high s) eqn:E; [discriminate|]. inv_ok. by left.
  - destruct (should_gc_high s) eqn:E; [|inv_ok; by left]. inv_ok.
    destruct (bool_decide_reflect (z = -1)) as [->|Hne]; inv_ok.
    + destruct (do_gc_no_victim _ _ _ Ha eq_refl) as [-> Hq]. by right.
    + by apply IH in H.
Qed.

(** C5. [ssd_write] runs the per-LPN loop only on the context that the
    foreground GC loop hands over, and that loop (which calls [do_gc] with
    [force = true]) hands over only when the free-line count is above the
    high threshold or no victim line is left to reclaim. *)
Theorem ssd_write_collects_first (fuel : nat) (s : ssd) (req : NvmeRequest)
    (lat : Z) (s' : ssd) :
  ssd_write fuel s req = Ok (lat, s') ->
  exists s1,
    foreground_gc fuel s = Ok s1 /\
    for_each (write_lpn req) (req_lpns (sp s1) req) (s1, 0) = Ok (s', lat) /\
    (free_line_cnt (lm s1) > gc_thres_lines_high (sp s1) \/
     victim_line_pq (lm s1) = []).
Proof.
  unfold ssd_write. intros H. inv_ok. exists a. split; [done|]. split; [done|].
  destruct (foreground_gc_exit _ _ _ Ha) as [Hgc|Hq]; [left|by right].
  unfold should_gc_high in Hgc. apply bool_decide_eq_false in Hgc. lia.
Qed.

(** ** The worker *)

(** The latency reported for a request that is neither a write nor a read:
    0 for DSM, and for any other opcode whatever [lat] held before. *)
Lemma ftl_handle_other_opcode fuel s lat req s' lat' done :
  opcode req <> NVME_CMD_WRITE -> opcode req <> NVME_CMD_READ ->
  ftl_handle fuel (s, lat) req = Ok (s', lat', done) ->
  reqlat done = lat' /\
  lat' = (if bool_decide (opcode req = NVME_CMD_DSM) then 0 else lat).
Proof.
  intros Hw Hr. unfold ftl_handle.
  rewrite (bool_decide_eq_false_2 _ Hw), (bool_decide_eq_false_2 _ Hr).
  intros H. destruct (bool_decide (opcode req = NVME_CMD_DSM)); inv_cases; done.
Qed.

(** ** The read path leaves the forward map alone *)

(** C10. A read request writes no entry of the forward map, whatever it
    does on the way (translation-page fetch, CMT insertion, eviction with
    its translation-page writeback); the data write pointer and the
    parameters are untouched as well. What may change is the rest: LUN
    clocks, block and page state, rmap, GTD, line management with the
    translation write pointer, CMT and statistics. *)
Theorem ssd_read_preserves_maptbl (s : ssd) (req : NvmeRequest) (lat : Z) (s' : ssd) :
  ssd_read s req = Ok (lat, s') ->
  maptbl s' = maptbl s /\ wp s' = wp s /\ sp s' = sp s /\ frame read_footprint s s'.
Proof.
  intros H. pose proof (ssd_read_frame _ _ _ _ H) as Hf.
  pose proof Hf as (Hsp & _ & _ & _ & Hm & _ & _ & _ & Hwp & _).
  split; [by apply Hm|]. split; [by apply Hwp|]. by split.
Qed.

(** ** The NAND timing model *)

(** C3. A read, write or erase that starts at [t0] (the wall clock when the
    command carries 0) on a LUN available at [T] sets the LUN's clock to
    [max t0 T + L], with [L] the page-read, page-write or block-erase
    latency, and returns that clock minus [t0]; nothing else is added. The
    times are unsigned 64-bit and are taken not to wrap. *)
Theorem ssd_advance_status_timing (s : ssd) (p : ppa) (ncmd : nand_cmd)
    (lun : nand_lun) (t0 L : Z) :
  luns s !! lun_of p = Some lun ->
  t0 = (if bool_decide (nc_stime ncmd = 0)
        then qemu_clock_get_ns (clock_reads s) else nc_stime ncmd) ->
  match nc_cmd ncmd with
  | NAND_READ => L = pg_rd_lat (sp s)
  | NAND_WRITE => L = pg_wr_lat (sp s)
  | NAND_ERASE => L = blk_er_lat (sp s)
  | NAND_OTHER _ => False
  end ->
  0 <= t0 -> 0 <= next_lun_avail_time lun -> 0 <= L ->
  Z.max t0 (next_lun_avail_time lun) + L < 2 ^ 64 ->
  exists s',
    ssd_advance_status s p ncmd
      = Ok (Z.max t0 (next_lun_avail_time lun) + L - t0, s') /\
    luns s' = <[lun_of p := mklun (Z.max t0 (next_lun_avail_time lun) + L)
                                   (gc_endtime lun)]> (luns s).
Proof.
  intros Hlun Ht0 HL Hpos HT HLpos Hmax.
  remember (next_lun_avail_time lun) as T eqn:HeqT.
  assert (Hw : wrap64 t0 = t0) by (apply Z.mod_small; lia).
  assert (Hop : op_latency (sp s) (nc_cmd ncmd) = Some L)
    by (destruct (nc_cmd ncmd); simpl; congruence || contradiction).
  unfold ssd_advance_status, get_lun, arr_get.
  rewrite Hlun. simpl.
  assert (Hcase :
    (if bool_decide (nc_stime ncmd = 0)
     then (wrap64 (qemu_clock_get_ns (clock_reads s)), S (clock_reads s))
     else (wrap64 (nc_stime ncmd), clock_reads s))
    = (t0, if bool_decide (nc_stime ncmd = 0) then S (clock_reads s) else clock_reads s)).
  { rewrite <- Hw at 1. subst t0. by destruct (bool_decide (nc_stime ncmd = 0)). }
  rewrite Hcase, Hop, <- !HeqT.
  assert (Hns : (if bool_decide (T < t0) then t0 else T) = Z.max t0 T)
    by (destruct (bool_decide_reflect (T < t0)); lia).
  rewrite Hns.
  assert (Hw1 : wrap64 (Z.max t0 T + L) = Z.max t0 T + L) by (apply Z.mod_small; lia).
  rewrite Hw1.
  assert (Hw2 : wrap64 (Z.max t0 T + L - t0) = Z.max t0 T + L - t0)
    by (apply Z.mod_small; lia).
  rewrite Hw2. eexists. split; reflexivity.
Qed.

End properties.

(** * The properties at work on the reduced device *)

Lemma ssd_advance_status_timing_witness :
  exists s',
    ssd_advance_status (env := small_env) small0 (new_ppa 0 0 0 0 0)
                       (mkcmd USER_IO NAND_READ 5000)
      = Ok (Z.max 5000 0 + 40000 - 5000, s') /\
    luns s' = <[(0, 0) := mklun (Z.max 5000 0 + 40000) 0]> (luns small0).
Proof.
  apply (ssd_advance_status_timing (env := small_env) small0 (new_ppa 0 0 0 0 0)
           (mkcmd USER_IO NAND_READ 5000) (mklun 0 0) 5000 40000);
    [ vm_compute; reflexivity | reflexivity | reflexivity | cbn [next_lun_avail_time]; lia .. ].
Defined.

Lemma ssd_read_preserves_maptbl_witness :
  let r := force_lat (ssd_read (env := small_env) small_filled
                               (page_req NVME_CMD_READ 0 1 5000)) in
  maptbl r.2 = maptbl small_filled /\ wp r.2 = wp small_filled /\
  sp r.2 = sp small_filled /\ frame read_footprint small_filled r.2.
Proof.
  apply (ssd_read_preserves_maptbl (env := small_env) small_filled
           (page_req NVME_CMD_READ 0 1 5000)
           (force_lat (ssd_read (env := small_env) small_filled
                                (page_req NVME_CMD_READ 0 1 5000))).1).
  vm_compute. reflexivity.
Defined.

Lemma cmt_counters_add_up_witness :
  cmt_counter_inv (cm (force (insert_entry_to_cmt (env := small_env) small0 7 3))).
Proof.
  apply (proj1 (proj2 (cmt_counters_add_up (env := small_env))) small0 7 3).
  - vm_compute. reflexivity.
  - vm_compute. reflexivity.
Defined.

Lemma read_of_unmapped_costs_nothing_witness :
  exists s',
    ssd_read (env := small_env) small0 (page_req NVME_CMD_READ 0 1 5000) = Ok (0, s') /\
    cm s' = cm small0 /\ cmt_entry_list (cm s') = [] /\ luns s' = luns small0 /\
    nand_log s' = nand_log small0.
Proof.
  apply (proj1 (read_of_unmapped_costs_nothing (env := small_env)) small0
           (page_req NVME_CMD_READ 0 1 5000)).
  - apply (bool_decide_unpack (pristine small0)). vm_compute. exact I.
  - apply (bool_decide_unpack
             (req_in_range (H := small_env) small0 (page_req NVME_CMD_READ 0 1 5000))).
    vm_compute. exact I.
Defined.

Lemma victim_queue_serves_min_vpc_witness :
  1 ∈ [0; 1] /\
  forall x lv lx,
    x ∈ [0; 1] ->
    ({[0 := mkline 0 1 3 1 DATA; 1 := mkline 1 2 2 2 DATA]} : gmap Z line) !! 1 = Some lv ->
    ({[0 := mkline 0 1 3 1 DATA; 1 := mkline 1 2 2 2 DATA]} : gmap Z line) !! x = Some lx ->
    l_vpc lv <= l_vpc lx.
Proof.
  apply (proj1 victim_queue_serves_min_vpc
           {[0 := mkline 0 1 3 1 DATA; 1 := mkline 1 2 2 2 DATA]} [0; 1] 1).
  vm_compute. reflexivity.
Defined.

Lemma ssd_write_collects_first_witness :
  let req := page_req NVME_CMD_WRITE 1 1 6000 in
  let r := force_lat (ssd_write (env := small_env) 4 small_full req) in
  (free_line_cnt (lm small_full) = 0 /\ victim_line_pq (lm small_full) = [0; 2] /\
   should_gc_high small_full = true /\
   do_gc (env := small_env) small_full true
     = Ok (0, force (foreground_gc (env := small_env) 4 small_full)) /\
   force (foreground_gc (env := small_env) 4 small_full) <> small_full) /\
  exists s1,
    foreground_gc (env := small_env) 4 small_full = Ok s1 /\
    for_each (write_lpn (env := small_env) req) (req_lpns (sp s1) req) (s1, 0)
      = Ok (r.2, r.1) /\
    (free_line_cnt (lm s1) > gc_thres_lines_high (sp s1) \/ victim_line_pq (lm s1) = []).
Proof.
  split.
  - split; [vm_compute; reflexivity|]. split; [vm_compute; reflexivity|].
    split; [vm_compute; reflexivity|]. split; [vm_compute; reflexivity|].
    intros E. apply (f_equal (fun s => free_line_cnt (lm s))) in E.
    vm_compute in E. discriminate E.
  - apply (ssd_write_collects_first (env := small_env) 4 small_full
             (page_req NVME_CMD_WRITE 1 1 6000)).
    vm_compute. reflexivity.
Defined.

Lemma evict_dirty_entry_writes_back_witness :
  let s := small_filled in
  let s' := force (evict_entry_from_cmt (env := small_env) s) in
  let old := new_ppa 0 0 0 1 0 in
  let new := new_ppa 1 0 0 1 0 in
  gtd s' !! 0 = Some new /\
  rmap s' !! ppa2pgidx (sp s) new = Some 0 /\
  pgs s' !! pg_of new = Some PG_VALID /\
  (exists s1 s2, twp s1 = twp s /\
                 ssd_advance_trans_write_pointer s1 = Ok s2 /\
                 twp s' = twp s2) /\
  cmt_entries (cm s') !! 1 = Some (mkcmt INVALID_LPN UNMAPPED_PPN CLEAN) /\
  free_cmt_entry_list (cm s') = free_cmt_entry_list (cm s) ++ [1] /\
  cmt_entry_list (cm s') = qtailq_remove 1 (cmt_entry_list (cm s)) /\
  nand_log s' = (NAND_WRITE, new) :: (NAND_READ, old) :: nand_log s /\
  pgs s' !! pg_of old = Some PG_INVALID /\
  rmap s' !! ppa2pgidx (sp s) old = Some INVALID_LPN.
Proof.
  intros s s' old new.
  pose proof (evict_dirty_entry_writes_back (env := small_env) s s' 1
                (mkcmt 1 8 DIRTY) old) as H.
  cbv zeta in H.
  assert (Hrw : mapped_ppa old && valid_ppa s old = true) by (vm_compute; reflexivity).
  assert (Hnew : get_new_trans_page s = new) by (vm_compute; reflexivity).
  assert (Htv : e_lpn (mkcmt 1 8 DIRTY) / ents_per_pg (sp s) = 0) by (vm_compute; reflexivity).
  rewrite Hrw, Hnew, Htv in H.
  repeat rewrite <- and_assoc in H. repeat rewrite <- and_assoc.
  apply H.
  - vm_compute. reflexivity.
  - vm_compute. reflexivity.
  - reflexivity.
  - vm_compute. reflexivity.
  - intros _. split; [vm_compute; reflexivity | vm_compute; discriminate].
  - vm_compute. reflexivity.
Defined.

(** ** Requests past the end of the device, and opcodes the worker ignores *)

(** C6, which the code does not do. The reduced device has 16 pages. A read
    of page 16 is not clamped: the
    first thing the FTL does with that LPN is to index the GTD past its
    end. *)
Lemma read_past_the_end_is_not_clamped :
  req_lpns small_params (page_req NVME_CMD_READ 16 1 5000) = [16] /\
  tt_pgs small_params = 16 /\
  ssd_read (env := small_env) small0 (page_req NVME_CMD_READ 16 1 5000)
    = Err OutOfBounds /\
  ssd_write (env := small_env) 4 small0 (page_req NVME_CMD_WRITE 16 1 5000)
    = Err OutOfBounds.
Proof. vm_compute. repeat split; reflexivity. Qed.

(** C7, which the code does not do. A flush (opcode 0) that follows a write
    is reported with the latency of
    the write, not with 0. The completions are listed most recent first. *)
Lemma flush_after_write_reports_write_latency :
  small_completions [page_req NVME_CMD_WRITE 0 1 5000; mkreq 0 0 0 6000 0 0]
  = Ok [(0, 200000); (NVME_CMD_WRITE, 200000)].
Proof. vm_compute. reflexivity. Qed.

(** * Garbage collection keeps the maps consistent *)

(** ** What the operations do to the view *)

Section effects.
Context {env : femu_env}.

Lemma insert_as_alter `{Countable K} {V} (f : V -> V) (m : gmap K V) (i : K) (v : V) :
  m !! i = Some v -> <[i := f v]> m = alter f i m.
Proof.
  intros Hv. apply map_eq. intros j. destruct (decide (i = j)) as [<-|Hne].
  - by rewrite lookup_insert_eq, lookup_alter_eq, Hv.
  - by rewrite lookup_insert_ne, lookup_alter_ne.
Qed.

Lemma fmap_set_positions (i : Z) (q : list Z) (L : gmap Z line) :
  victim_line_set_pos 0 <$> pqueue.set_positions victim_line_set_pos i q L =
  victim_line_set_pos 0 <$> L.
Proof.
  revert i L. induction q as [|x q IH]; intros i L; simpl; [done|].
  rewrite IH. apply map_eq. intros id. rewrite !lookup_fmap.
  destruct (decide (x = id)) as [<-|Hne].
  - rewrite lookup_alter_eq. by destruct (L !! x).
  - by rewrite lookup_alter_ne.
Qed.

Lemma fmap_alter_view (f g : line -> line) (b : Z) (L : gmap Z line) :
  (forall l, victim_line_set_pos 0 (f l) = g (victim_line_set_pos 0 l)) ->
  victim_line_set_pos 0 <$> alter f b L = alter g b (victim_line_set_pos 0 <$> L).
Proof.
  intros Hfg. apply map_eq. intros id. rewrite lookup_fmap.
  destruct (decide (b = id)) as [<-|Hne].
  - rewrite !lookup_alter_eq, lookup_fmap. destruct (L !! b); simpl; [|done].
    by rewrite Hfg.
  - by rewrite !lookup_alter_ne, lookup_fmap.
Qed.

Lemma frame_view (ch : list field) (s s' : ssd) :
  frame ch s s' ->
  touched Fblks ch = false -> touched Fpgs ch = false -> touched Fmaptbl ch = false ->
  touched Frmap ch = false -> touched Fgtd ch = false -> touched Flm ch = false ->
  touched Fwp ch = false -> touched Ftwp ch = false ->
  view s' = view s.
Proof.
  intros (A0&A1&A2&A3&A4&A5&A6&A7&A8&A9&A10&A11&A12) T2 T3 T4 T5 T6 T7 T8 T9.
  unfold view. rewrite A0, (A2 T2), (A3 T3), (A4 T4), (A5 T5), (A6 T6), (A7 T7), (A8 T8), (A9 T9).
  reflexivity.
Qed.

Lemma set_tbl_view (ty : line_type) (s : ssd) (x : Z) (p : ppa) (s' : ssd) :
  ty <> NONE ->
  match ty with TRANS => set_gtd_ent s x p | _ => set_maptbl_ent s x p end = Ok s' ->
  is_Some (tbl ty s !! x) /\ view s' = upd_tbl ty x p (view s) /\
  maptbl s' = (if bool_decide (ty = DATA) then <[x := p]> (maptbl s) else maptbl s).
Proof.
  intros Hty H. destruct ty; [done| |]; unfold set_maptbl_ent, set_gtd_ent in H; inv_ok;
    simpl; auto.
Qed.

Lemma set_rmap_view (s : ssd) (x : Z) (p : ppa) (s' : ssd) :
  set_rmap_ent s x p = Ok s' ->
  is_Some (rmap s !! ppa2pgidx (sp s) p) /\
  view s' = upd_rmap (ppa2pgidx (sp s) p) x (view s) /\ maptbl s' = maptbl s.
Proof. unfold set_rmap_ent. intros H. inv_ok. simpl. auto. Qed.

Lemma mark_page_valid_view (s : ssd) (p : ppa) (s' : ssd) :
  mark_page_valid s p = Ok s' ->
  is_Some (pgs s !! pg_of p) /\ is_Some (blks s !! blk_of p) /\
  view s' = upd_page (pg_of p) PG_VALID 1 0 (view s) /\ maptbl s' = maptbl s.
Proof.
  unfold mark_page_valid, get_pg, get_blk, get_line. intros H. inv_ok. simpl in *.
  split; [eauto|]. split; [eauto|]. split; [|done].
  unfold view, upd_page, with_lm, with_lines, with_blks, with_pgs. simpl. f_equal.
  - erewrite <- insert_as_alter by eassumption. unfold bump_blk. by rewrite Z.add_0_r.
  - f_equal. rewrite fmap_insert. change (key_blk (pg_of p)) with (g_blk p).
    erewrite <- (insert_as_alter (bump_line 1 0)).
    2:{ rewrite lookup_fmap. match goal with H : lines _ !! _ = Some _ |- _ => rewrite H end. done. }
    unfold bump_line, victim_line_set_pri, victim_line_set_pos. simpl. by rewrite Z.add_0_r.
Qed.

Lemma alter_insert_same `{Countable K} {V} (f : V -> V) (m : gmap K V) (i : K) (v : V) :
  alter f i (<[i := v]> m) = <[i := f v]> m.
Proof.
  apply map_eq. intros j. destruct (decide (i = j)) as [<-|Hne].
  - by rewrite lookup_alter_eq, !lookup_insert_eq.
  - by rewrite lookup_alter_ne, !lookup_insert_ne.
Qed.

Lemma view_lines_upd (g : line -> line) (L : gmap Z line) (b : Z) (l l' : line) :
  L !! b = Some l ->
  victim_line_set_pos 0 l' = g (victim_line_set_pos 0 l) ->
  victim_line_set_pos 0 <$> <[b := l']> L = alter g b (victim_line_set_pos 0 <$> L).
Proof.
  intros Hl Hg. rewrite fmap_insert, Hg. apply insert_as_alter.
  by rewrite lookup_fmap, Hl.
Qed.

Lemma mark_page_invalid_view (s : ssd) (p : ppa) (s' : ssd) :
  mark_page_invalid s p = Ok s' ->
  is_Some (pgs s !! pg_of p) /\ is_Some (blks s !! blk_of p) /\
  view s' = upd_page (pg_of p) PG_INVALID (-1) 1 (view s) /\ maptbl s' = maptbl s.
Proof.
  unfold mark_page_invalid, get_pg, get_blk, get_line. intros H. inv_ok. simpl in *.
  match goal with
  | Hp : pgs s !! _ = Some _, Hb : blks s !! _ = Some ?b, Hl : lines (lm s) !! _ = Some ?l
    |- _ => rename Hb into Hblk; rename Hl into Hline; rename b into blk; rename l into ln
  end.
  split; [eauto|]. split; [eauto|]. split; [|done].
  assert (Hlines : forall q i,
    victim_line_set_pos 0 <$>
      pqueue.set_positions victim_line_set_pos i q
        (alter (victim_line_set_pri (l_vpc ln - 1)) (g_blk p)
           (<[g_blk p := line_with_ipc (l_ipc ln + 1) ln]> (lines (lm s)))) =
    alter (bump_line (-1) 1) (g_blk p) (victim_line_set_pos 0 <$> lines (lm s))).
  { intros q i. rewrite fmap_set_positions, alter_insert_same.
    apply (view_lines_upd _ _ _ ln); [done|]. unfold bump_line; simpl. f_equal. }
  unfold view, upd_page, with_lm, with_lines, with_blks, with_pgs. simpl. f_equal.
  - erewrite <- (insert_as_alter (bump_blk (-1) 1)) by exact Hblk. done.
  - change (key_blk (pg_of p)) with (g_blk p).
    destruct (negb (bool_decide (l_pos ln = 0))), (bool_decide (l_vpc ln = pgs_per_line (sp s)));
      simpl; f_equal;
      rewrite ?fmap_set_positions; first [ apply (Hlines [] 0) | apply Hlines ].
Qed.

Lemma qtailq_remove_head (x : Z) (l : list Z) :
  head l = Some x -> qtailq_remove x l = tail l.
Proof. destruct l as [|y l]; [done|]. intros [= ->]. simpl. by rewrite bool_decide_eq_true_2. Qed.

Lemma advance_view (ty : line_type) (s s' : ssd) :
  ty <> NONE -> lines_indexed (view s) ->
  match ty with
  | TRANS => ssd_advance_trans_write_pointer s
  | _ => ssd_advance_write_pointer s
  end = Ok s' ->
  maptbl s' = maptbl s /\
  ((~ last_pos (sp s) (fr ty s) /\ view s' = upd_fr ty (succ_pos (sp s) (fr ty s)) (view s)) \/
   (last_pos (sp s) (fr ty s) /\
    exists nl, head (free_line_list (lm s)) = Some nl /\ is_Some (lines (lm s) !! nl) /\
               view s' = next_line ty nl (view s))).
Proof.
  intros Hty Hidx H.
  assert (G : advance_write_pointer (fr ty) (upd_fr ty) ty s = Ok s').
  { destruct ty; [done|exact H|exact H]. }
  clear H. unfold advance_write_pointer in G. unfold last_pos, succ_pos.
  set (w := fr ty s) in *.
  destruct (bool_decide_reflect (wp_ch w + 1 = nchs (sp s))) as [Ec|Ec]; simpl in G.
  2:{ injection G as <-. split; [by destruct ty|]. left. split; [tauto|]. by destruct ty. }
  destruct (bool_decide_reflect (wp_lun w + 1 = luns_per_ch (sp s))) as [El|El]; simpl in G.
  2:{ injection G as <-. split; [by destruct ty|]. left. split; [tauto|]. by destruct ty. }
  destruct (bool_decide_reflect (wp_pg w + 1 = pgs_per_blk (sp s))) as [Eg|Eg]; simpl in G.
  2:{ injection G as <-. split; [by destruct ty|]. left. split; [tauto|]. by destruct ty. }
  apply bind_Ok in G as (cur & Hcur & G). apply bind_Ok in G as (l & Hl & G).
  apply arr_get_Ok in Hl.
  unfold get_next_free_line, pqueue_insert, pqueue.insert in G.
  assert (Hgen : forall L' : gmap Z line, forall m' : line_mgmt,
    victim_line_set_pos 0 <$> L' = victim_line_set_pos 0 <$> lines (lm s) ->
    lines m' = L' -> free_line_list m' = free_line_list (lm s) ->
    match
      match qtailq_first (free_line_list m') with
      | Some c =>
          (Some c, with_lm (with_free_lines (qtailq_remove c (free_line_list m'))
                                            (free_line_cnt m' - 1) m') (with_lm m' s))
      | None => (None, with_lm m' s)
      end
    with
    | (None, _) => Err Aborted
    | (Some nl, s2) =>
        nline ← arr_get (lines (lm s2)) nl;
        Ok (upd_fr ty (mkwp (Some nl) 0 0 0 (l_id nline) (wp_pl w))
              (with_lm (with_lines (<[nl := line_with_type ty nline]> (lines (lm s2)))
                          (lm s2)) s2))
    end = Ok s' ->
    maptbl s' = maptbl s /\
    exists nl, head (free_line_list (lm s)) = Some nl /\ is_Some (lines (lm s) !! nl) /\
               view s' = next_line ty nl (view s)).
  { intros L' m' Hls HL Hfree G'. rewrite Hfree in G'.
    destruct (qtailq_first (free_line_list (lm s))) as [nl|] eqn:Hnl; [|discriminate].
    simpl in G'. apply bind_Ok in G' as (nline & Hnline & G'). apply arr_get_Ok in Hnline.
    rewrite HL in Hnline, G'. injection G' as <-.
    assert (Hnl0 : victim_line_set_pos 0 <$> lines (lm s) !! nl
                   = Some (victim_line_set_pos 0 nline)).
    { rewrite <- lookup_fmap, <- Hls, lookup_fmap, Hnline. done. }
    assert (Hid : l_id nline = nl).
    { specialize (Hidx nl (victim_line_set_pos 0 nline)). simpl in Hidx.
      rewrite lookup_fmap in Hidx. apply Hidx in Hnl0. tauto. }
    split; [by destruct ty|]. exists nl. split; [exact Hnl|].
    split. { destruct (lines (lm s) !! nl); [eauto|discriminate]. }
    unfold next_line. rewrite Hid.
    assert (Hl2 : victim_line_set_pos 0 <$> <[nl := line_with_type ty nline]> L'
            = alter (line_with_type ty) nl (victim_line_set_pos 0 <$> lines (lm s))).
    { rewrite <- Hls. apply (view_lines_upd _ _ _ nline); done. }
    subst w.
    destruct ty; [done| |]; unfold view, upd_fr, with_wp, with_twp, with_lm, with_free_lines,
      with_lines; simpl; rewrite Hl2, (qtailq_remove_head _ _ Hnl); reflexivity. }
  destruct (bool_decide (l_vpc l = pgs_per_line (sp s))).
  - edestruct (Hgen (lines (lm s))) as [? ?]; [reflexivity| | |exact G|]; [done|done|].
    split; [done|]. right. split; [tauto|]. done.
  - edestruct (Hgen (pqueue.set_positions victim_line_set_pos 1
                       (victim_line_pq (lm s) ++ [cur]) (lines (lm s))))
      as [? ?]; [apply fmap_set_positions| | |exact G|]; [done|done|].
    split; [done|]. right. split; [tauto|]. done.
Qed.

Lemma free_pages_loop (bk : Z * Z * Z * Z) (l : list Z) (s s' : ssd) :
  for_each (fun s i => m ← arr_set (pgs s) (bk, i) PG_FREE; Ok (with_pgs m s)) l s = Ok s' ->
  frame [Fpgs] s s' /\
  (forall i, i ∈ l -> is_Some (pgs s !! (bk, i))) /\
  forall k : pgkey,
    pgs s' !! k = if bool_decide (k.1 = bk /\ k.2 ∈ l) then Some PG_FREE else pgs s !! k.
Proof.
  revert s. induction l as [|i l IH]; intros s H; simpl in H.
  - injection H as <-. split; [apply frame_refl|]. split.
    { intros i Hi. by apply elem_of_nil in Hi. }
    intros k.
    rewrite bool_decide_eq_false_2; [done|]. intros [_ Hin]. by apply elem_of_nil in Hin.
  - apply bind_Ok in H as (s1 & H1 & H). inv_ok. destruct (IH _ H) as (Hf & Hex & Hk).
    split. { eapply frame_trans; [|exact Hf]. frame_here. }
    split.
    { intros j Hj. apply elem_of_cons in Hj as [->|Hj]; [done|].
      specialize (Hex j Hj). simpl in Hex.
      destruct (decide (i = j)) as [->|Hne]; [done|].
      rewrite lookup_insert_ne in Hex; [done|]. intros [= ->]. done. }
    intros k. rewrite Hk. simpl. destruct k as [bk' g]. simpl.
    destruct (decide (bk' = bk /\ g ∈ l)) as [Hin|Hin].
    + rewrite !bool_decide_eq_true_2; [done| |done]. destruct Hin. split; [done|by right].
    + rewrite (bool_decide_eq_false_2 _ Hin).
      destruct (decide (bk' = bk /\ g = i)) as [[-> ->]|Hne].
      * rewrite bool_decide_eq_true_2 by (split; [done|left]). by rewrite lookup_insert_eq.
      * rewrite bool_decide_eq_false_2.
        2:{ intros [-> Hi]. apply elem_of_cons in Hi as [->|Hi]; tauto. }
        apply lookup_insert_ne. intros [= -> ->]. tauto.
Qed.

Lemma mark_block_free_view (s : ssd) (p : ppa) (s' : ssd) :
  mark_block_free s p = Ok s' ->
  is_Some (blks s !! blk_of p) /\
  view s' = erase_block (blk_of p) (pgs_per_blk (sp s)) (view s) /\ maptbl s' = maptbl s.
Proof.
  unfold mark_block_free, get_blk. intros H. apply bind_Ok in H as (b & Hb & H).
  apply arr_get_Ok in Hb. apply bind_Ok in H as (s1 & H1 & H). injection H as <-.
  change (fun s i => m ← arr_set (pgs s) (g_ch p, g_lun p, g_pl p, g_blk p, i) PG_FREE;
                     Ok (with_pgs m s))
    with (fun s i => m ← arr_set (pgs s) (blk_of p, i) PG_FREE; Ok (with_pgs m s)) in H1.
  apply free_pages_loop in H1 as (Hf & Hex & Hk).
  destruct Hf as (A0&A1&A2&A3&A4&A5&A6&A7&A8&A9&A10&A11&A12).
  split; [eauto|]. split; [|simpl; by apply A4].
  unfold view, erase_block, with_blks, with_pgs. simpl.
  rewrite A0, (A2 eq_refl), (A4 eq_refl), (A5 eq_refl), (A6 eq_refl), (A7 eq_refl),
    (A8 eq_refl), (A9 eq_refl).
  f_equal.
  - apply (insert_as_alter (fun b => mkblk 0 0 (b_erase_cnt b + 1))). exact Hb.
  - apply map_eq. intros k. rewrite Hk, map_lookup_imap.
    destruct (decide (k.1 = blk_of p /\ 0 <= k.2 < pgs_per_blk (sp s))) as [Hin|Hin].
    + assert (Hin' : k.1 = blk_of p /\ k.2 ∈ seqZ 0 (pgs_per_blk (sp s))).
      { destruct Hin as [? ?]. split; [done|]. apply elem_of_seqZ. lia. }
      rewrite (bool_decide_eq_true_2 _ Hin').
      destruct Hin' as [Hk1 Hk2]. destruct (Hex _ Hk2) as [st Hst].
      destruct k as [bk g]. simpl in Hk1. subst bk. simpl in Hst. rewrite Hst. simpl.
      by rewrite (bool_decide_eq_true_2 _ Hin).
    + rewrite bool_decide_eq_false_2.
      2:{ intros [? Hi]. apply elem_of_seqZ in Hi. apply Hin. split; [done|lia]. }
      destruct (pgs s !! k); simpl; [|done]. by rewrite (bool_decide_eq_false_2 _ Hin).
Qed.

Lemma mark_line_free_view (s : ssd) (p : ppa) (s' : ssd) :
  mark_line_free s p = Ok s' ->
  view s' = release_line (g_blk p) (view s) /\ maptbl s' = maptbl s.
Proof.
  unfold mark_line_free, get_line. intros H. inv_ok. split; [|done].
  unfold view, release_line, with_lm, with_free_lines, with_lines, qtailq_insert_tail.
  simpl. f_equal. f_equal.
  match goal with Hl : lines (lm s) !! _ = Some ?l |- _ =>
    apply (view_lines_upd (fun l => mkline (l_id l) 0 0 (l_pos l) NONE) _ _ l); done
  end.
Qed.

Lemma best_in (ls : gmap Z line) (q : list Z) (b : Z) :
  pqueue.best victim_line_cmp_pri victim_line_get_pri ls b q ∈ b :: q.
Proof.
  revert b. induction q as [|x q IH]; intros b; simpl; [left|].
  destruct (victim_line_cmp_pri _ _).
  - right. apply IH.
  - specialize (IH b). apply elem_of_cons in IH as [->|IH]; [left|right; by right].
Qed.

Lemma fmap_alter_pos (i b : Z) (L : gmap Z line) :
  victim_line_set_pos 0 <$> alter (victim_line_set_pos i) b L =
  victim_line_set_pos 0 <$> L.
Proof.
  apply map_eq. intros id. rewrite !lookup_fmap.
  destruct (decide (b = id)) as [<-|Hne].
  - rewrite lookup_alter_eq. by destruct (L !! b).
  - by rewrite lookup_alter_ne.
Qed.

Lemma select_victim_line_view (s : ssd) (force : bool) (v : Z) (s' : ssd) :
  select_victim_line s force = Ok (Some v, s') ->
  view s' = view s /\ v ∈ victim_line_pq (lm s) /\ maptbl s' = maptbl s.
Proof.
  unfold select_victim_line, pqueue_peek, pqueue_pop, pqueue.pop. intros H.
  destruct (pqueue.peek _ _ _ _) as [b|] eqn:Hpeek; [|inv_ok; discriminate].
  apply bind_Ok in H as (l & Hl & H).
  destruct (negb force && _); [inv_ok; discriminate|]. simpl in H. inv_ok.
  split; [|split; [|done]].
  - unfold view. simpl. by rewrite fmap_alter_pos, fmap_set_positions.
  - unfold pqueue.peek in Hpeek. destruct (victim_line_pq (lm s)) as [|x q]; [done|].
    injection Hpeek as <-. apply best_in.
Qed.

End effects.

Lemma pgidx_of_pg_of (spp : ssdparams) (p : ppa) :
  pgidx_of spp (pg_of p) = ppa2pgidx spp p.
Proof. reflexivity. Qed.

Lemma radix_unique (n a b a' b' : Z) :
  0 <= b < n -> 0 <= b' < n -> a * n + b = a' * n + b' -> a = a' /\ b = b'.
Proof. intros Hb Hb' E. assert (a = a') by nia. subst. lia. Qed.

Lemma pgidx_range (spp : ssdparams) (k : pgkey) :
  geometry_ok spp -> key_in_range spp k -> 0 <= pgidx_of spp k < tt_pgs spp.
Proof.
  destruct k as [[[[c l] pl] b] g].
  unfold geometry_ok, key_in_range, pgidx_of, key_ch, key_lun, key_pl, key_blk, key_pg.
  simpl. intros (Hc & Hl & Hpl & Hb & Hg & -> & -> & -> & ->) (Kc & Kl & -> & Kb & Kg).
  rewrite Hpl, Z.mul_1_r.
  assert (0 <= b * pgs_per_blk spp + g < pgs_per_blk spp * blks_per_pl spp) by nia.
  assert (0 <= l * (pgs_per_blk spp * blks_per_pl spp) + (b * pgs_per_blk spp + g)
          < pgs_per_blk spp * blks_per_pl spp * luns_per_ch spp) by nia.
  nia.
Qed.

Lemma pgidx_inj (spp : ssdparams) (k k' : pgkey) :
  geometry_ok spp -> key_in_range spp k -> key_in_range spp k' ->
  pgidx_of spp k = pgidx_of spp k' -> k = k'.
Proof.
  destruct k as [[[[c l] pl] b] g], k' as [[[[c' l'] pl'] b'] g'].
  unfold geometry_ok, key_in_range, pgidx_of, key_ch, key_lun, key_pl, key_blk, key_pg.
  simpl. intros (Hc & Hl & Hpl & Hb & Hg & -> & -> & -> & _)
    (Kc & Kl & -> & Kb & Kg) (Kc' & Kl' & -> & Kb' & Kg').
  rewrite Hpl, Z.mul_1_r. intros E.
  set (B := pgs_per_blk spp) in *. set (NB := blks_per_pl spp) in *.
  set (NL := luns_per_ch spp) in *.
  assert (R1 : 0 <= b * B + g < B * NB) by nia.
  assert (R1' : 0 <= b' * B + g' < B * NB) by nia.
  assert (R2 : 0 <= l * (B * NB) + (b * B + g) < B * NB * NL) by nia.
  assert (R2' : 0 <= l' * (B * NB) + (b' * B + g') < B * NB * NL) by nia.
  destruct (radix_unique (B * NB * NL) c (l * (B * NB) + (b * B + g))
              c' (l' * (B * NB) + (b' * B + g')) R2 R2') as [-> E2]; [lia|].
  destruct (radix_unique (B * NB) l (b * B + g) l' (b' * B + g') R1 R1' E2) as [-> E1].
  destruct (radix_unique B b g b' g' Kg Kg' E1) as [-> ->]. reflexivity.
Qed.

Lemma pgidx_unmapped (spp : ssdparams) :
  geometry_ok spp -> tt_pgs spp <= ppa2pgidx spp UNMAPPED_PPA.
Proof.
  unfold geometry_ok, ppa2pgidx. simpl.
  intros (Hc & Hl & Hpl & Hb & Hg & -> & -> & -> & ->). rewrite Hpl, Z.mul_1_r. nia.
Qed.

(** ** Ingredients *)

Lemma all_luns_elem (spp : ssdparams) (c l : Z) :
  (c, l) ∈ all_luns spp <-> 0 <= c < nchs spp /\ 0 <= l < luns_per_ch spp.
Proof.
  unfold all_luns. rewrite list_elem_of_bind. split.
  - intros (ch & Hin & Hch). apply list_elem_of_fmap in Hin as (lun & [= -> ->] & Hlun).
    apply elem_of_seqZ in Hch, Hlun. lia.
  - intros [Hc Hl]. exists c. split; [|apply elem_of_seqZ; lia].
    apply list_elem_of_fmap. exists l. split; [done|apply elem_of_seqZ; lia].
Qed.

Lemma all_luns_NoDup (spp : ssdparams) : NoDup (all_luns spp).
Proof.
  unfold all_luns. apply NoDup_bind.
  - intros c1 c2 [c l] _ _ H1 H2.
    apply list_elem_of_fmap in H1 as (? & [= -> ->] & _).
    apply list_elem_of_fmap in H2 as (? & [= -> ->] & _). done.
  - intros c _. apply NoDup_fmap_2; [|apply NoDup_seqZ]. intros ?? [=]. done.
  - apply NoDup_seqZ.
Qed.

Lemma line_sum_other (f : nand_block -> Z) (a a' : ssd) (g : nand_block -> nand_block)
    (bk : Z * Z * Z * Z) (id : Z) :
  sp a' = sp a -> blks a' = alter g bk (blks a) -> bk.2 <> id ->
  line_sum f a' id = line_sum f a id.
Proof.
  intros Hsp Hb Hne. unfold line_sum. rewrite Hsp, Hb.
  induction (all_luns (sp a)) as [|cl L IH]; simpl; [done|].
  rewrite IH, lookup_alter_ne; [done|]. intros ->. done.
Qed.

Lemma line_sum_same (f : nand_block -> Z) (a a' : ssd) (g : nand_block -> nand_block)
    (c l id : Z) (b : nand_block) :
  sp a' = sp a -> blks a' = alter g (c, l, 0, id) (blks a) ->
  blks a !! (c, l, 0, id) = Some b -> (c, l) ∈ all_luns (sp a) ->
  line_sum f a' id = line_sum f a id + (f (g b) - f b).
Proof.
  intros Hsp Hb Hlk Hin. unfold line_sum. rewrite Hsp, Hb.
  pose proof (all_luns_NoDup (sp a)) as Hnd.
  induction (all_luns (sp a)) as [|[c' l'] L IH]; simpl.
  { by apply elem_of_nil in Hin. }
  apply NoDup_cons in Hnd as [Hnot Hnd].
  apply elem_of_cons in Hin as [[= <- <-]|Hin].
  - rewrite lookup_alter_eq, Hlk. simpl.
    assert (E : foldr (fun cl acc =>
                match alter g (c, l, 0, id) (blks a) !! (cl.1, cl.2, 0, id) with
                | Some b0 => f b0 | None => 0 end + acc) 0 L =
              foldr (fun cl acc =>
                match blks a !! (cl.1, cl.2, 0, id) with
                | Some b0 => f b0 | None => 0 end + acc) 0 L).
    { clear IH Hnd. induction L as [|[c2 l2] L IH2]; simpl; [done|].
      rewrite IH2.
      - rewrite lookup_alter_ne; [done|]. intros [= -> ->]. apply Hnot. left.
      - intros Hx. apply Hnot. by right. }
    rewrite E. lia.
  - rewrite (IH Hin Hnd). rewrite lookup_alter_ne; [lia|].
    intros [= -> ->]. done.
Qed.

(** ** The invariant, component by component *)

Ltac inv_split H :=
  destruct H as (Hgeo & Hpr & Hrr & Hli & Htd & Htt & Hpg & Hcn & Hfd & Hft & Hfr & Hvi).

Lemma inv_table (m : gc_mode) (a : ssd) (ty : line_type) :
  inv m a -> ty <> NONE -> table_ok m ty a.
Proof. intros H Hty. inv_split H. destruct ty; done. Qed.

Lemma inv_frontier (m : gc_mode) (a : ssd) (ty : line_type) :
  inv m a -> ty <> NONE -> frontier_ok m ty a.
Proof. intros H Hty. inv_split H. destruct ty; done. Qed.

Lemma line_type_range (a : ssd) (b : Z) (ty : line_type) :
  lines_indexed a -> line_type_of a b = Some ty -> 0 <= b < blks_per_pl (sp a).
Proof.
  unfold line_type_of. intros Hli H. destruct (lines (lm a) !! b) as [l|] eqn:E; [|done].
  by destruct (Hli b l E).
Qed.

Lemma mapped_new_ppa (ch lun pg blk pl : Z) : mapped_ppa (new_ppa ch lun pg blk pl) = true.
Proof.
  unfold mapped_ppa. rewrite bool_decide_eq_false_2; [done|].
  intros E. apply (f_equal g_sec) in E. discriminate E.
Qed.

Lemma frontier_page (m : gc_mode) (a : ssd) (ty : line_type) :
  inv m a -> ty <> NONE ->
  let w := fr ty a in
  let new := new_ppa (wp_ch w) (wp_lun w) (wp_pg w) (wp_blk w) (wp_pl w) in
  pg_of new = fr_key w /\ mapped_ppa new = true /\ g_blk new = wp_blk w /\
  key_in_range (sp a) (fr_key w) /\
  (gm_strict m <> Some ty -> forall st, pgs a !! fr_key w = Some st -> st = PG_FREE).
Proof.
  intros H Hty w new. pose proof (inv_frontier _ _ _ H Hty) as Hf. inv_split H.
  destruct Hf as (Hcur & Hpl & Hch & Hlun & Hpg' & Hlt & Hvic & Hnf & Hfree).
  fold w in Hcur, Hpl, Hch, Hlun, Hpg', Hlt, Hvic, Hnf, Hfree.
  pose proof (line_type_range _ _ _ Hli Hlt) as Hblk.
  destruct Hgeo as (G1 & G2 & G3 & G4 & G5 & _).
  assert (E : pg_of new = fr_key w).
  { unfold new, new_ppa, pg_of, fr_key. simpl. rewrite Hpl.
    rewrite !Z.mod_small by lia. done. }
  split; [exact E|]. split; [apply mapped_new_ppa|]. split.
  { unfold new, new_ppa. simpl. apply Z.mod_small. lia. }
  split. { unfold key_in_range, fr_key, key_ch, key_lun, key_pl, key_blk, key_pg. simpl. lia. }
  intros Hns st Hst. eapply Hfree; [exact Hst|done|].
  rewrite bool_decide_eq_false_2 by done. unfold pos_after, fr_key, key_pg, key_lun, key_ch.
  simpl. right. split; [done|]. right. split; [done|lia].
Qed.

(** ** Allocation of the page under a write pointer *)

Lemma tbl_alloc (ty ty' : line_type) (x : Z) (a : ssd) :
  ty <> NONE -> ty' <> NONE ->
  tbl ty' (alloc ty x a) =
  if bool_decide (ty' = ty)
  then <[x := new_ppa (wp_ch (fr ty a)) (wp_lun (fr ty a)) (wp_pg (fr ty a))
                      (wp_blk (fr ty a)) (wp_pl (fr ty a))]> (tbl ty a)
  else tbl ty' a.
Proof. by destruct ty, ty'. Qed.

Lemma fr_alloc (ty ty' : line_type) (x : Z) (a : ssd) : fr ty' (alloc ty x a) = fr ty' a.
Proof. by destruct ty, ty'. Qed.

Lemma pgs_alloc (ty : line_type) (x : Z) (a : ssd) :
  pgs (alloc ty x a) = <[fr_key (fr ty a) := PG_VALID]> (pgs a).
Proof. by destruct ty. Qed.

Lemma rmap_alloc (ty : line_type) (x : Z) (a : ssd) :
  rmap (alloc ty x a) = <[pgidx_of (sp a) (fr_key (fr ty a)) := x]> (rmap a).
Proof. by destruct ty. Qed.

Lemma blks_alloc (ty : line_type) (x : Z) (a : ssd) :
  blks (alloc ty x a) = alter (bump_blk 1 0) (blk_key (fr_key (fr ty a))) (blks a).
Proof. by destruct ty. Qed.

Lemma lines_alloc (ty : line_type) (x : Z) (a : ssd) :
  lines (lm (alloc ty x a)) = alter (bump_line 1 0) (wp_blk (fr ty a)) (lines (lm a)).
Proof. by destruct ty. Qed.

Lemma free_alloc (ty : line_type) (x : Z) (a : ssd) :
  free_line_list (lm (alloc ty x a)) = free_line_list (lm a).
Proof. by destruct ty. Qed.

Lemma sp_alloc (ty : line_type) (x : Z) (a : ssd) : sp (alloc ty x a) = sp a.
Proof. by destruct ty. Qed.

Lemma line_type_alter (f : line -> line) (a a' : ssd) (b id : Z) :
  (forall l, l_type (f l) = l_type l) ->
  lines (lm a') = alter f b (lines (lm a)) ->
  line_type_of a' id = line_type_of a id.
Proof.
  intros Hf Hl. unfold line_type_of. rewrite Hl.
  destruct (decide (b = id)) as [<-|Hne].
  - rewrite lookup_alter_eq. destruct (lines (lm a) !! b); simpl; [|done]. by rewrite Hf.
  - by rewrite lookup_alter_ne.
Qed.

Lemma line_type_alloc (ty : line_type) (x : Z) (a : ssd) (id : Z) :
  line_type_of (alloc ty x a) id = line_type_of a id.
Proof. apply (line_type_alter (bump_line 1 0) _ _ (wp_blk (fr ty a))); [done|apply lines_alloc]. Qed.

Lemma rmap_at_alloc (ty : line_type) (x : Z) (a : ssd) (k : pgkey) :
  rmap_at (alloc ty x a) k =
  <[pgidx_of (sp a) (fr_key (fr ty a)) := x]> (rmap a) !! pgidx_of (sp a) k.
Proof. unfold rmap_at. by rewrite rmap_alloc, sp_alloc. Qed.

Lemma pgs_range (m : gc_mode) (a : ssd) (k : pgkey) (st : pg_status) :
  inv m a -> pgs a !! k = Some st -> key_in_range (sp a) k.
Proof. intros H Hk. inv_split H. by apply (Hpr k st). Qed.

(** Two pages of the array with the same index are the same page. *)
Lemma pg_inj (m : gc_mode) (a : ssd) (k k' : pgkey) :
  inv m a -> key_in_range (sp a) k -> key_in_range (sp a) k' ->
  pgidx_of (sp a) k = pgidx_of (sp a) k' -> k = k'.
Proof. intros H Hk Hk' E. inv_split H. by apply (pgidx_inj (sp a)). Qed.

Lemma alloc_table (m : gc_mode) (a : ssd) (ty ty' : line_type) (x : Z) :
  inv m a -> ty <> NONE -> ty' <> NONE ->
  gm_hole m = Some (ty, x) -> gm_strict m = None ->
  table_ok (with_hole None (with_strict (Some ty) m)) ty' (alloc ty x a).
Proof.
  intros Hinv Hty Hty' Hhole Hstr.
  destruct (frontier_page m a ty Hinv Hty) as (Epg & Hmap & Hgb & Hrange & Hfreepg).
  pose proof (inv_table _ _ _ Hinv Hty') as Htab.
  pose proof (inv_frontier _ _ _ Hinv Hty) as (_ & _ & _ & _ & _ & Hlt & Hvic & _ & _).
  set (w := fr ty a) in *.
  set (new := new_ppa (wp_ch w) (wp_lun w) (wp_pg w) (wp_blk w) (wp_pl w)) in *.
  intros x' p Hlook _ Hmp. rewrite tbl_alloc in Hlook by done.
  rewrite pgs_alloc, rmap_alloc, sp_alloc, line_type_alloc. fold w.
  destruct (decide (ty' = ty /\ x' = x)) as [[-> ->]|Hne].
  - rewrite bool_decide_eq_true_2, lookup_insert_eq in Hlook by done.
    fold w in Hlook. fold new in Hlook. injection Hlook as <-. rewrite Epg, Hgb.
    split. { unfold exempt. simpl. destruct (gm_cur m) as [[[c l] i]|]; [|tauto].
             intros (Hv & _). apply Hvic. exact Hv. }
    split; [apply lookup_insert_eq|]. split; [|exact Hlt].
    rewrite <- pgidx_of_pg_of, Epg. apply lookup_insert_eq.
  - assert (Hold : tbl ty' a !! x' = Some p).
    { destruct (bool_decide_reflect (ty' = ty)) as [->|Hn]; [|done].
      rewrite lookup_insert_ne in Hlook; [done|]. intros ->. by apply Hne. }
    assert (Hnh : Some (ty', x') <> gm_hole m).
    { rewrite Hhole. intros [= -> ->]. by apply Hne. }
    destruct (Htab x' p Hold Hnh Hmp) as (Hex & Hpv & Hrm & Hlty).
    assert (Hk : pg_of p <> fr_key w).
    { intros E. rewrite E in Hpv. apply Hfreepg in Hpv; [done|]. by rewrite Hstr. }
    split; [exact Hex|]. split; [by rewrite lookup_insert_ne|]. split; [|exact Hlty].
    rewrite lookup_insert_ne; [done|]. intros E. apply Hk. symmetry.
    apply (pg_inj m a); [done|done|by apply (pgs_range m a _ PG_VALID)|].
    by rewrite E.
Qed.

Lemma alloc_backed (m : gc_mode) (a : ssd) (ty ty0 : line_type) (x x0 : Z) (k : pgkey) :
  ty <> NONE -> ty0 <> NONE -> gm_hole m = Some (ty, x) ->
  backed m a ty0 x0 k ->
  backed (with_hole None (with_strict (Some ty) m)) (alloc ty x a) ty0 x0 k.
Proof.
  intros Hty Hty0 Hhole (Hlt & Hnh & Hpt). unfold backed.
  rewrite line_type_alloc. split; [exact Hlt|]. split; [done|].
  unfold points_to in *. rewrite tbl_alloc by done.
  destruct (bool_decide_reflect (ty0 = ty)) as [->|Hn]; [|exact Hpt].
  rewrite lookup_insert_ne; [exact Hpt|]. intros ->. apply Hnh. by rewrite Hhole.
Qed.

Lemma alloc_pages (m : gc_mode) (a : ssd) (ty : line_type) (x : Z) :
  inv m a -> ty <> NONE -> gm_hole m = Some (ty, x) -> gm_strict m = None ->
  pages_ok (with_hole None (with_strict (Some ty) m)) (alloc ty x a).
Proof.
  intros Hinv Hty Hhole Hstr.
  destruct (frontier_page m a ty Hinv Hty) as (Epg & Hmap & Hgb & Hrange & Hfreepg).
  pose proof (inv_frontier _ _ _ Hinv Hty) as (_ & _ & _ & _ & _ & Hlt & Hvic & _ & _).
  set (w := fr ty a) in *.
  set (new := new_ppa (wp_ch w) (wp_lun w) (wp_pg w) (wp_blk w) (wp_pl w)) in *.
  intros k st Hk Hnex. rewrite pgs_alloc in Hk. rewrite rmap_at_alloc. fold w in Hk |- *.
  destruct (decide (k = fr_key w)) as [->|Hne].
  - rewrite lookup_insert_eq in Hk. injection Hk as <-. split; [|done]. intros _.
    rewrite lookup_insert_eq.
    assert (Hb : backed (with_hole None (with_strict (Some ty) m)) (alloc ty x a) ty x
                   (fr_key w)).
    { unfold backed. rewrite line_type_alloc. split; [exact Hlt|]. split; [done|].
      unfold points_to. rewrite tbl_alloc, bool_decide_eq_true_2 by done.
      rewrite lookup_insert_eq. fold w. fold new. done. }
    destruct ty; [done|by left|by right].
  - rewrite lookup_insert_ne in Hk by done.
    assert (Hnex' : ~ exempt m k) by exact Hnex.
    pose proof Hinv as Hinv'. inv_split Hinv'.
    destruct (Hpg k st Hk Hnex') as [Hv Hi].
    assert (Hidx : pgidx_of (sp a) (fr_key w) <> pgidx_of (sp a) k).
    { intros E. apply Hne. symmetry.
      apply (pg_inj m a); [done|done|by apply (Hpr k st)|done]. }
    rewrite lookup_insert_ne by done. split.
    + intros Hst. specialize (Hv Hst). unfold rmap_at in Hv.
      destruct (rmap a !! pgidx_of (sp a) k) as [x0|]; [|done].
      destruct Hv as [Hb|Hb]; [left|right]; by apply alloc_backed.
    + exact Hi.
Qed.

Lemma alloc_counters (m : gc_mode) (a : ssd) (ty : line_type) (x : Z) :
  inv m a -> ty <> NONE -> is_Some (blks a !! blk_key (fr_key (fr ty a))) ->
  counters_ok (gm_victim m) (alloc ty x a).
Proof.
  intros Hinv Hty [b Hb].
  destruct (frontier_page m a ty Hinv Hty) as (Epg & Hmap & Hgb & Hrange & Hfreepg).
  set (w := fr ty a) in *. inv_split Hinv.
  intros id l Hl Hskip. rewrite lines_alloc in Hl. fold w in Hl.
  destruct Hrange as (Rc & Rl & _ & _ & _).
  unfold fr_key, key_ch, key_lun in Rc, Rl. simpl in Rc, Rl.
  unfold blk_key, fr_key, key_ch, key_lun, key_pl, key_blk in Hb. simpl in Hb.
  destruct (decide (wp_blk w = id)) as [<-|Hne].
  - rewrite lookup_alter_eq in Hl. destruct (lines (lm a) !! wp_blk w) as [l0|] eqn:E; [|done].
    injection Hl as <-. destruct (Hcn _ _ E Hskip) as [Hv Hi]. simpl.
    rewrite (line_sum_same b_vpc a _ (bump_blk 1 0) (wp_ch w) (wp_lun w) (wp_blk w) b),
      (line_sum_same b_ipc a _ (bump_blk 1 0) (wp_ch w) (wp_lun w) (wp_blk w) b);
      try done; try apply sp_alloc; try apply blks_alloc; try (apply all_luns_elem; lia).
    simpl. lia.
  - rewrite lookup_alter_ne in Hl by done. destruct (Hcn _ _ Hl Hskip) as [Hv Hi].
    rewrite (line_sum_other b_vpc a _ (bump_blk 1 0) (blk_key (fr_key w)) id),
      (line_sum_other b_ipc a _ (bump_blk 1 0) (blk_key (fr_key w)) id);
      try done; try apply sp_alloc; apply blks_alloc.
Qed.

Lemma pos_after_weaken (b : bool) (w : write_pointer) (k : pgkey) :
  pos_after b w k -> pos_after false w k.
Proof. unfold pos_after. destruct b; [lia|done]. Qed.

Lemma pos_after_self (w : write_pointer) : ~ pos_after true w (fr_key w).
Proof. unfold pos_after, fr_key, key_pg, key_lun, key_ch. simpl. lia. Qed.

Lemma alloc_frontier (m : gc_mode) (a : ssd) (ty ty' : line_type) (x : Z) :
  inv m a -> ty <> NONE -> ty' <> NONE -> gm_strict m = None ->
  frontier_ok (with_hole None (with_strict (Some ty) m)) ty' (alloc ty x a).
Proof.
  intros Hinv Hty Hty' Hstr.
  pose proof (inv_frontier _ _ _ Hinv Hty) as (_ & _ & _ & _ & _ & Hlt & _).
  pose proof (inv_frontier _ _ _ Hinv Hty') as (F1 & F2 & F3 & F4 & F5 & F6 & F7 & F8 & F9).
  unfold frontier_ok. rewrite fr_alloc, sp_alloc, line_type_alloc, free_alloc, pgs_alloc.
  simpl gm_victim. simpl gm_strict. do 8 (split; [assumption|]).
  intros k st Hk Hblk Hpos.
  destruct (decide (k = fr_key (fr ty a))) as [->|Hne].
  - exfalso. destruct (decide (ty = ty')) as [<-|Hd].
    + rewrite bool_decide_eq_true_2 in Hpos by done. by apply pos_after_self in Hpos.
    + unfold fr_key, key_blk in Hblk. simpl in Hblk. rewrite Hblk in Hlt. congruence.
  - rewrite lookup_insert_ne in Hk by done. apply (F9 k st Hk Hblk).
    rewrite Hstr. rewrite bool_decide_eq_false_2 by done. by eapply pos_after_weaken.
Qed.

Lemma alloc_free (m : gc_mode) (a : ssd) (ty : line_type) (x : Z) :
  inv m a -> ty <> NONE ->
  free_ok (with_hole None (with_strict (Some ty) m)) (alloc ty x a).
Proof.
  intros Hinv Hty.
  pose proof (inv_frontier _ _ _ Hinv Hty) as (_ & _ & _ & _ & _ & _ & _ & F8 & _).
  inv_split Hinv. destruct Hfr as (N1 & N2 & N3).
  unfold free_ok. rewrite free_alloc, pgs_alloc. do 2 (split; [assumption|]).
  intros k st Hk Hin. destruct (decide (k = fr_key (fr ty a))) as [->|Hne].
  - exfalso. by apply F8.
  - rewrite lookup_insert_ne in Hk by done. by apply (N3 k st).
Qed.

Lemma alloc_victim (m : gc_mode) (a : ssd) (ty : line_type) (x : Z) :
  inv m a -> ty <> NONE ->
  victim_ok (with_hole None (with_strict (Some ty) m)) (alloc ty x a).
Proof.
  intros Hinv Hty.
  pose proof (inv_frontier _ _ _ Hinv Hty) as (_ & _ & _ & _ & _ & _ & F7 & _ & _).
  inv_split Hinv. destruct Hvi as (V1 & V2 & V3).
  unfold victim_ok. rewrite pgs_alloc, blks_alloc. simpl gm_victim. simpl gm_done.
  simpl gm_vty. split; [|split].
  - intros v Hv. rewrite line_type_alloc. by apply V1.
  - intros k st Hk Hv Hd. destruct (decide (k = fr_key (fr ty a))) as [->|Hne].
    + exfalso. by apply F7.
    + rewrite lookup_insert_ne in Hk by done. by apply (V2 k st).
  - intros bk b Hb Hv Hpl Hd. rewrite lookup_alter_ne in Hb; [by apply (V3 bk b)|].
    intros <-. by apply F7.
Qed.

Lemma alloc_inv (m : gc_mode) (a : ssd) (ty : line_type) (x : Z) :
  inv m a -> ty <> NONE -> gm_hole m = Some (ty, x) -> gm_strict m = None ->
  is_Some (blks a !! blk_key (fr_key (fr ty a))) ->
  is_Some (pgs a !! fr_key (fr ty a)) ->
  is_Some (rmap a !! pgidx_of (sp a) (fr_key (fr ty a))) ->
  inv (with_hole None (with_strict (Some ty) m)) (alloc ty x a).
Proof.
  intros Hinv Hty Hhole Hstr Hb Hp Hr. unfold inv.
  split. { rewrite sp_alloc. by inv_split Hinv. }
  split. { inv_split Hinv. unfold pgs_in_range. rewrite pgs_alloc, sp_alloc.
           intros k st Hk. destruct (decide (fr_key (fr ty a) = k)) as [<-|Hne].
           - destruct Hp as [st0 Hst0]. by apply (Hpr _ st0).
           - rewrite lookup_insert_ne in Hk by done. by apply (Hpr k st). }
  split. { inv_split Hinv. unfold rmap_in_range. rewrite rmap_alloc, sp_alloc.
           intros i y Hi.
           destruct (decide (pgidx_of (sp a) (fr_key (fr ty a)) = i)) as [<-|Hne].
           - destruct Hr as [y0 Hy0]. by apply (Hrr _ y0).
           - rewrite lookup_insert_ne in Hi by done. by apply (Hrr i y). }
  split. { inv_split Hinv. unfold lines_indexed. rewrite lines_alloc, sp_alloc.
           intros id l Hl. destruct (decide (wp_blk (fr ty a) = id)) as [<-|Hne].
           - rewrite lookup_alter_eq in Hl.
             destruct (lines (lm a) !! wp_blk (fr ty a)) as [l0|] eqn:E; [|done].
             injection Hl as <-. by apply (Hli _ l0).
           - rewrite lookup_alter_ne in Hl by done. by apply (Hli id l). }
  split; [by apply alloc_table|]. split; [by apply alloc_table|].
  split; [by apply alloc_pages|]. split; [by apply (alloc_counters m)|].
  split; [by apply alloc_frontier|]. split; [by apply alloc_frontier|].
  split; [by apply alloc_free|]. by apply alloc_victim.
Qed.

(** ** The write pointer advances *)

Lemma pos_after_succ (spp : ssdparams) (w : write_pointer) (k : pgkey) :
  0 <= wp_ch w < nchs spp -> 0 <= wp_lun w < luns_per_ch spp ->
  key_in_range spp k ->
  pos_after false (succ_pos spp w) k -> pos_after true w k.
Proof.
  intros Hc Hl (Kc & Kl & _ & _ & _). unfold succ_pos, pos_after.
  destruct (bool_decide_reflect (wp_ch w + 1 = nchs spp));
    [destruct (bool_decide_reflect (wp_lun w + 1 = luns_per_ch spp))|]; simpl; lia.
Qed.

Lemma frontier_succ (m m' : gc_mode) (a a' : ssd) (ty : line_type) :
  frontier_ok m ty a -> pgs_in_range a ->
  gm_strict m = Some ty -> gm_strict m' = None -> gm_victim m' = gm_victim m ->
  ~ last_pos (sp a) (fr ty a) ->
  fr ty a' = succ_pos (sp a) (fr ty a) -> sp a' = sp a -> pgs a' = pgs a ->
  (forall id, line_type_of a' id = line_type_of a id) ->
  free_line_list (lm a') = free_line_list (lm a) ->
  frontier_ok m' ty a'.
Proof.
  intros (F1 & F2 & F3 & F4 & F5 & F6 & F7 & F8 & F9) Hpr Hs Hs' Hv Hlast Hfr Hsp Hpgs Hlt Hfl.
  unfold frontier_ok. rewrite Hfr, Hsp, Hpgs, Hlt, Hfl, Hs', Hv.
  set (w := fr ty a) in *.
  assert (E : curline (succ_pos (sp a) w) = curline w /\
              wp_blk (succ_pos (sp a) w) = wp_blk w /\
              wp_pl (succ_pos (sp a) w) = wp_pl w).
  { unfold succ_pos. by repeat destruct (bool_decide _). }
  destruct E as (-> & -> & ->). do 2 (split; [assumption|]).
  assert (R : 0 <= wp_ch (succ_pos (sp a) w) < nchs (sp a) /\
              0 <= wp_lun (succ_pos (sp a) w) < luns_per_ch (sp a) /\
              0 <= wp_pg (succ_pos (sp a) w) < pgs_per_blk (sp a)).
  { unfold last_pos in Hlast. unfold succ_pos.
    destruct (bool_decide_reflect (wp_ch w + 1 = nchs (sp a)));
      [destruct (bool_decide_reflect (wp_lun w + 1 = luns_per_ch (sp a)))|]; simpl; lia. }
  destruct R as (R1 & R2 & R3). do 6 (split; [assumption|]).
  intros k st Hk Hb Hpos. apply (F9 k st Hk Hb).
  rewrite bool_decide_eq_true_2 by done.
  rewrite bool_decide_eq_false_2 in Hpos by done.
  eapply pos_after_succ; [done|done|by apply (Hpr k st)|done].
Qed.

Lemma advance_succ_inv (m : gc_mode) (a : ssd) (ty : line_type) :
  inv m a -> ty <> NONE -> gm_strict m = Some ty ->
  ~ last_pos (sp a) (fr ty a) ->
  inv (with_strict None m) (upd_fr ty (succ_pos (sp a) (fr ty a)) a).
Proof.
  intros Hinv Hty Hs Hlast. pose proof (inv_frontier _ _ _ Hinv Hty) as Hf.
  inv_split Hinv. destruct m as [v vty cur done str hole]. simpl in Hs. subst str.
  assert (Hnew : frontier_ok (with_strict None (mkmode v vty cur done (Some ty) hole)) ty
                   (upd_fr ty (succ_pos (sp a) (fr ty a)) a)).
  { eapply frontier_succ; try eassumption; try done; by destruct ty. }
  unfold inv. destruct ty; [done| |].
  - exact (conj Hgeo (conj Hpr (conj Hrr (conj Hli (conj Htd (conj Htt (conj Hpg
      (conj Hcn (conj Hnew (conj Hft (conj Hfr Hvi))))))))))).
  - exact (conj Hgeo (conj Hpr (conj Hrr (conj Hli (conj Htd (conj Htt (conj Hpg
      (conj Hcn (conj Hfd (conj Hnew (conj Hfr Hvi))))))))))).
Qed.

Lemma line_type_next (a a' : ssd) (ty : line_type) (nl id : Z) :
  lines (lm a') = alter (line_with_type ty) nl (lines (lm a)) -> id <> nl ->
  line_type_of a' id = line_type_of a id.
Proof. intros Hl Hne. unfold line_type_of. by rewrite Hl, lookup_alter_ne. Qed.

Lemma line_type_next_eq (a a' : ssd) (ty : line_type) (nl : Z) :
  lines (lm a') = alter (line_with_type ty) nl (lines (lm a)) ->
  is_Some (lines (lm a) !! nl) -> line_type_of a' nl = Some ty.
Proof.
  intros Hl [l E]. unfold line_type_of. by rewrite Hl, lookup_alter_eq, E.
Qed.

Section next_line.
Variables (m : gc_mode) (a a' : ssd) (ty : line_type) (nl : Z).
Hypothesis Hinv : inv m a.
Hypothesis Hty : ty <> NONE.
Hypothesis Hstr : gm_strict m = Some ty.
Hypothesis Hlast : last_pos (sp a) (fr ty a).
Hypothesis Hhead : head (free_line_list (lm a)) = Some nl.
Hypothesis Hline : is_Some (lines (lm a) !! nl).
Hypothesis Esp : sp a' = sp a.
Hypothesis Epgs : pgs a' = pgs a.
Hypothesis Eblks : blks a' = blks a.
Hypothesis Ermap : rmap a' = rmap a.
Hypothesis Emaptbl : maptbl a' = maptbl a.
Hypothesis Egtd : gtd a' = gtd a.
Hypothesis Elines : lines (lm a') = alter (line_with_type ty) nl (lines (lm a)).
Hypothesis Efree : free_line_list (lm a') = tail (free_line_list (lm a)).
Hypothesis Efr : fr ty a' = mkwp (Some nl) 0 0 0 nl (wp_pl (fr ty a)).
Hypothesis Efr' : forall ty', ty' <> NONE -> ty' <> ty -> fr ty' a' = fr ty' a.

Lemma next_free_split : free_line_list (lm a) = nl :: tail (free_line_list (lm a)).
Proof. destruct (free_line_list (lm a)); [done|]. by injection Hhead as ->. Qed.

Lemma next_nl_free (k : pgkey) (st : pg_status) :
  pgs a !! k = Some st -> key_blk k = nl -> st = PG_FREE.
Proof.
  intros Hk Hb. pose proof Hinv as H. inv_split H. destruct Hfr as (_ & _ & N3).
  apply (N3 k st Hk). rewrite Hb, next_free_split. left.
Qed.

Lemma next_tbl (ty' : line_type) : tbl ty' a' = tbl ty' a.
Proof. by destruct ty'. Qed.

Lemma next_table (ty' : line_type) :
  ty' <> NONE -> table_ok (with_strict None m) ty' a'.
Proof.
  intros Hty'. pose proof (inv_table _ _ _ Hinv Hty') as Htab.
  intros x p Hx Hh Hmp. rewrite next_tbl in Hx.
  destruct (Htab x p Hx Hh Hmp) as (T1 & T2 & T3 & T4).
  rewrite Epgs, Ermap, Esp. do 3 (split; [assumption|]).
  rewrite (line_type_next a a' ty nl); [done|done|].
  intros E. by pose proof (next_nl_free _ _ T2 E).
Qed.

Lemma next_pages : pages_ok (with_strict None m) a'.
Proof.
  pose proof Hinv as H. inv_split H.
  intros k st Hk Hex. rewrite Epgs in Hk. destruct (Hpg k st Hk Hex) as [Hv Hi].
  unfold rmap_at. rewrite Ermap, Esp. split; [|exact Hi].
  intros ->. specialize (Hv eq_refl). unfold rmap_at in Hv.
  destruct (rmap a !! pgidx_of (sp a) k) as [x|]; [|done].
  assert (Hne : key_blk k <> nl).
  { intros E. by pose proof (next_nl_free _ _ Hk E). }
  unfold backed in *. rewrite !next_tbl, (line_type_next a a' ty nl) by done. exact Hv.
Qed.

Lemma next_counters : counters_ok (gm_victim m) a'.
Proof.
  pose proof Hinv as H. inv_split H.
  assert (Hsum : forall f id, line_sum f a' id = line_sum f a id).
  { intros f id. unfold line_sum. by rewrite Esp, Eblks. }
  intros id l Hl Hskip. rewrite !Hsum. rewrite Elines in Hl.
  destruct (decide (nl = id)) as [<-|Hne].
  - rewrite lookup_alter_eq in Hl. destruct (lines (lm a) !! nl) as [l0|] eqn:E; [|done].
    injection Hl as <-. by apply (Hcn nl l0).
  - rewrite lookup_alter_ne in Hl by done. by apply (Hcn id l).
Qed.

Lemma next_frontier_same : frontier_ok (with_strict None m) ty a'.
Proof.
  pose proof (inv_frontier _ _ _ Hinv Hty) as (F1 & F2 & F3 & F4 & F5 & F6 & F7 & F8 & F9).
  pose proof Hinv as H. inv_split H. destruct Hfr as (N1 & N2 & N3).
  destruct Hgeo as (G1 & G2 & G3 & G4 & G5 & _).
  rewrite next_free_split in N1, N2.
  apply NoDup_cons in N1 as [N1a N1b]. apply Forall_cons in N2 as [N2a N2b].
  unfold frontier_ok. rewrite Efr, Esp, Efree, Epgs. simpl.
  split; [done|]. split; [exact F2|]. do 3 (split; [lia|]).
  split; [by apply (line_type_next_eq a a' ty nl)|]. split; [exact N2a|]. split; [exact N1a|].
  intros k st Hk Hb _. by apply (next_nl_free k st).
Qed.

Lemma next_frontier_other (ty' : line_type) :
  ty' <> NONE -> ty' <> ty -> frontier_ok (with_strict None m) ty' a'.
Proof.
  intros Hty' Hne.
  pose proof (inv_frontier _ _ _ Hinv Hty') as (F1 & F2 & F3 & F4 & F5 & F6 & F7 & F8 & F9).
  unfold frontier_ok. rewrite (Efr' ty' Hty' Hne), Esp, Efree, Epgs. simpl.
  do 5 (split; [assumption|]).
  assert (Hnn : wp_blk (fr ty' a) <> nl).
  { intros E. apply F8. rewrite E, next_free_split. left. }
  split; [by rewrite (line_type_next a a' ty nl)|]. split; [exact F7|].
  split. { intros Hin. apply F8. rewrite next_free_split. by right. }
  intros k st Hk Hb Hpos. apply (F9 k st Hk Hb).
  rewrite Hstr. rewrite bool_decide_eq_false_2 by congruence. exact Hpos.
Qed.

Lemma next_free : free_ok (with_strict None m) a'.
Proof.
  pose proof Hinv as H. inv_split H. destruct Hfr as (N1 & N2 & N3).
  unfold free_ok. rewrite Efree, Epgs. simpl.
  rewrite next_free_split in N1, N2.
  apply NoDup_cons in N1 as [N1a N1b]. apply Forall_cons in N2 as [N2a N2b].
  do 2 (split; [assumption|]).
  intros k st Hk Hin. apply (N3 k st Hk). rewrite next_free_split. by right.
Qed.

Lemma next_victim : victim_ok (with_strict None m) a'.
Proof.
  pose proof Hinv as H. inv_split H. destruct Hvi as (V1 & V2 & V3).
  destruct Hfr as (N1 & N2 & N3). rewrite next_free_split in N2.
  apply Forall_cons in N2 as [N2a N2b].
  unfold victim_ok. rewrite Epgs, Eblks. simpl. split; [|by split].
  intros v Hv. rewrite (line_type_next a a' ty nl); [by apply V1|done|].
  intros ->. apply N2a. by rewrite Hv.
Qed.

Lemma next_inv : inv (with_strict None m) a'.
Proof.
  pose proof Hinv as H. inv_split H. unfold inv.
  split. { by rewrite Esp. }
  split. { unfold pgs_in_range. by rewrite Epgs, Esp. }
  split. { unfold rmap_in_range. by rewrite Ermap, Esp. }
  split. { unfold lines_indexed. rewrite Elines, Esp. intros id l Hl.
           destruct (decide (nl = id)) as [<-|Hne].
           - rewrite lookup_alter_eq in Hl.
             destruct (lines (lm a) !! nl) as [l0|] eqn:E; [|done].
             injection Hl as <-. by apply (Hli nl l0).
           - rewrite lookup_alter_ne in Hl by done. by apply (Hli id l). }
  split; [by apply next_table|]. split; [by apply next_table|].
  split; [apply next_pages|]. split; [apply next_counters|].
  assert (Hboth : forall ty', ty' <> NONE -> frontier_ok (with_strict None m) ty' a').
  { intros ty' Hty'. destruct (decide (ty' = ty)) as [->|Hne].
    - apply next_frontier_same.
    - by apply next_frontier_other. }
  split; [by apply Hboth|]. split; [by apply Hboth|].
  split; [apply next_free|apply next_victim].
Qed.

End next_line.

Lemma advance_next_inv (m : gc_mode) (a : ssd) (ty : line_type) (nl : Z) :
  inv m a -> ty <> NONE -> gm_strict m = Some ty ->
  last_pos (sp a) (fr ty a) ->
  head (free_line_list (lm a)) = Some nl -> is_Some (lines (lm a) !! nl) ->
  inv (with_strict None m) (next_line ty nl a).
Proof.
  intros Hinv Hty Hs Hlast Hh Hl.
  apply (next_inv m a (next_line ty nl a) ty nl); try done; try (by destruct ty).
  intros ty' H1 H2. by destruct ty, ty'.
Qed.

(** ** The stages of a collection *)

(** A victim is chosen. *)
Lemma select_inv (a : ssd) (v : Z) (vty : line_type) :
  inv quiet a -> v ∉ free_line_list (lm a) ->
  v <> wp_blk (wp a) -> v <> wp_blk (twp a) -> line_type_of a v = Some vty ->
  inv (mkmode (Some v) vty None [] None None) a.
Proof.
  intros H Hnf Hw Ht Hlt. inv_split H.
  destruct Hfd as (D1 & D2 & D3 & D4 & D5 & D6 & D7 & D8 & D9).
  destruct Hft as (T1 & T2 & T3 & T4 & T5 & T6 & T7 & T8 & T9).
  destruct Hfr as (N1 & N2 & N3). destruct Hvi as (V1 & V2 & V3).
  unfold inv. do 4 (split; [assumption|]).
  split; [exact Htd|]. split; [exact Htt|]. split; [exact Hpg|].
  split. { intros id l Hl _. by apply (Hcn id l). }
  split. { unfold frontier_ok. simpl. do 6 (split; [assumption|]).
           split; [congruence|]. split; assumption. }
  split. { unfold frontier_ok. simpl. do 6 (split; [assumption|]).
           split; [congruence|]. split; assumption. }
  split. { unfold free_ok. simpl. split; [assumption|]. split; [|assumption].
           apply Forall_forall. intros id Hid [= ->]. done. }
  unfold victim_ok. simpl. split; [|split].
  - intros ? [= <-]. exact Hlt.
  - intros k st _ _ Hd. by apply elem_of_nil in Hd.
  - intros bk b _ _ _ Hd. by apply elem_of_nil in Hd.
Qed.

Lemma exempt_step (m : gc_mode) (spp : ssdparams) (c l i v : Z) (k : pgkey) :
  gm_cur m = Some (c, l, i) -> gm_victim m = Some v -> key_in_range spp k ->
  exempt (with_cur (Some (c, l, i + 1)) m) k <-> exempt m k \/ k = (c, l, 0, v, i).
Proof.
  intros Hc Hv (_ & _ & Hpl & _ & _). destruct k as [[[[kc kl] kp] kb] kg].
  unfold exempt, key_pl, key_blk, key_ch, key_lun, key_pg in *. simpl in *.
  rewrite Hc, Hv. subst kp. split.
  - intros (Eb & -> & -> & Hlt). destruct (decide (kg = i)) as [->|Hne].
    + right. by injection Eb as ->.
    + left. repeat split; try done. lia.
  - intros [(Eb & -> & -> & Hlt)|[= -> -> -> ->]]; repeat split; try done; lia.
Qed.

(** The first pages of a block are dealt with: none yet. *)
Lemma start_block_inv (m : gc_mode) (a : ssd) (c l : Z) :
  inv m a -> gm_cur m = None -> inv (with_cur (Some (c, l, 0)) m) a.
Proof.
  intros H Hc. inv_split H. destruct m as [v vty cur done str hole]. simpl in Hc. subst cur.
  assert (Hno : forall k st, pgs a !! k = Some st ->
            ~ exempt (with_cur (Some (c, l, 0)) (mkmode v vty None done str hole)) k).
  { intros k st Hk (_ & _ & _ & Hlt). destruct (Hpr k st Hk) as (_ & _ & _ & _ & Hg).
    simpl in Hlt. lia. }
  unfold inv. do 4 (split; [assumption|]).
  assert (Ht : forall ty, table_ok (mkmode v vty None done str hole) ty a ->
                 table_ok (with_cur (Some (c, l, 0)) (mkmode v vty None done str hole)) ty a).
  { intros ty Ht x p Hx Hh Hmp. destruct (Ht x p Hx Hh Hmp) as (T1 & T2 & T3 & T4).
    split; [by apply (Hno _ PG_VALID)|]. done. }
  split; [by apply Ht|]. split; [by apply Ht|].
  split. { intros k st Hk _. apply (Hpg k st Hk). simpl. tauto. }
  exact (conj Hcn (conj Hfd (conj Hft (conj Hfr Hvi)))).
Qed.

(** A page of the block being cleaned that is not valid needs nothing. *)
Lemma open_dead_inv (m : gc_mode) (a : ssd) (c l i v : Z) (st : pg_status) :
  inv m a -> gm_cur m = Some (c, l, i) -> gm_victim m = Some v ->
  pgs a !! (c, l, 0, v, i) = Some st -> st <> PG_VALID ->
  inv (with_cur (Some (c, l, i + 1)) m) a.
Proof.
  intros H Hc Hv Hk Hst. pose proof H as Hinv. inv_split H.
  assert (Hmono : forall k, key_in_range (sp a) k ->
            exempt (with_cur (Some (c, l, i + 1)) m) k <-> exempt m k \/ k = (c, l, 0, v, i)).
  { intros k Hr. by apply (exempt_step m (sp a)). }
  assert (Ht : forall ty, table_ok m ty a ->
                 table_ok (with_cur (Some (c, l, i + 1)) m) ty a).
  { intros ty Ht x p Hx Hh Hmp. destruct (Ht x p Hx Hh Hmp) as (T1 & T2 & T3 & T4).
    split; [|done]. rewrite Hmono by (by apply (Hpr _ PG_VALID)).
    intros [He|He]; [done|]. rewrite He in T2. congruence. }
  assert (Hp : pages_ok (with_cur (Some (c, l, i + 1)) m) a).
  { intros k st' Hk' Hne. apply (Hpg k st' Hk'). intros He. apply Hne.
    rewrite Hmono by (by apply (Hpr _ st')). by left. }
  destruct m as [v' vty cur done str hole].
  exact (conj Hgeo (conj Hpr (conj Hrr (conj Hli (conj (Ht _ Htd) (conj (Ht _ Htt) (conj Hp
      (conj Hcn (conj Hfd (conj Hft (conj Hfr Hvi))))))))))).
Qed.

(** A valid page of the block being cleaned is about to move: the table
    entry that addresses it is the one to rewrite. *)
Lemma open_valid_inv (m : gc_mode) (a : ssd) (c l i v x : Z) :
  inv m a -> gm_cur m = Some (c, l, i) -> gm_victim m = Some v -> gm_hole m = None ->
  gm_vty m <> NONE ->
  pgs a !! (c, l, 0, v, i) = Some PG_VALID -> rmap_at a (c, l, 0, v, i) = Some x ->
  inv (with_hole (Some (gm_vty m, x)) (with_cur (Some (c, l, i + 1)) m)) a /\
  points_to (tbl (gm_vty m) a) x (c, l, 0, v, i).
Proof.
  intros H Hc Hv Hh Hvty Hk Hx. pose proof H as Hinv. inv_split H.
  set (k0 := (c, l, 0, v, i)) in *.
  assert (Hmono : forall k, key_in_range (sp a) k ->
            exempt (with_cur (Some (c, l, i + 1)) m) k <-> exempt m k \/ k = k0).
  { intros k Hr. by apply (exempt_step m (sp a)). }
  assert (Hn0 : ~ exempt m k0).
  { unfold exempt. rewrite Hc. unfold k0, key_pg. simpl. lia. }
  destruct Hvi as (V1 & V2 & V3). pose proof (V1 v Hv) as Hlt.
  assert (Hb : backed m a (gm_vty m) x k0).
  { destruct (Hpg k0 _ Hk Hn0) as [Hb _]. specialize (Hb eq_refl). rewrite Hx in Hb.
    destruct Hb as [Hb|Hb]; pose proof Hb as (Hl' & _);
      unfold k0, key_blk in Hl'; simpl in Hl'; rewrite Hlt in Hl';
      injection Hl' as ->; exact Hb. }
  destruct Hb as (_ & _ & Hpt). split; [|exact Hpt].
  assert (Ht : forall ty, ty <> NONE -> table_ok m ty a ->
            table_ok (with_hole (Some (gm_vty m, x)) (with_cur (Some (c, l, i + 1)) m)) ty a).
  { intros ty Hty Ht x' p Hx' Hh' Hmp.
    assert (Hh0 : Some (ty, x') <> gm_hole m) by (by rewrite Hh).
    destruct (Ht x' p Hx' Hh0 Hmp) as (T1 & T2 & T3 & T4).
    split; [|done].
    change (~ exempt (with_cur (Some (c, l, i + 1)) m) (pg_of p)).
    rewrite Hmono by (by apply (Hpr _ PG_VALID)).
    intros [He|He]; [done|]. apply Hh'. simpl.
    assert (g_blk p = v) by (by apply (f_equal key_blk) in He).
    assert (x' = x).
    { unfold rmap_at in Hx. rewrite <- He, pgidx_of_pg_of in Hx. congruence. }
    congruence. }
  assert (Hp : pages_ok (with_hole (Some (gm_vty m, x)) (with_cur (Some (c, l, i + 1)) m)) a).
  { intros k st' Hk' Hne.
    assert (Hr : key_in_range (sp a) k) by (by apply (Hpr _ st')).
    assert (Hne0 : ~ exempt m k).
    { intros He. apply Hne.
      change (exempt (with_cur (Some (c, l, i + 1)) m) k). rewrite Hmono by done. by left. }
    assert (Hk0 : k <> k0).
    { intros He. apply Hne.
      change (exempt (with_cur (Some (c, l, i + 1)) m) k). rewrite Hmono by done. by right. }
    destruct (Hpg k st' Hk' Hne0) as [Hv' Hi]. split; [|exact Hi].
    intros Hst. specialize (Hv' Hst). destruct (rmap_at a k) as [x0|]; [|done].
    assert (Hbk : forall ty, backed m a ty x0 k ->
              backed (with_hole (Some (gm_vty m, x)) (with_cur (Some (c, l, i + 1)) m)) a
                     ty x0 k).
    { intros ty (B1 & B2 & B3). split; [done|]. split; [|done]. simpl.
      intros [= -> ->]. apply Hk0. unfold points_to in B3, Hpt.
      destruct (tbl (gm_vty m) a !! x) as [p|]; [|done].
      destruct B3 as [_ <-], Hpt as [_ <-]. done. }
    destruct Hv' as [Hb|Hb]; [left|right]; by apply Hbk. }
  destruct m as [v' vty cur done str hole]. simpl in Hvty.
  exact (conj Hgeo (conj Hpr (conj Hrr (conj Hli (conj (Ht DATA ltac:(done) Htd)
      (conj (Ht TRANS ltac:(done) Htt) (conj Hp
      (conj Hcn (conj Hfd (conj Hft (conj Hfr (conj V1 (conj V2 V3))))))))))))).
Qed.

(** ** A translation page is superseded *)

Lemma counters_bump (skip : option Z) (a a' : ssd) (k : pgkey) (dv di : Z) :
  counters_ok skip a -> key_in_range (sp a) k -> is_Some (blks a !! blk_key k) ->
  sp a' = sp a ->
  blks a' = alter (bump_blk dv di) (blk_key k) (blks a) ->
  lines (lm a') = alter (bump_line dv di) (key_blk k) (lines (lm a)) ->
  counters_ok skip a'.
Proof.
  intros Hcn (Rc & Rl & Rp & _ & _) [b Hb] Esp Eblks Elines.
  destruct k as [[[[c l] pl] bl] g].
  unfold blk_key, key_ch, key_lun, key_pl, key_blk in *. simpl in *. subst pl.
  intros id ln Hl Hskip. rewrite Elines in Hl.
  destruct (decide (bl = id)) as [<-|Hne].
  - rewrite lookup_alter_eq in Hl. destruct (lines (lm a) !! bl) as [l0|] eqn:E; [|done].
    injection Hl as <-. destruct (Hcn _ _ E Hskip) as [Hv Hi]. simpl.
    rewrite (line_sum_same b_vpc a a' (bump_blk dv di) c l bl b),
      (line_sum_same b_ipc a a' (bump_blk dv di) c l bl b);
      try done; try (apply all_luns_elem; lia).
    simpl. lia.
  - rewrite lookup_alter_ne in Hl by done. destruct (Hcn _ _ Hl Hskip) as [Hv Hi].
    rewrite (line_sum_other b_vpc a a' (bump_blk dv di) (c, l, 0, bl) id),
      (line_sum_other b_ipc a a' (bump_blk dv di) (c, l, 0, bl) id); done.
Qed.

Section invalidate.
Variables (m : gc_mode) (a : ssd) (x : Z) (old : ppa).
Hypothesis Hinv : inv m a.
Hypothesis Hhole : gm_hole m = None.
Hypothesis Hstr : gm_strict m = None.
Hypothesis Hgtd : gtd a !! x = Some old.
Hypothesis Hmapped : mapped_ppa old = true.
Hypothesis Hblk : is_Some (blks a !! blk_of old).

Local Abbreviation a' := (invalidate old a).
Local Abbreviation m' := (with_hole (Some (TRANS, x)) m).
Local Abbreviation ko := (pg_of old).

Lemma inval_old :
  ~ exempt m ko /\ pgs a !! ko = Some PG_VALID /\
  rmap a !! pgidx_of (sp a) ko = Some x /\ line_type_of a (key_blk ko) = Some TRANS /\
  key_in_range (sp a) ko.
Proof.
  pose proof Hinv as H. inv_split H.
  assert (Hn : Some (TRANS, x) <> gm_hole m) by (by rewrite Hhole).
  destruct (Htt x old Hgtd Hn Hmapped) as (T1 & T2 & T3 & T4).
  split; [exact T1|]. split; [exact T2|]. split; [exact T3|]. split; [exact T4|].
  by apply (Hpr _ PG_VALID).
Qed.

Lemma inval_other (k : pgkey) (st : pg_status) :
  pgs a !! k = Some st -> k <> ko ->
  pgidx_of (sp a) ko <> pgidx_of (sp a) k.
Proof.
  intros Hk Hne E. destruct inval_old as (_ & _ & _ & _ & Hr). apply Hne. symmetry.
  apply (pg_inj m a); [done|done|by apply (pgs_range m a k st)|done].
Qed.

Lemma inval_table (ty : line_type) : ty <> NONE -> table_ok m' ty a'.
Proof.
  intros Hty. pose proof (inv_table _ _ _ Hinv Hty) as Htab.
  destruct inval_old as (O1 & O2 & O3 & O4 & O5).
  intros x' p Hx' Hh' Hmp.
  assert (Hx0 : tbl ty a !! x' = Some p) by (by destruct ty).
  assert (Hn : Some (ty, x') <> gm_hole m) by (by rewrite Hhole).
  destruct (Htab x' p Hx0 Hn Hmp) as (T1 & T2 & T3 & T4).
  assert (Hk : pg_of p <> ko).
  { intros E. apply Hh'. simpl. rewrite <- pgidx_of_pg_of, E in T3.
    change (key_blk (pg_of p)) with (g_blk p) in *.
    assert (ty = TRANS).
    { rewrite <- E in O4. change (key_blk (pg_of p)) with (g_blk p) in O4. congruence. }
    congruence. }
  split; [exact T1|]. split.
  { change (pgs a') with (<[ko := PG_INVALID]> (pgs a)). by rewrite lookup_insert_ne. }
  split.
  { change (rmap a') with (<[ppa2pgidx (sp a) old := INVALID_LPN]> (rmap a)).
    change (sp a') with (sp a). rewrite lookup_insert_ne; [done|].
    rewrite <- !pgidx_of_pg_of. by apply (inval_other _ PG_VALID). }
  rewrite <- T4. apply (line_type_alter (bump_line (-1) 1) a a' (key_blk ko)); done.
Qed.

Lemma inval_pages : pages_ok m' a'.
Proof.
  pose proof Hinv as H. inv_split H. destruct inval_old as (O1 & O2 & O3 & O4 & O5).
  intros k st Hk Hne.
  change (pgs a') with (<[ko := PG_INVALID]> (pgs a)) in Hk.
  unfold rmap_at. change (rmap a') with (<[ppa2pgidx (sp a) old := INVALID_LPN]> (rmap a)).
  change (sp a') with (sp a). rewrite <- (pgidx_of_pg_of (sp a) old). fold ko.
  destruct (decide (k = ko)) as [->|Hko].
  - rewrite lookup_insert_eq in Hk. injection Hk as <-. split; [done|]. intros _.
    apply lookup_insert_eq.
  - rewrite lookup_insert_ne in Hk by done.
    rewrite lookup_insert_ne by (by apply (inval_other k st)).
    destruct (Hpg k st Hk Hne) as [Hv Hi]. split; [|exact Hi].
    intros Hst. specialize (Hv Hst). unfold rmap_at in Hv.
    destruct (rmap a !! pgidx_of (sp a) k) as [x0|]; [|done].
    assert (Hbk : forall ty, ty <> NONE -> backed m a ty x0 k -> backed m' a' ty x0 k).
    { intros ty Hty (B1 & B2 & B3). split.
      { rewrite <- B1. apply (line_type_alter (bump_line (-1) 1) a a' (key_blk ko)); done. }
      split.
      - simpl. intros [= -> ->]. apply Hko. unfold points_to in B3. simpl in B3.
        rewrite Hgtd in B3. by destruct B3 as [_ <-].
      - by destruct ty. }
    destruct Hv as [Hb|Hb]; [left|right]; by apply Hbk.
Qed.

Lemma inval_frontier (ty : line_type) : ty <> NONE -> frontier_ok m' ty a'.
Proof.
  intros Hty.
  pose proof (inv_frontier _ _ _ Hinv Hty) as (F1 & F2 & F3 & F4 & F5 & F6 & F7 & F8 & F9).
  destruct inval_old as (O1 & O2 & O3 & O4 & O5).
  assert (Efr : fr ty a' = fr ty a) by (by destruct ty).
  unfold frontier_ok. rewrite Efr. change (sp a') with (sp a).
  change (free_line_list (lm a')) with (free_line_list (lm a)).
  rewrite (line_type_alter (bump_line (-1) 1) a a' (key_blk ko)) by done.
  do 8 (split; [assumption|]).
  intros k st Hk Hb Hpos. change (pgs a') with (<[ko := PG_INVALID]> (pgs a)) in Hk.
  destruct (decide (k = ko)) as [->|Hko].
  - specialize (F9 ko _ O2 Hb Hpos). done.
  - rewrite lookup_insert_ne in Hk by done. by apply (F9 k st).
Qed.

Lemma inval_inv : inv m' a'.
Proof.
  pose proof Hinv as H. inv_split H. destruct inval_old as (O1 & O2 & O3 & O4 & O5).
  unfold inv. split; [exact Hgeo|].
  split. { intros k st Hk. change (pgs a') with (<[ko := PG_INVALID]> (pgs a)) in Hk.
           change (sp a') with (sp a). destruct (decide (k = ko)) as [->|Hko]; [done|].
           rewrite lookup_insert_ne in Hk by done. by apply (Hpr k st). }
  split. { intros i y Hi.
           change (rmap a') with (<[ppa2pgidx (sp a) old := INVALID_LPN]> (rmap a)) in Hi.
           change (sp a') with (sp a).
           destruct (decide (ppa2pgidx (sp a) old = i)) as [<-|Hne].
           - rewrite <- pgidx_of_pg_of. by apply (Hrr _ x).
           - rewrite lookup_insert_ne in Hi by done. by apply (Hrr i y). }
  split. { intros id l Hl.
           change (lines (lm a')) with (alter (bump_line (-1) 1) (key_blk ko) (lines (lm a)))
             in Hl.
           change (sp a') with (sp a). destruct (decide (key_blk ko = id)) as [<-|Hne].
           - rewrite lookup_alter_eq in Hl.
             destruct (lines (lm a) !! key_blk ko) as [l0|] eqn:E; [|done].
             injection Hl as <-. by apply (Hli _ l0).
           - rewrite lookup_alter_ne in Hl by done. by apply (Hli id l). }
  split; [by apply inval_table|]. split; [by apply inval_table|].
  split; [apply inval_pages|].
  split. { apply (counters_bump _ a a' ko (-1) 1); done. }
  split; [by apply inval_frontier|]. split; [by apply inval_frontier|].
  destruct Hfr as (N1 & N2 & N3). destruct Hvi as (V1 & V2 & V3).
  split.
  { split; [exact N1|]. split; [exact N2|]. intros k st Hk Hin.
    change (pgs a') with (<[ko := PG_INVALID]> (pgs a)) in Hk.
    change (free_line_list (lm a')) with (free_line_list (lm a)) in Hin.
    destruct (decide (k = ko)) as [->|Hko].
    - specialize (N3 ko _ O2 Hin). done.
    - rewrite lookup_insert_ne in Hk by done. by apply (N3 k st). }
  split; [|split].
  - intros v Hv. rewrite (line_type_alter (bump_line (-1) 1) a a' (key_blk ko)) by done.
    by apply V1.
  - intros k st Hk Hv Hd. change (pgs a') with (<[ko := PG_INVALID]> (pgs a)) in Hk.
    destruct (decide (k = ko)) as [->|Hko].
    + specialize (V2 ko _ O2 Hv Hd). done.
    + rewrite lookup_insert_ne in Hk by done. by apply (V2 k st).
  - intros bk b Hb Hv Hpl Hd.
    change (blks a') with (alter (bump_blk (-1) 1) (blk_key ko) (blks a)) in Hb.
    destruct (decide (blk_key ko = bk)) as [<-|Hne].
    + specialize (V2 ko _ O2 Hv Hd). done.
    + rewrite lookup_alter_ne in Hb by done. by apply (V3 bk b).
Qed.

End invalidate.

(** ** A block of the victim is erased *)

Lemma blk_key_fst (k : pgkey) : k.1 = blk_key k.
Proof. by destruct k as [[[[? ?] ?] ?] ?]. Qed.

Section erase.
Variables (m : gc_mode) (a : ssd) (c l v : Z).
Hypothesis Hinv : inv m a.
Hypothesis Hvic : gm_victim m = Some v.
Hypothesis Hex : forall k, exempt m k -> key_ch k = c /\ key_lun k = l.
Hypothesis Hdead : forall k st,
  pgs a !! k = Some st -> blk_key k = (c, l, 0, v) -> exempt m k \/ st <> PG_VALID.
Hypothesis Hblk : is_Some (blks a !! (c, l, 0, v)).

Local Abbreviation a' := (erase_block (c, l, 0, v) (pgs_per_blk (sp a)) a).
Local Abbreviation m' := (with_done ((c, l) :: gm_done m) (with_cur None m)).

Lemma erase_lookup (k : pgkey) (st' : pg_status) :
  pgs a' !! k = Some st' ->
  exists st, pgs a !! k = Some st /\
             st' = if bool_decide (blk_key k = (c, l, 0, v)) then PG_FREE else st.
Proof.
  unfold erase_block. simpl. rewrite map_lookup_imap.
  destruct (pgs a !! k) as [st|] eqn:E; [|done]. simpl. intros [= <-]. exists st.
  split; [done|]. pose proof (pgs_range m a k st Hinv E) as (_ & _ & _ & _ & Hg).
  rewrite blk_key_fst. unfold key_pg in Hg.
  destruct (bool_decide_reflect (blk_key k = (c, l, 0, v))) as [Hb|Hb].
  - by rewrite bool_decide_eq_true_2.
  - rewrite bool_decide_eq_false_2; [done|]. tauto.
Qed.

Lemma erase_keep (k : pgkey) (st : pg_status) :
  pgs a !! k = Some st -> blk_key k <> (c, l, 0, v) -> pgs a' !! k = Some st.
Proof.
  intros Hk Hne. unfold erase_block. simpl. rewrite map_lookup_imap, Hk. simpl.
  rewrite bool_decide_eq_false_2; [done|]. rewrite blk_key_fst. tauto.
Qed.

Lemma erase_exempt_in (k : pgkey) (st : pg_status) :
  pgs a !! k = Some st -> exempt m k -> blk_key k = (c, l, 0, v).
Proof.
  intros Hk He. destruct (Hex k He) as [Hc Hl].
  pose proof (pgs_range m a k st Hinv Hk) as (_ & _ & Hpl & _ & _).
  unfold exempt in He. destruct (gm_cur m) as [[[c0 l0] i0]|]; [|done].
  destruct He as (Hv & _). rewrite Hvic in Hv. injection Hv as Hv.
  unfold blk_key. by rewrite Hc, Hl, Hpl, Hv.
Qed.

Lemma erase_line_type (id : Z) : line_type_of a' id = line_type_of a id.
Proof. done. Qed.

Lemma erase_table (ty : line_type) : ty <> NONE -> table_ok m' ty a'.
Proof.
  intros Hty. pose proof (inv_table _ _ _ Hinv Hty) as Htab.
  intros x p Hx Hh Hmp.
  assert (Hx0 : tbl ty a !! x = Some p) by (by destruct ty).
  destruct (Htab x p Hx0 Hh Hmp) as (T1 & T2 & T3 & T4).
  split; [by intros []|]. split; [|by split].
  apply erase_keep; [done|]. intros Hb. destruct (Hdead _ _ T2 Hb); done.
Qed.

Lemma erase_pages : pages_ok m' a'.
Proof.
  pose proof Hinv as H. inv_split H.
  intros k st' Hk _. apply erase_lookup in Hk as (st & Hk & ->).
  destruct (bool_decide_reflect (blk_key k = (c, l, 0, v))) as [Hb|Hb]; [done|].
  assert (Hne : ~ exempt m k).
  { intros He. apply Hb. by apply (erase_exempt_in k st). }
  destruct (Hpg k st Hk Hne) as [Hv Hi]. split; [|exact Hi].
  intros Hst. specialize (Hv Hst). change (rmap_at a' k) with (rmap_at a k).
  destruct (rmap_at a k) as [x0|]; [|done].
  assert (Hbk : forall ty, backed m a ty x0 k -> backed m' a' ty x0 k).
  { intros ty (B1 & B2 & B3). split; [done|]. split; [done|]. by destruct ty. }
  destruct Hv as [Hv|Hv]; [left|right]; by apply Hbk.
Qed.

Lemma erase_frontier (ty : line_type) : ty <> NONE -> frontier_ok m' ty a'.
Proof.
  intros Hty.
  pose proof (inv_frontier _ _ _ Hinv Hty) as (F1 & F2 & F3 & F4 & F5 & F6 & F7 & F8 & F9).
  assert (Efr : fr ty a' = fr ty a) by (by destruct ty).
  unfold frontier_ok. rewrite Efr. change (sp a') with (sp a).
  change (free_line_list (lm a')) with (free_line_list (lm a)).
  rewrite erase_line_type. do 8 (split; [assumption|]).
  intros k st' Hk Hb Hpos. apply erase_lookup in Hk as (st & Hk & ->).
  destruct (bool_decide (blk_key k = _)); [done|]. by apply (F9 k st).
Qed.

Lemma erase_inv : inv m' a'.
Proof.
  pose proof Hinv as H. inv_split H.
  unfold inv. split; [exact Hgeo|].
  split. { intros k st' Hk. apply erase_lookup in Hk as (st & Hk & _). by apply (Hpr k st). }
  split; [exact Hrr|]. split; [exact Hli|].
  split; [by apply erase_table|]. split; [by apply erase_table|].
  split; [apply erase_pages|].
  split.
  { intros id ln Hl Hskip. destruct (Hcn id ln Hl Hskip) as [Hv Hi].
    simpl in Hskip. rewrite Hvic in Hskip.
    rewrite (line_sum_other b_vpc a a' (fun b => mkblk 0 0 (b_erase_cnt b + 1)) (c, l, 0, v) id),
      (line_sum_other b_ipc a a' (fun b => mkblk 0 0 (b_erase_cnt b + 1)) (c, l, 0, v) id);
      try done; simpl; congruence. }
  split; [by apply erase_frontier|]. split; [by apply erase_frontier|].
  destruct Hfr as (N1 & N2 & N3). destruct Hvi as (V1 & V2 & V3).
  split.
  { split; [exact N1|]. split; [exact N2|]. intros k st' Hk Hin.
    apply erase_lookup in Hk as (st & Hk & ->).
    destruct (bool_decide (blk_key k = _)); [done|].
    by apply (N3 k st). }
  split; [exact V1|]. split.
  - intros k st' Hk Hv Hd. apply erase_lookup in Hk as (st & Hk & ->).
    destruct (bool_decide_reflect (blk_key k = (c, l, 0, v))) as [Hb|Hb]; [done|].
    simpl in Hd. apply elem_of_cons in Hd as [Hd|Hd]; [|by apply (V2 k st)].
    exfalso. apply Hb. injection Hd as Hc Hl.
    pose proof (pgs_range m a k st Hinv Hk) as (_ & _ & Hpl & _ & _).
    simpl in Hv. rewrite Hvic in Hv. injection Hv as Hv.
    unfold blk_key. by rewrite Hc, Hl, Hpl, Hv.
  - intros bk b Hb Hv Hpl Hd.
    change (blks a') with (alter (fun b => mkblk 0 0 (b_erase_cnt b + 1)) (c, l, 0, v) (blks a))
      in Hb.
    destruct (decide ((c, l, 0, v) = bk)) as [<-|Hne].
    + rewrite lookup_alter_eq in Hb. destruct (blks a !! (c, l, 0, v)); [|done].
      by injection Hb as <-.
    + rewrite lookup_alter_ne in Hb by done. simpl in Hd.
      apply elem_of_cons in Hd as [Hd|Hd]; [|by apply (V3 bk b)].
      exfalso. apply Hne. destruct bk as [[[bc bl] bp] bb]. simpl in *.
      rewrite Hvic in Hv. injection Hv as ->. injection Hd as -> ->. by subst bp.
Qed.

End erase.

(** ** The victim joins the free lines *)

Lemma line_sum_zero (f : nand_block -> Z) (a : ssd) (v : Z) :
  (forall cl b, cl ∈ all_luns (sp a) -> blks a !! (cl.1, cl.2, 0, v) = Some b -> f b = 0) ->
  line_sum f a v = 0.
Proof.
  unfold line_sum. induction (all_luns (sp a)) as [|cl L IH]; intros H; simpl; [done|].
  rewrite IH. 2:{ intros cl' b Hin. apply H. by right. }
  destruct (blks a !! (cl.1, cl.2, 0, v)) as [b|] eqn:E; [|done].
  rewrite (H cl b); [done|left|done].
Qed.

Section release.
Variables (m : gc_mode) (a : ssd) (v : Z).
Hypothesis Hinv : inv m a.
Hypothesis Hvic : gm_victim m = Some v.
Hypothesis Hcur : gm_cur m = None.
Hypothesis Hhole : gm_hole m = None.
Hypothesis Hstr : gm_strict m = None.
Hypothesis Hall : forall cl, cl ∈ all_luns (sp a) -> cl ∈ gm_done m.

Local Abbreviation a' := (release_line v a).

Lemma release_vfree (k : pgkey) (st : pg_status) :
  pgs a !! k = Some st -> key_blk k = v -> st = PG_FREE.
Proof.
  intros Hk Hb. pose proof Hinv as H. inv_split H. destruct Hvi as (V1 & V2 & V3).
  apply (V2 k st Hk); [by rewrite Hb, Hvic|].
  apply Hall, all_luns_elem. destruct (Hpr k st Hk) as (? & ? & _). done.
Qed.

Lemma release_line_type (id : Z) : id <> v -> line_type_of a' id = line_type_of a id.
Proof.
  intros Hne. unfold line_type_of, release_line. simpl. by rewrite lookup_alter_ne.
Qed.

Lemma release_table (ty : line_type) : ty <> NONE -> table_ok quiet ty a'.
Proof.
  intros Hty. pose proof (inv_table _ _ _ Hinv Hty) as Htab.
  intros x p Hx _ Hmp.
  assert (Hx0 : tbl ty a !! x = Some p) by (by destruct ty).
  assert (Hn : Some (ty, x) <> gm_hole m) by (by rewrite Hhole).
  destruct (Htab x p Hx0 Hn Hmp) as (T1 & T2 & T3 & T4).
  split; [by intros []|]. split; [done|]. split; [done|].
  rewrite release_line_type; [done|]. intros E. by pose proof (release_vfree _ _ T2 E).
Qed.

Lemma release_pages : pages_ok quiet a'.
Proof.
  pose proof Hinv as H. inv_split H.
  intros k st Hk _. change (pgs a') with (pgs a) in Hk.
  assert (Hne : ~ exempt m k).
  { intros He. unfold exempt in He. by rewrite Hcur in He. }
  destruct (Hpg k st Hk Hne) as [Hv Hi]. split; [|exact Hi].
  intros Hst. specialize (Hv Hst). change (rmap_at a' k) with (rmap_at a k).
  destruct (rmap_at a k) as [x0|]; [|done].
  assert (Hkv : key_blk k <> v).
  { intros E. pose proof (release_vfree _ _ Hk E). congruence. }
  assert (Hbk : forall ty, backed m a ty x0 k -> backed quiet a' ty x0 k).
  { intros ty (B1 & B2 & B3). split; [by rewrite release_line_type|]. split; [done|].
    by destruct ty. }
  destruct Hv as [Hv|Hv]; [left|right]; by apply Hbk.
Qed.

Lemma release_frontier (ty : line_type) : ty <> NONE -> frontier_ok quiet ty a'.
Proof.
  intros Hty.
  pose proof (inv_frontier _ _ _ Hinv Hty) as (F1 & F2 & F3 & F4 & F5 & F6 & F7 & F8 & F9).
  assert (Efr : fr ty a' = fr ty a) by (by destruct ty).
  unfold frontier_ok. rewrite Efr. change (sp a') with (sp a).
  assert (Hne : wp_blk (fr ty a) <> v) by (rewrite Hvic in F7; congruence).
  rewrite release_line_type by done. do 6 (split; [assumption|]).
  split; [done|]. split.
  { change (free_line_list (lm a')) with (free_line_list (lm a) ++ [v]).
    rewrite elem_of_app, list_elem_of_singleton. tauto. }
  intros k st Hk Hb Hpos. apply (F9 k st Hk Hb). by rewrite Hstr.
Qed.

Lemma release_inv : is_Some (lines (lm a) !! v) -> inv quiet a'.
Proof.
  intros Hline. pose proof Hinv as H. inv_split H.
  destruct Hfr as (N1 & N2 & N3). destruct Hvi as (V1 & V2 & V3).
  unfold inv. split; [exact Hgeo|]. split; [exact Hpr|]. split; [exact Hrr|].
  split. { intros id ln Hl.
           change (lines (lm a'))
             with (alter (fun l => mkline (l_id l) 0 0 (l_pos l) NONE) v (lines (lm a))) in Hl.
           change (sp a') with (sp a). destruct (decide (v = id)) as [<-|Hne].
           - rewrite lookup_alter_eq in Hl.
             destruct (lines (lm a) !! v) as [l0|] eqn:E; [|done].
             injection Hl as <-. by apply (Hli _ l0).
           - rewrite lookup_alter_ne in Hl by done. by apply (Hli id ln). }
  split; [by apply release_table|]. split; [by apply release_table|].
  split; [apply release_pages|].
  split.
  { intros id ln Hl _.
    change (lines (lm a'))
      with (alter (fun l => mkline (l_id l) 0 0 (l_pos l) NONE) v (lines (lm a))) in Hl.
    change (line_sum b_vpc a' id) with (line_sum b_vpc a id).
    change (line_sum b_ipc a' id) with (line_sum b_ipc a id).
    destruct (decide (v = id)) as [<-|Hne].
    - rewrite lookup_alter_eq in Hl. destruct (lines (lm a) !! v) as [l0|]; [|done].
      injection Hl as <-. simpl.
      rewrite !line_sum_zero; [done| |].
      + intros cl b Hin Hb. apply (V3 _ b Hb); [by rewrite Hvic|done|].
        apply Hall. by destruct cl.
      + intros cl b Hin Hb. apply (V3 _ b Hb); [by rewrite Hvic|done|].
        apply Hall. by destruct cl.
    - rewrite lookup_alter_ne in Hl by done. apply (Hcn id ln Hl). rewrite Hvic. congruence. }
  split; [by apply release_frontier|]. split; [by apply release_frontier|].
  split.
  { change (free_line_list (lm a')) with (free_line_list (lm a) ++ [v]).
    change (pgs a') with (pgs a). split; [|split].
    - apply NoDup_app. split; [exact N1|]. split; [|apply NoDup_singleton].
      intros id Hid Hv. apply list_elem_of_singleton in Hv as ->.
      rewrite Forall_forall in N2. apply (N2 v Hid). by rewrite Hvic.
    - apply Forall_forall. intros; done.
    - intros k st Hk Hin. apply elem_of_app in Hin as [Hin|Hin]; [by apply (N3 k st)|].
      apply list_elem_of_singleton in Hin. by apply (release_vfree k st). }
  split; [|split].
  - intros ? [=].
  - intros k st _ [=].
  - intros bk b _ [=].
Qed.

End release.

(** ** Loops with a counter *)

Lemma for_each_seqZ {St : Type} (P : Z -> St -> Prop) (f : St -> Z -> result St)
    (len : nat) (start : Z) (st st' : St) :
  P start st ->
  (forall i s s', start <= i < start + Z.of_nat len -> P i s -> f s i = Ok s' -> P (i + 1) s') ->
  for_each f (seqZ start (Z.of_nat len)) st = Ok st' ->
  P (start + Z.of_nat len) st'.
Proof.
  revert start st. induction len as [|n IH]; intros start st H0 Hstep Hrun.
  - simpl in Hrun. injection Hrun as <-. by rewrite Z.add_0_r.
  - rewrite seqZ_cons in Hrun by lia. simpl in Hrun.
    apply bind_Ok in Hrun as (s1 & H1 & Hrun).
    replace (Z.pred (Z.of_nat (S n))) with (Z.of_nat n) in Hrun by lia.
    replace (start + Z.of_nat (S n)) with (Z.succ start + Z.of_nat n) by lia.
    apply (IH (Z.succ start) s1); [| |exact Hrun].
    + replace (Z.succ start) with (start + 1) by lia. apply (Hstep start st); [lia|done|done].
    + intros i s s' Hi. apply Hstep. lia.
Qed.

Lemma for_each_acc {A St : Type} (P : list A -> St -> Prop) (f : St -> A -> result St)
    (l : list A) (acc : list A) (st st' : St) :
  P acc st ->
  (forall d x s s', x ∈ l -> P d s -> f s x = Ok s' -> P (x :: d) s') ->
  for_each f l st = Ok st' ->
  exists d, P d st' /\ forall x, x ∈ l \/ x ∈ acc -> x ∈ d.
Proof.
  revert acc st. induction l as [|x l IH]; intros acc st H0 Hstep Hrun; simpl in Hrun.
  - injection Hrun as <-. exists acc. split; [done|]. intros x [Hx|Hx]; [|done].
    by apply elem_of_nil in Hx.
  - apply bind_Ok in Hrun as (s1 & H1 & Hrun).
    destruct (IH (x :: acc) s1) as (d & Hd & Hin); [| |exact Hrun|].
    + apply (Hstep acc x st); [left|done|done].
    + intros d y s s' Hy. apply Hstep. by right.
    + exists d. split; [done|]. intros y [Hy|Hy]; apply Hin.
      * apply elem_of_cons in Hy as [->|Hy]; [right; left|by left].
      * right. by right.
Qed.

(** ** Mapped pages stay mapped *)

Lemma mapped_preserved_eq (s s' : ssd) : maptbl s' = maptbl s -> mapped_preserved s s'.
Proof. intros E lpn p Hl Hm. by rewrite E, Hl. Qed.

Lemma mapped_preserved_trans (s1 s2 s3 : ssd) :
  mapped_preserved s1 s2 -> mapped_preserved s2 s3 -> mapped_preserved s1 s3.
Proof.
  intros H12 H23 lpn p Hl Hm. specialize (H12 lpn p Hl Hm). simpl in H12.
  destruct (maptbl s2 !! lpn) as [p2|] eqn:E; [|done]. by apply (H23 lpn p2).
Qed.

Lemma mapped_preserved_insert (s s' : ssd) (x : Z) (p : ppa) :
  maptbl s' = <[x := p]> (maptbl s) -> mapped_ppa p = true -> mapped_preserved s s'.
Proof.
  intros E Hp lpn q Hl Hm. rewrite E. destruct (decide (x = lpn)) as [->|Hne].
  - by rewrite lookup_insert_eq.
  - by rewrite lookup_insert_ne, Hl.
Qed.

Section collect.
Context {env : femu_env}.

Lemma fr_view (ty : line_type) (s : ssd) : fr ty (view s) = fr ty s.
Proof. by destruct ty. Qed.

Lemma with_strict_hole (m : gc_mode) (ty : line_type) :
  gm_strict m = None ->
  with_strict None (with_hole None (with_strict (Some ty) m)) = with_hole None m.
Proof. destruct m. simpl. by intros ->. Qed.

(** The new page of a relocation: the table entry, the rmap entry, the page
    status, and the write pointer. *)
Lemma write_new_page (m : gc_mode) (ty : line_type) (x : Z) (s s1 s2 s3 s4 : ssd) :
  gc_inv m s -> ty <> NONE -> gm_hole m = Some (ty, x) -> gm_strict m = None ->
  let w := fr ty s in
  let new := new_ppa (wp_ch w) (wp_lun w) (wp_pg w) (wp_blk w) (wp_pl w) in
  match ty with TRANS => set_gtd_ent s x new | _ => set_maptbl_ent s x new end = Ok s1 ->
  set_rmap_ent s1 x new = Ok s2 ->
  mark_page_valid s2 new = Ok s3 ->
  match ty with
  | TRANS => ssd_advance_trans_write_pointer s3
  | _ => ssd_advance_write_pointer s3
  end = Ok s4 ->
  gc_inv (with_hole None m) s4 /\
  maptbl s4 = (if bool_decide (ty = DATA) then <[x := new]> (maptbl s) else maptbl s).
Proof.
  intros Hinv Hty Hhole Hstr w new H1 H2 H3 H4.
  destruct (set_tbl_view ty s x new s1 Hty H1) as (Hx & V1 & M1).
  destruct (set_rmap_view s1 x new s2 H2) as (Hr & V2 & M2).
  destruct (mark_page_valid_view s2 new s3 H3) as (Hp & Hb & V3 & M3).
  destruct (frontier_page m (view s) ty Hinv Hty) as (Epg & _ & _ & _ & _).
  rewrite fr_view in Epg. fold w in Epg. fold new in Epg.
  assert (Esp1 : sp s1 = sp s).
  { apply (f_equal sp) in V1. destruct ty; exact V1. }
  assert (A3 : view s3 = alloc ty x (view s)).
  { rewrite V3, V2, V1, Esp1. unfold alloc. rewrite fr_view. fold w. fold new.
    rewrite Epg. rewrite <- (pgidx_of_pg_of (sp s) new), Epg. done. }
  assert (Kblk : is_Some (blks (view s) !! blk_key (fr_key (fr ty (view s))))).
  { rewrite fr_view. fold w. rewrite <- Epg.
    change (blks s2) with (blks (view s2)) in Hb. rewrite V2, V1 in Hb. by destruct ty. }
  assert (Kpg : is_Some (pgs (view s) !! fr_key (fr ty (view s)))).
  { rewrite fr_view. fold w. rewrite <- Epg.
    change (pgs s2) with (pgs (view s2)) in Hp. rewrite V2, V1 in Hp. by destruct ty. }
  assert (Krm : is_Some (rmap (view s) !! pgidx_of (sp (view s)) (fr_key (fr ty (view s))))).
  { rewrite fr_view. fold w. rewrite <- Epg. rewrite Esp1 in Hr.
    change (rmap s1) with (rmap (view s1)) in Hr. rewrite V1 in Hr. by destruct ty. }
  pose proof (alloc_inv m (view s) ty x Hinv Hty Hhole Hstr Kblk Kpg Krm) as Hinv3.
  rewrite <- A3 in Hinv3.
  assert (Kli : lines_indexed (view s3)) by (by inv_split Hinv3).
  destruct (advance_view ty s3 s4 Hty Kli H4) as (M4 & Hadv).
  split.
  - unfold gc_inv. rewrite <- (with_strict_hole m ty Hstr).
    destruct Hadv as [(Hnl & V4)|(Hl & nl & Hh & Hln & V4)]; rewrite V4.
    + rewrite <- (fr_view ty s3). change (sp s3) with (sp (view s3)).
      apply advance_succ_inv; [done|done|done|]. by rewrite fr_view.
    + apply advance_next_inv; [done|done|done| | |].
      * by rewrite fr_view.
      * exact Hh.
      * simpl. rewrite lookup_fmap. destruct Hln as [ln ->]. done.
  - rewrite M4, M3, M2, M1. done.
Qed.

Lemma with_hole_cur (m : gc_mode) (cu : option (Z * Z * Z)) (h : option (line_type * Z)) :
  gm_hole m = None -> with_hole None (with_hole h (with_cur cu m)) = with_cur cu m.
Proof. destruct m. simpl. by intros ->. Qed.

(** What only moves the LUN clocks, the log, the CMT or the statistics. *)
Lemma quiet_frame (ch : list field) (s s' : ssd) :
  frame ch s s' ->
  forallb (fun f => negb (touched f ch))
          [Fblks; Fpgs; Fmaptbl; Frmap; Fgtd; Flm; Fwp; Ftwp] = true ->
  view s' = view s /\ maptbl s' = maptbl s.
Proof.
  intros Hf Hch. simpl in Hch. rewrite !andb_true_iff, !negb_true_iff in Hch.
  destruct Hch as (T1 & T2 & T3 & T4 & T5 & T6 & T7 & T8 & _).
  split; [by apply (frame_view ch)|]. destruct Hf as (_&_&_&_&A4&_). by apply A4.
Qed.

Lemma gc_delay_write_view (s : ssd) (p : ppa) (c : nand_op) (s' : ssd) :
  (if enable_gc_delay (sp s)
   then '(_, s0) ← ssd_advance_status s p (mkcmd GC_IO c 0); Ok s0
   else Ok s) = Ok s' ->
  view s' = view s /\ maptbl s' = maptbl s.
Proof.
  intros H. destruct (enable_gc_delay (sp s)); [|by injection H as <-].
  apply bind_Ok in H as ([lat s0] & H0 & H). injection H as <-.
  apply ssd_advance_status_frame in H0. by apply (quiet_frame _ _ _ H0).
Qed.

Lemma set_gc_endtime_view (s : ssd) (k : Z * Z) (s' : ssd) :
  set_gc_endtime s k = Ok s' -> view s' = view s /\ maptbl s' = maptbl s.
Proof. intros H. apply set_gc_endtime_frame in H. by apply (quiet_frame _ _ _ H). Qed.

(** A valid page of the victim moves to the page under the write pointer. *)
Lemma relocate (m : gc_mode) (ty : line_type) (s s1 s2 s3 s4 : ssd) (old : ppa)
    (lpn c l i v : Z) :
  gc_inv m s -> gm_cur m = Some (c, l, i) -> gm_victim m = Some v ->
  gm_vty m = ty -> ty <> NONE -> gm_hole m = None -> gm_strict m = None ->
  pg_of old = (c, l, 0, v, i) -> pgs s !! pg_of old = Some PG_VALID ->
  get_rmap_ent s old = Ok lpn ->
  let w := fr ty s in
  let new := new_ppa (wp_ch w) (wp_lun w) (wp_pg w) (wp_blk w) (wp_pl w) in
  match ty with TRANS => set_gtd_ent s lpn new | _ => set_maptbl_ent s lpn new end = Ok s1 ->
  set_rmap_ent s1 lpn new = Ok s2 ->
  mark_page_valid s2 new = Ok s3 ->
  match ty with
  | TRANS => ssd_advance_trans_write_pointer s3
  | _ => ssd_advance_write_pointer s3
  end = Ok s4 ->
  gc_inv (with_cur (Some (c, l, i + 1)) m) s4 /\
  maptbl s4 = (if bool_decide (ty = DATA) then <[lpn := new]> (maptbl s) else maptbl s).
Proof.
  intros Hinv Hc Hv Hvty Hty Hh Hs Hold Hpg Hlpn w new H1 H2 H3 H4.
  unfold get_rmap_ent in Hlpn. apply arr_get_Ok in Hlpn.
  assert (Hopen : inv (with_hole (Some (gm_vty m, lpn)) (with_cur (Some (c, l, i + 1)) m))
                      (view s)).
  { apply (open_valid_inv m (view s) c l i v lpn); try done.
    - by rewrite Hvty.
    - by rewrite <- Hold.
    - unfold rmap_at. simpl. by rewrite <- Hold, pgidx_of_pg_of. }
  rewrite Hvty in Hopen.
  destruct (write_new_page _ ty lpn s s1 s2 s3 s4 Hopen Hty eq_refl Hs H1 H2 H3 H4)
    as [Hinv4 Hm4].
  split; [|exact Hm4]. by rewrite with_hole_cur in Hinv4.
Qed.

Lemma gc_write_page_inv (m : gc_mode) (s s' : ssd) (old : ppa) (c l i v : Z) :
  gc_inv m s -> gm_cur m = Some (c, l, i) -> gm_victim m = Some v ->
  gm_vty m = DATA -> gm_hole m = None -> gm_strict m = None ->
  pg_of old = (c, l, 0, v, i) -> pgs s !! pg_of old = Some PG_VALID ->
  gc_write_page s old = Ok s' ->
  gc_inv (with_cur (Some (c, l, i + 1)) m) s' /\ mapped_preserved s s'.
Proof.
  intros Hinv Hc Hv Hvty Hh Hs Hold Hpg H. unfold gc_write_page in H.
  apply bind_Ok in H as (lpn & Hlpn & H). apply bind_Ok in H as (s1 & H1 & H).
  apply bind_Ok in H as (s2 & H2 & H). apply bind_Ok in H as (s3 & H3 & H).
  apply bind_Ok in H as (s4 & H4 & H). apply bind_Ok in H as (s5 & H5 & H).
  destruct (relocate m DATA s s1 s2 s3 s4 old lpn c l i v) as [Hinv4 Hm4]; try done.
  apply gc_delay_write_view in H5 as [V5 M5]. apply set_gc_endtime_view in H as [V6 M6].
  split.
  - unfold gc_inv. by rewrite V6, V5.
  - eapply mapped_preserved_insert; [|apply mapped_new_ppa].
    rewrite M6, M5, Hm4. done.
Qed.

Lemma gc_translation_page_write_inv (m : gc_mode) (s s' : ssd) (old : ppa) (c l i v : Z) :
  gc_inv m s -> gm_cur m = Some (c, l, i) -> gm_victim m = Some v ->
  gm_vty m = TRANS -> gm_hole m = None -> gm_strict m = None ->
  pg_of old = (c, l, 0, v, i) -> pgs s !! pg_of old = Some PG_VALID ->
  gc_translation_page_write s old = Ok s' ->
  gc_inv (with_cur (Some (c, l, i + 1)) m) s' /\ mapped_preserved s s'.
Proof.
  intros Hinv Hc Hv Hvty Hh Hs Hold Hpg H. unfold gc_translation_page_write in H.
  apply bind_Ok in H as (lpn & Hlpn & H). apply bind_Ok in H as (s1 & H1 & H).
  apply bind_Ok in H as (s2 & H2 & H). apply bind_Ok in H as (s3 & H3 & H).
  apply bind_Ok in H as (s4 & H4 & H). apply bind_Ok in H as (s5 & H5 & H).
  destruct (relocate m TRANS s s1 s2 s3 s4 old lpn c l i v) as [Hinv4 Hm4]; try done.
  apply gc_delay_write_view in H5 as [V5 M5]. apply set_gc_endtime_view in H as [V6 M6].
  split.
  - unfold gc_inv. by rewrite V6, V5.
  - apply mapped_preserved_eq. rewrite M6, M5, Hm4. done.
Qed.

Lemma with_hole_hole (m : gc_mode) (h : option (line_type * Z)) :
  gm_hole m = None -> with_hole None (with_hole h m) = m.
Proof. destruct m. simpl. by intros ->. Qed.

(** The translation page of a relocated data page is rewritten. *)
Lemma translation_page_write_inv (m : gc_mode) (s s' : ssd) (x lat : Z) (old : ppa) :
  gc_inv m s -> gm_hole m = None -> gm_strict m = None ->
  gtd s !! x = Some old ->
  translation_page_write s old = Ok (lat, s') ->
  gc_inv m s' /\ maptbl s' = maptbl s.
Proof.
  intros Hinv Hh Hs Hgtd H. unfold translation_page_write in H.
  apply bind_Ok in H as (tvpn & Htv & H). unfold get_rmap_ent in Htv.
  apply arr_get_Ok in Htv.
  pose proof Hinv as Hi. inv_split Hi.
  destruct (mapped_ppa old) eqn:Hm.
  2:{ exfalso. unfold mapped_ppa in Hm. apply negb_false_iff, bool_decide_eq_true_1 in Hm.
      subst old. pose proof (Hrr _ _ Htv) as Hr. simpl in Hr.
      pose proof (pgidx_unmapped (sp s) Hgeo). lia. }
  assert (Hnh : Some (TRANS, x) <> gm_hole m) by (by rewrite Hh).
  destruct (Htt x old Hgtd Hnh Hm) as (_ & _ & Hrx & _). simpl in Hrx.
  assert (tvpn = x) by congruence. subst tvpn.
  apply bind_Ok in H as (s2 & H12 & H). apply bind_Ok in H12 as (s1 & H1 & H2).
  apply bind_Ok in H as (s3 & H3 & H). apply bind_Ok in H as (s4 & H4 & H).
  apply bind_Ok in H as (s5 & H5 & H). apply bind_Ok in H as (s6 & H6 & H).
  destruct (mark_page_invalid_view s old s1 H1) as (Hp & Hb & V1 & M1).
  destruct (set_rmap_view s1 INVALID_LPN old s2 H2) as (Hr2 & V2 & M2).
  assert (Esp1 : sp s1 = sp s) by (by apply (f_equal sp) in V1).
  assert (A2 : view s2 = invalidate old (view s)).
  { rewrite V2, V1, Esp1. done. }
  assert (Hinv2 : inv (with_hole (Some (TRANS, x)) m) (invalidate old (view s))).
  { by apply inval_inv. }
  rewrite <- A2 in Hinv2.
  destruct (write_new_page _ TRANS x s2 s3 s4 s5 s6 Hinv2 ltac:(done) eq_refl Hs H3 H4 H5 H6)
    as [Hinv6 Hm6].
  rewrite with_hole_hole in Hinv6 by done.
  apply ssd_advance_status_frame in H. destruct (quiet_frame _ _ _ H eq_refl) as [V7 M7].
  split.
  - unfold gc_inv. by rewrite V7.
  - rewrite M7, Hm6. simpl. by rewrite M2, M1.
Qed.

End collect.

Section pages.
Context {env : femu_env}.

Lemma pg_of_set_g_pg (p : ppa) (i : Z) :
  0 <= i < 2 ^ 16 -> pg_of (set_g_pg p i) = (g_ch p, g_lun p, g_pl p, g_blk p, i).
Proof. intros Hi. unfold pg_of, set_g_pg. simpl. by rewrite Z.mod_small. Qed.

Lemma gc_read_page_view (s : ssd) (p : ppa) (s' : ssd) :
  gc_read_page s p = Ok s' -> view s' = view s /\ maptbl s' = maptbl s.
Proof. intros H. apply gc_read_page_frame in H. by apply (quiet_frame _ _ _ H). Qed.

(** One page of a data block of the victim. *)
Lemma clean_data_page_inv (m : gc_mode) (s s' : ssd) (batch batch' : list Z) (p p' : ppa)
    (c l i v : Z) :
  gc_inv m s -> gm_cur m = Some (c, l, i) -> gm_victim m = Some v ->
  gm_vty m = DATA -> gm_hole m = None -> gm_strict m = None ->
  g_ch p = c -> g_lun p = l -> g_pl p = 0 -> g_blk p = v -> 0 <= i < 2 ^ 16 ->
  clean_data_page (s, batch, p) i = Ok (s', batch', p') ->
  gc_inv (with_cur (Some (c, l, i + 1)) m) s' /\ mapped_preserved s s' /\
  (g_ch p' = c /\ g_lun p' = l /\ g_pl p' = 0 /\ g_blk p' = v).
Proof.
  intros Hinv Hc Hv Hvty Hh Hs Pc Pl Pp Pb Hi H. unfold clean_data_page in H.
  set (p1 := set_g_pg p i) in *.
  assert (Hk0 : pg_of p1 = (c, l, 0, v, i)).
  { unfold p1. rewrite pg_of_set_g_pg by done. by rewrite Pc, Pl, Pp, Pb. }
  assert (Hp1 : g_ch p1 = c /\ g_lun p1 = l /\ g_pl p1 = 0 /\ g_blk p1 = v) by done.
  apply bind_Ok in H as (status & Hst & H). unfold get_pg in Hst. apply arr_get_Ok in Hst.
  destruct (bool_decide_reflect (status = PG_VALID)) as [->|Hnv].
  2:{ injection H as <- <- <-. split; [|split; [by apply mapped_preserved_eq|done]].
      apply (open_dead_inv m (view s) c l i v status); try done. by rewrite <- Hk0. }
  apply bind_Ok in H as (s1 & H1 & H). apply gc_read_page_view in H1 as [V1 M1].
  apply bind_Ok in H as (lpn & Hlpn & H). apply bind_Ok in H as (m0 & Hm0 & H).
  assert (Hinv1 : gc_inv m s1) by (unfold gc_inv; by rewrite V1).
  assert (Hpg1 : pgs s1 !! pg_of p1 = Some PG_VALID).
  { change (pgs s1) with (pgs (view s1)). by rewrite V1. }
  assert (Esp1 : sp s1 = sp s) by (by apply (f_equal sp) in V1).
  assert (Hpt : points_to (maptbl s1) lpn (c, l, 0, v, i)).
  { pose proof Hlpn as Hl'. unfold get_rmap_ent in Hl'. apply arr_get_Ok in Hl'.
    destruct (open_valid_inv m (view s1) c l i v lpn) as [_ Hp]; try done.
    - by rewrite Hvty.
    - by rewrite <- Hk0.
    - unfold rmap_at. simpl. by rewrite <- Hk0, pgidx_of_pg_of.
    - by rewrite Hvty in Hp. }
  unfold get_maptbl_ent in Hm0. apply arr_get_Ok in Hm0.
  unfold points_to in Hpt. rewrite Hm0 in Hpt. destruct Hpt as [_ Hpt].
  rewrite bool_decide_eq_true_2 in H.
  2:{ rewrite <- !pgidx_of_pg_of. by rewrite Hpt, Hk0. }
  simpl in H. apply bind_Ok in H as (s2 & H2 & H).
  destruct (gc_write_page_inv m s1 s2 p1 c l i v) as [Hinv2 Hmp2]; try done.
  assert (Hmp : mapped_preserved s s2).
  { eapply mapped_preserved_trans; [by apply mapped_preserved_eq|exact Hmp2]. }
  apply bind_Ok in H as (ce & Hce & H). destruct ce as [e|].
  - apply bind_Ok in H as (np & Hnp & H). apply bind_Ok in H as (ent & Hent & H).
    injection H as <- <- <-. split; [exact Hinv2|]. split; [exact Hmp|done].
  - destruct (bool_decide (lpn / ents_per_pg (sp s) ∈ batch)).
    { injection H as <- <- <-. split; [exact Hinv2|]. split; [exact Hmp|done]. }
    apply bind_Ok in H as (np & Hnp & H). unfold get_gtd_ent in Hnp. apply arr_get_Ok in Hnp.
    apply bind_Ok in H as ([lat3 s3] & H3 & H). apply bind_Ok in H as ([lat4 s4] & H4 & H).
    injection H as <- <- <-.
    unfold translation_page_read_no_req in H3. apply ssd_advance_status_frame in H3.
    destruct (quiet_frame _ _ _ H3 eq_refl) as [V3 M3].
    assert (Hinv3 : gc_inv (with_cur (Some (c, l, i + 1)) m) s3).
    { unfold gc_inv. by rewrite V3. }
    assert (Hg3 : gtd s3 !! (lpn / ents_per_pg (sp s)) = Some np).
    { change (gtd s3) with (gtd (view s3)). by rewrite V3. }
    destruct (translation_page_write_inv _ s3 s4 _ lat4 np Hinv3 Hh Hs Hg3 H4) as [Hinv4 M4].
    split; [exact Hinv4|]. split; [|done].
    eapply mapped_preserved_trans; [exact Hmp|]. apply mapped_preserved_eq.
    by rewrite M4, M3.
Qed.

(** One page of a translation block of the victim. *)
Lemma clean_trans_page_inv (m : gc_mode) (s s' : ssd) (p p' : ppa) (c l i v : Z) :
  gc_inv m s -> gm_cur m = Some (c, l, i) -> gm_victim m = Some v ->
  gm_vty m = TRANS -> gm_hole m = None -> gm_strict m = None ->
  g_ch p = c -> g_lun p = l -> g_pl p = 0 -> g_blk p = v -> 0 <= i < 2 ^ 16 ->
  clean_trans_page (s, p) i = Ok (s', p') ->
  gc_inv (with_cur (Some (c, l, i + 1)) m) s' /\ mapped_preserved s s' /\
  (g_ch p' = c /\ g_lun p' = l /\ g_pl p' = 0 /\ g_blk p' = v).
Proof.
  intros Hinv Hc Hv Hvty Hh Hs Pc Pl Pp Pb Hi H. unfold clean_trans_page in H.
  set (p1 := set_g_pg p i) in *.
  assert (Hk0 : pg_of p1 = (c, l, 0, v, i)).
  { unfold p1. rewrite pg_of_set_g_pg by done. by rewrite Pc, Pl, Pp, Pb. }
  assert (Hp1 : g_ch p1 = c /\ g_lun p1 = l /\ g_pl p1 = 0 /\ g_blk p1 = v) by done.
  apply bind_Ok in H as (status & Hst & H). unfold get_pg in Hst. apply arr_get_Ok in Hst.
  destruct (bool_decide_reflect (status = PG_VALID)) as [->|Hnv].
  2:{ injection H as <- <-. split; [|split; [by apply mapped_preserved_eq|done]].
      apply (open_dead_inv m (view s) c l i v status); try done. by rewrite <- Hk0. }
  apply bind_Ok in H as (s1 & H1 & H). apply gc_read_page_view in H1 as [V1 M1].
  apply bind_Ok in H as (lpn & Hlpn & H). apply bind_Ok in H as (m0 & Hm0 & H).
  assert (Hinv1 : gc_inv m s1) by (unfold gc_inv; by rewrite V1).
  assert (Hpg1 : pgs s1 !! pg_of p1 = Some PG_VALID).
  { change (pgs s1) with (pgs (view s1)). by rewrite V1. }
  assert (Esp1 : sp s1 = sp s) by (by apply (f_equal sp) in V1).
  unfold get_maptbl_ent in Hm0. apply arr_get_Ok in Hm0.
  assert (Hne : ppa2pgidx (sp s) p1 <> ppa2pgidx (sp s) m0).
  { intros E. pose proof Hinv1 as Hi1. inv_split Hi1. simpl in *.
    assert (Hr1 : key_in_range (sp s1) (pg_of p1)) by (by apply (Hpr _ PG_VALID)).
    destruct (mapped_ppa m0) eqn:Hmm.
    - assert (Hnh : Some (DATA, lpn) <> gm_hole m) by (by rewrite Hh).
      destruct (Htd lpn m0 Hm0 Hnh Hmm) as (_ & T2 & _ & T4). simpl in T2, T4.
      assert (Hr0 : key_in_range (sp s1) (pg_of m0)) by (by apply (Hpr _ PG_VALID)).
      assert (Heq : pg_of p1 = pg_of m0).
      { apply (pgidx_inj (sp s1)); try done. rewrite !pgidx_of_pg_of, Esp1. exact E. }
      destruct Hvi as (V1' & _). specialize (V1' v Hv). rewrite Hvty in V1'.
      assert (g_blk m0 = v).
      { apply (f_equal key_blk) in Heq. rewrite Hk0 in Heq. by symmetry. }
      congruence.
    - unfold mapped_ppa in Hmm. apply negb_false_iff, bool_decide_eq_true_1 in Hmm.
      subst m0. pose proof (pgidx_unmapped (sp s1) Hgeo) as Hu.
      pose proof (pgidx_range (sp s1) (pg_of p1) Hgeo Hr1) as Hr.
      rewrite pgidx_of_pg_of, Esp1 in Hr. rewrite Esp1 in Hu. lia. }
  rewrite bool_decide_eq_false_2 in H by done. simpl in H.
  apply bind_Ok in H as (s2 & H2 & H). injection H as <- <-.
  destruct (gc_translation_page_write_inv m s1 s2 p1 c l i v) as [Hinv2 Hmp2]; try done.
  split; [exact Hinv2|]. split; [|done].
  eapply mapped_preserved_trans; [by apply mapped_preserved_eq|exact Hmp2].
Qed.

End pages.

Section blocks.
Context {env : femu_env}.

Lemma frame_sp (ch : list field) (s s' : ssd) : frame ch s s' -> sp s' = sp s.
Proof. by intros (A0 & _). Qed.

(** A data block of the victim, page after page. *)
Lemma clean_one_data_block_inv (m : gc_mode) (s s' : ssd) (p p' : ppa) (c l v : Z) :
  gc_inv m s -> gm_cur m = None -> gm_victim m = Some v ->
  gm_vty m = DATA -> gm_hole m = None -> gm_strict m = None ->
  g_ch p = c -> g_lun p = l -> g_pl p = 0 -> g_blk p = v ->
  clean_one_data_block s p = Ok (s', p') ->
  gc_inv (with_cur (Some (c, l, pgs_per_blk (sp s))) m) s' /\ mapped_preserved s s' /\
  (g_ch p' = c /\ g_lun p' = l /\ g_pl p' = 0 /\ g_blk p' = v).
Proof.
  intros Hinv Hc Hv Hvty Hh Hs Pc Pl Pp Pb H. unfold clean_one_data_block in H.
  apply bind_Ok in H as ([[s1 b1] p1] & Hloop & H). injection H as <- <-.
  assert (Hn : 0 < pgs_per_blk (sp s) <= 65536).
  { pose proof Hinv as Hi. inv_split Hi. destruct Hgeo as (_ & _ & _ & _ & G5 & _). exact G5. }
  pose (P := fun (i : Z) (st : ssd * list Z * ppa) =>
               gc_inv (with_cur (Some (c, l, i)) m) st.1.1 /\ mapped_preserved s st.1.1 /\
               (g_ch st.2 = c /\ g_lun st.2 = l /\ g_pl st.2 = 0 /\ g_blk st.2 = v)).
  pose proof (for_each_seqZ P clean_data_page (Z.to_nat (pgs_per_blk (sp s))) 0
                (s, [], p) (s1, b1, p1)) as Hind.
  rewrite Z2Nat.id in Hind by lia. simpl in Hind. apply Hind; [| |exact Hloop].
  - split; [|split; [by apply mapped_preserved_eq|done]]. by apply start_block_inv.
  - intros i [[sa ba] pa] [[sb bb] pb] Hi (Ha & Hma & Fa1 & Fa2 & Fa3 & Fa4) Hstep. simpl in *.
    destruct (clean_data_page_inv (with_cur (Some (c, l, i)) m) sa sb ba bb pa pb c l i v)
      as (Hb & Hmb & Fb); try done; [lia|].
    split; [exact Hb|]. split; [|exact Fb]. by eapply mapped_preserved_trans.
Qed.

(** A translation block of the victim, page after page. *)
Lemma clean_one_trans_block_inv (m : gc_mode) (s s' : ssd) (p p' : ppa) (c l v : Z) :
  gc_inv m s -> gm_cur m = None -> gm_victim m = Some v ->
  gm_vty m = TRANS -> gm_hole m = None -> gm_strict m = None ->
  g_ch p = c -> g_lun p = l -> g_pl p = 0 -> g_blk p = v ->
  clean_one_trans_block s p = Ok (s', p') ->
  gc_inv (with_cur (Some (c, l, pgs_per_blk (sp s))) m) s' /\ mapped_preserved s s' /\
  (g_ch p' = c /\ g_lun p' = l /\ g_pl p' = 0 /\ g_blk p' = v).
Proof.
  intros Hinv Hc Hv Hvty Hh Hs Pc Pl Pp Pb Hloop. unfold clean_one_trans_block in Hloop.
  assert (Hn : 0 < pgs_per_blk (sp s) <= 65536).
  { pose proof Hinv as Hi. inv_split Hi. destruct Hgeo as (_ & _ & _ & _ & G5 & _). exact G5. }
  pose (P := fun (i : Z) (st : ssd * ppa) =>
               gc_inv (with_cur (Some (c, l, i)) m) st.1 /\ mapped_preserved s st.1 /\
               (g_ch st.2 = c /\ g_lun st.2 = l /\ g_pl st.2 = 0 /\ g_blk st.2 = v)).
  pose proof (for_each_seqZ P clean_trans_page (Z.to_nat (pgs_per_blk (sp s))) 0
                (s, p) (s', p')) as Hind.
  rewrite Z2Nat.id in Hind by lia. simpl in Hind. apply Hind; [| |exact Hloop].
  - split; [|split; [by apply mapped_preserved_eq|done]]. by apply start_block_inv.
  - intros i [sa pa] [sb pb] Hi (Ha & Hma & Fa1 & Fa2 & Fa3 & Fa4) Hstep. simpl in *.
    destruct (clean_trans_page_inv (with_cur (Some (c, l, i)) m) sa sb pa pb c l i v)
      as (Hb & Hmb & Fb); try done; [lia|].
    split; [exact Hb|]. split; [|exact Fb]. by eapply mapped_preserved_trans.
Qed.

Lemma line_type_view (s : ssd) (v : Z) (vl : line) :
  lines (lm s) !! v = Some vl -> line_type_of (view s) v = Some (l_type vl).
Proof. intros H. unfold line_type_of. simpl. by rewrite lookup_fmap, H. Qed.

(** One block of the victim: its valid pages move away, then it is erased. *)
Lemma gc_one_block_inv (v : Z) (vty : line_type) (done : list (Z * Z)) (s s' : ssd)
    (p p' : ppa) (c l : Z) :
  gc_inv (mkmode (Some v) vty None done None None) s ->
  g_blk p = v -> (c, l) ∈ all_luns (sp s) ->
  gc_one_block v (s, p) (c, l) = Ok (s', p') ->
  gc_inv (mkmode (Some v) vty None ((c, l) :: done) None None) s' /\
  mapped_preserved s s' /\ g_blk p' = v /\ sp s' = sp s.
Proof.
  intros Hinv Pb Hin H. unfold gc_one_block in H. simpl in H.
  set (m0 := mkmode (Some v) vty None done None None) in *.
  set (p1 := set_g_ch_lun_pl p c l 0) in *.
  pose proof Hinv as Hi. inv_split Hi. simpl in Hgeo.
  apply all_luns_elem in Hin as [Rc Rl].
  assert (Hp1 : g_ch p1 = c /\ g_lun p1 = l /\ g_pl p1 = 0 /\ g_blk p1 = v).
  { destruct Hgeo as (G1 & G2 & _). unfold p1, set_g_ch_lun_pl. simpl.
    rewrite !Z.mod_small by lia. done. }
  destruct Hp1 as (P1 & P2 & P3 & P4).
  apply bind_Ok in H as (vl & Hvl & H). apply arr_get_Ok in Hvl.
  assert (Hvty : l_type vl = vty).
  { destruct Hvi as (V1 & _). specialize (V1 v eq_refl).
    rewrite (line_type_view s v vl Hvl) in V1. by injection V1. }
  apply bind_Ok in H as ([s1 p2] & Hclean & H).
  assert (Hmid : exists cu,
    inv (with_cur cu m0) (view s1) /\
    (forall k, exempt (with_cur cu m0) k -> key_ch k = c /\ key_lun k = l) /\
    (forall k st, pgs s1 !! k = Some st -> blk_key k = (c, l, 0, v) ->
                  exempt (with_cur cu m0) k \/ st <> PG_VALID) /\
    mapped_preserved s s1 /\
    (g_ch p2 = c /\ g_lun p2 = l /\ g_pl p2 = 0 /\ g_blk p2 = v) /\ sp s1 = sp s).
  { rewrite Hvty in Hclean. destruct vty.
    - injection Hclean as <- <-. exists None. split; [exact Hinv|]. split; [by intros k []|].
      split; [|split; [by apply mapped_preserved_eq|done]].
      intros k st Hk Hb. right. intros ->.
      assert (Hne : ~ exempt m0 k) by (by intros []).
      destruct (Hpg k _ Hk Hne) as [Hv' _]. specialize (Hv' eq_refl).
      destruct Hvi as (V1 & _). specialize (V1 v eq_refl). unfold m0 in V1. simpl in V1.
      assert (Hkb : key_blk k = v) by (by apply (f_equal (fun b => b.2)) in Hb).
      destruct (rmap_at (view s) k); [|done].
      destruct Hv' as [(Hl & _)|(Hl & _)]; rewrite Hkb in Hl; congruence.
    - destruct (clean_one_data_block_inv m0 s s1 p1 p2 c l v) as (H1 & Hm1 & F1); try done.
      pose proof (frame_sp _ _ _ (clean_one_data_block_frame _ _ _ Hclean)) as Esp.
      simpl in Esp. exists (Some (c, l, pgs_per_blk (sp s))).
      split; [exact H1|]. split. { by intros k (_ & ? & ? & _). }
      split; [|done]. intros k st Hk Hb. left.
      pose proof (pgs_range _ _ k st H1 Hk) as (_ & _ & _ & _ & Hg). simpl in Hg.
      rewrite Esp in Hg. unfold exempt. simpl.
      unfold blk_key in Hb. injection Hb as -> -> _ ->. repeat split; try done. lia.
    - destruct (clean_one_trans_block_inv m0 s s1 p1 p2 c l v) as (H1 & Hm1 & F1); try done.
      pose proof (frame_sp _ _ _ (clean_one_trans_block_frame _ _ _ Hclean)) as Esp.
      simpl in Esp. exists (Some (c, l, pgs_per_blk (sp s))).
      split; [exact H1|]. split. { by intros k (_ & ? & ? & _). }
      split; [|done]. intros k st Hk Hb. left.
      pose proof (pgs_range _ _ k st H1 Hk) as (_ & _ & _ & _ & Hg). simpl in Hg.
      rewrite Esp in Hg. unfold exempt. simpl.
      unfold blk_key in Hb. injection Hb as -> -> _ ->. repeat split; try done. lia. }
  destruct Hmid as (cu & H1 & Hex & Hdead & Hm1 & (Q1 & Q2 & Q3 & Q4) & Esp1).
  apply bind_Ok in H as (s2 & H2 & H). apply bind_Ok in H as (s3 & H3 & H).
  apply bind_Ok in H as (s4 & H4 & H). injection H as <- <-.
  destruct (mark_block_free_view s1 p2 s2 H2) as (Hb2 & V2 & M2).
  assert (Ebk : blk_of p2 = (c, l, 0, v)).
  { unfold blk_of. by rewrite Q1, Q2, Q3, Q4. }
  rewrite Ebk in Hb2, V2.
  assert (Hinv2 : gc_inv (mkmode (Some v) vty None ((c, l) :: done) None None) s2).
  { unfold gc_inv. rewrite V2.
    apply (erase_inv (with_cur cu m0) (view s1) c l v); done. }
  apply gc_delay_write_view in H3 as [V3 M3]. apply set_gc_endtime_view in H4 as [V4 M4].
  split; [unfold gc_inv; by rewrite V4, V3|].
  split. { eapply mapped_preserved_trans; [exact Hm1|]. apply mapped_preserved_eq.
           by rewrite M4, M3, M2. }
  split; [exact Q4|].
  apply (f_equal sp) in V4, V3, V2. simpl in V4, V3, V2. congruence.
Qed.

End blocks.

Section cycle.
Context {env : femu_env}.

Lemma gc_inv_map_inv1 (s : ssd) : gc_inv quiet s -> map_inv1 s.
Proof.
  intros H. inv_split H. intros lpn p Hl Hm.
  destruct (Htd lpn p Hl ltac:(done) Hm) as (_ & T2 & T3 & _). done.
Qed.

Lemma gc_inv_map_inv2_erased (s : ssd) : gc_inv quiet s -> map_inv2_erased s.
Proof.
  intros H. inv_split H. intros k st Hk.
  assert (Hne : ~ exempt quiet k) by (by intros []).
  destruct (Hpg k st Hk Hne) as [Hv Hi]. change (rmap_at (view s) k) with (rmap_at s k) in *.
  destruct (rmap_at s k) as [x|] eqn:E; [|done]. intros Hx.
  destruct st; [by left| |].
  - specialize (Hi eq_refl). congruence.
  - right. split; [done|]. destruct (Hv eq_refl) as [(_ & _ & Hb)|(_ & _ & Hb)]; [by left|by right].
Qed.

Lemma gc_inv_map_inv3 (s : ssd) : gc_inv quiet s -> map_inv3 s.
Proof.
  intros H. inv_split H. intros id l Hl Hs.
  assert (Hl' : lines (lm (view s)) !! id = Some (victim_line_set_pos 0 l)).
  { simpl. by rewrite lookup_fmap, Hl. }
  apply (Hcn id _ Hl' Hs).
Qed.

(** A collection cycle takes a consistent device to a consistent device. *)
Lemma do_gc_inv (s s' : ssd) (force : bool) :
  gc_ready s -> do_gc s force = Ok (0, s') -> gc_inv quiet s' /\ mapped_preserved s s'.
Proof.
  intros [Hinv Hvict] H. unfold do_gc in H.
  apply bind_Ok in H as ([[v|] s1] & Hsel & H); [|by injection H].
  destruct (select_victim_line_view s force v s1 Hsel) as (V1 & Hin & M1).
  unfold victims_ok in Hvict. rewrite Forall_forall in Hvict. destruct (Hvict v Hin) as (Hnf & Hnw & Hnt).
  apply bind_Ok in H as (vl & Hvl & H). apply arr_get_Ok in Hvl.
  apply bind_Ok in H as ([s2 p2] & Hloop & H). apply bind_Ok in H as (s3 & H3 & H).
  injection H as <-.
  assert (Hinv1 : gc_inv (mkmode (Some v) (l_type vl) None [] None None) s1).
  { unfold gc_inv. apply select_inv.
    - by rewrite V1.
    - by rewrite V1.
    - by rewrite V1.
    - by rewrite V1.
    - by apply line_type_view. }
  pose proof Hinv1 as Hi. inv_split Hi. simpl in Hgeo.
  assert (Hid : l_id vl = v /\ 0 <= v < blks_per_pl (sp s1)).
  { apply (Hli v (victim_line_set_pos 0 vl)). simpl. by rewrite lookup_fmap, Hvl. }
  destruct Hid as [Hid Hvr].
  assert (Hp0 : g_blk (new_ppa 0 0 0 (l_id vl) 0) = v).
  { destruct Hgeo as (_ & _ & _ & G4 & _). simpl. rewrite Hid. apply Z.mod_small. lia. }
  pose (P := fun (d : list (Z * Z)) (st : ssd * ppa) =>
               gc_inv (mkmode (Some v) (l_type vl) None d None None) st.1 /\
               mapped_preserved s1 st.1 /\ g_blk st.2 = v /\ sp st.1 = sp s1).
  destruct (for_each_acc P (gc_one_block v) (gc_blocks (sp s1)) []
              (s1, new_ppa 0 0 0 (l_id vl) 0) (s2, p2))
    as (d & (Hinv2 & Hm2 & Pb2 & Esp2) & Hall); [| |exact Hloop|].
  { split; [exact Hinv1|]. split; [by apply mapped_preserved_eq|done]. }
  { intros d0 [c l] [sa pa] [sb pb] Hcl (Ha & Hma & Pa & Espa) Hstep.
    simpl in Ha, Hma, Pa, Espa. unfold P. simpl.
    destruct (gc_one_block_inv v (l_type vl) d0 sa sb pa pb c l Ha Pa) as (Hb & Hmb & Pb & Espb);
      [by rewrite Espa|exact Hstep|].
    split; [exact Hb|]. split; [by eapply mapped_preserved_trans|]. split; [exact Pb|].
    congruence. }
  simpl in Hinv2, Hm2, Pb2, Esp2.
  destruct (mark_line_free_view s2 p2 s3 H3) as [V3 M3]. rewrite Pb2 in V3.
  assert (Hl2 : is_Some (lines (lm (view s2)) !! v)).
  { unfold mark_line_free, get_line in H3. apply bind_Ok in H3 as (l2 & Hl2 & _).
    apply arr_get_Ok in Hl2. simpl. rewrite lookup_fmap, <- Pb2, Hl2. done. }
  split.
  - unfold gc_inv. rewrite V3.
    apply (release_inv (mkmode (Some v) (l_type vl) None d None None)); try done.
    intros cl Hcl. apply Hall. left. simpl in Hcl. by rewrite Esp2 in Hcl.
  - eapply mapped_preserved_trans; [by apply mapped_preserved_eq|].
    eapply mapped_preserved_trans; [exact Hm2|]. by apply mapped_preserved_eq.
Qed.

(** C1, as garbage collection keeps it. On a consistent device, a cycle of
    [do_gc] that selects a victim and returns 0 leaves every LPN that was
    mapped still mapped, and the map invariants hold afterwards with the
    second one weakened: every mapped LPN's page is valid with rmap pointing
    back to the LPN; every page whose rmap entry is not [INVALID_LPN] is
    either free (an erased page keeps its stale rmap entry) or valid and
    pointed back to by the forward map or the GTD; the counters of every line
    are the sums of those of its blocks. *)
Theorem gc_preserves_mappings (s s' : ssd) (force : bool) :
  gc_ready s -> do_gc s force = Ok (0, s') ->
  mapped_preserved s s' /\ map_inv1 s' /\ map_inv2_erased s' /\ map_inv3 s'.
Proof.
  intros Hready Hgc. destruct (do_gc_inv s s' force Hready Hgc) as [Hinv Hmp].
  split; [exact Hmp|]. split; [by apply gc_inv_map_inv1|].
  split; [by apply gc_inv_map_inv2_erased|by apply gc_inv_map_inv3].
Qed.

End cycle.

(** On the reduced device, after pages 0 to 3 were written and page 0
    overwritten, a cycle collects line 0. *)
Lemma gc_preserves_mappings_witness :
  mapped_preserved small_gc_pre small_gc_post /\ map_inv1 small_gc_post /\
  map_inv2_erased small_gc_post /\ map_inv3 small_gc_post.
Proof.
  apply (gc_preserves_mappings (env := small_env) small_gc_pre small_gc_post false).
  - apply (@bool_decide_unpack _ (gc_ready_dec small_gc_pre)). vm_compute. exact I.
  - vm_compute. reflexivity.
Defined.

(** C1 as stated fails on the second invariant. The same cycle starts from a
    device on which the three invariants hold, selects line 0 and returns 0;
    afterwards page 0 of block 0 on channel 1 is free, having been erased, and
    its rmap entry is still LPN 1, whose data the cycle moved to line 2. *)
Lemma gc_leaves_rmap_of_erased_pages :
  gc_ready small_gc_pre /\ map_inv1 small_gc_pre /\ map_inv2 small_gc_pre /\
  map_inv3 small_gc_pre /\
  do_gc (env := small_env) small_gc_pre false = Ok (0, small_gc_post) /\
  pgs small_gc_post !! (1, 0, 0, 0, 0) = Some PG_FREE /\
  rmap_at small_gc_post (1, 0, 0, 0, 0) = Some 1 /\
  ~ map_inv2 small_gc_post.
Proof.
  split. { apply (@bool_decide_unpack _ (gc_ready_dec small_gc_pre)). vm_compute. exact I. }
  split. { apply (@bool_decide_unpack _ (map_inv1_dec small_gc_pre)). vm_compute. exact I. }
  split. { apply (@bool_decide_unpack _ (map_inv2_dec small_gc_pre)). vm_compute. exact I. }
  split. { apply (@bool_decide_unpack _ (map_inv3_dec small_gc_pre)). vm_compute. exact I. }
  split. { vm_compute. reflexivity. }
  split. { vm_compute. reflexivity. }
  split. { vm_compute. reflexivity. }
  apply (@bool_decide_eq_false_1 _ (map_inv2_dec small_gc_post)). vm_compute. reflexivity.
Qed.

(** * Page numbering *)

Section more.
Context {env : femu_env}.

Lemma valid_ppa_key (s : ssd) (p : ppa) :
  pls_per_lun (sp s) = 1 -> valid_ppa s p = true -> key_in_range (sp s) (pg_of p).
Proof.
  intros Hpl H. unfold valid_ppa in H. apply bool_decide_eq_true_1 in H.
  destruct H as (Hc & Hl & Hp & Hb & Hg & _).
  unfold key_in_range, pg_of, key_ch, key_lun, key_pl, key_blk, key_pg. simpl.
  repeat split; try tauto; lia.
Qed.

(** [ppa2pgidx] numbers the pages of the array: two valid addresses with the
    same index are the same page, and the index of a valid address is below
    [tt_pgs], inside [rmap]. *)
Theorem ppa2pgidx_numbers_pages (s : ssd) (p q : ppa) :
  geometry_ok (sp s) -> valid_ppa s p = true -> valid_ppa s q = true ->
  0 <= ppa2pgidx (sp s) p < tt_pgs (sp s) /\
  (ppa2pgidx (sp s) p = ppa2pgidx (sp s) q -> pg_of p = pg_of q).
Proof.
  intros Hgeo Hp Hq.
  assert (Hpl : pls_per_lun (sp s) = 1).
  { destruct Hgeo as (_ & _ & Hpl & _). exact Hpl. }
  pose proof (valid_ppa_key s p Hpl Hp) as Kp. pose proof (valid_ppa_key s q Hpl Hq) as Kq.
  split.
  - rewrite <- pgidx_of_pg_of. by apply pgidx_range.
  - intros E. by apply (pgidx_inj (sp s)).
Qed.

(** [UNMAPPED_PPA] has no rmap entry: its index is past the end of [rmap]
    whatever the geometry, so [get_rmap_ent] on it reads outside the array.
    [translation_page_write] does so before it tests [mapped_ppa]. *)
Theorem translation_page_write_unmapped (s : ssd) :
  geometry_ok (sp s) -> rmap_in_range s ->
  tt_pgs (sp s) <= ppa2pgidx (sp s) UNMAPPED_PPA /\
  get_rmap_ent s UNMAPPED_PPA = Err OutOfBounds /\
  translation_page_write s UNMAPPED_PPA = Err OutOfBounds.
Proof.
  intros Hgeo Hrr. pose proof (pgidx_unmapped (sp s) Hgeo) as Hu.
  assert (Hnone : rmap s !! ppa2pgidx (sp s) UNMAPPED_PPA = None).
  { destruct (rmap s !! ppa2pgidx (sp s) UNMAPPED_PPA) as [x|] eqn:E; [|done].
    pose proof (Hrr _ _ E) as Hr. simpl in Hr. lia. }
  assert (Hget : get_rmap_ent s UNMAPPED_PPA = Err OutOfBounds).
  { unfold get_rmap_ent, arr_get. by rewrite Hnone. }
  split; [exact Hu|]. split; [exact Hget|].
  unfold translation_page_write. by rewrite Hget.
Qed.

End more.

Lemma ppa2pgidx_numbers_pages_witness :
  0 <= ppa2pgidx (sp small_filled) (new_ppa 1 0 1 2 0) < tt_pgs (sp small_filled) /\
  (ppa2pgidx (sp small_filled) (new_ppa 1 0 1 2 0)
   = ppa2pgidx (sp small_filled) (new_ppa 0 0 0 3 0) ->
   pg_of (new_ppa 1 0 1 2 0) = pg_of (new_ppa 0 0 0 3 0)).
Proof.
  apply (ppa2pgidx_numbers_pages small_filled (new_ppa 1 0 1 2 0) (new_ppa 0 0 0 3 0)).
  - apply (@bool_decide_unpack _ (geometry_ok_dec (sp small_filled))). vm_compute. exact I.
  - vm_compute. reflexivity.
  - vm_compute. reflexivity.
Defined.

Lemma translation_page_write_unmapped_witness :
  tt_pgs (sp small_filled) <= ppa2pgidx (sp small_filled) UNMAPPED_PPA /\
  get_rmap_ent small_filled UNMAPPED_PPA = Err OutOfBounds /\
  translation_page_write (env := small_env) small_filled UNMAPPED_PPA = Err OutOfBounds.
Proof.
  apply (translation_page_write_unmapped (env := small_env) small_filled).
  - apply (@bool_decide_unpack _ (geometry_ok_dec (sp small_filled))). vm_compute. exact I.
  - apply (@bool_decide_unpack _ (rmap_in_range_dec small_filled)). vm_compute. exact I.
Defined.

(** * Initialisation *)

(** ** The device at power-on *)

Lemma lookup_tabulate {V} (g : Z -> V) (n i : Z) :
  (list_to_map ((fun i => (i, g i)) <$> seqZ 0 n) : gmap Z V) !! i =
  if bool_decide (0 <= i < n) then Some (g i) else None.
Proof.
  destruct (bool_decide_reflect (0 <= i < n)) as [Hi|Hi].
  - apply elem_of_list_to_map_1.
    + rewrite <- list_fmap_compose. simpl. rewrite list_fmap_id. apply NoDup_seqZ.
    + apply list_elem_of_fmap. exists i. split; [done|]. apply elem_of_seqZ. lia.
  - apply not_elem_of_list_to_map_1. rewrite <- list_fmap_compose. simpl.
    rewrite list_fmap_id. intros Hin. apply elem_of_seqZ in Hin. lia.
Qed.

Lemma lookup_arr_init {V} (n : Z) (v : V) (i : Z) (x : V) :
  arr_init n v !! i = Some x -> x = v /\ 0 <= i < n.
Proof.
  unfold arr_init. rewrite (lookup_tabulate (fun _ => v)).
  destruct (bool_decide_reflect (0 <= i < n)); [|done]. by intros [= <-].
Qed.

Lemma lookup_const_map `{Countable K} {V} (v : V) (l : list K) (k : K) (x : V) :
  (list_to_map ((fun k => (k, v)) <$> l) : gmap K V) !! k = Some x -> x = v /\ k ∈ l.
Proof.
  intros Hl. apply elem_of_list_to_map_2 in Hl.
  apply list_elem_of_fmap in Hl as (k' & [= -> ->] & Hin). done.
Qed.

Lemma all_pgs_elem (spp : ssdparams) (k : pgkey) :
  pls_per_lun spp = 1 -> k ∈ all_pgs spp -> key_in_range spp k.
Proof.
  intros Hpl. unfold all_pgs, all_blks. rewrite list_elem_of_bind.
  intros ([[[c l] pl] b] & Hk & Hb).
  apply list_elem_of_fmap in Hk as (g & -> & Hg). apply elem_of_seqZ in Hg.
  apply list_elem_of_bind in Hb as ([c' l'] & Hb & Hcl).
  apply list_elem_of_bind in Hb as (pl' & Hb & Hp). apply elem_of_seqZ in Hp.
  apply list_elem_of_fmap in Hb as (b' & [= -> -> -> ->] & Hb'). apply elem_of_seqZ in Hb'.
  apply all_luns_elem in Hcl.
  unfold key_in_range, key_ch, key_lun, key_pl, key_blk, key_pg. simpl. lia.
Qed.

Section init.
Context {env : femu_env}.

Lemma init_write_pointer_head (set : write_pointer -> ssd -> ssd) (ty : line_type)
    (s : ssd) (x : Z) (rest : list Z) (l : line) :
  free_line_list (lm s) = x :: rest -> lines (lm s) !! x = Some l ->
  init_write_pointer set ty s =
  Ok (set (mkwp (Some x) 0 0 0 (l_id l) 0)
        (with_lm (with_lines (<[x := line_with_type ty l]> (lines (lm s)))
                    (with_free_lines rest (free_line_cnt (lm s) - 1) (lm s))) s)).
Proof.
  intros Hf Hl. unfold init_write_pointer. rewrite Hf. simpl.
  rewrite bool_decide_eq_true_2 by done. unfold arr_get. simpl. rewrite Hl. done.
Qed.

(** The context [ssd_init] builds, for the parameters [spp]. *)
Lemma ssd_init_with_eq (spp : ssdparams) :
  2 <= blks_per_pl spp ->
  exists s, ssd_init_with spp = Ok s /\ sp s = spp /\
    pgs s = list_to_map ((fun k => (k, PG_FREE)) <$> all_pgs spp) /\
    blks s = list_to_map ((fun k => (k, mkblk 0 0 0)) <$> all_blks spp) /\
    maptbl s = arr_init (tt_pgs spp) UNMAPPED_PPA /\
    rmap s = arr_init (tt_pgs spp) INVALID_LPN /\
    gtd s = arr_init (tt_gtd_size spp) UNMAPPED_PPA /\
    cm s = ssd_init_cmt spp /\
    lines (lm s) =
      <[1 := mkline 1 0 0 0 TRANS]>
        (<[0 := mkline 0 0 0 0 DATA]>
           (list_to_map ((fun i => (i, mkline i 0 0 0 NONE)) <$> seqZ 0 (blks_per_pl spp)))) /\
    free_line_list (lm s) = seqZ 2 (blks_per_pl spp - 2) /\
    victim_line_pq (lm s) = [] /\
    wp s = mkwp (Some 0) 0 0 0 0 0 /\ twp s = mkwp (Some 1) 0 0 0 1 0.
Proof.
  intros Hn. unfold ssd_init_with, ssd_init_write_pointer, ssd_init_trans_write_pointer.
  set (s0 := ssd_init_lines _).
  assert (F0 : free_line_list (lm s0) = 0 :: seqZ 1 (blks_per_pl spp - 1)).
  { simpl. rewrite (seqZ_cons 0) by lia.
    by replace (Z.pred (blks_per_pl spp)) with (blks_per_pl spp - 1) by lia. }
  assert (L0 : lines (lm s0) !! 0 = Some (mkline 0 0 0 0 NONE)).
  { simpl. rewrite (lookup_tabulate (fun i => mkline i 0 0 0 NONE)).
    by rewrite bool_decide_eq_true_2 by lia. }
  rewrite (init_write_pointer_head with_wp DATA s0 0 _ _ F0 L0). simpl mbind.
  set (s1 := with_wp _ _).
  assert (F1 : free_line_list (lm s1) = 1 :: seqZ 2 (blks_per_pl spp - 2)).
  { simpl. rewrite (seqZ_cons 1) by lia.
    by replace (Z.pred (blks_per_pl spp - 1)) with (blks_per_pl spp - 2) by lia. }
  assert (L1 : lines (lm s1) !! 1 = Some (mkline 1 0 0 0 NONE)).
  { simpl. rewrite lookup_insert_ne by done.
    rewrite (lookup_tabulate (fun i => mkline i 0 0 0 NONE)).
    by rewrite bool_decide_eq_true_2 by lia. }
  rewrite (init_write_pointer_head with_twp TRANS s1 1 _ _ F1 L1).
  eexists. split; [reflexivity|]. simpl. repeat split; reflexivity.
Qed.

Lemma init_lines_lookup (n id : Z) (l : line) :
  (<[1 := mkline 1 0 0 0 TRANS]>
     (<[0 := mkline 0 0 0 0 DATA]>
        (list_to_map ((fun i => (i, mkline i 0 0 0 NONE)) <$> seqZ 0 n) : gmap Z line)))
    !! id = Some l ->
  2 <= n ->
  0 <= id < n /\ l_id l = id /\ l_vpc l = 0 /\ l_ipc l = 0 /\
  l_type l = (if bool_decide (id = 0) then DATA else if bool_decide (id = 1) then TRANS
              else NONE).
Proof.
  intros Hl Hn. destruct (decide (id = 1)) as [->|H1].
  { rewrite lookup_insert_eq in Hl. injection Hl as <-. simpl. split; [lia|done]. }
  rewrite lookup_insert_ne in Hl by done. destruct (decide (id = 0)) as [->|H0].
  { rewrite lookup_insert_eq in Hl. injection Hl as <-. simpl. split; [lia|done]. }
  rewrite lookup_insert_ne in Hl by done.
  rewrite (lookup_tabulate (fun i => mkline i 0 0 0 NONE)) in Hl.
  destruct (bool_decide_reflect (0 <= id < n)); [|done]. injection Hl as <-. simpl.
  rewrite !bool_decide_eq_false_2 by done. done.
Qed.

(** [ssd_init] leaves a consistent device on which nothing is mapped: the
    data write pointer at the start of line 0, the translation write pointer
    at the start of line 1, every other line free. *)
Lemma ssd_init_with_ready (spp : ssdparams) :
  geometry_ok spp -> 2 <= blks_per_pl spp ->
  exists s, ssd_init_with spp = Ok s /\ sp s = spp /\ gc_ready s /\ pristine s /\
            wp s = mkwp (Some 0) 0 0 0 0 0 /\ twp s = mkwp (Some 1) 0 0 0 1 0 /\
            free_line_list (lm s) = seqZ 2 (blks_per_pl spp - 2).
Proof.
  intros Hgeo Hn.
  destruct (ssd_init_with_eq spp Hn)
    as (s & Hs & Esp & Epgs & Eblks & Emap & Ermap & Egtd & Ecm & Elines & Efree & Epq & Ewp & Etwp).
  exists s. split; [exact Hs|]. split; [exact Esp|].
  assert (Hpl : pls_per_lun spp = 1) by (by destruct Hgeo as (_ & _ & ? & _)).
  assert (Hfreepg : forall k st, pgs s !! k = Some st -> st = PG_FREE /\ key_in_range spp k).
  { intros k st Hk. rewrite Epgs in Hk. apply lookup_const_map in Hk as [-> Hin].
    split; [done|]. by apply all_pgs_elem. }
  assert (Hunm : forall x p, maptbl s !! x = Some p -> mapped_ppa p = false).
  { intros x p Hx. rewrite Emap in Hx. apply lookup_arr_init in Hx as [-> _]. done. }
  assert (Hung : forall x p, gtd s !! x = Some p -> mapped_ppa p = false).
  { intros x p Hx. rewrite Egtd in Hx. apply lookup_arr_init in Hx as [-> _]. done. }
  assert (Hline : forall id l, lines (lm (view s)) !! id = Some l ->
            0 <= id < blks_per_pl spp /\ l_id l = id /\ l_vpc l = 0 /\ l_ipc l = 0 /\
            l_type l = (if bool_decide (id = 0) then DATA
                        else if bool_decide (id = 1) then TRANS else NONE)).
  { intros id l Hl. simpl in Hl. rewrite lookup_fmap in Hl.
    destruct (lines (lm s) !! id) as [l0|] eqn:E; [|done]. injection Hl as <-.
    rewrite Elines in E. by apply init_lines_lookup in E. }
  assert (Htype : forall id ty, 0 <= id < blks_per_pl spp ->
            ty = (if bool_decide (id = 0) then DATA
                  else if bool_decide (id = 1) then TRANS else NONE) ->
            line_type_of (view s) id = Some ty).
  { intros id ty Hid ->. unfold line_type_of. simpl. rewrite lookup_fmap, Elines.
    destruct (decide (id = 1)) as [->|H1]; [by rewrite lookup_insert_eq|].
    rewrite lookup_insert_ne by done.
    destruct (decide (id = 0)) as [->|H0]; [by rewrite lookup_insert_eq|].
    rewrite lookup_insert_ne by done.
    rewrite (lookup_tabulate (fun i => mkline i 0 0 0 NONE)).
    rewrite bool_decide_eq_true_2 by done. simpl.
    by rewrite !bool_decide_eq_false_2 by done. }
  assert (Hg := Hgeo). destruct Hg as (G1 & G2 & _ & G4 & G5 & _).
  split; [|split; [|by rewrite Ewp, Etwp, Efree]].
  - split; [|unfold victims_ok; by rewrite Epq].
    unfold gc_inv, inv.
    split. { simpl. by rewrite Esp. }
    split. { intros k st Hk. simpl. rewrite Esp. by apply (Hfreepg k st). }
    split. { intros i x Hi. simpl in *. rewrite Ermap in Hi. apply lookup_arr_init in Hi.
             rewrite Esp. tauto. }
    split. { intros id l Hl. destruct (Hline id l Hl) as (? & ? & _). simpl. by rewrite Esp. }
    split. { intros x p Hx _ Hmp. simpl in Hx. by rewrite (Hunm x p Hx) in Hmp. }
    split. { intros x p Hx _ Hmp. simpl in Hx. by rewrite (Hung x p Hx) in Hmp. }
    split. { intros k st Hk _. destruct (Hfreepg k st Hk) as [-> _]. done. }
    split.
    { intros id l Hl _. destruct (Hline id l Hl) as (_ & _ & -> & -> & _).
      rewrite !line_sum_zero; [done| |].
      - intros cl b _ Hb. simpl in Hb. rewrite Eblks in Hb.
        by apply lookup_const_map in Hb as [-> _].
      - intros cl b _ Hb. simpl in Hb. rewrite Eblks in Hb.
        by apply lookup_const_map in Hb as [-> _]. }
    split.
    { unfold frontier_ok. simpl fr. simpl sp. simpl pgs. simpl free_line_list.
      rewrite Ewp, Esp, Efree. simpl.
      split; [done|]. split; [done|]. do 3 (split; [lia|]).
      split; [by apply Htype; [lia|]|]. split; [done|].
      split. { rewrite elem_of_seqZ. lia. }
      intros k st Hk _ _. by apply (Hfreepg k st). }
    split.
    { unfold frontier_ok. simpl fr. simpl sp. simpl pgs. simpl free_line_list.
      rewrite Etwp, Esp, Efree. simpl.
      split; [done|]. split; [done|]. do 3 (split; [lia|]).
      split; [by apply Htype; [lia|]|]. split; [done|].
      split. { rewrite elem_of_seqZ. lia. }
      intros k st Hk _ _. by apply (Hfreepg k st). }
    split.
    { unfold free_ok. simpl. rewrite Efree. split; [apply NoDup_seqZ|].
      split; [by apply Forall_forall|]. intros k st Hk _. by apply (Hfreepg k st). }
    split; [by intros ? [=]|]. split; [by intros ? ? _ [=]|by intros ? ? _ [=]].
  - unfold pristine. rewrite Emap, Egtd, Ecm. simpl.
    split. { intros x p Hx. by apply lookup_arr_init in Hx as [-> _]. }
    split. { intros x p Hx. by apply lookup_arr_init in Hx as [-> _]. }
    split; [|done]. intros x p Hx. by apply lookup_arr_init in Hx as [-> _].
Qed.

End init.

(** * The host paths keep the maps consistent *)

(** ** A page of either kind is superseded *)

Section invalidate_any.
Variables (m : gc_mode) (a : ssd) (ty0 : line_type) (x : Z) (old : ppa).
Hypothesis Hinv : inv m a.
Hypothesis Hhole : gm_hole m = None.
Hypothesis Hstr : gm_strict m = None.
Hypothesis Hty0 : ty0 <> NONE.
Hypothesis Hgtd : tbl ty0 a !! x = Some old.
Hypothesis Hmapped : mapped_ppa old = true.
Hypothesis Hblk : is_Some (blks a !! blk_of old).

Local Abbreviation a' := (invalidate old a).
Local Abbreviation m' := (with_hole (Some (ty0, x)) m).
Local Abbreviation ko := (pg_of old).

Lemma inval_any_old :
  ~ exempt m ko /\ pgs a !! ko = Some PG_VALID /\
  rmap a !! pgidx_of (sp a) ko = Some x /\ line_type_of a (key_blk ko) = Some ty0 /\
  key_in_range (sp a) ko.
Proof.
  pose proof Hinv as H. inv_split H.
  assert (Hn : Some (ty0, x) <> gm_hole m) by (by rewrite Hhole).
  destruct (inv_table m a ty0 Hinv Hty0 x old Hgtd Hn Hmapped) as (T1 & T2 & T3 & T4).
  split; [exact T1|]. split; [exact T2|]. split; [exact T3|]. split; [exact T4|].
  by apply (Hpr _ PG_VALID).
Qed.

Lemma inval_any_other (k : pgkey) (st : pg_status) :
  pgs a !! k = Some st -> k <> ko ->
  pgidx_of (sp a) ko <> pgidx_of (sp a) k.
Proof.
  intros Hk Hne E. destruct inval_any_old as (_ & _ & _ & _ & Hr). apply Hne. symmetry.
  apply (pg_inj m a); [done|done|by apply (pgs_range m a k st)|done].
Qed.

Lemma inval_any_table (ty : line_type) : ty <> NONE -> table_ok m' ty a'.
Proof.
  intros Hty. pose proof (inv_table _ _ _ Hinv Hty) as Htab.
  destruct inval_any_old as (O1 & O2 & O3 & O4 & O5).
  intros x' p Hx' Hh' Hmp.
  assert (Hx0 : tbl ty a !! x' = Some p) by (by destruct ty).
  assert (Hn : Some (ty, x') <> gm_hole m) by (by rewrite Hhole).
  destruct (Htab x' p Hx0 Hn Hmp) as (T1 & T2 & T3 & T4).
  assert (Hk : pg_of p <> ko).
  { intros E. apply Hh'. simpl. rewrite <- pgidx_of_pg_of, E in T3.
    change (key_blk (pg_of p)) with (g_blk p) in *.
    assert (ty = ty0).
    { rewrite <- E in O4. change (key_blk (pg_of p)) with (g_blk p) in O4. congruence. }
    congruence. }
  split; [exact T1|]. split.
  { change (pgs a') with (<[ko := PG_INVALID]> (pgs a)). by rewrite lookup_insert_ne. }
  split.
  { change (rmap a') with (<[ppa2pgidx (sp a) old := INVALID_LPN]> (rmap a)).
    change (sp a') with (sp a). rewrite lookup_insert_ne; [done|].
    rewrite <- !pgidx_of_pg_of. by apply (inval_any_other _ PG_VALID). }
  rewrite <- T4. apply (line_type_alter (bump_line (-1) 1) a a' (key_blk ko)); done.
Qed.

Lemma inval_any_pages : pages_ok m' a'.
Proof.
  pose proof Hinv as H. inv_split H. destruct inval_any_old as (O1 & O2 & O3 & O4 & O5).
  intros k st Hk Hne.
  change (pgs a') with (<[ko := PG_INVALID]> (pgs a)) in Hk.
  unfold rmap_at. change (rmap a') with (<[ppa2pgidx (sp a) old := INVALID_LPN]> (rmap a)).
  change (sp a') with (sp a). rewrite <- (pgidx_of_pg_of (sp a) old). fold ko.
  destruct (decide (k = ko)) as [->|Hko].
  - rewrite lookup_insert_eq in Hk. injection Hk as <-. split; [done|]. intros _.
    apply lookup_insert_eq.
  - rewrite lookup_insert_ne in Hk by done.
    rewrite lookup_insert_ne by (by apply (inval_any_other k st)).
    destruct (Hpg k st Hk Hne) as [Hv Hi]. split; [|exact Hi].
    intros Hst. specialize (Hv Hst). unfold rmap_at in Hv.
    destruct (rmap a !! pgidx_of (sp a) k) as [x0|]; [|done].
    assert (Hbk : forall ty, ty <> NONE -> backed m a ty x0 k -> backed m' a' ty x0 k).
    { intros ty Hty (B1 & B2 & B3). split.
      { rewrite <- B1. apply (line_type_alter (bump_line (-1) 1) a a' (key_blk ko)); done. }
      split.
      - simpl. intros [= -> ->]. apply Hko. unfold points_to in B3. simpl in B3.
        rewrite Hgtd in B3. by destruct B3 as [_ <-].
      - by destruct ty. }
    destruct Hv as [Hb|Hb]; [left|right]; by apply Hbk.
Qed.

Lemma inval_any_frontier (ty : line_type) : ty <> NONE -> frontier_ok m' ty a'.
Proof.
  intros Hty.
  pose proof (inv_frontier _ _ _ Hinv Hty) as (F1 & F2 & F3 & F4 & F5 & F6 & F7 & F8 & F9).
  destruct inval_any_old as (O1 & O2 & O3 & O4 & O5).
  assert (Efr : fr ty a' = fr ty a) by (by destruct ty).
  unfold frontier_ok. rewrite Efr. change (sp a') with (sp a).
  change (free_line_list (lm a')) with (free_line_list (lm a)).
  rewrite (line_type_alter (bump_line (-1) 1) a a' (key_blk ko)) by done.
  do 8 (split; [assumption|]).
  intros k st Hk Hb Hpos. change (pgs a') with (<[ko := PG_INVALID]> (pgs a)) in Hk.
  destruct (decide (k = ko)) as [->|Hko].
  - specialize (F9 ko _ O2 Hb Hpos). done.
  - rewrite lookup_insert_ne in Hk by done. by apply (F9 k st).
Qed.

Lemma inval_any_inv : inv m' a'.
Proof.
  pose proof Hinv as H. inv_split H. destruct inval_any_old as (O1 & O2 & O3 & O4 & O5).
  unfold inv. split; [exact Hgeo|].
  split. { intros k st Hk. change (pgs a') with (<[ko := PG_INVALID]> (pgs a)) in Hk.
           change (sp a') with (sp a). destruct (decide (k = ko)) as [->|Hko]; [done|].
           rewrite lookup_insert_ne in Hk by done. by apply (Hpr k st). }
  split. { intros i y Hi.
           change (rmap a') with (<[ppa2pgidx (sp a) old := INVALID_LPN]> (rmap a)) in Hi.
           change (sp a') with (sp a).
           destruct (decide (ppa2pgidx (sp a) old = i)) as [<-|Hne].
           - rewrite <- pgidx_of_pg_of. by apply (Hrr _ x).
           - rewrite lookup_insert_ne in Hi by done. by apply (Hrr i y). }
  split. { intros id l Hl.
           change (lines (lm a')) with (alter (bump_line (-1) 1) (key_blk ko) (lines (lm a)))
             in Hl.
           change (sp a') with (sp a). destruct (decide (key_blk ko = id)) as [<-|Hne].
           - rewrite lookup_alter_eq in Hl.
             destruct (lines (lm a) !! key_blk ko) as [l0|] eqn:E; [|done].
             injection Hl as <-. by apply (Hli _ l0).
           - rewrite lookup_alter_ne in Hl by done. by apply (Hli id l). }
  split; [by apply inval_any_table|]. split; [by apply inval_any_table|].
  split; [apply inval_any_pages|].
  split. { apply (counters_bump _ a a' ko (-1) 1); done. }
  split; [by apply inval_any_frontier|]. split; [by apply inval_any_frontier|].
  destruct Hfr as (N1 & N2 & N3). destruct Hvi as (V1 & V2 & V3).
  split.
  { split; [exact N1|]. split; [exact N2|]. intros k st Hk Hin.
    change (pgs a') with (<[ko := PG_INVALID]> (pgs a)) in Hk.
    change (free_line_list (lm a')) with (free_line_list (lm a)) in Hin.
    destruct (decide (k = ko)) as [->|Hko].
    - specialize (N3 ko _ O2 Hin). done.
    - rewrite lookup_insert_ne in Hk by done. by apply (N3 k st). }
  split; [|split].
  - intros v Hv. rewrite (line_type_alter (bump_line (-1) 1) a a' (key_blk ko)) by done.
    by apply V1.
  - intros k st Hk Hv Hd. change (pgs a') with (<[ko := PG_INVALID]> (pgs a)) in Hk.
    destruct (decide (k = ko)) as [->|Hko].
    + specialize (V2 ko _ O2 Hv Hd). done.
    + rewrite lookup_insert_ne in Hk by done. by apply (V2 k st).
  - intros bk b Hb Hv Hpl Hd.
    change (blks a') with (alter (bump_blk (-1) 1) (blk_key ko) (blks a)) in Hb.
    destruct (decide (blk_key ko = bk)) as [<-|Hne].
    + specialize (V2 ko _ O2 Hv Hd). done.
    + rewrite lookup_alter_ne in Hb by done. by apply (V3 bk b).
Qed.

End invalidate_any.

(** An entry that addresses no page can be rewritten at once. *)
Lemma open_unmapped_inv (m : gc_mode) (a : ssd) (ty : line_type) (x : Z) (p : ppa) :
  inv m a -> gm_hole m = None -> ty <> NONE ->
  tbl ty a !! x = Some p -> mapped_ppa p = false ->
  inv (with_hole (Some (ty, x)) m) a.
Proof.
  intros H Hh Hty Hx Hp. inv_split H.
  assert (Ht : forall ty', table_ok m ty' a -> table_ok (with_hole (Some (ty, x)) m) ty' a).
  { intros ty' Ht x' p' Hx' _ Hmp. apply (Ht x' p' Hx'); [by rewrite Hh|done]. }
  assert (Hp' : pages_ok (with_hole (Some (ty, x)) m) a).
  { intros k st Hk Hne. destruct (Hpg k st Hk Hne) as [Hv Hi]. split; [|exact Hi].
    intros Hst. specialize (Hv Hst). destruct (rmap_at a k) as [x0|]; [|done].
    assert (Hbk : forall t, backed m a t x0 k -> backed (with_hole (Some (ty, x)) m) a t x0 k).
    { intros t (B1 & B2 & B3). split; [done|]. split; [|done]. simpl.
      intros [= -> ->]. unfold points_to in B3. rewrite Hx in B3. destruct B3 as [B3 _].
      congruence. }
    destruct Hv as [Hb|Hb]; [left|right]; by apply Hbk. }
  destruct m as [v vty cur done str hole].
  exact (conj Hgeo (conj Hpr (conj Hrr (conj Hli (conj (Ht _ Htd) (conj (Ht _ Htt) (conj Hp'
      (conj Hcn (conj Hfd (conj Hft (conj Hfr Hvi))))))))))).
Qed.

Section host.
Context {env : femu_env}.

(** [write_new_page] when something that the view does not show happens
    between the table entry and the rmap entry. *)
Lemma write_new_page_via (m : gc_mode) (ty : line_type) (x : Z) (s s1 s1' s2 s3 s4 : ssd) :
  gc_inv m s -> ty <> NONE -> gm_hole m = Some (ty, x) -> gm_strict m = None ->
  let w := fr ty s in
  let new := new_ppa (wp_ch w) (wp_lun w) (wp_pg w) (wp_blk w) (wp_pl w) in
  match ty with TRANS => set_gtd_ent s x new | _ => set_maptbl_ent s x new end = Ok s1 ->
  view s1' = view s1 -> maptbl s1' = maptbl s1 ->
  set_rmap_ent s1' x new = Ok s2 ->
  mark_page_valid s2 new = Ok s3 ->
  match ty with
  | TRANS => ssd_advance_trans_write_pointer s3
  | _ => ssd_advance_write_pointer s3
  end = Ok s4 ->
  gc_inv (with_hole None m) s4 /\
  maptbl s4 = (if bool_decide (ty = DATA) then <[x := new]> (maptbl s) else maptbl s).
Proof.
  intros Hinv Hty Hhole Hstr w new H1 Hv1 Hm1 H2 H3 H4.
  destruct (set_tbl_view ty s x new s1 Hty H1) as (Hx & V1 & M1).
  destruct (set_rmap_view s1' x new s2 H2) as (Hr & V2 & M2).
  destruct (mark_page_valid_view s2 new s3 H3) as (Hp & Hb & V3 & M3).
  destruct (frontier_page m (view s) ty Hinv Hty) as (Epg & _ & _ & _ & _).
  rewrite fr_view in Epg. fold w in Epg. fold new in Epg.
  rewrite Hv1 in V2.
  assert (Esp1 : sp s1' = sp s).
  { apply (f_equal sp) in V1, Hv1. simpl in Hv1. rewrite Hv1. destruct ty; exact V1. }
  assert (A3 : view s3 = alloc ty x (view s)).
  { rewrite V3, V2, V1, Esp1. unfold alloc. rewrite fr_view. fold w. fold new.
    rewrite Epg. rewrite <- (pgidx_of_pg_of (sp s) new), Epg. done. }
  assert (Kblk : is_Some (blks (view s) !! blk_key (fr_key (fr ty (view s))))).
  { rewrite fr_view. fold w. rewrite <- Epg.
    change (blks s2) with (blks (view s2)) in Hb. rewrite V2, V1 in Hb. by destruct ty. }
  assert (Kpg : is_Some (pgs (view s) !! fr_key (fr ty (view s)))).
  { rewrite fr_view. fold w. rewrite <- Epg.
    change (pgs s2) with (pgs (view s2)) in Hp. rewrite V2, V1 in Hp. by destruct ty. }
  assert (Krm : is_Some (rmap (view s) !! pgidx_of (sp (view s)) (fr_key (fr ty (view s))))).
  { rewrite fr_view. fold w. rewrite <- Epg. rewrite Esp1 in Hr.
    change (rmap s1') with (rmap (view s1')) in Hr. rewrite Hv1, V1 in Hr. by destruct ty. }
  pose proof (alloc_inv m (view s) ty x Hinv Hty Hhole Hstr Kblk Kpg Krm) as Hinv3.
  rewrite <- A3 in Hinv3.
  assert (Kli : lines_indexed (view s3)) by (by inv_split Hinv3).
  destruct (advance_view ty s3 s4 Hty Kli H4) as (M4 & Hadv).
  split.
  - unfold gc_inv. rewrite <- (with_strict_hole m ty Hstr).
    destruct Hadv as [(Hnl & V4)|(Hl & nl & Hh & Hln & V4)]; rewrite V4.
    + rewrite <- (fr_view ty s3). change (sp s3) with (sp (view s3)).
      apply advance_succ_inv; [done|done|done|]. by rewrite fr_view.
    + apply advance_next_inv; [done|done|done| | |].
      * by rewrite fr_view.
      * exact Hh.
      * simpl. rewrite lookup_fmap. destruct Hln as [ln ->]. done.
  - rewrite M4, M3, M2, Hm1, M1. done.
Qed.

End host.

Section host_paths.
Context {env : femu_env}.

Lemma mapped_valid (m : gc_mode) (s : ssd) (ty : line_type) (x : Z) (p : ppa) :
  gc_inv m s -> sec_ok s -> gm_hole m = None -> ty <> NONE ->
  tbl ty s !! x = Some p -> mapped_ppa p = true -> valid_ppa s p = true.
Proof.
  intros Hinv (Hs & Hsm & Hsg) Hh Hty Hx Hmp.
  assert (Hx' : tbl ty (view s) !! x = Some p) by (by destruct ty).
  assert (Hn : Some (ty, x) <> gm_hole m) by (by rewrite Hh).
  destruct (inv_table m (view s) ty Hinv Hty x p Hx' Hn Hmp) as (_ & T2 & _ & _).
  pose proof (pgs_range m (view s) _ _ Hinv T2) as (Rc & Rl & Rp & Rb & Rg).
  inv_split Hinv. simpl in Hgeo. destruct Hgeo as (_ & _ & Gpl & _).
  assert (Hsec : g_sec p = 0).
  { destruct ty; [done| |]; [by apply (Hsm x p)|by apply (Hsg x p)]. }
  unfold valid_ppa. apply bool_decide_eq_true_2.
  unfold key_ch, key_lun, key_pl, key_blk, key_pg, pg_of in *. simpl in *. lia.
Qed.

(** The first write of a translation page. *)
Lemma translation_page_new_write_inv (m : gc_mode) (s s' : ssd) (tvpn lat : Z) (p : ppa) :
  gc_inv m s -> gm_hole m = None -> gm_strict m = None ->
  gtd s !! tvpn = Some p -> mapped_ppa p = false ->
  translation_page_new_write s tvpn = Ok (lat, s') ->
  gc_inv m s' /\ maptbl s' = maptbl s.
Proof.
  intros Hinv Hh Hs Hg Hp H. unfold translation_page_new_write in H.
  apply bind_Ok in H as (s1 & H1 & H). apply bind_Ok in H as (s2 & H2 & H).
  apply bind_Ok in H as (s3 & H3 & H). apply bind_Ok in H as (s4 & H4 & H).
  assert (Hopen : inv (with_hole (Some (TRANS, tvpn)) m) (view s)).
  { by apply (open_unmapped_inv m (view s) TRANS tvpn p). }
  destruct (write_new_page _ TRANS tvpn s s1 s2 s3 s4 Hopen ltac:(done) eq_refl Hs H1 H2 H3 H4)
    as [Hinv4 Hm4].
  rewrite with_hole_hole in Hinv4 by done.
  apply ssd_advance_status_frame in H. destruct (quiet_frame _ _ _ H eq_refl) as [V5 M5].
  split; [unfold gc_inv; by rewrite V5|]. by rewrite M5, Hm4.
Qed.

(** The write-back of a translation page, as [evict_entry_from_cmt] does it. *)
Lemma write_back_inv (m : gc_mode) (s s' : ssd) (tvpn : Z) :
  gc_inv m s -> sec_ok s -> gm_hole m = None -> gm_strict m = None ->
  (p ← get_gtd_ent s tvpn;
   if negb (mapped_ppa p) || negb (valid_ppa s p) then
     '(_, s) ← translation_page_new_write s tvpn; Ok s
   else
     '(_, s) ← translation_page_read_no_req s p;
     '(_, s) ← translation_page_write s p; Ok s) = Ok s' ->
  gc_inv m s' /\ maptbl s' = maptbl s.
Proof.
  intros Hinv Hsec Hh Hs H. apply bind_Ok in H as (p & Hp & H).
  unfold get_gtd_ent in Hp. apply arr_get_Ok in Hp.
  destruct (mapped_ppa p) eqn:Hmp.
  - rewrite (mapped_valid m s TRANS tvpn p) in H by done. simpl in H.
    apply bind_Ok in H as ([l1 s1] & H1 & H). apply bind_Ok in H as ([l2 s2] & H2 & H).
    injection H as <-. unfold translation_page_read_no_req in H1.
    apply ssd_advance_status_frame in H1. destruct (quiet_frame _ _ _ H1 eq_refl) as [V1 M1].
    assert (Hinv1 : gc_inv m s1) by (unfold gc_inv; by rewrite V1).
    assert (Hg1 : gtd s1 !! tvpn = Some p).
    { change (gtd s1) with (gtd (view s1)). by rewrite V1. }
    destruct (translation_page_write_inv m s1 s2 tvpn l2 p Hinv1 Hh Hs Hg1 H2) as [Hinv2 M2].
    split; [exact Hinv2|]. by rewrite M2, M1.
  - simpl in H. apply bind_Ok in H as ([l1 s1] & H1 & H). injection H as <-.
    by apply (translation_page_new_write_inv m s s1 tvpn l1 p).
Qed.

Lemma evict_entry_from_cmt_inv (m : gc_mode) (s s' : ssd) :
  gc_inv m s -> sec_ok s -> gm_hole m = None -> gm_strict m = None ->
  evict_entry_from_cmt s = Ok s' ->
  gc_inv m s' /\ maptbl s' = maptbl s.
Proof.
  intros Hinv Hsec Hh Hs H. unfold evict_entry_from_cmt in H.
  apply bind_Ok in H as (e & He & H). apply bind_Ok in H as (ent & Hent & H).
  apply bind_Ok in H as (s1 & H1 & H). apply bind_Ok in H as ([b c] & Hdel & H).
  injection H as <-.
  set (s0 := with_cm _ s) in *.
  assert (Hmid : gc_inv m s1 /\ maptbl s1 = maptbl s).
  { destruct (bool_decide (e_dirty ent = DIRTY)); [|by injection H1 as <-].
    apply (write_back_inv m s0 s1 _ Hinv Hsec Hh Hs H1). }
  exact Hmid.
Qed.

Lemma cmt_make_room_and_insert_inv (m : gc_mode) (s s' : ssd) (lpn ppn : Z) :
  gc_inv m s -> sec_ok s -> gm_hole m = None -> gm_strict m = None ->
  cmt_make_room_and_insert s lpn ppn = Ok s' ->
  gc_inv m s' /\ maptbl s' = maptbl s.
Proof.
  intros Hinv Hsec Hh Hs H. unfold cmt_make_room_and_insert in H.
  destruct (bool_decide (used_cmt_entry_cnt (cm s) < tt_entries (cm s))).
  { apply insert_entry_to_cmt_frame in H. destruct (quiet_frame _ _ _ H eq_refl) as [V M].
    split; [unfold gc_inv; by rewrite V|done]. }
  destruct (bool_decide (used_cmt_entry_cnt (cm s) = tt_entries (cm s))); [|by injection H as <-].
  apply bind_Ok in H as (s1 & H1 & H).
  destruct (evict_entry_from_cmt_inv m s s1 Hinv Hsec Hh Hs H1) as [Hinv1 M1].
  apply insert_entry_to_cmt_frame in H. destruct (quiet_frame _ _ _ H eq_refl) as [V M].
  split; [unfold gc_inv; by rewrite V|]. by rewrite M, M1.
Qed.

End host_paths.

(** * Only page addresses are stored *)

(** ** Only page addresses are stored *)

Lemma sec_step_refl (s : ssd) : sec_step s s.
Proof. unfold sec_step. auto. Qed.

Lemma sec_step_trans (s1 s2 s3 : ssd) : sec_step s1 s2 -> sec_step s2 s3 -> sec_step s1 s3.
Proof.
  intros (A1 & A2 & A3) (B1 & B2 & B3). split; [congruence|]. split.
  - intros x p Hx Hm. destruct (B2 x p Hx Hm) as [?|Hx2]; [by left|]. by apply A2.
  - intros x p Hx Hm. destruct (B3 x p Hx Hm) as [?|Hx2]; [by left|]. by apply A3.
Qed.

Lemma sec_step_ok (s s' : ssd) : sec_ok s -> sec_step s s' -> sec_ok s'.
Proof.
  intros (H0 & Hm & Hg) (A1 & A2 & A3). split; [by rewrite A1|]. split.
  - intros x p Hx Hp. destruct (A2 x p Hx Hp) as [?|Hx0]; [done|]. by apply (Hm x p).
  - intros x p Hx Hp. destruct (A3 x p Hx Hp) as [?|Hx0]; [done|]. by apply (Hg x p).
Qed.

Lemma frame_sec_step (ch : list field) (s s' : ssd) :
  touched Fmaptbl ch = false -> touched Fgtd ch = false -> frame ch s s' -> sec_step s s'.
Proof.
  intros Tm Tg (A0&_&_&_&A4&_&A6&_). split; [exact A0|].
  rewrite (A4 Tm), (A6 Tg). split; auto.
Qed.

Lemma set_maptbl_ent_sec (s s' : ssd) (x : Z) (p : ppa) :
  g_sec p = 0 -> set_maptbl_ent s x p = Ok s' -> sec_step s s'.
Proof.
  intros Hp H. unfold set_maptbl_ent in H. inv_ok. split; [done|]. simpl. split; [|auto].
  intros y q Hy Hq. destruct (decide (x = y)) as [->|Hne].
  - rewrite lookup_insert_eq in Hy. injection Hy as <-. by left.
  - rewrite lookup_insert_ne in Hy by done. by right.
Qed.

Lemma set_gtd_ent_sec (s s' : ssd) (x : Z) (p : ppa) :
  g_sec p = 0 -> set_gtd_ent s x p = Ok s' -> sec_step s s'.
Proof.
  intros Hp H. unfold set_gtd_ent in H. inv_ok. split; [done|]. simpl. split; [auto|].
  intros y q Hy Hq. destruct (decide (x = y)) as [->|Hne].
  - rewrite lookup_insert_eq in Hy. injection Hy as <-. by left.
  - rewrite lookup_insert_ne in Hy by done. by right.
Qed.

(** Proves [sec_step s s'] when [s'] is an explicit update of [s] outside the
    tables. *)
Ltac sec_here := solve [ unfold sec_step; simpl; auto ].

(** The footprint of the run of an operation. *)
Ltac footprint_of H :=
  lazymatch type of H with
  | ssd_advance_status _ _ _ = Ok _ => apply ssd_advance_status_frame in H
  | set_rmap_ent _ _ _ = Ok _ => apply set_rmap_ent_frame in H
  | mark_page_invalid _ _ = Ok _ => apply mark_page_invalid_frame in H
  | mark_page_valid _ _ = Ok _ => apply mark_page_valid_frame in H
  | mark_block_free _ _ = Ok _ => apply mark_block_free_frame in H
  | ssd_advance_write_pointer _ = Ok _ => apply ssd_advance_write_pointer_frame in H
  | ssd_advance_trans_write_pointer _ = Ok _ =>
      apply ssd_advance_trans_write_pointer_frame in H
  | cmt_hit _ _ = Ok _ => apply cmt_hit_frame in H
  | insert_entry_to_cmt _ _ _ = Ok _ => apply insert_entry_to_cmt_frame in H
  | raise_lun_clock _ _ _ = Ok _ => apply raise_lun_clock_frame in H
  | set_gc_endtime _ _ = Ok _ => apply set_gc_endtime_frame in H
  | gc_read_page _ _ = Ok _ => apply gc_read_page_frame in H
  | select_victim_line _ _ = Ok _ => apply select_victim_line_frame in H
  | mark_line_free _ _ = Ok _ => apply mark_line_free_frame in H
  end.

Ltac sec_of0 H :=
  lazymatch type of H with
  | set_maptbl_ent _ _ _ = Ok _ => apply set_maptbl_ent_sec in H; [|reflexivity]
  | set_gtd_ent _ _ _ = Ok _ => apply set_gtd_ent_sec in H; [|reflexivity]
  | _ => footprint_of H; apply frame_sec_step in H; [|reflexivity|reflexivity]
  end.

Ltac sec_link :=
  match goal with
  | H : sec_step ?src ?dst |- sec_step ?s _ =>
      apply (sec_step_trans s src); [ first [ apply sec_step_refl | sec_here ] | ];
      apply (sec_step_trans src dst); [ exact H | ];
      clear H
  end.

Ltac sec_chain := first [ apply sec_step_refl | sec_here | sec_link; sec_chain ].

(** Every run among the hypotheses is turned into a step by [tac]; the steps
    are then put end to end. *)
Ltac secs_with tac :=
  repeat match goal with H : _ = Ok _ |- _ => tac H end; sec_chain.

Lemma translation_page_write_sec {env : femu_env} (s s' : ssd) (p : ppa) (lat : Z) :
  translation_page_write s p = Ok (lat, s') -> sec_step s s'.
Proof.
  unfold translation_page_write, get_rmap_ent. intros H. inv_cases; secs_with sec_of0.
Qed.

Lemma translation_page_new_write_sec {env : femu_env} (s s' : ssd) (tvpn lat : Z) :
  translation_page_new_write s tvpn = Ok (lat, s') -> sec_step s s'.
Proof. unfold translation_page_new_write. intros H. inv_cases; secs_with sec_of0. Qed.

Ltac sec_of1 H :=
  lazymatch type of H with
  | translation_page_write _ _ = Ok _ => apply translation_page_write_sec in H
  | translation_page_new_write _ _ = Ok _ => apply translation_page_new_write_sec in H
  | _ => sec_of0 H
  end.

Lemma evict_entry_from_cmt_sec {env : femu_env} (s s' : ssd) :
  evict_entry_from_cmt s = Ok s' -> sec_step s s'.
Proof.
  unfold evict_entry_from_cmt, get_gtd_ent, translation_page_read_no_req, delete_cmt_hashnode.
  intros H. inv_cases; simpl in *; secs_with sec_of1.
Qed.

Ltac sec_of2 H :=
  lazymatch type of H with
  | evict_entry_from_cmt _ = Ok _ => apply evict_entry_from_cmt_sec in H
  | _ => sec_of1 H
  end.

Lemma cmt_make_room_and_insert_sec {env : femu_env} (s s' : ssd) (lpn ppn : Z) :
  cmt_make_room_and_insert s lpn ppn = Ok s' -> sec_step s s'.
Proof. unfold cmt_make_room_and_insert. intros H. inv_cases; secs_with sec_of2. Qed.

Ltac sec_of3 H :=
  lazymatch type of H with
  | cmt_make_room_and_insert _ _ _ = Ok _ => apply cmt_make_room_and_insert_sec in H
  | _ => sec_of2 H
  end.

Lemma process_translation_page_read_sec {env : femu_env} (s s' : ssd) (req : NvmeRequest)
    (lpn : Z)    (r : option (Z * Z)) :
  process_translation_page_read s req lpn = Ok (r, s') -> sec_step s s'.
Proof.
  unfold process_translation_page_read, get_gtd_ent, get_maptbl_ent, translation_page_read.
  intros H. inv_cases; secs_with sec_of3.
Qed.

Lemma process_translation_page_write_sec {env : femu_env} (s s' : ssd) (req : NvmeRequest)
    (lpn : Z)    (r : option (Z * Z)) :
  process_translation_page_write s req lpn = Ok (r, s') -> sec_step s s'.
Proof.
  unfold process_translation_page_write, get_gtd_ent, get_maptbl_ent, translation_page_read.
  intros H. inv_cases; secs_with sec_of3.
Qed.

Ltac sec_of4 H :=
  lazymatch type of H with
  | process_translation_page_read _ _ _ = Ok _ =>
      apply process_translation_page_read_sec in H
  | process_translation_page_write _ _ _ = Ok _ =>
      apply process_translation_page_write_sec in H
  | _ => sec_of3 H
  end.

Lemma read_lpn_sec {env : femu_env} (req : NvmeRequest) (st st' : ssd * Z) (lpn : Z) :
  read_lpn req st lpn = Ok st' -> sec_step st.1 st'.1.
Proof.
  unfold read_lpn, get_maptbl_ent. destruct st as [s maxlat]. intros H.
  inv_cases; simpl; secs_with sec_of4.
Qed.

Lemma write_lpn_sec {env : femu_env} (req : NvmeRequest) (st st' : ssd * Z) (lpn : Z) :
  write_lpn req st lpn = Ok st' -> sec_step st.1 st'.1.
Proof.
  unfold write_lpn, get_maptbl_ent. destruct st as [s maxlat]. intros H.
  inv_cases; simpl; secs_with sec_of4.
Qed.

(** * Reads and writes of one page *)

Section host_requests.
Context {env : femu_env}.

Lemma sec_ok_view (s s' : ssd) : view s' = view s -> sec_ok s -> sec_ok s'.
Proof.
  intros V H. change (sec_ok (view s')). rewrite V. exact H.
Qed.

Lemma process_translation_page_write_inv (m : gc_mode) (s s' : ssd) (req : NvmeRequest)
    (lpn : Z) (r : option (Z * Z)) :
  gc_inv m s -> sec_ok s -> gm_hole m = None -> gm_strict m = None ->
  process_translation_page_write s req lpn = Ok (r, s') ->
  gc_inv m s' /\ maptbl s' = maptbl s.
Proof.
  intros Hinv Hsec Hh Hs H. unfold process_translation_page_write in H.
  apply bind_Ok in H as (p & Hp & H).
  destruct (negb (mapped_ppa p) || negb (valid_ppa s p)).
  { apply bind_Ok in H as (s1 & H1 & H). injection H as <- <-.
    by apply (cmt_make_room_and_insert_inv m s s1 lpn UNMAPPED_PPN). }
  apply bind_Ok in H as ([l1 s1] & H1 & H). unfold translation_page_read in H1.
  apply ssd_advance_status_frame in H1. destruct (quiet_frame _ _ _ H1 eq_refl) as [V1 M1].
  assert (Hinv1 : gc_inv m s1) by (unfold gc_inv; by rewrite V1).
  assert (Hsec1 : sec_ok s1) by (by apply (sec_ok_view s)).
  apply bind_Ok in H as (q & Hq & H).
  destruct (negb (mapped_ppa q) || negb (valid_ppa s1 q)).
  - apply bind_Ok in H as (s2 & H2 & H). injection H as <- <-.
    destruct (cmt_make_room_and_insert_inv m s1 s2 _ _ Hinv1 Hsec1 Hh Hs H2) as [? M2].
    split; [done|]. by rewrite M2.
  - apply bind_Ok in H as (s2 & H2 & H). injection H as <- <-.
    destruct (cmt_make_room_and_insert_inv m s1 s2 _ _ Hinv1 Hsec1 Hh Hs H2) as [? M2].
    split; [done|]. by rewrite M2.
Qed.

Lemma process_translation_page_read_inv (m : gc_mode) (s s' : ssd) (req : NvmeRequest)
    (lpn : Z) (r : option (Z * Z)) :
  gc_inv m s -> sec_ok s -> gm_hole m = None -> gm_strict m = None ->
  process_translation_page_read s req lpn = Ok (r, s') ->
  gc_inv m s' /\ maptbl s' = maptbl s.
Proof.
  intros Hinv Hsec Hh Hs H. unfold process_translation_page_read in H.
  apply bind_Ok in H as (p & Hp & H).
  destruct (negb (mapped_ppa p) || negb (valid_ppa s p)); [by injection H as <- <-|].
  apply bind_Ok in H as ([l1 s1] & H1 & H). unfold translation_page_read in H1.
  apply ssd_advance_status_frame in H1. destruct (quiet_frame _ _ _ H1 eq_refl) as [V1 M1].
  assert (Hinv1 : gc_inv m s1) by (unfold gc_inv; by rewrite V1).
  assert (Hsec1 : sec_ok s1) by (by apply (sec_ok_view s)).
  apply bind_Ok in H as (q & Hq & H).
  destruct (negb (mapped_ppa q) || negb (valid_ppa s1 q)); [by injection H as <- <-|].
  apply bind_Ok in H as (s2 & H2 & H). injection H as <- <-.
  destruct (cmt_make_room_and_insert_inv m s1 s2 _ _ Hinv1 Hsec1 Hh Hs H2) as [? M2].
  split; [done|]. by rewrite M2.
Qed.

(** One page of a host read. *)
Lemma read_lpn_steady (req : NvmeRequest) (s s' : ssd) (maxlat maxlat' lpn : Z) :
  steady s -> read_lpn req (s, maxlat) lpn = Ok (s', maxlat') -> steady s'.
Proof.
  intros [Hinv Hsec] H. pose proof (read_lpn_sec req _ _ lpn H) as Hss. simpl in Hss.
  split; [|by apply (sec_step_ok s)].
  unfold read_lpn in H. apply bind_Ok in H as ([hit s1] & H1 & H).
  apply cmt_hit_frame in H1. destruct (quiet_frame _ _ _ H1 eq_refl) as [V1 M1].
  simpl in V1.
  assert (Hinv1 : gc_inv quiet s1) by (unfold gc_inv; by rewrite V1).
  assert (Hsec1 : sec_ok s1) by (by apply (sec_ok_view s)).
  apply bind_Ok in H as ([r s2] & H2 & H).
  assert (Hinv2 : gc_inv quiet s2).
  { destruct hit as [e|].
    - apply bind_Ok in H2 as (p & Hp & H2).
      destruct (negb (mapped_ppa p) || negb (valid_ppa _ p)); by injection H2 as <- <-.
    - apply bind_Ok in H2 as ([ol s3] & H3 & H2).
      destruct (process_translation_page_read_inv quiet (with_access count_miss s1) s3 req lpn
                  ol Hinv1 Hsec1 eq_refl eq_refl H3) as [Hinv3 _].
      apply bind_Ok in H2 as (p & Hp & H2).
      destruct (negb (mapped_ppa p) || negb (valid_ppa s3 p)); [by injection H2 as <- <-|].
      apply bind_Ok in H2 as (s4 & H4 & H2). injection H2 as <- <-.
      apply raise_lun_clock_frame in H4. destruct (quiet_frame _ _ _ H4 eq_refl) as [V4 _].
      unfold gc_inv. by rewrite V4. }
  destruct r as [p|]; [|by injection H as <- <-].
  apply bind_Ok in H as ([sub s3] & H3 & H). injection H as <- <-.
  apply ssd_advance_status_frame in H3. destruct (quiet_frame _ _ _ H3 eq_refl) as [V3 _].
  unfold gc_inv. by rewrite V3.
Qed.

End host_requests.

Section host_write.
Context {env : femu_env}.

Lemma frame_wp (ch : list field) (s s' : ssd) :
  frame ch s s' -> touched Fwp ch = false -> wp s' = wp s.
Proof. intros (_ & _ & _ & _ & _ & _ & _ & _ & H & _). exact H. Qed.

Lemma write_lpn_inv (req : NvmeRequest) (s s' : ssd) (maxlat maxlat' lpn : Z) :
  gc_inv quiet s -> sec_ok s ->
  write_lpn req (s, maxlat) lpn = Ok (s', maxlat') ->
  gc_inv quiet s' /\ maptbl s' = <[lpn := get_new_page s]> (maptbl s).
Proof.
  intros Hinv Hsec H. unfold write_lpn in H.
  apply bind_Ok in H as ([hit s1] & H1 & H).
  apply cmt_hit_frame in H1. destruct (quiet_frame _ _ _ H1 eq_refl) as [V1 M1].
  simpl in V1, M1.
  assert (Hinv1 : gc_inv quiet s1) by (unfold gc_inv; by rewrite V1).
  assert (Hsec1 : sec_ok s1) by (by apply (sec_ok_view s)).
  apply bind_Ok in H as (s2 & H2 & H).
  assert (Hinv2 : gc_inv quiet s2 /\ maptbl s2 = maptbl s /\ wp s2 = wp s).
  { destruct hit as [e|].
    - injection H2 as <-. split; [exact Hinv1|]. split; [exact M1|].
      apply (f_equal wp) in V1. exact V1.
    - apply bind_Ok in H2 as ([ol s3] & H3 & H2). injection H2 as <-.
      destruct (process_translation_page_write_inv quiet (with_access count_miss s1) s3 req lpn
                  ol Hinv1 Hsec1 eq_refl eq_refl H3) as [Hinv3 M3].
      split; [exact Hinv3|]. split; [by rewrite M3|].
      apply process_translation_page_write_frame in H3.
      apply frame_wp in H3; [|reflexivity]. simpl in H3.
      apply (f_equal wp) in V1. simpl in V1. congruence. }
  destruct Hinv2 as (Hinv2 & M2 & W2).
  apply bind_Ok in H as (p & Hp & H). unfold get_maptbl_ent in Hp. apply arr_get_Ok in Hp.
  apply bind_Ok in H as (ce & Hce & H).
  apply bind_Ok in H as (s3 & H3 & H).
  assert (Hinv3 : gc_inv (with_hole (Some (DATA, lpn)) quiet) s3 /\ maptbl s3 = maptbl s2 /\
                  wp s3 = wp s2).
  { destruct (mapped_ppa p) eqn:Hm.
    - apply bind_Ok in H3 as (sa & Ha & Hb).
      destruct (mark_page_invalid_view s2 p sa Ha) as (Hpg & Hbk & Va & Ma).
      destruct (set_rmap_view sa INVALID_LPN p s3 Hb) as (Hr & Vb & Mb).
      assert (Esp : sp sa = sp s2) by (by apply (f_equal sp) in Va).
      assert (A : view s3 = invalidate p (view s2)).
      { rewrite Vb, Va, Esp. done. }
      split.
      + unfold gc_inv. rewrite A. by apply (inval_any_inv quiet (view s2) DATA lpn p).
      + split; [by rewrite Mb, Ma|].
        apply (f_equal wp) in A. exact A.
    - injection H3 as <-. split; [|done].
      by apply (open_unmapped_inv quiet (view s2) DATA lpn p). }
  destruct Hinv3 as (Hinv3 & M3 & W3).
  apply bind_Ok in H as (s4 & H4 & H). apply bind_Ok in H as (e & He & H).
  apply bind_Ok in H as (ent & Hent & H). apply bind_Ok in H as (s5 & H5 & H).
  apply bind_Ok in H as (s6 & H6 & H). apply bind_Ok in H as (s7 & H7 & H).
  apply bind_Ok in H as ([cl s8] & H8 & H). injection H as <- _.
  match type of H5 with
  | set_rmap_ent ?sx _ _ = _ =>
      destruct (write_new_page_via _ DATA lpn s3 s4 sx s5 s6 s7 Hinv3 ltac:(done) eq_refl
                  eq_refl H4 eq_refl eq_refl H5 H6 H7) as [Hinv7 M7]
  end.
  apply ssd_advance_status_frame in H8. destruct (quiet_frame _ _ _ H8 eq_refl) as [V8 M8].
  split.
  - unfold gc_inv. by rewrite V8.
  - rewrite M8, M7. simpl. rewrite M3, M2. unfold get_new_page. by rewrite W3, W2.
Qed.

End host_write.

(** * The line manager *)

Ltac qinv_split H :=
  destruct H as (Qgeo & Qpl & Qidx & Qipc & Qwp & Qtwp & Qne & Qfnd & Qfree & Qnd & Qall).

Lemma line_has_impl (a : ssd) (x : Z) (P Q : line -> Prop) :
  (forall l, lines (lm a) !! x = Some l -> P l -> Q l) -> line_has a x P -> line_has a x Q.
Proof. unfold line_has. destruct (lines (lm a) !! x); [|done]. intros H. by apply H. Qed.

Lemma line_has_lookup (a : ssd) (x : Z) (P : line -> Prop) :
  line_has a x P <-> exists l, lines (lm a) !! x = Some l /\ P l.
Proof.
  unfold line_has. destruct (lines (lm a) !! x) as [l|].
  - split; [by exists l|]. by intros (? & [= <-] & ?).
  - split; [done|]. by intros (? & ? & _).
Qed.

(** The line manager reads the parameters, the lines, the free list and the
    two write pointers only. *)
Lemma qinv_ext (victim : option Z) (pend : option line_type) (a a' : ssd) (q : list Z) :
  sp a' = sp a -> lm a' = lm a -> wp a' = wp a -> twp a' = twp a ->
  qinv victim pend a q -> qinv victim pend a' q.
Proof.
  intros E1 E2 E3 E4. unfold qinv, wp_ok, line_has, lines_indexed.
  by rewrite E1, E2, E3, E4.
Qed.

Lemma wp_pos_bound (spp : ssdparams) (w : write_pointer) :
  0 <= wp_ch w < nchs spp -> 0 <= wp_lun w < luns_per_ch spp ->
  0 <= wp_pg w < pgs_per_blk spp ->
  0 <= wp_pos spp w < pgs_per_blk spp * (luns_per_ch spp * nchs spp).
Proof.
  unfold wp_pos. intros Hc Hl Hp.
  assert (0 <= wp_pg w * luns_per_ch spp + wp_lun w <= pgs_per_blk spp * luns_per_ch spp - 1)
    by nia.
  nia.
Qed.

(** A line under a write pointer is not full before the page under the
    pointer is written. *)
Lemma wp_ok_not_full (a : ssd) (w : write_pointer) (l : line) :
  pgs_per_line (sp a) = pgs_per_blk (sp a) * (luns_per_ch (sp a) * nchs (sp a)) ->
  map_Forall (fun _ l => 0 <= l_ipc l) (lines (lm a)) ->
  wp_ok false a w -> lines (lm a) !! wp_blk w = Some l -> l_vpc l < pgs_per_line (sp a).
Proof.
  intros Hpl Hipc (_ & Hc & Hl & Hp & _ & Hs) Hx. unfold line_has in Hs. rewrite Hx in Hs.
  pose proof (wp_pos_bound _ _ Hc Hl Hp). pose proof (Hipc _ _ Hx). simpl in *. lia.
Qed.

Section line_updates.
Variables (a : ssd) (f : line -> line) (x : Z).

Local Abbreviation a' := (with_lm (with_lines (alter f x (lines (lm a))) (lm a)) a).

Lemma line_has_alter_ne (y : Z) (P : line -> Prop) :
  y <> x -> line_has a' y P <-> line_has a y P.
Proof. intros Hne. unfold line_has. simpl. by rewrite lookup_alter_ne. Qed.

Lemma line_has_alter_eq (P : line -> Prop) :
  line_has a' x P <-> line_has a x (fun l => P (f l)).
Proof. unfold line_has. simpl. rewrite lookup_alter_eq. by destruct (lines (lm a) !! x). Qed.

Lemma lines_indexed_alter :
  (forall l, l_id (f l) = l_id l) -> lines_indexed a -> lines_indexed a'.
Proof.
  intros Hid H y l Hy. simpl in Hy.
  destruct (decide (x = y)) as [->|Hne].
  - rewrite lookup_alter_eq in Hy. destruct (lines (lm a) !! y) as [l0|] eqn:E; [|done].
    injection Hy as <-. rewrite Hid. by apply (H y l0).
  - rewrite lookup_alter_ne in Hy by done. by apply (H y l).
Qed.

Lemma ipc_alter :
  (forall l, 0 <= l_ipc l -> 0 <= l_ipc (f l)) ->
  map_Forall (fun _ l => 0 <= l_ipc l) (lines (lm a)) ->
  map_Forall (fun _ l => 0 <= l_ipc l) (lines (lm a')).
Proof.
  intros Hf H y l Hy. simpl in Hy.
  destruct (decide (x = y)) as [->|Hne].
  - rewrite lookup_alter_eq in Hy. destruct (lines (lm a) !! y) as [l0|] eqn:E; [|done].
    injection Hy as <-. apply Hf. by apply (H y l0).
  - rewrite lookup_alter_ne in Hy by done. by apply (H y l).
Qed.

End line_updates.

Lemma line_has_alter (a : ssd) (f : line -> line) (x y : Z) (P : line -> Prop) :
  (forall l, P l -> P (f l)) ->
  line_has a y P -> line_has (with_lm (with_lines (alter f x (lines (lm a))) (lm a)) a) y P.
Proof.
  intros Hf H. destruct (decide (y = x)) as [->|Hne].
  - apply line_has_alter_eq. revert H. apply line_has_impl. auto.
  - by apply line_has_alter_ne.
Qed.

Lemma set_aside_snoc (victim : option Z) (q : list Z) (x : Z) :
  set_aside victim (q ++ [x]) ≡ₚ x :: set_aside victim q.
Proof.
  unfold set_aside. rewrite <- (assoc_L (++)). rewrite (Permutation_app_comm [x]).
  rewrite (assoc_L (++)). by rewrite <- Permutation_cons_append.
Qed.

Lemma pgs_per_line_pos (spp : ssdparams) :
  geometry_ok spp -> pgs_per_line spp = pgs_per_blk spp * (luns_per_ch spp * nchs spp) ->
  0 < pgs_per_line spp.
Proof. intros (? & ? & ? & ? & ? & _) ->. nia. Qed.

(** A page of line [key_blk k] turns invalid; a full line joins the victim
    queue. *)
Lemma qinv_invalid (victim : option Z) (a : ssd) (q : list Z) (k : pgkey) (l : line) :
  qinv victim None a q -> lines (lm a) !! key_blk k = Some l ->
  qinv victim None (upd_page k PG_INVALID (-1) 1 a)
       (if bool_decide (l_vpc l = pgs_per_line (sp a)) then q ++ [key_blk k] else q).
Proof.
  intros H Hl. set (x := key_blk k) in *.
  apply (qinv_ext _ _ (with_lm (with_lines (alter (bump_line (-1) 1) x (lines (lm a))) (lm a)) a));
    [done..|].
  pose proof H as H0. qinv_split H.
  assert (Hold : Forall (fun y => (y ∉ free_line_list (lm a)) /\ y <> wp_blk (wp a) /\
                   y <> wp_blk (twp a) /\
                   line_has (with_lm (with_lines (alter (bump_line (-1) 1) x (lines (lm a)))
                                        (lm a)) a) y
                            (fun l => l_vpc l < pgs_per_line (sp a)))
                  (set_aside victim q)).
  { eapply Forall_impl; [exact Qall|]. intros y (Y1 & Y2 & Y3 & Hy).
    refine (conj Y1 (conj Y2 (conj Y3 _))). revert Hy. apply line_has_alter. intros l0. simpl. lia. }
  assert (Hwp : forall w, wp_ok false a w ->
            wp_ok false (with_lm (with_lines (alter (bump_line (-1) 1) x (lines (lm a)))
                                    (lm a)) a) w).
  { intros w (W1 & W2 & W3 & W4 & W5 & W6).
    refine (conj W1 (conj W2 (conj W3 (conj W4 (conj W5 _))))).
    revert W6. apply line_has_alter. intros l0. simpl. lia. }
  split; [exact Qgeo|]. split; [exact Qpl|].
  split. { by apply lines_indexed_alter. }
  split. { apply ipc_alter; [|done]. intros l0. simpl. lia. }
  split; [by apply Hwp|]. split; [by apply Hwp|]. split; [exact Qne|].
  split; [exact Qfnd|].
  split. { eapply Forall_impl; [exact Qfree|]. intros y. apply line_has_alter.
           intros l0. simpl. lia. }
  destruct (bool_decide (l_vpc l = pgs_per_line (sp a))) eqn:Hfull; [|done].
  apply bool_decide_eq_true_1 in Hfull.
  assert (Hx : x ∉ set_aside victim q).
  { intros Hin. rewrite Forall_forall in Qall. destruct (Qall x Hin) as (_ & _ & _ & Hb).
    unfold line_has in Hb. rewrite Hl in Hb. simpl in Hb. lia. }
  split. { rewrite set_aside_snoc. by apply NoDup_cons. }
  rewrite set_aside_snoc. apply Forall_cons. split; [|exact Hold].
  pose proof (pgs_per_line_pos _ Qgeo Qpl) as Hpos. pose proof (Qipc _ _ Hl) as Hi. simpl in Hi.
  split.
  { intros Hin. rewrite Forall_forall in Qfree. specialize (Qfree x Hin).
    unfold line_has in Qfree. rewrite Hl in Qfree. lia. }
  split.
  { intros E. rewrite E in Hl. pose proof (wp_ok_not_full a (wp a) l Qpl Qipc Qwp Hl). lia. }
  split.
  { intros E. rewrite E in Hl. pose proof (wp_ok_not_full a (twp a) l Qpl Qipc Qtwp Hl). lia. }
  apply line_has_alter_eq. unfold line_has. rewrite Hl. simpl. lia.
Qed.

Lemma fr_blk_ne (ty : line_type) (a : ssd) (y : Z) :
  y <> wp_blk (wp a) -> y <> wp_blk (twp a) -> y <> wp_blk (fr ty a).
Proof. by destruct ty. Qed.

(** The page under the write pointer of type [ty] becomes valid. *)
Lemma qinv_valid (victim : option Z) (ty : line_type) (a : ssd) (q : list Z) (k : pgkey) :
  qinv victim None a q -> ty <> NONE -> key_blk k = wp_blk (fr ty a) ->
  qinv victim (Some ty) (upd_page k PG_VALID 1 0 a) q.
Proof.
  intros H Hty Hk.
  apply (qinv_ext _ _ (with_lm (with_lines (alter (bump_line 1 0) (key_blk k) (lines (lm a)))
                                  (lm a)) a)); [done..|].
  rewrite Hk. clear Hk k. qinv_split H. set (x := wp_blk (fr ty a)).
  assert (Hother : forall w, wp_blk w <> x -> wp_ok false a w ->
            wp_ok false (with_lm (with_lines (alter (bump_line 1 0) x (lines (lm a)))
                                    (lm a)) a) w).
  { intros w Hne (W1 & W2 & W3 & W4 & W5 & W6).
    refine (conj W1 (conj W2 (conj W3 (conj W4 (conj W5 _))))). by apply line_has_alter_ne. }
  assert (Hthis : forall w, wp_blk w = x -> wp_ok false a w ->
            wp_ok true (with_lm (with_lines (alter (bump_line 1 0) x (lines (lm a)))
                                    (lm a)) a) w).
  { intros w He (W1 & W2 & W3 & W4 & W5 & W6).
    refine (conj W1 (conj W2 (conj W3 (conj W4 (conj W5 _))))). rewrite He.
    apply line_has_alter_eq. rewrite He in W6. revert W6. apply line_has_impl.
    intros l _. simpl. lia. }
  assert (Hxf : x ∉ free_line_list (lm a)).
  { destruct ty; [done| |]; [by destruct Qwp as (_ & _ & _ & _ & W5 & _)
                            |by destruct Qtwp as (_ & _ & _ & _ & W5 & _)]. }
  split; [exact Qgeo|]. split; [exact Qpl|].
  split. { by apply lines_indexed_alter. }
  split. { apply ipc_alter; [|done]. intros l0. simpl. lia. }
  split. { destruct ty; [done| |]; [by apply Hthis|apply Hother; [exact Qne|done]]. }
  split. { destruct ty; [done| |]; [apply Hother; [by apply not_eq_sym|done]|by apply Hthis]. }
  split; [exact Qne|]. split; [exact Qfnd|].
  split. { rewrite Forall_forall in Qfree |- *. intros y Hy. apply line_has_alter_ne.
           - by intros ->.
           - by apply Qfree. }
  split; [exact Qnd|].
  eapply Forall_impl; [exact Qall|]. intros y (Y1 & Y2 & Y3 & Hy).
  refine (conj Y1 (conj Y2 (conj Y3 _))). apply line_has_alter_ne; [|done].
  by apply fr_blk_ne.
Qed.

(** The write pointer of type [ty] moves on inside its line. *)
Lemma qinv_succ (victim : option Z) (ty : line_type) (a : ssd) (q : list Z) :
  qinv victim (Some ty) a q -> ty <> NONE -> ~ last_pos (sp a) (fr ty a) ->
  qinv victim None (upd_fr ty (succ_pos (sp a) (fr ty a)) a) q.
Proof.
  intros H Hty Hlast. qinv_split H.
  assert (Hmove : forall w, wp_ok true a w -> ~ last_pos (sp a) w ->
            wp_ok false a (succ_pos (sp a) w) /\ wp_blk (succ_pos (sp a) w) = wp_blk w).
  { intros w (W1 & W2 & W3 & W4 & W5 & W6) Hl. unfold succ_pos, last_pos in *.
    repeat case_bool_decide; simpl; (split; [|done]); unfold wp_ok; simpl;
      refine (conj W1 _); (split; [lia|]); (split; [lia|]); (split; [lia|]);
      refine (conj W5 _); revert W6; apply line_has_impl; intros l _; unfold wp_pos; simpl;
      nia. }
  destruct ty; [done| |].
  - destruct (Hmove (wp a) Qwp Hlast) as [Hw Hb]. simpl in *.
    unfold qinv. simpl. rewrite Hb.
    exact (conj Qgeo (conj Qpl (conj Qidx (conj Qipc (conj Hw (conj Qtwp (conj Qne
             (conj Qfnd (conj Qfree (conj Qnd Qall)))))))))).
  - destruct (Hmove (twp a) Qtwp Hlast) as [Hw Hb]. simpl in *.
    unfold qinv. simpl. rewrite Hb.
    exact (conj Qgeo (conj Qpl (conj Qidx (conj Qipc (conj Qwp (conj Hw (conj Qne
             (conj Qfnd (conj Qfree (conj Qnd Qall)))))))))).
Qed.

Lemma head_tail_NoDup (l : list Z) (x : Z) :
  head l = Some x -> NoDup l -> x ∈ l /\ (x ∉ tail l) /\ NoDup (tail l) /\
  (forall y, y ∈ tail l -> y ∈ l).
Proof.
  destruct l as [|y l]; [done|]. intros [= ->] Hnd. apply NoDup_cons in Hnd as [H1 H2].
  simpl. split; [left|]. split; [done|]. split; [done|]. intros z Hz. by right.
Qed.

(** The write pointer of type [ty] leaves its line, which joins the victim
    queue unless it is full, and enters the first free line. *)
Lemma qinv_next (victim : option Z) (ty : line_type) (a : ssd) (q : list Z) (nl : Z)
    (l : line) :
  qinv victim (Some ty) a q -> ty <> NONE -> last_pos (sp a) (fr ty a) ->
  head (free_line_list (lm a)) = Some nl ->
  lines (lm a) !! wp_blk (fr ty a) = Some l ->
  qinv victim None (next_line ty nl a)
       (if bool_decide (l_vpc l = pgs_per_line (sp a)) then q
        else q ++ [wp_blk (fr ty a)]).
Proof.
  intros H Hty Hlast Hhd Hl. qinv_split H.
  destruct (head_tail_NoDup _ _ Hhd Qfnd) as (Hin & Hnt & Hndt & Hsub).
  set (a1 := with_lm (with_free_lines (tail (free_line_list (lm a))) 0
               (with_lines (alter (line_with_type ty) nl (lines (lm a))) (lm a))) a).
  set (old := wp_blk (fr ty a)) in *.
  assert (Hlh : forall y (P : line -> Prop),
            (forall l0, P l0 -> P (line_with_type ty l0)) -> line_has a y P -> line_has a1 y P).
  { intros y P HP Hy. exact (line_has_alter a (line_with_type ty) nl y P HP Hy). }
  pose proof (pgs_per_line_pos _ Qgeo Qpl) as Hpos.
  pose proof Qgeo as (G1 & G2 & _ & _ & G5 & _).
  assert (Hnew : forall pl, wp_ok false a1 (mkwp (Some nl) 0 0 0 nl pl)).
  { intros pl. unfold wp_ok. simpl. split; [done|]. split; [lia|]. split; [lia|].
    split; [lia|]. split; [exact Hnt|].
    rewrite Forall_forall in Qfree. specialize (Qfree nl Hin).
    apply Hlh; [done|]. revert Qfree. apply line_has_impl. intros l0 _. unfold wp_pos. simpl.
    lia. }
  assert (Hkeep : forall w, wp_ok false a w -> wp_ok false a1 w).
  { intros w (W1 & W2 & W3 & W4 & W5 & W6).
    refine (conj W1 (conj W2 (conj W3 (conj W4 (conj _ _))))).
    - intros Hw. apply W5. by apply Hsub.
    - by apply Hlh. }
  assert (Hidx1 : lines_indexed a1).
  { exact (lines_indexed_alter a (line_with_type ty) nl ltac:(done) Qidx). }
  assert (Hipc1 : map_Forall (fun _ l => 0 <= l_ipc l) (lines (lm a1))).
  { exact (ipc_alter a (line_with_type ty) nl ltac:(done) Qipc). }
  assert (Hfree1 : Forall (fun x => line_has a1 x (fun l => l_vpc l + l_ipc l = 0))
                     (tail (free_line_list (lm a)))).
  { rewrite Forall_forall in Qfree |- *. intros y Hy. apply Hlh; [done|]. apply Qfree.
    by apply Hsub. }
  assert (Hold : forall other, other ∉ free_line_list (lm a) ->
            Forall (fun y => y <> wp_blk (wp a) /\ y <> wp_blk (twp a) -> y <> other) (set_aside victim q) ->
            Forall (fun y => (y ∉ tail (free_line_list (lm a))) /\ y <> nl /\ y <> other /\
                       line_has a1 y (fun l => l_vpc l < pgs_per_line (sp a)))
                   (set_aside victim q)).
  { intros other Ho Hoth. rewrite Forall_forall in Qall, Hoth |- *. intros y Hy.
    destruct (Qall y Hy) as (Y1 & Y2 & Y3 & Y4).
    split; [intros Hw; apply Y1; by apply Hsub|].
    split; [by intros ->|]. split; [by apply Hoth|]. by apply Hlh. }
  assert (Hsum : forall w, wp_ok true a w -> last_pos (sp a) w -> wp_blk w = old ->
            l_vpc l <> pgs_per_line (sp a) -> l_vpc l < pgs_per_line (sp a)).
  { intros w (W1 & W2 & W3 & W4 & W5 & W6) (L1 & L2 & L3) Hw Hnf.
    unfold line_has in W6. rewrite Hw, Hl in W6. pose proof (Qipc _ _ Hl) as Hi. simpl in Hi.
    unfold wp_pos in W6. rewrite Qpl. nia. }
  assert (Hnotin : old ∉ set_aside victim q).
  { intros Ho. rewrite Forall_forall in Qall. destruct (Qall old Ho) as (_ & Y2 & Y3 & _).
    by apply (fr_blk_ne ty a old). }
  destruct ty; [done| |]; subst old; simpl in *.
  - pose proof Qwp as (W1 & W2 & W3 & W4 & W5 & W6).
    assert (Hof : wp_blk (twp a) ∉ free_line_list (lm a))
      by (by destruct Qtwp as (_ & _ & _ & _ & T5 & _)).
    unfold qinv. simpl.
    split; [exact Qgeo|]. split; [exact Qpl|]. split; [exact Hidx1|]. split; [exact Hipc1|].
    split; [apply Hnew|]. split; [by apply Hkeep|].
    split; [by intros ->|]. split; [exact Hndt|]. split; [exact Hfree1|].
    case_bool_decide as Hfull.
    + split; [exact Qnd|].
      eapply Forall_impl; [apply (Hold (wp_blk (twp a)) Hof)|].
      * apply Forall_forall. by intros y _ [_ ?].
      * intros y (? & ? & ? & ?). done.
    + split; [rewrite set_aside_snoc; by apply NoDup_cons|].
      rewrite set_aside_snoc. apply Forall_cons. split.
      * split; [intros Hw; apply W5; by apply Hsub|].
        split; [intros E; apply W5; by rewrite E|].
        split; [exact Qne|]. apply Hlh; [done|]. unfold line_has. rewrite Hl.
        by apply (Hsum (wp a) Qwp Hlast).
      * eapply Forall_impl; [apply (Hold (wp_blk (twp a)) Hof)|].
        -- apply Forall_forall. by intros y _ [_ ?].
        -- intros y (? & ? & ? & ?). done.
  - pose proof Qtwp as (W1 & W2 & W3 & W4 & W5 & W6).
    assert (Hof : wp_blk (wp a) ∉ free_line_list (lm a))
      by (by destruct Qwp as (_ & _ & _ & _ & T5 & _)).
    unfold qinv. simpl.
    split; [exact Qgeo|]. split; [exact Qpl|]. split; [exact Hidx1|]. split; [exact Hipc1|].
    split; [by apply Hkeep|]. split; [apply Hnew|].
    split; [by intros <-|]. split; [exact Hndt|]. split; [exact Hfree1|].
    case_bool_decide as Hfull.
    + split; [exact Qnd|].
      eapply Forall_impl; [apply (Hold (wp_blk (wp a)) Hof)|].
      * apply Forall_forall. by intros y _ [? _].
      * intros y (? & ? & ? & ?). done.
    + split; [rewrite set_aside_snoc; by apply NoDup_cons|].
      rewrite set_aside_snoc. apply Forall_cons. split.
      * split; [intros Hw; apply W5; by apply Hsub|].
        split; [by apply not_eq_sym|]. split; [intros E; apply W5; by rewrite E|].
        apply Hlh; [done|]. unfold line_has. rewrite Hl.
        by apply (Hsum (twp a) Qtwp Hlast).
      * eapply Forall_impl; [apply (Hold (wp_blk (wp a)) Hof)|].
        -- apply Forall_forall. by intros y _ [? _].
        -- intros y (? & ? & ? & ?). done.
Qed.

Lemma qtailq_remove_perm (v : Z) (q : list Z) :
  v ∈ q -> qtailq_remove v q ++ [v] ≡ₚ q.
Proof.
  induction q as [|y q IH]; intros Hin; [by apply elem_of_nil in Hin|].
  simpl. case_bool_decide as Hy.
  - subst y. by rewrite <- Permutation_cons_append.
  - apply elem_of_cons in Hin as [->|Hin]; [done|]. simpl. by rewrite IH.
Qed.

(** A queued line is taken out to be collected. *)
Lemma qinv_select (a : ssd) (q : list Z) (v : Z) :
  qinv None None a q -> v ∈ q -> qinv (Some v) None a (qtailq_remove v q).
Proof.
  intros H Hv. qinv_split H.
  assert (Hp : set_aside (Some v) (qtailq_remove v q) ≡ₚ set_aside None q).
  { unfold set_aside. simpl. rewrite app_nil_r. by apply qtailq_remove_perm. }
  unfold qinv. rewrite Hp.
  exact (conj Qgeo (conj Qpl (conj Qidx (conj Qipc (conj Qwp (conj Qtwp (conj Qne
           (conj Qfnd (conj Qfree (conj Qnd Qall)))))))))).
Qed.

(** The collected line joins the free lines. *)
Lemma qinv_release (a : ssd) (q : list Z) (v : Z) :
  qinv (Some v) None a q -> qinv None None (release_line v a) q.
Proof.
  intros H. qinv_split H.
  set (f := fun l => mkline (l_id l) 0 0 (l_pos l) NONE).
  set (a1 := release_line v a).
  assert (Hp : set_aside (Some v) q ≡ₚ v :: set_aside None q).
  { unfold set_aside. simpl. rewrite app_nil_r. by rewrite <- Permutation_cons_append. }
  rewrite Hp in Qnd, Qall. apply NoDup_cons in Qnd as [Hvq Qnd].
  apply Forall_cons in Qall as [(V1 & V2 & V3 & V4) Qall].
  assert (Hne : forall y (P : line -> Prop), y <> v -> line_has a y P -> line_has a1 y P).
  { intros y P Hy HP. by apply (line_has_alter_ne a f v y P). }
  assert (Hkeep : forall w, wp_blk w <> v -> wp_ok false a w -> wp_ok false a1 w).
  { intros w Hw (W1 & W2 & W3 & W4 & W5 & W6).
    refine (conj W1 (conj W2 (conj W3 (conj W4 (conj _ _))))).
    - simpl. rewrite elem_of_app, list_elem_of_singleton. by intros [?|?].
    - by apply Hne. }
  unfold qinv.
  split; [exact Qgeo|]. split; [exact Qpl|].
  split. { exact (lines_indexed_alter a f v ltac:(done) Qidx). }
  split. { exact (ipc_alter a f v ltac:(done) Qipc). }
  split; [exact (Hkeep (wp a) (not_eq_sym V2) Qwp)|].
  split; [exact (Hkeep (twp a) (not_eq_sym V3) Qtwp)|].
  split; [exact Qne|].
  split. { simpl. apply NoDup_app. split; [done|]. split; [|apply NoDup_singleton].
           intros y Hy. rewrite list_elem_of_singleton. by intros ->. }
  split. { simpl. apply Forall_app. split.
           - rewrite Forall_forall in Qfree |- *. intros y Hy. apply Hne; [by intros ->|].
             by apply Qfree.
           - apply Forall_singleton. apply (line_has_alter_eq a f v). revert V4.
             apply line_has_impl. intros l _ _. simpl. lia. }
  split; [exact Qnd|].
  rewrite Forall_forall in Qall |- *. intros y Hy. destruct (Qall y Hy) as (Y1 & Y2 & Y3 & Y4).
  assert (y <> v) by (by intros ->).
  split. { simpl. rewrite elem_of_app, list_elem_of_singleton. by intros [?|?]. }
  split; [exact Y2|]. split; [exact Y3|]. by apply Hne.
Qed.

Section queue_steps.
Context {env : femu_env}.

Lemma queue_ok_frame (ch : list field) (victim : option Z) (pend : option line_type)
    (s s' : ssd) :
  frame ch s s' -> touched Flm ch = false -> touched Fwp ch = false ->
  touched Ftwp ch = false ->
  queue_ok victim pend s -> queue_ok victim pend s'.
Proof.
  intros (Hsp & _ & _ & _ & _ & _ & _ & Hlm & Hwp & Htwp & _) H1 H2 H3.
  specialize (Hlm H1). specialize (Hwp H2). specialize (Htwp H3).
  unfold queue_ok. rewrite Hlm. apply qinv_ext; simpl; by rewrite ?Hsp, ?Hlm, ?Hwp, ?Htwp.
Qed.

Lemma view_line (s : ssd) (x : Z) (l : line) :
  lines (lm s) !! x = Some l -> lines (lm (view s)) !! x = Some (victim_line_set_pos 0 l).
Proof. intros H. simpl. by rewrite lookup_fmap, H. Qed.

Lemma mark_page_invalid_pq (s : ssd) (p : ppa) (s' : ssd) :
  mark_page_invalid s p = Ok s' ->
  exists l, lines (lm s) !! g_blk p = Some l /\
    victim_line_pq (lm s') =
    if bool_decide (l_vpc l = pgs_per_line (sp s)) then victim_line_pq (lm s) ++ [g_blk p]
    else victim_line_pq (lm s).
Proof.
  unfold mark_page_invalid, get_pg, get_blk, get_line. intros H. inv_ok. simpl in *.
  match goal with Hl : lines (lm s) !! _ = Some ?l |- _ => exists l; split; [exact Hl|] end.
  repeat case_bool_decide; simpl; done.
Qed.

Lemma mark_page_invalid_queue (victim : option Z) (s : ssd) (p : ppa) (s' : ssd) :
  queue_ok victim None s -> mark_page_invalid s p = Ok s' -> queue_ok victim None s'.
Proof.
  intros Q H. destruct (mark_page_invalid_pq s p s' H) as (l & Hl & Hq).
  destruct (mark_page_invalid_view s p s' H) as (_ & _ & V & _).
  unfold queue_ok. rewrite V, Hq.
  exact (qinv_invalid victim (view s) _ (pg_of p) _ Q (view_line s _ l Hl)).
Qed.

Lemma mark_page_valid_pq (s : ssd) (p : ppa) (s' : ssd) :
  mark_page_valid s p = Ok s' -> victim_line_pq (lm s') = victim_line_pq (lm s).
Proof. unfold mark_page_valid, get_pg, get_blk, get_line. intros H. inv_ok. done. Qed.

Lemma mark_page_valid_queue (victim : option Z) (ty : line_type) (s : ssd) (p : ppa)
    (s' : ssd) :
  queue_ok victim None s -> ty <> NONE -> g_blk p = wp_blk (fr ty s) ->
  mark_page_valid s p = Ok s' -> queue_ok victim (Some ty) s'.
Proof.
  intros Q Hty Hb H. destruct (mark_page_valid_view s p s' H) as (_ & _ & V & _).
  unfold queue_ok. rewrite V, (mark_page_valid_pq s p s' H).
  apply qinv_valid; [exact Q|exact Hty|]. rewrite fr_view. exact Hb.
Qed.

Lemma advance_pq (ty : line_type) (s s' : ssd) :
  advance_write_pointer (fr ty) (upd_fr ty) ty s = Ok s' ->
  (~ last_pos (sp s) (fr ty s) /\ victim_line_pq (lm s') = victim_line_pq (lm s)) \/
  (last_pos (sp s) (fr ty s) /\
   exists cur l, curline (fr ty s) = Some cur /\ lines (lm s) !! cur = Some l /\
     victim_line_pq (lm s') =
     if bool_decide (l_vpc l = pgs_per_line (sp s)) then victim_line_pq (lm s)
     else victim_line_pq (lm s) ++ [cur]).
Proof.
  unfold advance_write_pointer, last_pos. intros H.
  case_bool_decide as H1; simpl in H.
  2:{ left. injection H as <-. split; [lia|]. by destruct ty. }
  case_bool_decide as H2; simpl in H.
  2:{ left. injection H as <-. split; [lia|]. by destruct ty. }
  case_bool_decide as H3; simpl in H.
  2:{ left. injection H as <-. split; [lia|]. by destruct ty. }
  right. split; [done|].
  apply bind_Ok in H as (cur & Hc & H). apply bind_Ok in H as (l & Hl & H).
  unfold of_option in Hc. destruct (curline (fr ty s)) as [c|] eqn:Ec; [|done].
  injection Hc as ->. apply arr_get_Ok in Hl. exists cur, l. split; [done|]. split; [done|].
  unfold get_next_free_line in H.
  case_bool_decide as Hfull; simpl in H.
  - destruct (qtailq_first _) eqn:Ef; simpl in H; [|done].
    apply bind_Ok in H as (nline & Hn & H). injection H as <-. by destruct ty.
  - destruct (qtailq_first _) eqn:Ef; simpl in H; [|done].
    apply bind_Ok in H as (nline & Hn & H). injection H as <-. by destruct ty.
Qed.

Lemma advance_queue (victim : option Z) (ty : line_type) (s s' : ssd) :
  queue_ok victim (Some ty) s -> ty <> NONE ->
  match ty with
  | TRANS => ssd_advance_trans_write_pointer s
  | _ => ssd_advance_write_pointer s
  end = Ok s' ->
  queue_ok victim None s'.
Proof.
  intros Q Hty H.
  assert (G : advance_write_pointer (fr ty) (upd_fr ty) ty s = Ok s').
  { destruct ty; [done|exact H|exact H]. }
  pose proof Q as Q0. destruct Q0 as (_ & _ & Qidx & _ & Qwp & Qtwp & _).
  destruct (advance_view ty s s' Hty Qidx H) as (_ & [[Hn V]|(Hl & nl & Hhd & _ & V)]);
    destruct (advance_pq ty s s' G) as [[Hn' E]|(Hl' & cur & l & Hc & Hcur & E)];
    try done.
  - unfold queue_ok. rewrite V, E.
    exact (qinv_succ victim ty (view s) _ Q Hty Hn).
  - assert (Hcb : cur = wp_blk (fr ty s)).
    { destruct ty; [done| |]; simpl in *.
      - destruct Qwp as (W1 & _). congruence.
      - destruct Qtwp as (W1 & _). congruence. }
    subst cur. unfold queue_ok. rewrite V, E.
    exact (qinv_next victim ty (view s) _ nl (victim_line_set_pos 0 l) Q Hty Hl Hhd
             (view_line s _ l Hcur)).
Qed.

Lemma select_victim_line_pq (s : ssd) (force : bool) (v : Z) (s' : ssd) :
  select_victim_line s force = Ok (Some v, s') ->
  victim_line_pq (lm s') = qtailq_remove v (victim_line_pq (lm s)).
Proof.
  unfold select_victim_line, pqueue_peek, pqueue_pop, pqueue.pop. intros H.
  destruct (pqueue.peek _ _ _ _) as [b|] eqn:Hpeek; [|inv_ok; discriminate].
  apply bind_Ok in H as (l & Hl & H).
  destruct (negb force && _); [inv_ok; discriminate|]. simpl in H. by inv_ok.
Qed.

Lemma select_victim_line_none (s : ssd) (force : bool) (s' : ssd) :
  select_victim_line s force = Ok (None, s') -> s' = s.
Proof.
  unfold select_victim_line, pqueue_peek, pqueue_pop, pqueue.pop. intros H.
  destruct (pqueue.peek _ _ _ _) as [b|] eqn:Hpeek; [|by inv_ok].
  apply bind_Ok in H as (l & Hl & H).
  destruct (negb force && _); [by inv_ok|]. simpl in H. by inv_ok.
Qed.

Lemma select_victim_line_queue (s : ssd) (force : bool) (v : Z) (s' : ssd) :
  queue_ok None None s -> select_victim_line s force = Ok (Some v, s') ->
  queue_ok (Some v) None s'.
Proof.
  intros Q H. destruct (select_victim_line_view s force v s' H) as (V & Hin & _).
  unfold queue_ok. rewrite V, (select_victim_line_pq s force v s' H).
  by apply qinv_select.
Qed.

Lemma mark_line_free_pq (s : ssd) (p : ppa) (s' : ssd) :
  mark_line_free s p = Ok s' -> victim_line_pq (lm s') = victim_line_pq (lm s).
Proof. unfold mark_line_free, get_line. intros H. by inv_ok. Qed.

Lemma mark_line_free_queue (s : ssd) (p : ppa) (s' : ssd) :
  queue_ok (Some (g_blk p)) None s -> mark_line_free s p = Ok s' -> queue_ok None None s'.
Proof.
  intros Q H. destruct (mark_line_free_view s p s' H) as (V & _).
  unfold queue_ok. rewrite V, (mark_line_free_pq s p s' H). by apply qinv_release.
Qed.

(** The lines queued as victims are neither free nor under a write
    pointer. *)
Lemma queue_ok_victims (s : ssd) : queue_ok None None s -> victims_ok s.
Proof.
  intros (_ & _ & _ & _ & _ & _ & _ & _ & _ & _ & Qall). unfold victims_ok.
  unfold set_aside in Qall. simpl in Qall. rewrite app_nil_r in Qall.
  eapply Forall_impl; [exact Qall|]. intros x (X1 & X2 & X3 & _). done.
Qed.

End queue_steps.

Lemma queue_step_refl (victim : option Z) (s : ssd) : queue_step victim s s.
Proof. by intros ?. Qed.

Lemma queue_step_trans (victim : option Z) (s1 s2 s3 : ssd) :
  queue_step victim s1 s2 -> queue_step victim s2 s3 -> queue_step victim s1 s3.
Proof. unfold queue_step. auto. Qed.

Lemma frame_queue_step (ch : list field) (victim : option Z) (s s' : ssd) :
  touched Flm ch = false -> touched Fwp ch = false -> touched Ftwp ch = false ->
  frame ch s s' -> queue_step victim s s'.
Proof. intros T1 T2 T3 H Q. by apply (queue_ok_frame ch _ _ s s'). Qed.

Lemma queue_step_here (victim : option Z) (s s' : ssd) :
  sp s' = sp s -> lm s' = lm s -> wp s' = wp s -> twp s' = twp s -> queue_step victim s s'.
Proof.
  intros E1 E2 E3 E4 Q. unfold queue_ok in *. rewrite E2.
  revert Q. apply qinv_ext; simpl; by rewrite ?E1, ?E2, ?E3, ?E4.
Qed.

Section queue_alloc.
Context {env : femu_env}.

Lemma mark_page_invalid_qstep (victim : option Z) (s s' : ssd) (p : ppa) :
  mark_page_invalid s p = Ok s' -> queue_step victim s s'.
Proof. intros H Q. by apply (mark_page_invalid_queue victim s p s'). Qed.

(** The block field of a fresh address is the line of the write pointer. *)
Lemma queue_fr_blk (victim : option Z) (pend : option line_type) (ty : line_type) (s : ssd) :
  queue_ok victim pend s -> ty <> NONE ->
  let w := fr ty s in
  g_blk (new_ppa (wp_ch w) (wp_lun w) (wp_pg w) (wp_blk w) (wp_pl w)) = wp_blk w.
Proof.
  intros Q Hty w. simpl. apply Z.mod_small.
  destruct Q as ((_ & _ & _ & Hb & _) & _ & Qidx & _ & Qwp & Qtwp & _).
  assert (Hl : exists l, lines (lm (view s)) !! wp_blk w = Some l).
  { subst w. destruct ty; [done| |]; simpl.
    - destruct Qwp as (_ & _ & _ & _ & _ & W6). apply line_has_lookup in W6 as (l & Hl & _).
      by exists l.
    - destruct Qtwp as (_ & _ & _ & _ & _ & W6). apply line_has_lookup in W6 as (l & Hl & _).
      by exists l. }
  destruct Hl as (l & Hl). destruct (Qidx _ _ Hl) as [_ Hr]. simpl in Hr, Hb. lia.
Qed.

Lemma write_new_page_queue (victim : option Z) (ty : line_type) (x : Z) (new : ppa)
    (s s1 s1' s2 s3 s4 : ssd) :
  ty <> NONE ->
  new = (let w := fr ty s in new_ppa (wp_ch w) (wp_lun w) (wp_pg w) (wp_blk w) (wp_pl w)) ->
  match ty with TRANS => set_gtd_ent s x new | _ => set_maptbl_ent s x new end = Ok s1 ->
  sp s1' = sp s1 -> lm s1' = lm s1 -> wp s1' = wp s1 -> twp s1' = twp s1 ->
  set_rmap_ent s1' x new = Ok s2 ->
  mark_page_valid s2 new = Ok s3 ->
  match ty with
  | TRANS => ssd_advance_trans_write_pointer s3
  | _ => ssd_advance_write_pointer s3
  end = Ok s4 ->
  queue_step victim s s4.
Proof.
  intros Hty Hnew H1 E1 E2 E3 E4 H2 H3 H4 Q.
  assert (F1 : sp s1 = sp s /\ lm s1 = lm s /\ wp s1 = wp s /\ twp s1 = twp s).
  { destruct ty; [done| |]; unfold set_gtd_ent, set_maptbl_ent in H1; by inv_ok. }
  destruct F1 as (A1 & A2 & A3 & A4).
  assert (F2 : sp s2 = sp s1' /\ lm s2 = lm s1' /\ wp s2 = wp s1' /\ twp s2 = twp s1').
  { unfold set_rmap_ent in H2. by inv_ok. }
  destruct F2 as (B1 & B2 & B3 & B4).
  assert (Q2 : queue_ok victim None s2).
  { revert Q. apply queue_step_here; congruence. }
  assert (Hfr : fr ty s2 = fr ty s) by (destruct ty; simpl; congruence).
  apply (advance_queue victim ty s3 s4); [|exact Hty|exact H4].
  apply (mark_page_valid_queue victim ty s2 new s3 Q2 Hty); [|exact H3].
  rewrite Hfr, Hnew. by apply (queue_fr_blk victim None ty s Q Hty).
Qed.

End queue_alloc.

Ltac queue_here := solve [ apply queue_step_here; reflexivity ].

(** The four steps that write the page under a write pointer. *)
Ltac queue_alloc :=
  match goal with
  | H1 : set_gtd_ent ?s ?x ?new = Ok ?s1, H2 : set_rmap_ent ?s1' ?x ?new = Ok ?s2,
    H3 : mark_page_valid ?s2 ?new = Ok ?s3,
    H4 : ssd_advance_trans_write_pointer ?s3 = Ok ?s4 |- _ =>
      let Q := fresh "Qs" in
      assert (Q : forall v, queue_step v s s4)
        by (let v := fresh "v" in intros v;
            exact (write_new_page_queue v TRANS x new s s1 s1' s2 s3 s4 ltac:(done)
                     eq_refl H1 eq_refl eq_refl eq_refl eq_refl H2 H3 H4));
      clear H1 H2 H3 H4
  | H1 : set_maptbl_ent ?s ?x ?new = Ok ?s1, H2 : set_rmap_ent ?s1' ?x ?new = Ok ?s2,
    H3 : mark_page_valid ?s2 ?new = Ok ?s3,
    H4 : ssd_advance_write_pointer ?s3 = Ok ?s4 |- _ =>
      let Q := fresh "Qs" in
      assert (Q : forall v, queue_step v s s4)
        by (let v := fresh "v" in intros v;
            exact (write_new_page_queue v DATA x new s s1 s1' s2 s3 s4 ltac:(done)
                     eq_refl H1 eq_refl eq_refl eq_refl eq_refl H2 H3 H4));
      clear H1 H2 H3 H4
  end.

Ltac queue_of0 v H :=
  lazymatch type of H with
  | mark_page_invalid _ _ = Ok _ => apply (mark_page_invalid_qstep v) in H
  | _ =>
      footprint_of H;
      apply (fun ch s s' T1 T2 T3 F => frame_queue_step ch v s s' T1 T2 T3 F) in H;
      [|reflexivity|reflexivity|reflexivity]
  end.

Ltac queue_link :=
  match goal with
  | H : queue_step ?v ?src ?dst |- queue_step ?v ?s _ =>
      apply (queue_step_trans v s src); [ first [ apply queue_step_refl | queue_here ] | ];
      apply (queue_step_trans v src dst); [ exact H | ];
      clear H
  | H : forall v, queue_step v ?src ?dst |- queue_step ?v ?s _ =>
      apply (queue_step_trans v s src); [ first [ apply queue_step_refl | queue_here ] | ];
      apply (queue_step_trans v src dst); [ exact (H v) | ];
      clear H
  end.

Ltac queue_chain :=
  first [ apply queue_step_refl | queue_here | queue_link; queue_chain ].

(** Every run among the hypotheses is turned into a step by [tac]; the steps
    are then put end to end. *)
Ltac queues_with tac :=
  repeat queue_alloc;
  match goal with
  | |- queue_step ?v _ _ => repeat match goal with H : _ = Ok _ |- _ => tac v H end
  end;
  queue_chain.

Lemma translation_page_write_queue {env : femu_env} (victim : option Z) (s s' : ssd)
    (p : ppa) (lat : Z) :
  translation_page_write s p = Ok (lat, s') -> queue_step victim s s'.
Proof.
  unfold translation_page_write, get_rmap_ent. intros H. inv_cases; queues_with queue_of0.
Qed.

Lemma translation_page_new_write_queue {env : femu_env} (victim : option Z) (s s' : ssd)
    (tvpn lat : Z) :
  translation_page_new_write s tvpn = Ok (lat, s') -> queue_step victim s s'.
Proof. unfold translation_page_new_write. intros H. inv_cases; queues_with queue_of0. Qed.

Ltac queue_of1 v H :=
  lazymatch type of H with
  | translation_page_write _ _ = Ok _ => apply (translation_page_write_queue v) in H
  | translation_page_new_write _ _ = Ok _ =>
      apply (translation_page_new_write_queue v) in H
  | _ => queue_of0 v H
  end.

Lemma evict_entry_from_cmt_queue {env : femu_env} (victim : option Z) (s s' : ssd) :
  evict_entry_from_cmt s = Ok s' -> queue_step victim s s'.
Proof.
  unfold evict_entry_from_cmt, get_gtd_ent, translation_page_read_no_req, delete_cmt_hashnode.
  intros H. inv_cases; simpl in *; queues_with queue_of1.
Qed.

Ltac queue_of2 v H :=
  lazymatch type of H with
  | evict_entry_from_cmt _ = Ok _ => apply (evict_entry_from_cmt_queue v) in H
  | _ => queue_of1 v H
  end.

Lemma cmt_make_room_and_insert_queue {env : femu_env} (victim : option Z) (s s' : ssd)
    (lpn ppn : Z) :
  cmt_make_room_and_insert s lpn ppn = Ok s' -> queue_step victim s s'.
Proof. unfold cmt_make_room_and_insert. intros H. inv_cases; queues_with queue_of2. Qed.

Ltac queue_of3 v H :=
  lazymatch type of H with
  | cmt_make_room_and_insert _ _ _ = Ok _ =>
      apply (cmt_make_room_and_insert_queue v) in H
  | _ => queue_of2 v H
  end.

Lemma process_translation_page_read_queue {env : femu_env} (victim : option Z) (s s' : ssd)
    (req : NvmeRequest) (lpn : Z) (r : option (Z * Z)) :
  process_translation_page_read s req lpn = Ok (r, s') -> queue_step victim s s'.
Proof.
  unfold process_translation_page_read, get_gtd_ent, get_maptbl_ent, translation_page_read.
  intros H. inv_cases; queues_with queue_of3.
Qed.

Lemma process_translation_page_write_queue {env : femu_env} (victim : option Z) (s s' : ssd)
    (req : NvmeRequest) (lpn : Z) (r : option (Z * Z)) :
  process_translation_page_write s req lpn = Ok (r, s') -> queue_step victim s s'.
Proof.
  unfold process_translation_page_write, get_gtd_ent, get_maptbl_ent, translation_page_read.
  intros H. inv_cases; queues_with queue_of3.
Qed.

Ltac queue_of4 v H :=
  lazymatch type of H with
  | process_translation_page_read _ _ _ = Ok _ =>
      apply (process_translation_page_read_queue v) in H
  | process_translation_page_write _ _ _ = Ok _ =>
      apply (process_translation_page_write_queue v) in H
  | _ => queue_of3 v H
  end.

Lemma read_lpn_queue {env : femu_env} (victim : option Z) (req : NvmeRequest)
    (st : ssd * Z) (lpn : Z) (st' : ssd * Z) :
  read_lpn req st lpn = Ok st' -> queue_step victim st.1 st'.1.
Proof.
  unfold read_lpn, get_maptbl_ent. destruct st as [s maxlat]. intros H.
  inv_cases; simpl; queues_with queue_of4.
Qed.

Lemma write_lpn_queue {env : femu_env} (victim : option Z) (req : NvmeRequest)
    (st : ssd * Z) (lpn : Z) (st' : ssd * Z) :
  write_lpn req st lpn = Ok st' -> queue_step victim st.1 st'.1.
Proof.
  unfold write_lpn, get_maptbl_ent. destruct st as [s maxlat]. intros H.
  inv_cases; simpl; queues_with queue_of4.
Qed.

Lemma gc_write_page_queue {env : femu_env} (victim : option Z) (s s' : ssd) (p : ppa) :
  gc_write_page s p = Ok s' -> queue_step victim s s'.
Proof. unfold gc_write_page, get_rmap_ent. intros H. inv_cases; queues_with queue_of0. Qed.

Lemma gc_translation_page_write_queue {env : femu_env} (victim : option Z) (s s' : ssd)
    (p : ppa) :
  gc_translation_page_write s p = Ok s' -> queue_step victim s s'.
Proof.
  unfold gc_translation_page_write, get_rmap_ent. intros H. inv_cases; queues_with queue_of0.
Qed.

Ltac queue_of5 v H :=
  lazymatch type of H with
  | gc_write_page _ _ = Ok _ => apply (gc_write_page_queue v) in H
  | gc_translation_page_write _ _ = Ok _ => apply (gc_translation_page_write_queue v) in H
  | _ => queue_of1 v H
  end.

Lemma clean_data_page_queue {env : femu_env} (victim : option Z)
    (st : ssd * list Z * ppa) (pg : Z) (st' : ssd * list Z * ppa) :
  clean_data_page st pg = Ok st' -> queue_step victim st.1.1 st'.1.1.
Proof.
  unfold clean_data_page, get_pg, get_rmap_ent, get_maptbl_ent, get_gtd_ent,
    translation_page_read_no_req.
  destruct st as [[s batch] p]. intros H. inv_cases; simpl; queues_with queue_of5.
Qed.

Lemma clean_trans_page_queue {env : femu_env} (victim : option Z) (st : ssd * ppa)
    (pg : Z) (st' : ssd * ppa) :
  clean_trans_page st pg = Ok st' -> queue_step victim st.1 st'.1.
Proof.
  unfold clean_trans_page, get_pg, get_rmap_ent, get_maptbl_ent.
  destruct st as [s p]. intros H. inv_cases; simpl; queues_with queue_of5.
Qed.

Lemma for_each_queue {A St : Type} (proj : St -> ssd) (victim : option Z)
    (f : St -> A -> result St) (l : list A) (st st' : St) :
  (forall st1 x st2, f st1 x = Ok st2 -> queue_step victim (proj st1) (proj st2)) ->
  for_each f l st = Ok st' -> queue_step victim (proj st) (proj st').
Proof.
  intros Hf. apply (for_each_rel (fun a b => queue_step victim (proj a) (proj b)));
    [ intros; apply queue_step_refl | intros ???; apply queue_step_trans | eauto ].
Qed.

Lemma clean_one_data_block_queue {env : femu_env} (victim : option Z) (s s' : ssd)
    (p p' : ppa) :
  clean_one_data_block s p = Ok (s', p') -> queue_step victim s s'.
Proof.
  unfold clean_one_data_block. intros H. apply bind_Ok in H as ([[s1 b1] p1] & H & E).
  injection E as <- <-.
  exact (for_each_queue (fun st => st.1.1) victim _ _ _ _ (clean_data_page_queue victim) H).
Qed.

Lemma clean_one_trans_block_queue {env : femu_env} (victim : option Z) (s s' : ssd)
    (p p' : ppa) :
  clean_one_trans_block s p = Ok (s', p') -> queue_step victim s s'.
Proof.
  unfold clean_one_trans_block. intros H.
  exact (for_each_queue fst victim _ _ _ _ (clean_trans_page_queue victim) H).
Qed.

Ltac queue_of6 v H :=
  lazymatch type of H with
  | clean_one_data_block _ _ = Ok _ => apply (clean_one_data_block_queue v) in H
  | clean_one_trans_block _ _ = Ok _ => apply (clean_one_trans_block_queue v) in H
  | _ => queue_of0 v H
  end.

Lemma gc_one_block_queue {env : femu_env} (victim : option Z) (v : Z) (st : ssd * ppa)
    (chlun : Z * Z) (st' : ssd * ppa) :
  gc_one_block v st chlun = Ok st' -> queue_step victim st.1 st'.1.
Proof.
  unfold gc_one_block. destruct st as [s p]. intros H.
  inv_cases; simpl; queues_with queue_of6.
Qed.

(** * Garbage collection, again *)

(** ** Garbage collection stores page addresses only *)

Lemma gc_write_page_sec {env : femu_env} (s s' : ssd) (p : ppa) :
  gc_write_page s p = Ok s' -> sec_step s s'.
Proof. unfold gc_write_page, get_rmap_ent. intros H. inv_cases; secs_with sec_of0. Qed.

Lemma gc_translation_page_write_sec {env : femu_env} (s s' : ssd) (p : ppa) :
  gc_translation_page_write s p = Ok s' -> sec_step s s'.
Proof.
  unfold gc_translation_page_write, get_rmap_ent. intros H. inv_cases; secs_with sec_of0.
Qed.

Ltac sec_of5 H :=
  lazymatch type of H with
  | gc_write_page _ _ = Ok _ => apply gc_write_page_sec in H
  | gc_translation_page_write _ _ = Ok _ => apply gc_translation_page_write_sec in H
  | _ => sec_of1 H
  end.

Lemma clean_data_page_sec {env : femu_env} (st : ssd * list Z * ppa) (pg : Z)
    (st' : ssd * list Z * ppa) :
  clean_data_page st pg = Ok st' -> sec_step st.1.1 st'.1.1.
Proof.
  unfold clean_data_page, get_pg, get_rmap_ent, get_maptbl_ent, get_gtd_ent,
    translation_page_read_no_req.
  destruct st as [[s batch] p]. intros H. inv_cases; simpl; secs_with sec_of5.
Qed.

Lemma clean_trans_page_sec {env : femu_env} (st : ssd * ppa) (pg : Z) (st' : ssd * ppa) :
  clean_trans_page st pg = Ok st' -> sec_step st.1 st'.1.
Proof.
  unfold clean_trans_page, get_pg, get_rmap_ent, get_maptbl_ent.
  destruct st as [s p]. intros H. inv_cases; simpl; secs_with sec_of5.
Qed.

Lemma for_each_sec {A St : Type} (proj : St -> ssd) (f : St -> A -> result St) (l : list A)
    (st st' : St) :
  (forall st1 x st2, f st1 x = Ok st2 -> sec_step (proj st1) (proj st2)) ->
  for_each f l st = Ok st' -> sec_step (proj st) (proj st').
Proof.
  intros Hf. apply (for_each_rel (fun a b => sec_step (proj a) (proj b)));
    [ intros; apply sec_step_refl | intros ???; apply sec_step_trans | eauto ].
Qed.

Lemma clean_one_data_block_sec {env : femu_env} (s s' : ssd) (p p' : ppa) :
  clean_one_data_block s p = Ok (s', p') -> sec_step s s'.
Proof.
  unfold clean_one_data_block. intros H. apply bind_Ok in H as ([[s1 b1] p1] & H & E).
  injection E as <- <-.
  exact (for_each_sec (fun st => st.1.1) _ _ _ _ clean_data_page_sec H).
Qed.

Lemma clean_one_trans_block_sec {env : femu_env} (s s' : ssd) (p p' : ppa) :
  clean_one_trans_block s p = Ok (s', p') -> sec_step s s'.
Proof.
  unfold clean_one_trans_block. intros H.
  exact (for_each_sec fst _ _ _ _ clean_trans_page_sec H).
Qed.

Ltac sec_of6 H :=
  lazymatch type of H with
  | clean_one_data_block _ _ = Ok _ => apply clean_one_data_block_sec in H
  | clean_one_trans_block _ _ = Ok _ => apply clean_one_trans_block_sec in H
  | _ => sec_of0 H
  end.

Lemma gc_one_block_sec {env : femu_env} (v : Z) (st : ssd * ppa) (chlun : Z * Z)
    (st' : ssd * ppa) :
  gc_one_block v st chlun = Ok st' -> sec_step st.1 st'.1.
Proof.
  unfold gc_one_block. destruct st as [s p]. intros H. inv_cases; simpl; secs_with sec_of6.
Qed.

Lemma do_gc_sec {env : femu_env} (s s' : ssd) (force : bool) (r : Z) :
  do_gc s force = Ok (r, s') -> sec_step s s'.
Proof.
  unfold do_gc. intros H. apply bind_Ok in H as ([[v|] s1] & Hsel & H).
  - apply bind_Ok in H as (vl & Hvl & H).
    apply bind_Ok in H as ([s2 p2] & Hloop & H). apply bind_Ok in H as (s3 & H3 & H).
    injection H as <- <-.
    apply (for_each_sec fst _ _ _ _ (gc_one_block_sec v)) in Hloop. simpl in Hloop.
    secs_with sec_of0.
  - injection H as <- <-. secs_with sec_of0.
Qed.

(** ** A collection cycle keeps the device consistent *)

Lemma clean_data_page_blk {env : femu_env} (st : ssd * list Z * ppa) (pg : Z)
    (st' : ssd * list Z * ppa) :
  clean_data_page st pg = Ok st' -> g_blk st'.2 = g_blk st.2.
Proof.
  unfold clean_data_page. destruct st as [[s batch] p]. intros H. inv_cases; done.
Qed.

Lemma clean_trans_page_blk {env : femu_env} (st : ssd * ppa) (pg : Z) (st' : ssd * ppa) :
  clean_trans_page st pg = Ok st' -> g_blk st'.2 = g_blk st.2.
Proof. unfold clean_trans_page. destruct st as [s p]. intros H. inv_cases; done. Qed.

Lemma for_each_blk {A St : Type} (proj : St -> ppa) (f : St -> A -> result St) (l : list A)
    (st st' : St) :
  (forall st1 x st2, f st1 x = Ok st2 -> g_blk (proj st2) = g_blk (proj st1)) ->
  for_each f l st = Ok st' -> g_blk (proj st') = g_blk (proj st).
Proof.
  intros Hf. apply (for_each_rel (fun a b => g_blk (proj b) = g_blk (proj a)));
    [ done | intros ??? -> ->; done | eauto ].
Qed.

Lemma gc_one_block_blk {env : femu_env} (v : Z) (st : ssd * ppa) (chlun : Z * Z)
    (st' : ssd * ppa) :
  gc_one_block v st chlun = Ok st' -> g_blk st'.2 = g_blk st.2.
Proof.
  unfold gc_one_block, clean_one_data_block, clean_one_trans_block. destruct st as [s p].
  intros H. inv_cases; simpl;
    repeat match goal with
           | H : for_each clean_data_page _ _ = Ok _ |- _ =>
               apply (for_each_blk snd _ _ _ _ clean_data_page_blk) in H; simpl in H
           | H : for_each clean_trans_page _ _ = Ok _ |- _ =>
               apply (for_each_blk snd _ _ _ _ clean_trans_page_blk) in H; simpl in H
           end; congruence.
Qed.

Lemma do_gc_queue {env : femu_env} (s s' : ssd) (force : bool) (r : Z) :
  queue_ok None None s -> do_gc s force = Ok (r, s') -> queue_ok None None s'.
Proof.
  intros Q H. unfold do_gc in H. apply bind_Ok in H as ([[v|] s1] & Hsel & H).
  2:{ injection H as <- <-. by rewrite (select_victim_line_none _ _ _ Hsel). }
  apply bind_Ok in H as (vl & Hvl & H). apply arr_get_Ok in Hvl.
  apply bind_Ok in H as ([s2 p2] & Hloop & H). apply bind_Ok in H as (s3 & H3 & H).
  injection H as <- <-.
  pose proof (select_victim_line_queue s force v s1 Q Hsel) as Q1.
  pose proof (for_each_queue fst (Some v) _ _ _ _ (gc_one_block_queue (Some v) v) Hloop Q1) as Q2.
  pose proof (for_each_blk snd _ _ _ _ (gc_one_block_blk v) Hloop) as Hb. simpl in Q2, Hb.
  assert (Hv : g_blk p2 = v).
  { rewrite Hb. destruct Q1 as ((_ & _ & _ & G4 & _) & _ & Qidx & _).
    destruct (Qidx v _ (view_line s1 v vl Hvl)) as [Hid Hr]. simpl in Hid, Hr, G4 |- *.
    rewrite Hid. apply Z.mod_small. lia. }
  apply (mark_line_free_queue s2 p2); [by rewrite Hv|exact H3].
Qed.

(** * Consistency from power-on *)

Lemma consistent_ready (s : ssd) : consistent s -> gc_ready s.
Proof. intros (H1 & _ & H3). split; [exact H1|]. by apply queue_ok_victims. Qed.

Lemma consistent_steady (s : ssd) : consistent s -> steady s.
Proof. by intros (H1 & H2 & _). Qed.

Lemma do_gc_result {env : femu_env} (s s' : ssd) (force : bool) (r : Z) :
  do_gc s force = Ok (r, s') -> r = 0 \/ (r = -1 /\ s' = s).
Proof.
  unfold do_gc. intros H. apply bind_Ok in H as ([[v|] s1] & Hsel & H).
  - apply bind_Ok in H as (vl & Hvl & H).
    apply bind_Ok in H as ([s2 p2] & Hloop & H). apply bind_Ok in H as (s3 & H3 & H).
    injection H as <- <-. by left.
  - injection H as <- <-. right. split; [done|]. by apply (select_victim_line_none _ force).
Qed.

Lemma do_gc_consistent {env : femu_env} (s s' : ssd) (force : bool) (r : Z) :
  consistent s -> do_gc s force = Ok (r, s') ->
  consistent s' /\ mapped_preserved s s' /\ sp s' = sp s.
Proof.
  intros Hc H. pose proof (do_gc_sec s s' force r H) as Hsec'.
  split; [|split; [|by destruct Hsec' as [? _]]].
  - destruct (do_gc_result s s' force r H) as [->|[-> ->]]; [|exact Hc].
    destruct (do_gc_inv s s' force (consistent_ready s Hc) H) as [Hinv Hmp].
    destruct Hc as (_ & Hsec & Hq).
    split; [exact Hinv|]. split.
    + by apply (sec_step_ok s).
    + by apply (do_gc_queue s s' force 0).
  - destruct (do_gc_result s s' force r H) as [->|[-> ->]].
    + by destruct (do_gc_inv s s' force (consistent_ready s Hc) H).
    + by apply mapped_preserved_eq.
Qed.

Lemma foreground_gc_consistent {env : femu_env} (fuel : nat) (s s' : ssd) :
  consistent s -> foreground_gc fuel s = Ok s' ->
  consistent s' /\ mapped_preserved s s' /\ sp s' = sp s.
Proof.
  revert s. induction fuel as [|n IH]; intros s Hc H; simpl in H.
  - destruct (should_gc_high s); [done|]. injection H as <-. split; [done|].
    split; [by apply mapped_preserved_eq|done].
  - destruct (should_gc_high s).
    2:{ injection H as <-. split; [done|]. split; [by apply mapped_preserved_eq|done]. }
    apply bind_Ok in H as ([r s1] & Hgc & H).
    destruct (do_gc_consistent s s1 true r Hc Hgc) as (Hc1 & Hm1 & E1).
    case_bool_decide.
    + injection H as <-. done.
    + destruct (IH s1 Hc1 H) as (Hc2 & Hm2 & E2). split; [done|].
      split; [by eapply mapped_preserved_trans|congruence].
Qed.

(** One page of a host write. *)
Lemma write_lpn_consistent {env : femu_env} (req : NvmeRequest) (s s' : ssd)
    (maxlat maxlat' lpn : Z) :
  consistent s -> write_lpn req (s, maxlat) lpn = Ok (s', maxlat') ->
  consistent s' /\ maptbl s' = <[lpn := get_new_page s]> (maptbl s) /\ sp s' = sp s.
Proof.
  intros (Hinv & Hsec & Hq) H.
  destruct (write_lpn_inv req s s' maxlat maxlat' lpn Hinv Hsec H) as [Hinv' Hm].
  pose proof (write_lpn_sec req _ _ lpn H) as Hs. simpl in Hs.
  pose proof (write_lpn_queue None req _ lpn _ H Hq) as Hq'. simpl in Hq'.
  split; [|split; [exact Hm|by destruct Hs as [? _]]].
  split; [exact Hinv'|]. split; [by apply (sec_step_ok s)|exact Hq'].
Qed.

(** One page of a host read. *)
Lemma read_lpn_consistent {env : femu_env} (req : NvmeRequest) (s s' : ssd)
    (maxlat maxlat' lpn : Z) :
  consistent s -> read_lpn req (s, maxlat) lpn = Ok (s', maxlat') -> consistent s'.
Proof.
  intros (Hinv & Hsec & Hq) H.
  destruct (read_lpn_steady req s s' maxlat maxlat' lpn (conj Hinv Hsec) H) as [Hinv' Hsec'].
  pose proof (read_lpn_queue None req _ lpn _ H Hq) as Hq'. simpl in Hq'.
  done.
Qed.

Lemma ssd_read_keeps {env : femu_env} (s s' : ssd) (req : NvmeRequest) (lat : Z) :
  consistent s -> ssd_read s req = Ok (lat, s') -> consistent s'.
Proof.
  intros Hc H. unfold ssd_read in H. apply bind_Ok in H as ([s1 m1] & H & E).
  injection E as <- <-.
  refine (for_each_rel (fun a b : ssd * Z => consistent a.1 -> consistent b.1) (read_lpn req)
            (fun _ h => h) (fun _ _ _ h1 h2 h => h2 (h1 h)) _ (s, 0) (s1, m1) _ H Hc).
  intros [sa ma] lpn [sb mb] _ Hstep Ha. by apply (read_lpn_consistent req sa sb ma mb lpn).
Qed.

Lemma consistent_stored (s : ssd) (lpn : Z) (p : ppa) :
  consistent s -> maptbl s !! lpn = Some p -> mapped_ppa p = true -> stored s lpn.
Proof.
  intros (Hinv & _) Hl Hm. exists p. split; [exact Hl|]. split; [exact Hm|].
  by apply (gc_inv_map_inv1 s Hinv lpn p).
Qed.

Lemma ssd_write_keeps {env : femu_env} (fuel : nat) (s s' : ssd) (req : NvmeRequest)
    (lat : Z) :
  consistent s -> ssd_write fuel s req = Ok (lat, s') ->
  consistent s' /\ mapped_preserved s s' /\ sp s' = sp s /\
  forall lpn, lpn ∈ req_lpns (sp s) req -> stored s' lpn.
Proof.
  intros Hc H. unfold ssd_write in H. apply bind_Ok in H as (s1 & Hgc & H).
  apply bind_Ok in H as ([s2 m2] & Hloop & E). injection E as <- <-.
  destruct (foreground_gc_consistent fuel s s1 Hc Hgc) as (Hc1 & Hm1 & E1).
  pose (P := fun (d : list Z) (st : ssd * Z) =>
               consistent st.1 /\ mapped_preserved s1 st.1 /\ sp st.1 = sp s1 /\
               forall x, x ∈ d -> exists p, maptbl st.1 !! x = Some p /\ mapped_ppa p = true).
  destruct (for_each_acc P (write_lpn req) (req_lpns (sp s1) req) [] (s1, 0) (s2, m2))
    as (d & (Hc2 & Hm2 & E2 & Hd) & Hall); [| |exact Hloop|].
  { split; [exact Hc1|]. split; [by apply mapped_preserved_eq|]. split; [done|].
    intros x Hx. by apply elem_of_nil in Hx. }
  { intros d0 lpn [sa ma] [sb mb] _ (Ha & Hma & Ea & Hda) Hstep. unfold P. simpl in *.
    destruct (write_lpn_consistent req sa sb ma mb lpn Ha Hstep) as (Hb & Hmb & Eb).
    assert (Hnew : mapped_ppa (get_new_page sa) = true) by apply mapped_new_ppa.
    split; [exact Hb|].
    split; [eapply mapped_preserved_trans; [exact Hma|by eapply mapped_preserved_insert]|].
    split; [congruence|]. intros x Hx. rewrite Hmb.
    destruct (decide (lpn = x)) as [->|Hne].
    - exists (get_new_page sa). by rewrite lookup_insert_eq.
    - rewrite lookup_insert_ne by done. apply Hda.
      apply elem_of_cons in Hx as [->|Hx]; done. }
  simpl in *. split; [exact Hc2|]. split; [by eapply mapped_preserved_trans|].
  split; [congruence|]. intros lpn Hl. rewrite <- E1 in Hl.
  destruct (Hd lpn (Hall lpn (or_introl Hl))) as (p & Hp & Hmp).
  by apply (consistent_stored s2 lpn p).
Qed.

Lemma ftl_handle_keeps {env : femu_env} (fuel : nat) (s s' : ssd) (lat lat' : Z)
    (req done : NvmeRequest) :
  consistent s -> ftl_handle fuel (s, lat) req = Ok (s', lat', done) ->
  consistent s' /\ mapped_preserved s s' /\ sp s' = sp s.
Proof.
  intros Hc H. unfold ftl_handle in H. apply bind_Ok in H as ([l1 s1] & Hop & H).
  assert (H1 : consistent s1 /\ mapped_preserved s s1 /\ sp s1 = sp s).
  { repeat case_bool_decide.
    - by destruct (ssd_write_keeps fuel s s1 req l1 Hc Hop) as (? & ? & ? & _).
    - split; [by apply (ssd_read_keeps s s1 req l1)|].
      apply ssd_read_frame in Hop. destruct Hop as (Esp & _ & _ & _ & Hm & _).
      split; [apply mapped_preserved_eq; by apply Hm|exact Esp].
    - injection Hop as <- <-. split; [done|]. split; [by apply mapped_preserved_eq|done].
    - injection Hop as <- <-. split; [done|]. split; [by apply mapped_preserved_eq|done]. }
  destruct H1 as (Hc1 & Hm1 & E1).
  apply bind_Ok in H as (s2 & Hgc & H). injection H as <- <- <-.
  destruct (should_gc s1).
  - apply bind_Ok in Hgc as ([r s3] & Hgc & E). injection E as <-.
    destruct (do_gc_consistent s1 s3 false r Hc1 Hgc) as (Hc3 & Hm3 & E3).
    split; [done|]. split; [by eapply mapped_preserved_trans|congruence].
  - injection Hgc as <-. done.
Qed.

Lemma ftl_thread_keeps {env : femu_env} (fuel : nat) (reqs : list NvmeRequest) (s s' : ssd)
    (lat lat' : Z) (dones : list NvmeRequest) :
  consistent s -> ftl_thread fuel (s, lat) reqs = Ok (s', lat', dones) ->
  consistent s' /\ mapped_preserved s s' /\ sp s' = sp s.
Proof.
  revert s lat dones. induction reqs as [|req reqs IH]; intros s lat dones Hc H; simpl in H.
  - injection H as <- <- <-. split; [done|]. split; [by apply mapped_preserved_eq|done].
  - apply bind_Ok in H as ([[s1 l1] d1] & H1 & H).
    apply bind_Ok in H as ([[s2 l2] d2] & H2 & H). injection H as <- <- <-.
    destruct (ftl_handle_keeps fuel s s1 lat l1 req d1 Hc H1) as (Hc1 & Hm1 & E1).
    destruct (IH s1 l1 d2 Hc1 H2) as (Hc2 & Hm2 & E2).
    split; [done|]. split; [by eapply mapped_preserved_trans|congruence].
Qed.

Lemma pristine_sec_ok (s : ssd) : 0 < secs_per_pg (sp s) -> pristine s -> sec_ok s.
Proof.
  intros Hs (Hm & Hg & _). split; [exact Hs|]. split.
  - intros x p Hx Hp. rewrite (Hm x p Hx) in Hp. done.
  - intros x p Hx Hp. rewrite (Hg x p Hx) in Hp. done.
Qed.

(** The device [ssd_init] builds is consistent, for every geometry that
    [ssd_init_params] can derive with at least two lines. *)
Lemma ssd_init_with_consistent {env : femu_env} (spp : ssdparams) :
  geometry_ok spp -> 2 <= blks_per_pl spp -> 0 < secs_per_pg spp ->
  pgs_per_line spp = pgs_per_blk spp * (luns_per_ch spp * nchs spp) ->
  exists s, ssd_init_with spp = Ok s /\ sp s = spp /\ consistent s /\ pristine s.
Proof.
  intros Hgeo Hn Hsec Hpl.
  destruct (ssd_init_with_ready spp Hgeo Hn) as (s & Hs & Esp & [Hinv Hv] & Hp & _).
  destruct (ssd_init_with_eq spp Hn)
    as (s0 & Hs0 & _ & _ & _ & _ & _ & _ & _ & Elines & Efree & Epq & Ewp & Etwp).
  assert (s0 = s) by congruence. subst s0.
  exists s. split; [exact Hs|]. split; [exact Esp|]. split; [|exact Hp].
  split; [exact Hinv|]. split; [apply pristine_sec_ok; [by rewrite Esp|exact Hp]|].
  assert (Hline : forall x, 0 <= x < blks_per_pl spp ->
            exists l, lines (lm s) !! x = Some l /\ l_vpc l = 0 /\ l_ipc l = 0).
  { intros x Hx. rewrite Elines.
    destruct (decide (x = 1)) as [->|H1]; [rewrite lookup_insert_eq; by eexists|].
    rewrite lookup_insert_ne by done.
    destruct (decide (x = 0)) as [->|H0]; [rewrite lookup_insert_eq; by eexists|].
    rewrite lookup_insert_ne by done.
    rewrite (lookup_tabulate (fun i => mkline i 0 0 0 NONE)).
    rewrite bool_decide_eq_true_2 by lia. by eexists. }
  assert (Hlh : forall x (P : line -> Prop), 0 <= x < blks_per_pl spp ->
            (forall l, l_vpc l = 0 -> l_ipc l = 0 -> P l) -> line_has (view s) x P).
  { intros x P Hx HP. destruct (Hline x Hx) as (l & Hl & Hv0 & Hi0).
    unfold line_has. rewrite (view_line s x l Hl). by apply HP. }
  pose proof Hgeo as (G1 & G2 & _ & _ & G5 & _).
  unfold queue_ok, qinv. simpl sp. rewrite Esp.
  split; [exact Hgeo|]. split; [exact Hpl|].
  split. { by destruct Hinv as (_ & _ & _ & Hli & _). }
  split. { intros x l Hl. simpl in Hl. rewrite lookup_fmap in Hl.
           destruct (lines (lm s) !! x) as [l0|] eqn:E; [|done]. injection Hl as <-.
           rewrite Elines in E. apply init_lines_lookup in E; [|done].
           destruct E as (_ & _ & _ & Hi & _). simpl. lia. }
  assert (Hw : forall b w, 0 <= b < 2 -> w = mkwp (Some b) 0 0 0 b 0 ->
            wp_ok false (view s) w).
  { intros b w Hb ->. unfold wp_ok. simpl. rewrite Esp, Efree.
    split; [done|]. split; [lia|]. split; [lia|]. split; [lia|].
    split; [rewrite elem_of_seqZ; lia|].
    apply Hlh; [lia|]. intros l -> ->. unfold wp_pos. simpl. lia. }
  split; [apply (Hw 0); [lia|exact Ewp]|]. split; [apply (Hw 1); [lia|exact Etwp]|].
  simpl. rewrite Ewp, Etwp, Efree, Epq. simpl.
  split; [done|]. split; [apply NoDup_seqZ|].
  split. { apply Forall_forall. intros x Hx. apply elem_of_seqZ in Hx.
           apply Hlh; [lia|]. intros l -> ->. done. }
  split; [apply NoDup_nil_2|]. apply Forall_nil_2.
Qed.

(** A geometry as [ssd_init_params] derives it, with at least two lines:
    [ssd_init] succeeds, and the device it builds is consistent and pristine,
    with the data write pointer at the start of line 0, the translation
    write pointer at the start of line 1 and the other lines free, in
    order. *)
Theorem ssd_init_with_is_consistent {env : femu_env} (spp : ssdparams) :
  geometry_ok spp -> 2 <= blks_per_pl spp -> 0 < secs_per_pg spp ->
  pgs_per_line spp = pgs_per_blk spp * (luns_per_ch spp * nchs spp) ->
  exists s, ssd_init_with spp = Ok s /\ sp s = spp /\ consistent s /\ pristine s /\
            wp s = mkwp (Some 0) 0 0 0 0 0 /\ twp s = mkwp (Some 1) 0 0 0 1 0 /\
            free_line_list (lm s) = seqZ 2 (blks_per_pl spp - 2) /\
            victim_line_pq (lm s) = [].
Proof.
  intros Hgeo Hn Hsec Hpl.
  destruct (ssd_init_with_consistent spp Hgeo Hn Hsec Hpl) as (s & Hs & Esp & Hc & Hp).
  destruct (ssd_init_with_eq spp Hn)
    as (s0 & Hs0 & _ & _ & _ & _ & _ & _ & _ & _ & Efree & Epq & Ewp & Etwp).
  assert (s0 = s) by congruence. subst s0. exists s.
  exact (conj Hs (conj Esp (conj Hc (conj Hp (conj Ewp (conj Etwp (conj Efree Epq))))))).
Qed.

Lemma ssd_init_with_is_consistent_witness :
  exists s, ssd_init_with (env := small_env) small_params = Ok s /\ sp s = small_params /\
            consistent s /\ pristine s /\
            wp s = mkwp (Some 0) 0 0 0 0 0 /\ twp s = mkwp (Some 1) 0 0 0 1 0 /\
            free_line_list (lm s) = seqZ 2 (blks_per_pl small_params - 2) /\
            victim_line_pq (lm s) = [].
Proof.
  apply (ssd_init_with_is_consistent (env := small_env) small_params).
  - apply (@bool_decide_unpack _ (geometry_ok_dec small_params)). vm_compute. exact I.
  - vm_compute. discriminate.
  - reflexivity.
  - reflexivity.
Defined.

(** [ssd_init], with the parameters of [ssd_init_params], succeeds and builds
    a consistent, pristine device with 254 free lines. *)
Theorem ssd_init_is_consistent {env : femu_env} :
  exists s, ssd_init = Ok s /\ consistent s /\ pristine s /\
            wp s = mkwp (Some 0) 0 0 0 0 0 /\ twp s = mkwp (Some 1) 0 0 0 1 0 /\
            free_line_list (lm s) = seqZ 2 254 /\ victim_line_pq (lm s) = [].
Proof.
  destruct (ssd_init_with_consistent ssd_init_params) as (s & Hs & Esp & Hc & Hp).
  - unfold geometry_ok, ssd_init_params. simpl. lia.
  - simpl. lia.
  - simpl. lia.
  - reflexivity.
  - destruct (ssd_init_with_eq ssd_init_params)
      as (s0 & Hs0 & _ & _ & _ & _ & _ & _ & _ & _ & Efree & Epq & Ewp & Etwp);
      [simpl; lia|].
    assert (s0 = s) by (unfold ssd_init in *; congruence). subst s0. exists s.
    assert (E : blks_per_pl ssd_init_params - 2 = 254) by reflexivity.
    rewrite E in Efree.
    exact (conj Hs (conj Hc (conj Hp (conj Ewp (conj Etwp (conj Efree Epq)))))).
Qed.

(** One page of a host write on a consistent device: the LPN is mapped to
    the page that was under the data write pointer, which is now valid with
    the LPN as its rmap entry; no other entry of the forward map changes;
    the device is consistent again. *)
Theorem write_lpn_stores_page {env : femu_env} (req : NvmeRequest) (s s' : ssd)
    (maxlat maxlat' lpn : Z) :
  consistent s -> write_lpn req (s, maxlat) lpn = Ok (s', maxlat') ->
  consistent s' /\ maptbl s' = <[lpn := get_new_page s]> (maptbl s) /\
  pgs s' !! pg_of (get_new_page s) = Some PG_VALID /\
  rmap s' !! ppa2pgidx (sp s') (get_new_page s) = Some lpn.
Proof.
  intros Hc H. destruct (write_lpn_consistent req s s' maxlat maxlat' lpn Hc H) as (Hc' & Hm & _).
  split; [exact Hc'|]. split; [exact Hm|].
  destruct Hc' as (Hinv & _). apply (gc_inv_map_inv1 s' Hinv lpn).
  - rewrite Hm. by rewrite lookup_insert_eq.
  - apply mapped_new_ppa.
Qed.

Lemma write_lpn_stores_page_witness :
  consistent small_rewritten.1 /\
  maptbl small_rewritten.1 = <[0 := get_new_page small_filled]> (maptbl small_filled) /\
  pgs small_rewritten.1 !! pg_of (get_new_page small_filled) = Some PG_VALID /\
  rmap small_rewritten.1 !! ppa2pgidx (sp small_rewritten.1) (get_new_page small_filled)
  = Some 0.
Proof.
  apply (write_lpn_stores_page (env := small_env) (page_req NVME_CMD_WRITE 0 1 5000)
           small_filled small_rewritten.1 0 small_rewritten.2 0).
  - apply (@bool_decide_unpack _ (consistent_dec small_filled)). vm_compute. exact I.
  - vm_compute. reflexivity.
Defined.

(** A host write on a consistent device, foreground garbage collection
    included: the device is consistent again, every LPN of the request is
    mapped to a valid page whose rmap entry is that LPN, and every LPN that
    was mapped is still mapped. *)
Theorem ssd_write_keeps_consistent {env : femu_env} (fuel : nat) (s s' : ssd)
    (req : NvmeRequest) (lat : Z) :
  consistent s -> ssd_write fuel s req = Ok (lat, s') ->
  consistent s' /\ mapped_preserved s s' /\
  forall lpn, lpn ∈ req_lpns (sp s) req -> stored s' lpn.
Proof.
  intros Hc H. by destruct (ssd_write_keeps fuel s s' req lat Hc H) as (? & ? & _ & ?).
Qed.

Lemma ssd_write_keeps_consistent_witness :
  consistent small_gc_pre /\
  mapped_preserved (force (small_after [page_req NVME_CMD_WRITE 0 4 5000])) small_gc_pre /\
  forall lpn,
    lpn ∈ req_lpns (sp (force (small_after [page_req NVME_CMD_WRITE 0 4 5000])))
                   (page_req NVME_CMD_WRITE 0 1 5000) ->
    stored small_gc_pre lpn.
Proof.
  apply (ssd_write_keeps_consistent (env := small_env) 4
           (force (small_after [page_req NVME_CMD_WRITE 0 4 5000])) small_gc_pre
           (page_req NVME_CMD_WRITE 0 1 5000)
           (force_lat (ssd_write (env := small_env) 4
              (force (small_after [page_req NVME_CMD_WRITE 0 4 5000]))
              (page_req NVME_CMD_WRITE 0 1 5000))).1).
  - apply (@bool_decide_unpack _ (consistent_dec _)). vm_compute. exact I.
  - vm_compute. reflexivity.
Defined.

(** A host read on a consistent device leaves it consistent, whatever the
    CMT evicts and writes back on the way. *)
Theorem ssd_read_keeps_consistent {env : femu_env} (s s' : ssd) (req : NvmeRequest)
    (lat : Z) :
  consistent s -> ssd_read s req = Ok (lat, s') -> consistent s'.
Proof. apply ssd_read_keeps. Qed.

Lemma ssd_read_keeps_consistent_witness :
  consistent (force_lat (ssd_read (env := small_env) small_filled
                           (page_req NVME_CMD_READ 0 6 7000))).2.
Proof.
  apply (ssd_read_keeps_consistent (env := small_env) small_filled _
           (page_req NVME_CMD_READ 0 6 7000)
           (force_lat (ssd_read (env := small_env) small_filled
                         (page_req NVME_CMD_READ 0 6 7000))).1).
  - apply (@bool_decide_unpack _ (consistent_dec small_filled)). vm_compute. exact I.
  - vm_compute. reflexivity.
Defined.

(** A call of [do_gc] on a consistent device: either it returns 0 or it
    returns -1 and has changed nothing; either way the device is consistent
    again, so that cycles can follow one another, and every LPN that was
    mapped is still mapped. *)
Theorem do_gc_keeps_consistent {env : femu_env} (s s' : ssd) (force : bool) (r : Z) :
  consistent s -> do_gc s force = Ok (r, s') ->
  consistent s' /\ mapped_preserved s s' /\ (r = 0 \/ (r = -1 /\ s' = s)).
Proof.
  intros Hc H. destruct (do_gc_consistent s s' force r Hc H) as (Hc' & Hm & _).
  split; [exact Hc'|]. split; [exact Hm|]. by apply (do_gc_result s s' force).
Qed.

Lemma do_gc_keeps_consistent_witness :
  consistent small_gc_post /\ mapped_preserved small_gc_pre small_gc_post /\
  (0 = 0 \/ (0 = -1 /\ small_gc_post = small_gc_pre)).
Proof.
  apply (do_gc_keeps_consistent (env := small_env) small_gc_pre small_gc_post false 0).
  - apply (@bool_decide_unpack _ (consistent_dec small_gc_pre)). vm_compute. exact I.
  - vm_compute. reflexivity.
Defined.

(** The worker, from a consistent device, through any list of requests: the
    device is consistent after the last one, with the same parameters, and
    every LPN that was mapped at the start is still mapped. *)
Theorem ftl_thread_keeps_consistent {env : femu_env} (fuel : nat)
    (reqs : list NvmeRequest) (s s' : ssd) (lat lat' : Z) (dones : list NvmeRequest) :
  consistent s -> ftl_thread fuel (s, lat) reqs = Ok (s', lat', dones) ->
  consistent s' /\ mapped_preserved s s' /\ sp s' = sp s.
Proof. apply ftl_thread_keeps. Qed.

Lemma ftl_thread_keeps_consistent_witness :
  consistent small_run.1.1 /\
  mapped_preserved (force (small_after [page_req NVME_CMD_WRITE 0 4 5000])) small_run.1.1 /\
  sp small_run.1.1 = sp (force (small_after [page_req NVME_CMD_WRITE 0 4 5000])).
Proof.
  apply (ftl_thread_keeps_consistent (env := small_env) 4
           [page_req NVME_CMD_WRITE 0 1 5000; page_req NVME_CMD_WRITE 1 1 6000;
            page_req NVME_CMD_READ 0 4 7000; page_req NVME_CMD_WRITE 2 2 8000]
           (force (small_after [page_req NVME_CMD_WRITE 0 4 5000])) small_run.1.1 400000
           small_run.1.2 (take 4 small_run.2)).
  - apply (@bool_decide_unpack _ (consistent_dec _)). vm_compute. exact I.
  - vm_compute. reflexivity.
Defined.

(** From power-on, after any list of requests the worker has served, the map
    invariants hold in the form garbage collection keeps: every mapped LPN
    addresses a valid page whose rmap entry is the LPN; a page whose rmap
    entry is not [INVALID_LPN] is free or valid and addressed by the forward
    map or the GTD at that entry; line counters are the sums of block
    counters; and no line in the victim queue is free, full or under a write
    pointer. *)
Theorem power_on_run_is_consistent {env : femu_env} (spp : ssdparams) (fuel : nat)
    (reqs : list NvmeRequest) (s0 s' : ssd) (lat lat' : Z) (dones : list NvmeRequest) :
  geometry_ok spp -> 2 <= blks_per_pl spp -> 0 < secs_per_pg spp ->
  pgs_per_line spp = pgs_per_blk spp * (luns_per_ch spp * nchs spp) ->
  ssd_init_with spp = Ok s0 ->
  ftl_thread fuel (s0, lat) reqs = Ok (s', lat', dones) ->
  consistent s' /\ map_inv1 s' /\ map_inv2_erased s' /\ map_inv3 s' /\ victims_ok s'.
Proof.
  intros Hgeo Hn Hsec Hpl H0 H.
  destruct (ssd_init_with_consistent spp Hgeo Hn Hsec Hpl) as (s & Hs & _ & Hc & _).
  assert (s = s0) by congruence. subst s.
  destruct (ftl_thread_keeps fuel reqs s0 s' lat lat' dones Hc H) as (Hc' & _).
  split; [exact Hc'|]. pose proof Hc' as (Hinv & _ & Hq).
  split; [by apply gc_inv_map_inv1|]. split; [by apply gc_inv_map_inv2_erased|].
  split; [by apply gc_inv_map_inv3|by apply queue_ok_victims].
Qed.

Lemma power_on_run_is_consistent_witness :
  consistent small_run.1.1 /\ map_inv1 small_run.1.1 /\ map_inv2_erased small_run.1.1 /\
  map_inv3 small_run.1.1 /\ victims_ok small_run.1.1.
Proof.
  apply (power_on_run_is_consistent (env := small_env) small_params 4 small_reqs small0
           small_run.1.1 0 small_run.1.2 small_run.2).
  - apply (@bool_decide_unpack _ (geometry_ok_dec small_params)). vm_compute. exact I.
  - vm_compute. discriminate.
  - reflexivity.
  - reflexivity.
  - vm_compute. reflexivity.
  - vm_compute. reflexivity.
Defined.

